(* ===== verification/_CoqProject ===== *)
-Q . S2P
Prelude.v
Mem.v
Heap.v
Endian.v
CString.v
CStdlib.v
LinkedList.v
Paging.v
Frames.v
Process.v
Path.v
Disk.v
Ext2.v
Vfs.v
Device.v
Interrupts.v
Keyboard.v
Time.v
Net.v
Pci.v
Nic.v
Ahci.v
Tty.v
Printf.v
Wrappers.v
Stdio.v
Bc.v
Files.v
Elf.v
Shell.v
Console.v
Traps.v
Exec.v
KernelInit.v
DiskAhci.v
Boot.v
