(* ===== verification/Prelude.v ===== *)
(** * BIOS: a verification library for the kernel, its C library and its shell

    The program is a small x86-64 operating system.  A bootloader in assembly
    enters the kernel (src/kernel), which sets up paging and a heap, finds PCI
    devices, drives a SATA disk and a network card, mounts an ext2 file system
    in a tree of mount points and starts a user program, the shell (src/user).
    Kernel and shell share a C library (src/libc) that is compiled twice: for
    the kernel, where a function does its work, and for user programs, where it
    makes a system call.  The models follow the kernel build and, for the
    shell, the user build.

    ** How the code is modelled

    - Memory is a finite map from addresses to bytes (Mem), with the loads and
      stores a compiler emits; structs of the allocator, the lists, the packets,
      the screen and the command structures of the disk lie in it at their
      offsets.  Objects whose layout no code depends on (process control blocks,
      mount points, descriptors) are records in stores keyed by address.
    - Integers are [Z]; every operation of a fixed width is followed by the
      conversion of its C type ([u8] to [u64], [s8] to [s64], below).
    - [None] is what C leaves undefined or the processor refuses: a page fault,
      an access outside an array, a loop out of fuel.  Error codes of the source
      are values.
    - Port programs are computations in the monad [io] (Device), the disk driver
      in a monad of its own (Ahci): the device is a parameter that answers from
      the history of accesses.  Theorems assume of a device what its
      documentation promises, in named predicates ([pic_device], [card],
      [clock], ...), each shown satisfiable by a witness.
    - What the code reads from memory it never wrote (the bytes behind a buffer,
      a fresh block) is an argument: [slack], [behind], [after], [tail], [fresh],
      [junk].

    ** Files

    - Prelude: machine integers, bits, lists, tactics and hint databases.
    - Mem: byte memory; libc/string/mem*.c.
    - Heap: libc/memory (malloc.c, free.c, heap.c).  The abstract heap is a list
      of allocated and free blocks.  A sequence of calls whose break stays
      within the mapped memory refines it up to the first release of a stale
      block: the last block allocated, when it was reused from behind the head
      of the bin, keeps a back pointer that malloc.c, line 85, should have
      cleared, and its release leaves no heap, for any lists of blocks.
    - Endian, CString, CStdlib: libc/endian, libc/string, libc/ctype,
      libc/stdlib.
    - LinkedList: kernel/include/linkedList.h against the class [Allocator],
      with the heap as an instance.
    - Paging: kernel/arch/x86_64/mmu.  All table accesses go through the
      processor's walk, with its pages of 4 KiB, 2 MiB and 1 GiB, and the
      recursive slot, as in the code.
    - Process: kernel/process/process.c and sched.c; Traps: isr.c, system calls,
      exec and exit.
    - Frames, Exec: lemma libraries over Paging, Process and Traps.  Frames says
      which memory the editing of one tree of tables leaves alone; Exec follows
      two trees, the kernel's and a new process's, through exec.
    - KernelInit: boot/init_paging.s, init_heap with its mapping and
      init_kernel_process (process.c), over the bootloader's tables.  The code
      marks the frame of the kernel's PML4 only after frames for tables have been
      handed out; the proofs add the mark first and show that it commutes with
      every step, because a lower frame is free each time.
    - Boot: init_kernel_process, and the mount and exec at the end of
      kernel/kernel.c, over all of these.
    - Path, Disk, Ext2, Vfs, Files: paths, kernel/driver/disk.c and ext2.c,
      kernel/arch/x86_64/vfs.c, libc/file_op.  [FileLayer] (Files) is what file
      descriptors need of the VFS; [vfs_layer] is the VFS as an instance.
    - Elf: kernel/process/elf.c over Files.
    - Device, Interrupts, Keyboard, Time, Pci: ports, pic.c, pit.c, idt.c, io.c,
      scs1.c, libc/time, kernel/driver/pci.c.
    - Net, Nic: kernel/net.  Ahci: kernel/driver/ahci.c, on the physical memory
      of Paging.  DiskAhci: kernel/driver/disk.c on the heap, the page tables and
      the controller, which implements the Disk that the file system uses.
    - Tty, Printf, Stdio: kernel/arch/x86_64/tty.c and libc/stdio; Wrappers: the
      one-line functions of libc and the power-off port.
    - Bc, Shell, Console: user/shell, and the path of a key from the keyboard to
      the shell's line.

    ** What the theorems show

    - Refinement: a trace of malloc and free behaves as an abstract heap with
      disjoint blocks, up to the release of a stale block (see Heap above), which
      destroys the heap; the keyboard ring is a queue; the screen a grid of lines
      with scrolling; line input an editor; the tree of mount points a tree of
      names; the ARP cache a map with expiry; the VFS keeps the promise of the
      file layer.  Each holds where the code keeps it: the screen for texts
      without a backspace in front of which fewer than two cells lie, the ARP
      cache for addresses that do not start with a zero byte, the file layer
      for reads that start on a block boundary or lie inside one sector.
    - Composition: from the bootloader's tables through the kernel's set-up
      (KernelInit), and from the bytes of the drive through ext2, the VFS, the
      descriptors, the ELF loader and the page tables to the first instruction
      of the user program (Boot, Exec); from a request for bytes through heap,
      page flags and controller to the caller's buffer (DiskAhci); from scan
      codes through the keyboard ring, the shell's history and gets_s to the
      line read (Console).
    - Functional behaviour and equivalence: mapping, unmapping and looking up
      pages; block trees of ext2 against the layout on the medium, a definition
      that uses nothing of the driver, on volumes of 1 KiB blocks (for larger
      ones the driver's addresses are wrong, which is a theorem too);
      directories of ext2; what printf prints; what readelf loads; sectors read and written over AHCI.
    - Conditions of the machine: the composition from the bootloader assumes
      that the memory between the allocator's array and the heap is zero at
      boot, since alloc_proc does not clear the frame of a new PML4.
    - Types, invariants, liveness, termination: the descriptor table, distinct
      pids, round robin, the working directory of the shell, delivery of keys,
      termination of the calculator.
    - Round trips and bounds: the frame of a system call, DNS messages, numbers
      and expressions; the receive ring of the card.
    - Errors: theorems that show where the code does not do what it means to,
      each a theorem on the faithful model (freed blocks read again, the last
      byte of a file left out, an address space not restored, ...).

    ** Fuel and bounds

    Fixed arrays end the model where the code would leave them: the page
    allocator's array of one byte for each page below 4 GiB ([mark_page]), the
    working directory of the shell (256 characters), the descriptor table.  The
    memory of the heap is flat: the code has no limit, and the theorems of Heap
    take the end of the mapped memory as a bound on the break.

    Loops over a counter recurse on the number of rounds.  Scans of strings and
    lists take fuel, and their theorems ask for the length plus one (a string),
    the number of chunks (the heap), the number of blocks (a file).  itoa's fuel
    is 66, the digits of 64 bits with sign and terminator.  The calculator's
    fuel is shown to be enough as a function of the length of the line.  Polling
    loops take fuel for the number of answers the device gives before it is
    ready.

    ** Not modelled

    - The bootloader but for the tables of init_paging.s, the entry stubs and the
      switch to user mode: assembly, before or beside the C code.  The frames
      they build are modelled where C reads them.
    - kmain as a whole: Boot leaves out the initialisations of terminal, PCI,
      disks, clock and network card between init_kernel_process and the mount,
      which are modelled in their own files on states of their own.  The drive
      that Boot reads is the one of Disk; DiskAhci relates it to the controller
      for one request.
    - The page allocator's array lies at 0xA00000 to 0xB00000; it is a byte map
      of its own and not part of physical memory, so that a store to these
      addresses by other code would not be seen.
    - Heap blocks outside the components above: the path that exec copies, the
      paths and nodes of the VFS, the buffers of ext2 and readelf and process
      control blocks are values, and their allocation succeeds.
    - The medium of a drive as a state that write commands change: what a write
      does is the bytes its descriptors cover.
    - The TLB: the page walk reads the tables each time, which is what the
      invalidations of the code establish.
    - Listings for debugging (print_heap, print_disks, print_pci_devices, the
      ELF header), which change no state.
    - Structures and constants of elf.h, ahci.h, pci.h and ext2.h that no
      function uses; kheap.c, which is commented out as a whole.
    - Interleaving of an interrupt with the kernel code it interrupts: the
      handlers are whole steps.  The compiler's choice of registers for inline
      assembly. *)

From Stdlib Require Export ZArith Lia.
From stdpp Require Export base list gmap option.

#[global] Open Scope Z_scope.

(** ** Machine integers

    The C integer types of the sources, as the value a conversion to the type
    leaves: [uN] wraps modulo 2^N, [sN] wraps into the two's complement range.
    Every arithmetic operation of the models that the C code performs at a
    fixed width is followed by the conversion of its result type. *)

Definition u8 (x : Z) : Z := x mod 256.
Definition u16 (x : Z) : Z := x mod 65536.
Definition u32 (x : Z) : Z := x mod 4294967296.
Definition u64 (x : Z) : Z := x mod 18446744073709551616.

Definition s8 (x : Z) : Z := (x + 128) mod 256 - 128.
Definition s16 (x : Z) : Z := (x + 32768) mod 65536 - 32768.
Definition s32 (x : Z) : Z := (x + 2147483648) mod 4294967296 - 2147483648.
Definition s64 (x : Z) : Z :=
  (x + 9223372036854775808) mod 18446744073709551616 - 9223372036854775808.

(** [zlia]: linear arithmetic with division and modulus by constants;
    [ulia]: the same after unfolding the conversions above. *)
Ltac zlia := Z.to_euclidean_division_equations; lia.

Ltac unfold_ints :=
  unfold u8, u16, u32, u64, s8, s16, s32, s64 in *.

Ltac ulia := unfold_ints; zlia.

Create HintDb ints.
Create Rewrite HintDb ints.
Create Rewrite HintDb zlen.

Lemma u8_range x : 0 <= u8 x < 256.
Proof. ulia. Qed.

Lemma u16_range x : 0 <= u16 x < 65536.
Proof. ulia. Qed.

Lemma u32_range x : 0 <= u32 x < 4294967296.
Proof. ulia. Qed.

Lemma u64_range x : 0 <= u64 x < 18446744073709551616.
Proof. ulia. Qed.

Lemma u8_small x : 0 <= x < 256 -> u8 x = x.
Proof. ulia. Qed.

Lemma u16_small x : 0 <= x < 65536 -> u16 x = x.
Proof. ulia. Qed.

Lemma u32_small x : 0 <= x < 4294967296 -> u32 x = x.
Proof. ulia. Qed.

Lemma u64_small x : 0 <= x < 18446744073709551616 -> u64 x = x.
Proof. ulia. Qed.

Lemma s32_small x : -2147483648 <= x < 2147483648 -> s32 x = x.
Proof. ulia. Qed.

Lemma s64_small x :
  -9223372036854775808 <= x < 9223372036854775808 -> s64 x = x.
Proof. ulia. Qed.

Lemma u8_idemp x : u8 (u8 x) = u8 x.
Proof. ulia. Qed.

#[export] Hint Resolve u8_range u16_range u32_range u64_range : ints.
#[export] Hint Rewrite u8_idemp : ints.

(** ** Bit-level reasoning

    Two integers are equal when their bits are; [bits_below] reduces the
    question to the bits under a width for non-negative integers of that
    width, and [by_bits w] then runs through them one by one. *)

Lemma testbit_high w x i : 0 <= w -> 0 <= x < 2 ^ w -> w <= i -> Z.testbit x i = false.
Proof.
  intros Hw Hx Hi. rewrite <- (Z.mod_small x (2 ^ w)) by done.
  by apply Z.mod_pow2_bits_high.
Qed.

Lemma bits_below w x y :
  0 <= w -> 0 <= x < 2 ^ w -> 0 <= y < 2 ^ w ->
  (forall i, 0 <= i < w -> Z.testbit x i = Z.testbit y i) -> x = y.
Proof.
  intros Hw Hx Hy H. apply Z.bits_inj'. intros i Hi.
  destruct (Z.lt_ge_cases i w); [by apply H|].
  by rewrite !(testbit_high w).
Qed.

Lemma below_bits w x :
  0 <= w -> (forall i, w <= i -> Z.testbit x i = false) -> 0 <= x < 2 ^ w.
Proof.
  intros Hw H. assert (x = x mod 2 ^ w) as ->.
  { apply Z.bits_inj'. intros i Hi. destruct (Z.lt_ge_cases i w).
    - by rewrite Z.mod_pow2_bits_low.
    - rewrite Z.mod_pow2_bits_high by lia. by apply H. }
  apply Z.mod_pos_bound. lia.
Qed.

Lemma land_below w x y : 0 <= w -> 0 <= y < 2 ^ w -> 0 <= Z.land x y < 2 ^ w.
Proof.
  intros Hw Hy. apply below_bits; [done|]. intros i Hi.
  rewrite Z.land_spec, (testbit_high w y) by done. apply andb_false_r.
Qed.

Lemma lor_below w x y : 0 <= w -> 0 <= x < 2 ^ w -> 0 <= y < 2 ^ w -> 0 <= Z.lor x y < 2 ^ w.
Proof.
  intros Hw Hx Hy. apply below_bits; [done|]. intros i Hi.
  by rewrite Z.lor_spec, !(testbit_high w).
Qed.

(** Disjoint bit fields add up. *)
Lemma lor_add_disjoint x y w :
  0 <= w -> 0 <= x < 2 ^ w -> Z.lor x (Z.shiftl y w) = x + y * 2 ^ w.
Proof.
  intros Hw Hx. rewrite <- Z.shiftl_mul_pow2 by done.
  rewrite <- Z.lxor_lor.
  - symmetry. apply Z.add_nocarry_lxor.
    apply Z.bits_inj'. intros i Hi. rewrite Z.land_spec, Z.bits_0.
    destruct (Z.lt_ge_cases i w).
    + rewrite Z.shiftl_spec_low by lia. by rewrite andb_false_r.
    + by rewrite (testbit_high w).
  - apply Z.bits_inj'. intros i Hi. rewrite Z.land_spec, Z.bits_0.
    destruct (Z.lt_ge_cases i w).
    + rewrite Z.shiftl_spec_low by lia. by rewrite andb_false_r.
    + by rewrite (testbit_high w).
Qed.

Lemma lor_high x y w : 0 <= w -> 0 <= y < 2 ^ w -> Z.lor (Z.shiftl x w) y = x * 2 ^ w + y.
Proof. intros. rewrite Z.lor_comm, lor_add_disjoint by done. lia. Qed.

(** Fields selected by a low mask and by a shift. *)
Lemma land_ones_mod x w : 0 <= w -> Z.land x (2 ^ w - 1) = x mod 2 ^ w.
Proof. intros. rewrite <- Z.land_ones by done. f_equal. rewrite Z.ones_equiv. lia. Qed.

Ltac split_index i :=
  lazymatch goal with
  | H : 0 <= i < 0 |- _ => lia
  | H : 0 <= i < ?w |- _ =>
      let w' := eval vm_compute in (w - 1) in
      destruct (Z.eq_dec i w') as [->|];
      [clear H | assert (0 <= i < w') by lia; clear H; split_index i]
  end.

(** A decidable fact about small numbers, by trying them all. *)
Definition all_below (n : nat) (f : Z -> bool) : bool := forallb (fun i => f (Z.of_nat i)) (seq 0 n).

Lemma all_below_spec n f v : all_below n f = true -> 0 <= v < Z.of_nat n -> f v = true.
Proof.
  intros H Hv. unfold all_below in H. rewrite forallb_forall in H.
  specialize (H (Z.to_nat v)). rewrite Z2Nat.id in H by lia. apply H. apply in_seq. lia.
Qed.

(** ** Lists as C arrays: indexing with a [Z] and a default *)

Definition zlen {A} (l : list A) : Z := Z.of_nat (length l).

Definition nthZ (l : list Z) (i : Z) : Z :=
  if i <? 0 then 0 else default 0 (l !! Z.to_nat i).

Definition updZ (l : list Z) (i v : Z) : list Z :=
  if i <? 0 then l else <[Z.to_nat i := v]> l.

Lemma zlen_app {A} (l k : list A) : zlen (l ++ k) = zlen l + zlen k.
Proof. unfold zlen. rewrite length_app. lia. Qed.

Lemma zlen_nonneg {A} (l : list A) : 0 <= zlen l.
Proof. unfold zlen. lia. Qed.

Lemma zlen_cons {A} (x : A) l : zlen (x :: l) = 1 + zlen l.
Proof. unfold zlen. simpl length. lia. Qed.

Lemma nthZ_lookup l i x : 0 <= i -> l !! Z.to_nat i = Some x -> nthZ l i = x.
Proof. intros Hi Hl. unfold nthZ. destruct (Z.ltb_spec i 0); [lia|]. by rewrite Hl. Qed.

Lemma nthZ_out l i : i < 0 \/ zlen l <= i -> nthZ l i = 0.
Proof.
  intros H. unfold nthZ, zlen in *. destruct (Z.ltb_spec i 0); [done|].
  rewrite lookup_ge_None_2; [done|lia].
Qed.

Lemma nthZ_updZ_eq l i v : 0 <= i < zlen l -> nthZ (updZ l i v) i = v.
Proof.
  unfold nthZ, updZ, zlen. intros H. destruct (Z.ltb_spec i 0); [lia|].
  rewrite list_lookup_insert_eq; [done|lia].
Qed.

Lemma nthZ_updZ_ne l i j v : i <> j -> nthZ (updZ l i v) j = nthZ l j.
Proof.
  unfold nthZ, updZ. intros H.
  destruct (Z.ltb_spec i 0), (Z.ltb_spec j 0); try done.
  rewrite list_lookup_insert_ne; [done|lia].
Qed.

Lemma zlen_updZ l i v : zlen (updZ l i v) = zlen l.
Proof. unfold updZ, zlen. destruct (i <? 0); [done|]. by rewrite length_insert. Qed.

#[export] Hint Rewrite @zlen_app @zlen_cons zlen_updZ : zlen.
#[export] Hint Resolve zlen_nonneg : core.
