(* ===== verification/Mem.v ===== *)
(** * Mem: byte memory, little-endian accesses and the libc memory routines

    The machine's memory as a finite map from addresses to bytes, the scalar
    loads and stores an x86-64 compiler emits for 1-, 2-, 4- and 8-byte
    objects, and the routines of libc/string/mem*.c over it.  An address the
    map does not mention reads as 0; a map with arbitrary content therefore
    stands for any initial content of the addresses a run touches. *)

From S2P Require Import Prelude.

Abbreviation mem := (gmap Z Z).

(** ** Bytes *)

Definition mread (m : mem) (a : Z) : Z := u8 (default 0 (m !! a)).

Definition mwrite (m : mem) (a v : Z) : mem := <[a := u8 v]> m.

Lemma mread_range m a : 0 <= mread m a < 256.
Proof. apply u8_range. Qed.

Lemma mread_mwrite_eq m a v : mread (mwrite m a v) a = u8 v.
Proof. unfold mread, mwrite. rewrite lookup_insert_eq. simpl. apply u8_idemp. Qed.

Lemma mread_mwrite_ne m a b v : a <> b -> mread (mwrite m a v) b = mread m b.
Proof. intros H. unfold mread, mwrite. by rewrite lookup_insert_ne. Qed.

Lemma mread_mwrite m a b v :
  mread (mwrite m a v) b = if decide (a = b) then u8 v else mread m b.
Proof. case_decide; [subst; apply mread_mwrite_eq|by apply mread_mwrite_ne]. Qed.

#[export] Hint Resolve mread_range : ints.

(** ** Memories that agree on every byte

    Two maps may differ (an absent cell and a stored 0) and still be the same
    memory for every load; the operations respect this equivalence. *)

Definition meq (m1 m2 : mem) : Prop := forall a, mread m1 a = mread m2 a.

Infix "≡m" := meq (at level 70).

#[export] Instance meq_equivalence : Equivalence meq.
Proof. split; [by intros m a | by intros m1 m2 H a | by intros m1 m2 m3 H1 H2 a; rewrite H1]. Qed.

#[export] Instance mread_proper : Proper (meq ==> eq ==> eq) mread.
Proof. by intros m1 m2 H a ? <-. Qed.

#[export] Instance mwrite_proper : Proper (meq ==> eq ==> eq ==> meq) mwrite.
Proof. intros m1 m2 H a ? <- v ? <- b. rewrite !mread_mwrite. by case_decide. Qed.

(** ** Little-endian scalars of [n] bytes *)

Fixpoint load (n : nat) (m : mem) (a : Z) : Z :=
  match n with
  | O => 0
  | S k => mread m a + 256 * load k m (a + 1)
  end.

Fixpoint store (n : nat) (m : mem) (a v : Z) : mem :=
  match n with
  | O => m
  | S k => store k (mwrite m a v) (a + 1) (v / 256)
  end.

Abbreviation ld16 := (load 2).
Abbreviation ld32 := (load 4).
Abbreviation ld64 := (load 8).
Abbreviation st16 := (store 2).
Abbreviation st32 := (store 4).
Abbreviation st64 := (store 8).

Lemma load_range n m a : 0 <= load n m a < 256 ^ Z.of_nat n.
Proof.
  revert a. induction n as [|n IH]; intros a; [simpl; lia|].
  rewrite Nat2Z.inj_succ, Z.pow_succ_r by lia. cbn [load].
  pose proof (mread_range m a). specialize (IH (a + 1)). nia.
Qed.

Lemma ld64_range m a : 0 <= ld64 m a < 18446744073709551616.
Proof. apply (load_range 8). Qed.

Lemma ld32_range m a : 0 <= ld32 m a < 4294967296.
Proof. apply (load_range 4). Qed.

Lemma ld16_range m a : 0 <= ld16 m a < 65536.
Proof. apply (load_range 2). Qed.

#[export] Hint Resolve ld64_range ld32_range ld16_range : ints.

Lemma load_ext n m1 m2 a :
  (forall b, a <= b < a + Z.of_nat n -> mread m1 b = mread m2 b) -> load n m1 a = load n m2 a.
Proof.
  revert a. induction n as [|n IH]; intros a H; [done|]. cbn [load].
  rewrite H by lia. rewrite (IH (a + 1)); [done|]. intros b Hb. apply H. lia.
Qed.

#[export] Instance load_proper n : Proper (meq ==> eq ==> eq) (load n).
Proof. intros m1 m2 H a ? <-. apply load_ext. intros b _. apply H. Qed.

Lemma mread_store_out n m a v b :
  b < a \/ a + Z.of_nat n <= b -> mread (store n m a v) b = mread m b.
Proof.
  revert m a v. induction n as [|n IH]; intros m a v H; [done|]. cbn [store].
  rewrite IH by lia. apply mread_mwrite_ne. lia.
Qed.

Lemma load_store_out n k m a v b :
  b + Z.of_nat k <= a \/ a + Z.of_nat n <= b -> load k (store n m a v) b = load k m b.
Proof. intros H. apply load_ext. intros c Hc. apply mread_store_out. lia. Qed.

Lemma load_store_same n m a v : load n (store n m a v) a = v mod 256 ^ Z.of_nat n.
Proof.
  revert m a v. induction n as [|n IH]; intros m a v; [simpl; by rewrite Z.mod_1_r|].
  cbn [load store]. rewrite IH, mread_store_out by lia. rewrite mread_mwrite_eq.
  unfold u8. rewrite Nat2Z.inj_succ, Z.pow_succ_r by lia.
  rewrite Z.rem_mul_r by lia. done.
Qed.

Lemma ld64_st64 m a v : ld64 (st64 m a v) a = u64 v.
Proof. apply (load_store_same 8). Qed.

Lemma ld32_st32 m a v : ld32 (st32 m a v) a = u32 v.
Proof. apply (load_store_same 4). Qed.

Lemma ld16_st16 m a v : ld16 (st16 m a v) a = u16 v.
Proof. apply (load_store_same 2). Qed.

(** ** Byte ranges *)

Fixpoint mbytes (m : mem) (a : Z) (n : nat) : list Z :=
  match n with
  | O => []
  | S k => mread m a :: mbytes m (a + 1) k
  end.

Fixpoint mputs (m : mem) (a : Z) (l : list Z) : mem :=
  match l with
  | [] => m
  | b :: l => mputs (mwrite m a b) (a + 1) l
  end.

Lemma length_mbytes m a n : length (mbytes m a n) = n.
Proof. revert a. induction n as [|n IH]; intros a; simpl; [done|by rewrite IH]. Qed.

Lemma lookup_mbytes m a n i :
  (i < n)%nat -> mbytes m a n !! i = Some (mread m (a + Z.of_nat i)).
Proof.
  revert a i. induction n as [|n IH]; intros a i Hi; [lia|].
  destruct i as [|i]; simpl; [by rewrite Z.add_0_r|].
  rewrite IH by lia. f_equal. f_equal. lia.
Qed.

Lemma mbytes_ext m1 m2 a n :
  (forall b, a <= b < a + Z.of_nat n -> mread m1 b = mread m2 b) -> mbytes m1 a n = mbytes m2 a n.
Proof.
  revert a. induction n as [|n IH]; intros a H; [done|]. simpl. rewrite H by lia.
  f_equal. apply IH. intros b Hb. apply H. lia.
Qed.

Lemma mputs_app m a l k : mputs m a (l ++ k) = mputs (mputs m a l) (a + zlen l) k.
Proof.
  revert m a. induction l as [|x l IH]; intros m a; cbn [app mputs]; [by rewrite Z.add_0_r|]. rewrite IH, zlen_cons. f_equal. lia.
Qed.

Lemma mread_mputs_out m a l b : b < a \/ a + zlen l <= b -> mread (mputs m a l) b = mread m b.
Proof.
  revert m a. induction l as [|x l IH]; intros m a H; [done|]. rewrite zlen_cons in H. simpl.
  pose proof (zlen_nonneg l). rewrite IH by lia. apply mread_mwrite_ne. lia.
Qed.

Lemma mread_mputs_in m a l i x :
  l !! i = Some x -> mread (mputs m a l) (a + Z.of_nat i) = u8 x.
Proof.
  revert m a i. induction l as [|y l IH]; intros m a i H; [done|].
  destruct i as [|i]; simplify_eq/=.
  - rewrite mread_mputs_out by lia. rewrite Z.add_0_r. apply mread_mwrite_eq.
  - replace (a + Z.of_nat (S i)) with (a + 1 + Z.of_nat i) by lia. by apply IH.
Qed.

(** The value of a little-endian byte string, and the bytes of a value. *)
Fixpoint le_list (bs : list Z) : Z :=
  match bs with [] => 0 | b :: bs => b + 256 * le_list bs end.

Fixpoint le_bytes (n : nat) (v : Z) : list Z :=
  match n with O => [] | S n => v mod 256 :: le_bytes n (v / 256) end.

Lemma le_list_le_bytes n v rest : 0 <= v < 256 ^ Z.of_nat n -> le_list (take n (le_bytes n v ++ rest)) = v.
Proof.
  revert v. induction n as [|n IH]; intros v Hv; [simpl in *; lia|].
  rewrite Nat2Z.inj_succ, Z.pow_succ_r in Hv by lia. cbn [le_bytes app take firstn le_list].
  rewrite IH by (split; [apply Z.div_pos; lia|apply Z.div_lt_upper_bound; lia]).
  pose proof (Z.div_mod v 256). lia.
Qed.

Lemma length_le_bytes n v : length (le_bytes n v) = n.
Proof. revert v. induction n as [|n IH]; intros v; simpl; [done|]. by rewrite IH. Qed.

(** ** libc/string: memcpy, memmove, memset, memcmp

    Each loop is a recursion on the iterations left, with the index the C
    loop counts. *)

Fixpoint memcpy_loop (k : nat) (m : mem) (dst src i : Z) : mem :=
  match k with
  | O => m
  | S k => memcpy_loop k (mwrite m (dst + i) (mread m (src + i))) dst src (i + 1)
  end.

Definition memcpy (m : mem) (dst src size : Z) : mem :=
  memcpy_loop (Z.to_nat size) m dst src 0.

(** The descending loop of memmove: [i] iterations left, copying byte [i-1]. *)
Fixpoint memmove_down (i : nat) (m : mem) (dst src : Z) : mem :=
  match i with
  | O => m
  | S j => memmove_down j (mwrite m (dst + Z.of_nat j) (mread m (src + Z.of_nat j))) dst src
  end.

Definition memmove (m : mem) (dst src size : Z) : mem :=
  if dst <? src then memcpy_loop (Z.to_nat size) m dst src 0
  else memmove_down (Z.to_nat size) m dst src.

Fixpoint memset_loop (k : nat) (m : mem) (buf value i : Z) : mem :=
  match k with
  | O => m
  | S k => memset_loop k (mwrite m (buf + i) (u8 value)) buf value (i + 1)
  end.

Definition memset (m : mem) (buf value size : Z) : mem :=
  memset_loop (Z.to_nat size) m buf value 0.

Fixpoint memcmp_loop (k : nat) (m : mem) (a b i : Z) : Z :=
  match k with
  | O => 0
  | S k =>
      if mread m (a + i) <? mread m (b + i) then -1
      else if mread m (b + i) <? mread m (a + i) then 1
      else memcmp_loop k m a b (i + 1)
  end.

Definition memcmp (m : mem) (a b size : Z) : Z := memcmp_loop (Z.to_nat size) m a b 0.

(** *** Copies *)

Lemma memcpy_loop_out k m dst src i b :
  b < dst + i \/ dst + i + Z.of_nat k <= b -> mread (memcpy_loop k m dst src i) b = mread m b.
Proof.
  revert m i. induction k as [|k IH]; intros m i H; [done|]. cbn [memcpy_loop].
  rewrite IH by lia. apply mread_mwrite_ne. lia.
Qed.

(** Ascending copies are right when no source byte is overwritten before it is
    read: the destination starts below the source, or the ranges are apart. *)
Lemma memcpy_loop_in k m dst src i j :
  dst <= src \/ src + i + Z.of_nat k <= dst + i ->
  i <= j < i + Z.of_nat k ->
  mread (memcpy_loop k m dst src i) (dst + j) = mread m (src + j).
Proof.
  revert m i. induction k as [|k IH]; intros m i Hd Hj; [lia|]. cbn [memcpy_loop].
  destruct (Z.eq_dec i j) as [->|Hij].
  - rewrite memcpy_loop_out by lia. rewrite mread_mwrite_eq. apply u8_idemp.
  - rewrite IH by lia. apply mread_mwrite_ne. lia.
Qed.

Lemma memmove_down_out i m dst src b :
  b < dst \/ dst + Z.of_nat i <= b -> mread (memmove_down i m dst src) b = mread m b.
Proof.
  revert m. induction i as [|i IH]; intros m H; [done|]. cbn [memmove_down].
  rewrite IH by lia. apply mread_mwrite_ne. lia.
Qed.

Lemma memmove_down_in i m dst src j :
  src <= dst -> 0 <= j < Z.of_nat i ->
  mread (memmove_down i m dst src) (dst + j) = mread m (src + j).
Proof.
  revert m. induction i as [|i IH]; intros m Hd Hj; [lia|]. cbn [memmove_down].
  destruct (Z.eq_dec j (Z.of_nat i)) as [->|Hij].
  - rewrite memmove_down_out by lia. rewrite mread_mwrite_eq. apply u8_idemp.
  - rewrite IH by lia. apply mread_mwrite_ne. lia.
Qed.

Lemma memcpy_in m dst src size j :
  dst <= src \/ src + size <= dst -> 0 <= j < size ->
  mread (memcpy m dst src size) (dst + j) = mread m (src + j).
Proof. intros Hd Hj. apply memcpy_loop_in; lia. Qed.

Lemma memcpy_out m dst src size b :
  b < dst \/ dst + size <= b -> mread (memcpy m dst src size) b = mread m b.
Proof.
  intros H. unfold memcpy. destruct (Z.lt_ge_cases size 0).
  - by replace (Z.to_nat size) with O by lia.
  - apply memcpy_loop_out. lia.
Qed.

Lemma memmove_in m dst src size j :
  0 <= j < size -> mread (memmove m dst src size) (dst + j) = mread m (src + j).
Proof.
  intros Hj. unfold memmove. destruct (Z.ltb_spec dst src).
  - apply memcpy_loop_in; lia.
  - apply memmove_down_in; lia.
Qed.

Lemma memmove_out m dst src size b :
  b < dst \/ dst + size <= b -> mread (memmove m dst src size) b = mread m b.
Proof.
  intros H. unfold memmove. destruct (dst <? src); [by apply memcpy_out|].
  destruct (Z.lt_ge_cases size 0).
  - by replace (Z.to_nat size) with O by lia.
  - apply memmove_down_out. lia.
Qed.

(** *** Fills and comparisons *)

Lemma memset_loop_out k m buf v i b :
  b < buf + i \/ buf + i + Z.of_nat k <= b -> mread (memset_loop k m buf v i) b = mread m b.
Proof.
  revert m i. induction k as [|k IH]; intros m i H; [done|]. cbn [memset_loop].
  rewrite IH by lia. apply mread_mwrite_ne. lia.
Qed.

Lemma memset_loop_in k m buf v i b :
  buf + i <= b < buf + i + Z.of_nat k -> mread (memset_loop k m buf v i) b = u8 v.
Proof.
  revert m i. induction k as [|k IH]; intros m i H; [lia|]. cbn [memset_loop].
  destruct (Z.eq_dec b (buf + i)) as [->|].
  - rewrite memset_loop_out by lia. rewrite mread_mwrite_eq. apply u8_idemp.
  - apply IH. lia.
Qed.

Lemma memset_in m buf v size b :
  buf <= b < buf + size -> mread (memset m buf v size) b = u8 v.
Proof. intros H. apply memset_loop_in. lia. Qed.

Lemma memset_out m buf v size b :
  b < buf \/ buf + size <= b -> mread (memset m buf v size) b = mread m b.
Proof.
  intros H. unfold memset. destruct (Z.lt_ge_cases size 0).
  - by replace (Z.to_nat size) with O by lia.
  - apply memset_loop_out. lia.
Qed.

Lemma load_memset_out n m buf v size a :
  a + Z.of_nat n <= buf \/ buf + size <= a -> load n (memset m buf v size) a = load n m a.
Proof. intros H. apply load_ext. intros b Hb. apply memset_out. lia. Qed.

Lemma load_memset_zero n m buf size a :
  buf <= a -> a + Z.of_nat n <= buf + size -> load n (memset m buf 0 size) a = 0.
Proof.
  revert a. induction n as [|n IH]; intros a H1 H2; [done|]. cbn [load].
  rewrite memset_in by lia. rewrite IH by lia. done.
Qed.

Lemma memcmp_loop_zero k m a b i :
  memcmp_loop k m a b i = 0 <->
  (forall j, i <= j < i + Z.of_nat k -> mread m (a + j) = mread m (b + j)).
Proof.
  revert i. induction k as [|k IH]; intros i; cbn [memcmp_loop].
  { split; [intros _ j Hj; lia|done]. }
  destruct (Z.ltb_spec (mread m (a + i)) (mread m (b + i))).
  { split; [done|]. intros H'. specialize (H' i). lia. }
  destruct (Z.ltb_spec (mread m (b + i)) (mread m (a + i))).
  { split; [done|]. intros H'. specialize (H' i). lia. }
  rewrite IH. split; intros H' j Hj.
  - destruct (Z.eq_dec i j) as [->|]; [lia|]. apply H'. lia.
  - apply H'. lia.
Qed.

Lemma memcmp_zero m a b size :
  memcmp m a b size = 0 <-> (forall j, 0 <= j < size -> mread m (a + j) = mread m (b + j)).
Proof.
  unfold memcmp. rewrite memcmp_loop_zero. split; intros H j Hj; apply H; lia.
Qed.

(** ** libc/memory/memory.c: address alignment *)

Definition aalign (addr alignment : Z) : Z :=
  if (alignment =? 0) || (addr mod alignment =? 0) then addr
  else u64 ((addr / alignment + 1) * alignment).

Definition aalign_down (addr alignment : Z) : Z :=
  if (alignment =? 0) || (addr mod alignment =? 0) then addr
  else (addr / alignment) * alignment.

Lemma aalign_spec addr al :
  0 < al -> 0 <= addr -> addr + al <= 18446744073709551616 ->
  addr <= aalign addr al < addr + al /\ (al | aalign addr al).
Proof.
  intros Ha H0 H1. unfold aalign.
  destruct (Z.eqb_spec al 0); [lia|]. simpl.
  pose proof (Z.div_mod addr al ltac:(lia)) as Hdm.
  pose proof (Z.mod_pos_bound addr al Ha) as Hm.
  destruct (Z.eqb_spec (addr mod al) 0) as [Hz|Hz].
  - split; [lia|]. exists (addr / al). lia.
  - rewrite u64_small by nia. split; [nia|]. exists (addr / al + 1). lia.
Qed.

Lemma aalign_down_spec addr al :
  0 < al -> 0 <= addr ->
  aalign_down addr al <= addr < aalign_down addr al + al /\ (al | aalign_down addr al).
Proof.
  intros Ha H0. unfold aalign_down.
  destruct (Z.eqb_spec al 0); [lia|]. simpl.
  pose proof (Z.div_mod addr al ltac:(lia)) as Hdm.
  pose proof (Z.mod_pos_bound addr al Ha) as Hm.
  destruct (Z.eqb_spec (addr mod al) 0) as [Hz|Hz].
  - split; [lia|]. exists (addr / al). lia.
  - split; [nia|]. exists (addr / al). lia.
Qed.

Lemma aalign_fix addr al : 0 < al -> (al | addr) -> aalign addr al = addr.
Proof.
  intros Ha Hd. unfold aalign. apply Z.mod_divide in Hd; [|lia].
  by rewrite Hd, Z.eqb_refl, orb_true_r.
Qed.

(** ** Rewriting automation

    [mem_simp] resolves every load of a store, copy or fill whose position the
    context settles by linear arithmetic. *)

Ltac mem_side := solve [lia | simpl Z.of_nat; lia | simpl; lia].

Ltac mem_simp :=
  repeat first
    [ rewrite ld64_st64 | rewrite ld32_st32 | rewrite ld16_st16
    | rewrite load_store_out by mem_side
    | rewrite load_memset_out by mem_side
    | rewrite load_memset_zero by mem_side
    | rewrite mread_store_out by mem_side
    | rewrite memset_out by mem_side
    | rewrite memset_in by mem_side ].

#[global] Arguments load : simpl never.
#[global] Arguments store : simpl never.
#[global] Arguments memset : simpl never.
#[global] Arguments memcpy : simpl never.
#[global] Arguments memmove : simpl never.
#[global] Arguments Z.mul : simpl never.
#[global] Arguments Z.add : simpl never.
