(* ===== verification/Heap.v ===== *)
(** * Heap: the chunk allocator of libc/memory

    malloc.c, free.c and heap.c in their kernel (libk) build: the heap state
    [malloc_state] sits at [g_heap_malloc_state_base], every chunk starts with
    a 32-byte [malloc_chunk] header, and the allocated and the free chunks are
    two doubly linked lists threaded through the headers. *)

From S2P Require Import Prelude Mem.

(** ** Layout (libc/include/memory.h) *)

Definition HEAP_CHUNK_MIN_SIZE_BYTES : Z := 64.

(** A chunk header as a value: what [new_mchunk = *cur] copies. *)
Record malloc_chunk := MChunk {
  mchunk_prev_size : Z;  (* uint32_t *)
  mchunk_size : Z;       (* uint32_t *)
  fd : Z;                (* struct malloc_chunk* *)
  bk : Z;                (* struct malloc_chunk* *)
  data : Z;              (* void* *)
}.

Definition sizeof_malloc_chunk : Z := 32.

(** Packed offsets of the chunk header. *)
Definition o_mchunk_prev_size : Z := 0.
Definition o_mchunk_size : Z := 4.
Definition o_fd : Z := 8.
Definition o_bk : Z := 16.
Definition o_data : Z := 24.

(** Packed offsets of malloc_state. *)
Definition o_heap_base : Z := 0.
Definition o_heap_end : Z := 8.
Definition o_heap_total_size : Z := 16.
Definition o_mchunk : Z := 24.
Definition o_unsorted_bin_head : Z := 32.
Definition o_padding : Z := 40.
Definition MALLOC_STATE_PADDING_SIZE : Z := HEAP_CHUNK_MIN_SIZE_BYTES - (2 * 8 + 8 + 8 * 2).
Definition sizeof_malloc_state : Z := 64.

Definition read_chunk (m : mem) (a : Z) : malloc_chunk :=
  MChunk (ld32 m (a + o_mchunk_prev_size)) (ld32 m (a + o_mchunk_size))
         (ld64 m (a + o_fd)) (ld64 m (a + o_bk)) (ld64 m (a + o_data)).

(** memcpy of a header image to memory. *)
Definition write_chunk (m : mem) (a : Z) (c : malloc_chunk) : mem :=
  let m := st32 m (a + o_mchunk_prev_size) (mchunk_prev_size c) in
  let m := st32 m (a + o_mchunk_size) (mchunk_size c) in
  let m := st64 m (a + o_fd) (fd c) in
  let m := st64 m (a + o_bk) (bk c) in
  st64 m (a + o_data) (data c).

(** ** heap.c *)

Definition brk (base : Z) (m : mem) (end_data_segment : Z) : mem :=
  st64 m (base + o_heap_end) end_data_segment.

(** Returns the old break. *)
Definition sbrk (base : Z) (m : mem) (increment : Z) : mem * Z :=
  let old_break := ld64 m (base + o_heap_end) in
  let m := st64 m (base + o_heap_end)
             (u64 (old_break + aalign increment HEAP_CHUNK_MIN_SIZE_BYTES)) in
  (m, old_break).

(** The state image is built in a local and copied out; [heap_end] of the
    local is indeterminate until [brk] sets it and reads as the argument [junk].
    The mapping of the heap's pages ([map]) is the paging component's. *)
Definition init_heap (m : mem) (junk base_addr size : Z) : mem * Z :=
  let g_heap_malloc_state_base := aalign base_addr HEAP_CHUNK_MIN_SIZE_BYTES in
  let b := g_heap_malloc_state_base in
  let m := st64 m (b + o_heap_base) b in
  let m := st64 m (b + o_heap_end) junk in
  let m := st64 m (b + o_heap_total_size) (aalign size HEAP_CHUNK_MIN_SIZE_BYTES) in
  let m := st64 m (b + o_mchunk) 0 in
  let m := st64 m (b + o_unsorted_bin_head) 0 in
  let m := memset m (b + o_padding) 0 MALLOC_STATE_PADDING_SIZE in
  let m := brk b m (b + sizeof_malloc_state) in
  (m, b).

(** ** malloc.c *)

(** The first-fit walk of the unsorted bin: [None] when the fuel runs out,
    [Some 0] when the list ends without a fit. *)
Fixpoint find_free (fuel : nat) (m : mem) (cur need : Z) : option Z :=
  if cur =? 0 then Some 0
  else if need <=? ld32 m (cur + o_mchunk_size) then Some cur
  else match fuel with
       | O => None
       | S fuel => find_free fuel m (ld64 m (cur + o_fd)) need
       end.

(** Unlinking [cur] from the list whose head pointer is stored at [headp]. *)
Definition unlink (m : mem) (headp cur : Z) : mem :=
  let m := if negb (ld64 m (cur + o_bk) =? 0)
           then st64 m (ld64 m (cur + o_bk) + o_fd) (ld64 m (cur + o_fd))
           else st64 m headp (ld64 m (cur + o_fd)) in
  if negb (ld64 m (cur + o_fd) =? 0)
  then st64 m (ld64 m (cur + o_fd) + o_bk) (ld64 m (cur + o_bk))
  else m.

(** The memory is flat: an access the machine would answer with a page fault
    goes through here.  The theorems about malloc therefore bound the break by
    the memory the heap has and show that nothing outside it is written. *)
Definition malloc (fuel : nat) (base : Z) (m : mem) (size : Z) : option (mem * Z) :=
  let size := aalign size 16 in
  cur ← find_free fuel m (ld64 m (base + o_unsorted_bin_head)) (u64 (size + sizeof_malloc_chunk));
  let found_free := negb (cur =? 0) in
  let '(m, new_mchunk, new_addr) :=
    if found_free then
      let new_mchunk := read_chunk m cur in
      let m := unlink m (base + o_unsorted_bin_head) cur in
      (m, MChunk 0 (mchunk_size new_mchunk) (fd new_mchunk) (bk new_mchunk) (data new_mchunk), cur)
    else
      let data_size := Z.max (HEAP_CHUNK_MIN_SIZE_BYTES - sizeof_malloc_chunk) size in
      let msize := u32 (sizeof_malloc_chunk + data_size) in
      let '(m, new_addr) := sbrk base m msize in
      (m, MChunk 0 msize 0 0 (new_addr + sizeof_malloc_chunk), new_addr) in
  (* Link at the head of the allocated list *)
  let new_mchunk := MChunk (mchunk_prev_size new_mchunk) (mchunk_size new_mchunk)
                      (ld64 m (base + o_mchunk)) 0 (data new_mchunk) in
  let m := if negb (fd new_mchunk =? 0) then st64 m (fd new_mchunk + o_bk) new_addr else m in
  let m := st64 m (base + o_mchunk) new_addr in
  let m := if negb found_free then write_chunk m new_addr new_mchunk else m in
  let m := memset m (data new_mchunk) 0 (u64 (mchunk_size new_mchunk - sizeof_malloc_chunk)) in
  let m := st64 m (new_addr + o_fd) (fd new_mchunk) in
  let m := st64 m (new_addr + o_fd) (fd new_mchunk) in
  Some (m, data new_mchunk).

(** ** free.c *)

(** The body of the [if] for the matching chunk. *)
Definition free_chunk (base : Z) (m : mem) (cur : Z) : mem :=
  let m := unlink m (base + o_mchunk) cur in
  let m := st64 m (cur + o_bk) 0 in
  let m := st64 m (cur + o_fd) (ld64 m (base + o_unsorted_bin_head)) in
  let m := if negb (ld64 m (cur + o_fd) =? 0)
           then st64 m (ld64 m (cur + o_fd) + o_bk) cur else m in
  let m := st64 m (base + o_unsorted_bin_head) cur in
  memset m (ld64 m (cur + o_data)) 0 (u64 (ld32 m (cur + o_mchunk_size) - sizeof_malloc_chunk)).

(** [None]: the walk of the allocated list has not ended within the fuel. *)
Fixpoint free_loop (fuel : nat) (base : Z) (m : mem) (cur ptr : Z) : option mem :=
  if cur =? 0 then Some m
  else if ld64 m (cur + o_data) =? ptr then Some (free_chunk base m cur)
  else match fuel with
       | O => None
       | S fuel => free_loop fuel base m (ld64 m (cur + o_fd)) ptr
       end.

Definition free (fuel : nat) (base : Z) (m : mem) (ptr : Z) : option mem :=
  free_loop fuel base m (ld64 m (base + o_mchunk)) ptr.

(** ** Chunk lists in memory

    A block is an address with the chunk size its header records.  [seg m p l n]
    says that the headers of the blocks of [l] are in memory and linked in the
    order of [l], entered from [p] and left towards [n]. *)

Abbreviation block := (Z * Z)%type.

Definition hdr (m : mem) (a sz p n : Z) : Prop :=
  ld32 m (a + o_mchunk_size) = sz /\ ld64 m (a + o_fd) = n /\
  ld64 m (a + o_bk) = p /\ ld64 m (a + o_data) = a + sizeof_malloc_chunk.

Definition head_or (n : Z) (l : list block) : Z :=
  match l with [] => n | (a, _) :: _ => a end.

Fixpoint last_or (p : Z) (l : list block) : Z :=
  match l with [] => p | (a, _) :: l => last_or a l end.

Fixpoint seg (m : mem) (p : Z) (l : list block) (n : Z) : Prop :=
  match l with
  | [] => True
  | (a, sz) :: l => hdr m a sz p (head_or n l) /\ seg m a l n
  end.

(** Blocks that do not overlap. *)
Definition apart2 (x y : block) : Prop := x.1 + x.2 <= y.1 \/ y.1 + y.2 <= x.1.

Fixpoint apart (l : list block) : Prop :=
  match l with
  | [] => True
  | x :: l => Forall (apart2 x) l /\ apart l
  end.

Definition in_heap (base hend : Z) (x : block) : Prop :=
  base + sizeof_malloc_state <= x.1 /\ HEAP_CHUNK_MIN_SIZE_BYTES <= x.2 < 4294967296 /\
  x.1 + x.2 <= hend.

(** The representation invariant: [al] are the allocated and [fr] the free
    chunks of the heap at [base] whose break is [hend].  [st] is the back
    pointer of the first allocated chunk: null, or the chunk that was its
    predecessor in the bin, because malloc never writes the cleared [bk] of a
    chunk it reuses back (malloc.c, lines 64 and 85). *)
Record heap_st (base : Z) (m : mem) (al fr : list block) (hend st : Z) : Prop := HeapOk {
  ho_base : 0 < base;
  ho_end : base + sizeof_malloc_state <= hend < 18446744073709551616;
  ho_brk : ld64 m (base + o_heap_end) = hend;
  ho_mchunk : ld64 m (base + o_mchunk) = head_or 0 al;
  ho_bin : ld64 m (base + o_unsorted_bin_head) = head_or 0 fr;
  ho_al : seg m st al 0;
  ho_fr : seg m 0 fr 0;
  ho_in : Forall (in_heap base hend) (al ++ fr);
  ho_apart : apart (al ++ fr);
  ho_st : st = 0 \/ exists s, (st, s) ∈ al ++ fr;
}.

(** The heap whose lists are right in every link. *)
Definition heap_ok (base : Z) (m : mem) (al fr : list block) (hend : Z) : Prop :=
  heap_st base m al fr hend 0.

Ltac heap_unfold :=
  unfold in_heap, apart2 in *;
  unfold o_mchunk_prev_size, o_mchunk_size, o_fd, o_bk, o_data, o_heap_base,
    o_heap_end, o_heap_total_size, o_mchunk, o_unsorted_bin_head, o_padding,
    sizeof_malloc_chunk, sizeof_malloc_state, HEAP_CHUNK_MIN_SIZE_BYTES,
    MALLOC_STATE_PADDING_SIZE in *; simpl fst in *; simpl snd in *.

Lemma seg_app m p l1 l2 n :
  seg m p (l1 ++ l2) n <-> seg m p l1 (head_or n l2) /\ seg m (last_or p l1) l2 n.
Proof.
  revert p. induction l1 as [|[a sz] l1 IH]; intros p; simpl; [tauto|].
  rewrite IH. destruct l1 as [|[b sb] l1]; simpl; tauto.
Qed.

Lemma last_or_snoc p l x : last_or p (l ++ [x]) = x.1.
Proof. revert p. induction l as [|[a s] l IH]; intros p; [by destruct x|]. simpl. apply IH. Qed.

Lemma head_or_app n l1 l2 : head_or n (l1 ++ l2) = head_or (head_or n l2) l1.
Proof. by destruct l1 as [|[]]. Qed.

Lemma apart_app l1 l2 :
  apart (l1 ++ l2) <-> apart l1 /\ apart l2 /\ (forall x y, x ∈ l1 -> y ∈ l2 -> apart2 x y).
Proof.
  induction l1 as [|x l1 IH]; simpl.
  - split; [intros; split_and!; [done|done|intros ? ? []%elem_of_nil]|tauto].
  - rewrite IH, Forall_app, !list.Forall_forall. split.
    + intros [[H1 H2] (H3 & H4 & H5)]. split_and!; try done.
      intros a b [->|Ha]%elem_of_cons Hb; [by apply H2|by apply H5].
    + intros ([H1 H2] & H3 & H4). split_and!; try done.
      * intros y Hy. apply H4; [by left|done].
      * intros a b Ha Hb. apply H4; [by right|done].
Qed.

Lemma apart2_sym x y : apart2 x y -> apart2 y x.
Proof. unfold apart2. tauto. Qed.

Lemma apart_perm l k : l ≡ₚ k -> apart l -> apart k.
Proof.
  induction 1 as [|x l k P IH|x y l|l k j P1 IH1 P2 IH2]; simpl; try tauto.
  - intros [H1 H2]. split; [|tauto]. rewrite list.Forall_forall in *.
    intros y Hy. apply H1. by rewrite P.
  - rewrite !list.Forall_cons. intros [[H1 H2] [H3 H4]].
    split_and!; try done; by apply apart2_sym.
Qed.

(** A memory that agrees on the headers carries the same segment. *)
Lemma hdr_frame m m' a sz p n :
  (forall b, a <= b < a + 32 -> mread m' b = mread m b) -> hdr m a sz p n -> hdr m' a sz p n.
Proof.
  intros H. unfold hdr. heap_unfold.
  rewrite !(load_ext _ m' m) by (intros b Hb; apply H; lia). done.
Qed.

Lemma seg_frame m m' p l n :
  (forall x, x ∈ l -> forall b, x.1 <= b < x.1 + 32 -> mread m' b = mread m b) ->
  seg m p l n -> seg m' p l n.
Proof.
  revert p. induction l as [|[a sz] l IH]; intros p H; [done|]. simpl. intros [H1 H2]. split.
  - eapply hdr_frame; [|done]. intros b Hb. apply (H (a, sz)); [set_solver|done].
  - apply IH; [|done]. intros x Hx. apply H. set_solver.
Qed.

(** Blocks whose address is a non-null pointer and which hold a header. *)
Definition good (x : block) : Prop := 0 < x.1 < 18446744073709551616 /\ 64 <= x.2.

(** Redirecting the two ends of a segment. *)
Lemma seg_set_next m p l a sz n n' :
  apart (l ++ [(a, sz)]) -> Forall good (l ++ [(a, sz)]) ->
  0 <= n' < 18446744073709551616 ->
  seg m p (l ++ [(a, sz)]) n -> seg (st64 m (a + o_fd) n') p (l ++ [(a, sz)]) n'.
Proof.
  rewrite apart_app, Forall_app, !seg_app. intros (_ & _ & Hap) [Hl Hs] Hn [H1 [H2 _]].
  apply list.Forall_cons in Hs as [[_ Hs] _]. rewrite list.Forall_forall in Hl. split.
  - eapply seg_frame; [|exact H1]. intros x Hx b Hb.
    specialize (Hap x (a, sz) Hx ltac:(by left)). destruct (Hl x Hx). heap_unfold.
    apply mread_store_out. simpl. lia.
  - split; [|done]. revert H2. unfold hdr. simpl. heap_unfold. mem_simp.
    rewrite u64_small by lia. tauto.
Qed.

Lemma seg_set_prev m p p' l a sz n :
  apart ((a, sz) :: l) -> Forall good ((a, sz) :: l) ->
  0 <= p' < 18446744073709551616 ->
  seg m p ((a, sz) :: l) n -> seg (st64 m (a + o_bk) p') p' ((a, sz) :: l) n.
Proof.
  intros [Hap _] [[_ Hs] Hl]%list.Forall_cons Hp [H1 H2]. rewrite list.Forall_forall in Hap, Hl.
  split.
  - revert H1. unfold hdr. heap_unfold. mem_simp. rewrite u64_small by lia. tauto.
  - eapply seg_frame; [|exact H2]. intros x Hx b Hb.
    specialize (Hap x Hx). destruct (Hl x Hx). heap_unfold.
    apply mread_store_out. simpl. lia.
Qed.

(** A pointer cell apart from the headers of a list of blocks. *)
Definition off_headers (c : Z) (l : list block) : Prop :=
  Forall (fun x => c + 8 <= x.1 \/ x.1 + 32 <= c) l.

Lemma seg_store_off m p l n c v :
  off_headers c l -> seg m p l n -> seg (st64 m c v) p l n.
Proof.
  unfold off_headers. rewrite list.Forall_forall. intros H. apply seg_frame.
  intros x Hx b Hb. specialize (H x Hx). apply mread_store_out. simpl. lia.
Qed.

(** The first half of [unlink]: the predecessor, or the list head, skips [a]. *)
Lemma unlink_pred m headp p l1 a sz l2 : p = 0 \/ l1 <> [] ->
  apart (l1 ++ (a, sz) :: l2) -> Forall good (l1 ++ (a, sz) :: l2) ->
  off_headers headp (l1 ++ (a, sz) :: l2) ->
  seg m p (l1 ++ (a, sz) :: l2) 0 -> ld64 m headp = head_or 0 (l1 ++ (a, sz) :: l2) ->
  exists c,
    (if negb (last_or p l1 =? 0) then st64 m (last_or p l1 + o_fd) (head_or 0 l2)
     else st64 m headp (head_or 0 l2)) = st64 m c (head_or 0 l2) /\
    (c = headp \/ exists x, x ∈ l1 /\ c = x.1 + o_fd) /\
    seg (st64 m c (head_or 0 l2)) p l1 (head_or 0 l2) /\
    seg (st64 m c (head_or 0 l2)) (last_or p l1) ((a, sz) :: l2) 0 /\
    ld64 (st64 m c (head_or 0 l2)) headp = head_or 0 (l1 ++ l2).
Proof.
  intros Hp0 Hap Hg Hoff Hseg Hhead.
  assert (0 <= head_or 0 l2 < 18446744073709551616) as Hn.
  { apply Forall_app in Hg as [_ Hg]. apply list.Forall_cons in Hg as [_ Hg].
    destruct l2 as [|[x sx] l2]; simpl; [lia|]. by apply list.Forall_cons in Hg as [[? _] _]; simpl in *; lia. }
  apply Forall_app in Hg as [Hg1 Hg2]. apply Forall_app in Hoff as [Hoff1 Hoff2].
  apply apart_app in Hap as (Hap1 & Hap2 & Hap12). apply seg_app in Hseg as [Hs1 Hs2].
  destruct l1 as [|[q sq] l1 _] using rev_ind.
  - destruct Hp0 as [->|?]; [|done]. exists headp. simpl last_or. rewrite Z.eqb_refl. simpl negb. cbv iota.
    split_and!; [done|by left|done| |].
    + by apply seg_store_off.
    + rewrite ld64_st64. apply u64_small. done.
  - rewrite last_or_snoc in *. simpl fst.
    pose proof Hg1 as Hg1'. apply Forall_app in Hg1' as [_ [[Hq Hsq] _]%list.Forall_cons]. simpl in Hq, Hsq.
    exists (q + o_fd). destruct (Z.eqb_spec q 0); [lia|]. simpl negb. cbv iota.
    split_and!.
    + done.
    + right. exists (q, sq). split; [apply elem_of_app; right; by left|done].
    + by apply seg_set_next with (n := a).
    + eapply seg_frame; [|exact Hs2]. intros x Hx b Hb.
      assert (apart2 (q, sq) x) as Hqx by (apply Hap12; [apply elem_of_app; right; by left|done]).
      rewrite list.Forall_forall in Hg2. destruct (Hg2 x Hx). heap_unfold.
      apply mread_store_out. simpl. lia.
    + apply Forall_app in Hoff1 as [_ [Ho _]%list.Forall_cons]. heap_unfold.
      rewrite load_store_out by mem_side. rewrite Hhead.
      rewrite <- !app_assoc, !head_or_app. done.
Qed.

Lemma unlink_spec m headp p l1 a sz l2 : p = 0 \/ l1 <> [] ->
  apart (l1 ++ (a, sz) :: l2) -> Forall good (l1 ++ (a, sz) :: l2) ->
  off_headers headp (l1 ++ (a, sz) :: l2) ->
  seg m p (l1 ++ (a, sz) :: l2) 0 -> ld64 m headp = head_or 0 (l1 ++ (a, sz) :: l2) ->
  seg (unlink m headp a) p (l1 ++ l2) 0 /\
  ld64 (unlink m headp a) headp = head_or 0 (l1 ++ l2) /\
  (forall b, b < headp \/ headp + 8 <= b ->
    (forall x, x ∈ l1 ++ l2 -> b < x.1 \/ x.1 + 32 <= b) ->
    mread (unlink m headp a) b = mread m b).
Proof.
  intros Hp0 Hap Hg Hoff Hseg Hhead.
  destruct (unlink_pred m headp p l1 a sz l2) as (c & Hc & Hcl & H1 & H2 & H3); try done.
  pose proof Hseg as Hseg'. apply seg_app in Hseg' as [_ [(_ & Hfd & Hbk & _) _]].
  unfold unlink. rewrite Hfd, Hbk, Hc. clear Hc.
  destruct H2 as [(_ & Hfd' & Hbk' & _) H2]. rewrite Hfd', Hbk'.
  set (m1 := st64 m c (head_or 0 l2)) in *.
  apply Forall_app in Hg as [Hg1 [Hga Hg2]%list.Forall_cons].
  apply Forall_app in Hoff as [Hoff1 [_ Hoff2]%list.Forall_cons].
  apply apart_app in Hap as (Hap1 & Hap2 & Hap12).
  assert (forall b, b < headp \/ headp + 8 <= b ->
    (forall x, x ∈ l1 ++ l2 -> b < x.1 \/ x.1 + 32 <= b) -> mread m1 b = mread m b) as Hm1.
  { intros b Hb Hx. apply mread_store_out. destruct Hcl as [->|(x & Hxl & ->)]; [simpl; lia|].
    specialize (Hx x ltac:(apply elem_of_app; by left)). heap_unfold. lia. }
  destruct l2 as [|[n sn] l2]; simpl head_or in *.
  { rewrite Z.eqb_refl. simpl. rewrite app_nil_r in *. done. }
  pose proof Hg2 as Hg2'. apply list.Forall_cons in Hg2' as [[Hn Hsn] _]. simpl in Hn, Hsn.
  destruct (Z.eqb_spec n 0); [lia|]. simpl negb. cbv iota.
  split_and!.
  - apply seg_app. split.
    + eapply seg_store_off; [|exact H1]. apply list.Forall_forall. intros x Hx.
      assert (apart2 x (n, sn)) as Hxn by (apply Hap12; [done|by right; left]).
      rewrite list.Forall_forall in Hg1. destruct (Hg1 x Hx). heap_unfold. lia.
    + destruct Hap2 as [_ Hap2]. eapply seg_set_prev; [done|done| |exact H2].
      rewrite <- Hbk. apply ld64_range.
  - apply list.Forall_cons in Hoff2 as [Ho _]. heap_unfold.
    rewrite load_store_out by mem_side. done.
  - intros b Hb Hx. rewrite mread_store_out; [by apply Hm1|].
    specialize (Hx (n, sn) ltac:(apply elem_of_app; right; by left)). heap_unfold. lia.
Qed.

(** ** The abstract allocator

    What the two lists promise, without the memory: first fit in the free
    list, else a new block at the break; a freed block goes to the head of the
    free list. *)

Record heap_abs := HeapAbs {
  ab_alloc : list block;
  ab_free : list block;
  ab_end : Z;
}.

Fixpoint first_such (f : block -> bool) (l : list block) : option (list block * block * list block) :=
  match l with
  | [] => None
  | x :: l =>
      if f x then Some ([], x, l)
      else '(l1, y, l2) ← first_such f l; Some (x :: l1, y, l2)
  end.

Definition chunk_need (size : Z) : Z := aalign size 16 + sizeof_malloc_chunk.

Definition fits (need : Z) (x : block) : bool := need <=? x.2.

Definition abs_malloc (h : heap_abs) (size : Z) : heap_abs * Z :=
  match first_such (fits (chunk_need size)) (ab_free h) with
  | Some (l1, x, l2) =>
      (HeapAbs (x :: ab_alloc h) (l1 ++ l2) (ab_end h), x.1 + sizeof_malloc_chunk)
  | None =>
      let sz := Z.max HEAP_CHUNK_MIN_SIZE_BYTES (chunk_need size) in
      (HeapAbs ((ab_end h, sz) :: ab_alloc h) (ab_free h)
         (ab_end h + aalign sz HEAP_CHUNK_MIN_SIZE_BYTES),
       ab_end h + sizeof_malloc_chunk)
  end.

Definition abs_free (h : heap_abs) (ptr : Z) : heap_abs :=
  match first_such (fun x => x.1 + sizeof_malloc_chunk =? ptr) (ab_alloc h) with
  | Some (l1, x, l2) => HeapAbs (l1 ++ l2) (x :: ab_free h) (ab_end h)
  | None => h
  end.

Lemma first_such_Some f l l1 x l2 :
  first_such f l = Some (l1, x, l2) -> l = l1 ++ x :: l2 /\ f x = true.
Proof.
  revert l1. induction l as [|y l IH]; intros l1; simpl; [done|].
  destruct (f y) eqn:Hf; [by intros [= <- <- <-]|].
  destruct (first_such f l) as [[[k1 z] k2]|]; [|done]. simpl.
  intros [= <- -> ->]. destruct (IH k1 eq_refl) as [-> ?]. done.
Qed.

(** ** The walks of malloc and free are the list searches *)

Lemma find_free_walk fuel m p fr need :
  Forall good fr -> seg m p fr 0 -> (length fr <= fuel)%nat ->
  find_free fuel m (head_or 0 fr) need =
  Some (match first_such (fits need) fr with Some (_, x, _) => x.1 | None => 0 end).
Proof.
  revert fuel p. induction fr as [|[a sz] fr IH]; intros fuel p Hg Hs Hf; [by destruct fuel|].
  apply list.Forall_cons in Hg as [[Ha _] Hg]. destruct Hs as [(Hsz & Hn & _) Hs]. simpl in *.
  destruct fuel as [|fuel]; [lia|]. cbn [find_free].
  destruct (Z.eqb_spec a 0); [lia|]. rewrite Hsz. unfold fits at 1. simpl snd.
  destruct (need <=? sz); [done|]. rewrite Hn.
  rewrite (IH fuel a) by (done || lia).
  destruct (first_such _ fr) as [[[? ?] ?]|]; done.
Qed.

Lemma free_walk fuel base m p al ptr :
  Forall good al -> seg m p al 0 -> (length al <= fuel)%nat ->
  free_loop fuel base m (head_or 0 al) ptr =
  Some (match first_such (fun x => x.1 + sizeof_malloc_chunk =? ptr) al with
        | Some (_, x, _) => free_chunk base m x.1 | None => m end).
Proof.
  revert fuel p. induction al as [|[a sz] al IH]; intros fuel p Hg Hs Hf; [by destruct fuel|].
  apply list.Forall_cons in Hg as [[Ha _] Hg]. destruct Hs as [(_ & Hn & _ & Hd) Hs]. simpl in *.
  destruct fuel as [|fuel]; [lia|]. cbn [free_loop].
  destruct (Z.eqb_spec a 0); [lia|]. rewrite Hd.
  destruct (a + sizeof_malloc_chunk =? ptr); [done|]. rewrite Hn.
  rewrite (IH fuel a) by (done || lia).
  by destruct (first_such _ al) as [[[? ?] ?]|]; cbn [mbind option_bind].
Qed.

(** ** Consequences of the invariant *)

Lemma in_heap_good base hend x :
  0 < base -> hend < 18446744073709551616 -> in_heap base hend x -> good x.
Proof. intros. unfold good. heap_unfold. lia. Qed.

Lemma heap_ok_good base m al fr hend st : heap_st base m al fr hend st -> Forall good (al ++ fr).
Proof.
  intros H. pose proof (ho_end _ _ _ _ _ _ H). pose proof (ho_base _ _ _ _ _ _ H).
  eapply list.Forall_impl; [apply H|].
  intros x. apply in_heap_good; lia.
Qed.

Lemma in_heap_off base hend l k :
  Forall (in_heap base hend) l -> 0 <= k <= 56 -> off_headers (base + k) l.
Proof. intros H Hk. eapply list.Forall_impl; [exact H|]. intros x ?. heap_unfold. lia. Qed.

Lemma apart_middle (x : block) l1 l2 k :
  apart (l1 ++ x :: l2 ++ k) -> forall y, y ∈ l1 ++ l2 ++ k -> apart2 x y.
Proof.
  intros H y Hy. apply (apart_perm _ (x :: l1 ++ l2 ++ k)) in H; [|solve_Permutation].
  destruct H as [H _]. rewrite list.Forall_forall in H. by apply H.
Qed.

(** A block whose header is complete but for its forward link joins the head of
    the allocated list; [mC] is the memory after the header may have been
    written.  This is the common tail of the two branches of malloc. *)
Definition link_head (m : mem) (base a : Z) : mem :=
  let h := ld64 m (base + o_mchunk) in
  let m := if negb (h =? 0) then st64 m (h + o_bk) a else m in
  st64 m (base + o_mchunk) a.

Lemma link_head_mem m base a b :
  b < base + 24 \/ base + 32 <= b ->
  (let h := ld64 m (base + o_mchunk) in h = 0 \/ b < h \/ h + 32 <= b) ->
  mread (link_head m base a) b = mread m b.
Proof.
  intros H1 H2. unfold link_head. cbv zeta in *. heap_unfold.
  rewrite mread_store_out by mem_side.
  destruct (Z.eqb_spec (ld64 m (base + 24)) 0); simpl negb; cbv iota; [done|].
  apply mread_store_out. simpl. lia.
Qed.

Section Link.
Context (base hend : Z) (m mC : mem) (al fr : list block) (a sz st st1 : Z).

Let h := head_or 0 al.

(** The memory malloc leaves, from the memory [m] in which the block is in no
    list and [mC], the memory after linking and writing the header. *)
Definition link_final (mC : mem) : mem :=
  let m := memset mC (a + sizeof_malloc_chunk) 0 (u64 (sz - sizeof_malloc_chunk)) in
  st64 (st64 m (a + o_fd) (head_or 0 al)) (a + o_fd) (head_or 0 al).

Context (Hbase : 0 < base) (Hend : base + 64 <= hend < 18446744073709551616).
Context (Hbrk : ld64 m (base + o_heap_end) = hend).
Context (Hmch : ld64 m (base + o_mchunk) = h).
Context (Hbin : ld64 m (base + o_unsorted_bin_head) = head_or 0 fr).
Context (Hal : seg m st al 0) (Hfr : seg m 0 fr 0).
Context (Hin : Forall (in_heap base hend) ((a, sz) :: al ++ fr)) (Hap : apart ((a, sz) :: al ++ fr)).
Context (HmC : forall b, b < a \/ a + 32 <= b -> mread mC b = mread (link_head m base a) b).
Context (Hsz : ld32 mC (a + o_mchunk_size) = sz) (Hbk : ld64 mC (a + o_bk) = st1)
  (Hst1 : st1 = 0 \/ exists s, (st1, s) ∈ al ++ fr).
Context (Hdata : ld64 mC (a + o_data) = a + sizeof_malloc_chunk).

Lemma link_in_block : in_heap base hend (a, sz).
Proof. by apply list.Forall_cons in Hin as [? _]. Qed.

Lemma link_in_other x : x ∈ al ++ fr -> in_heap base hend x /\ apart2 (a, sz) x.
Proof.
  apply list.Forall_cons in Hin as [_ Hin']. destruct Hap as [Hap' _].
  rewrite list.Forall_forall in Hin', Hap'. auto.
Qed.

Lemma link_head_range : h = 0 \/ exists s, (h, s) ∈ al.
Proof. unfold h. destruct al as [|[x s] l]; [by left|]. right. exists s. by left. Qed.

Lemma link_final_mem b : b < a \/ a + sz <= b -> mread (link_final mC) b = mread (link_head m base a) b.
Proof.
  intros Hb. pose proof link_in_block. unfold link_final. heap_unfold.
  rewrite u64_small by lia. mem_simp. apply HmC. lia.
Qed.

Lemma link_final_zero b : a + 32 <= b < a + sz -> mread (link_final mC) b = 0.
Proof.
  intros Hb. pose proof link_in_block. unfold link_final. heap_unfold.
  rewrite u64_small by lia. mem_simp. done.
Qed.

(** Nothing outside the heap is written. *)
Lemma link_final_outside b : b < base \/ hend <= b -> mread (link_final mC) b = mread m b.
Proof.
  intros Hb. pose proof link_in_block as Hib. rewrite link_final_mem by (heap_unfold; lia).
  apply link_head_mem; [heap_unfold; lia|]. cbv zeta. rewrite Hmch.
  destruct link_head_range as [->|[s Hs]]; [by left|right].
  destruct (link_in_other (h, s)) as [Hi _]; [apply elem_of_app; by left|]. heap_unfold. lia.
Qed.

(** Bytes of other blocks: the links of the old head may change, no data does. *)
Lemma link_final_data x b :
  x ∈ al ++ fr -> x.1 + 32 <= b < x.1 + x.2 -> mread (link_final mC) b = mread m b.
Proof.
  intros Hx Hb. pose proof link_in_block as Hib. destruct (link_in_other x Hx) as [Hix Hax].
  rewrite link_final_mem by (heap_unfold; lia).
  apply link_head_mem; [heap_unfold; lia|]. cbv zeta. rewrite Hmch.
  destruct link_head_range as [|[s Hs]]; [by left|right].
  destruct (decide (x = (h, s))) as [->|Hne]; [simpl in *; lia|].
  destruct (link_in_other (h, s)) as [Hih _]; [apply elem_of_app; by left|].
  assert (apart2 x (h, s) \/ apart2 (h, s) x) as Hxh; [|heap_unfold; lia].
  destruct Hap as [_ Hap']. clear -Hap' Hx Hs Hne.
  apply elem_of_Permutation in Hx as [k Hk].
  apply (apart_perm _ (x :: k)) in Hap' as [Hf _]; [|done].
  left. rewrite list.Forall_forall in Hf. apply Hf.
  assert ((h, s) ∈ x :: k) as Hin by (rewrite <- Hk; apply elem_of_app; by left).
  apply elem_of_cons in Hin as [Heq|]; [|done]. by rewrite Heq in Hne.
Qed.

Lemma link_seg_al : seg (link_head m base a) a al 0.
Proof.
  pose proof link_in_block as Hib. unfold link_head. rewrite Hmch. fold h.
  apply seg_store_off.
  { apply (in_heap_off _ hend); [|heap_unfold; lia].
    apply list.Forall_cons in Hin as [_ Hin']. by apply Forall_app in Hin' as [? _]. }
  unfold h. destruct al as [|[x s] l]; [done|]. simpl head_or.
  assert (Forall good ((x, s) :: l)) as Hg.
  { apply list.Forall_cons in Hin as [_ Hin']. apply Forall_app in Hin' as [Hin' _].
    eapply list.Forall_impl; [exact Hin'|]. intros y. apply in_heap_good; lia. }
  pose proof Hg as Hg'. apply list.Forall_cons in Hg' as [[Hx _] _]. simpl in Hx.
  destruct (Z.eqb_spec x 0); [lia|]. simpl negb. cbv iota.
  destruct Hap as [_ Hap']. apply apart_app in Hap' as (Hap' & _).
  apply (seg_set_prev m st); [done|done|heap_unfold; lia|done].
Qed.

Lemma link_ok : heap_st base (link_final mC) ((a, sz) :: al) fr hend st1.
Proof.
  pose proof link_in_block as Hib. pose proof link_in_other as Hio.
  assert (forall b, base <= b < base + 64 -> b < base + 24 \/ base + 32 <= b ->
    mread (link_final mC) b = mread m b) as Hst.
  { intros b Hb Hb'. rewrite link_final_mem by (heap_unfold; lia).
    apply link_head_mem; [done|]. cbv zeta. rewrite Hmch.
    destruct link_head_range as [|[s Hs]]; [by left|right].
    destruct (Hio (h, s)) as [Hih _]; [apply elem_of_app; by left|]. heap_unfold. lia. }
  assert (forall x b, x ∈ al ++ fr -> x.1 <= b < x.1 + 32 ->
    mread (link_final mC) b = mread (link_head m base a) b) as Hhd.
  { intros x b Hx Hb. destruct (Hio x Hx). apply link_final_mem. heap_unfold. lia. }
  split; try done.
  - rewrite <- Hbrk. apply load_ext. intros b Hb. apply Hst; heap_unfold; simpl in Hb; lia.
  - simpl head_or. rewrite (load_ext 8 _ (link_head m base a)).
    + unfold link_head. rewrite ld64_st64. apply u64_small. heap_unfold. lia.
    + intros b Hb. apply link_final_mem. heap_unfold. simpl in Hb. lia.
  - rewrite <- Hbin. apply load_ext. intros b Hb. apply Hst; heap_unfold; simpl in Hb; lia.
  - split.
    + unfold hdr, link_final. rewrite u64_small by (heap_unfold; lia).
      revert Hsz Hbk Hdata. heap_unfold. intros. mem_simp. split_and!; try done.
      apply u64_small. fold h. destruct link_head_range as [->|[s Hs]]; [lia|].
      destruct (Hio (h, s)) as [Hih _]; [apply elem_of_app; by left|]. heap_unfold. lia.
    + eapply seg_frame; [|apply link_seg_al]. intros x Hx b Hb.
      apply (Hhd x); [apply elem_of_app; by left|done].
  - eapply seg_frame; [|exact Hfr]. intros x Hx b Hb.
    rewrite (Hhd x); [|apply elem_of_app; by right|done].
    apply link_head_mem.
    + destruct (Hio x) as [Hix _]; [apply elem_of_app; by right|]. heap_unfold. lia.
    + cbv zeta. rewrite Hmch. destruct link_head_range as [|[s Hs]]; [by left|right].
      destruct (Hio (h, s)) as [Hih _]; [apply elem_of_app; by left|].
      destruct (Hio x) as [Hix _]; [apply elem_of_app; by right|].
      destruct Hap as [_ Hap']. apply apart_app in Hap' as (_ & _ & Hap').
      specialize (Hap' _ _ Hs Hx). heap_unfold. lia.
  - destruct Hst1 as [|[s Hs]]; [by left|right; exists s; by right].
Qed.
End Link.

(** ** malloc *)

(** What a successful malloc promises of its result: the invariant with the
    abstract allocator's lists, the block zeroed, the data of the blocks that
    were allocated and all memory outside the heap untouched. *)
Definition malloc_post_st (st : Z) (base : Z) (m m' : mem) (al : list block) (h' : heap_abs) (p size : Z) : Prop :=
  heap_st base m' (ab_alloc h') (ab_free h') (ab_end h') st /\
  (forall b, p <= b < p + size -> mread m' b = 0) /\
  (forall x b, x ∈ al -> x.1 + 32 <= b < x.1 + x.2 -> mread m' b = mread m b) /\
  (forall b, b < base \/ ab_end h' <= b -> mread m' b = mread m b).

Definition malloc_post := malloc_post_st 0.

Lemma aalign16 size :
  0 <= size -> size + 16 <= 18446744073709551616 -> size <= aalign size 16 < size + 16.
Proof. intros. apply (aalign_spec size 16); lia. Qed.

(** The branch that grows the heap: the memory before and after the header of
    the new block is written. *)
Definition fresh_brk (m : mem) (base hend sz : Z) : mem :=
  st64 m (base + o_heap_end) (hend + aalign sz HEAP_CHUNK_MIN_SIZE_BYTES).

Definition fresh_hdr (m : mem) (base hend sz h : Z) : mem :=
  write_chunk (link_head (fresh_brk m base hend sz) base hend) hend
    (MChunk 0 sz h 0 (hend + sizeof_malloc_chunk)).

Lemma malloc_fresh_run fuel base m al fr hend st size sz :
  heap_st base m al fr hend st -> 0 <= size -> size + 16 <= 18446744073709551616 ->
  sz = Z.max HEAP_CHUNK_MIN_SIZE_BYTES (chunk_need size) ->
  sz < 4294967296 - 64 -> hend + sz + 64 < 18446744073709551616 ->
  (length fr <= fuel)%nat -> first_such (fits (chunk_need size)) fr = None ->
  malloc fuel base m size =
    Some (link_final al hend sz (fresh_hdr m base hend sz (head_or 0 al)), hend + 32).
Proof.
  intros H Hs Hsz Hszd Hsz1 Hsz2 Hfuel Hff.
  pose proof (aalign16 size Hs Hsz) as Ha16. pose proof (heap_ok_good _ _ _ _ _ _ H) as Hg.
  apply Forall_app in Hg as [_ Hgf].
  destruct H as [Hb He Hbrk Hmch Hbin Hal Hfr Hin Hap _].
  unfold chunk_need in *. unfold malloc. rewrite Hbin.
  rewrite u64_small by (heap_unfold; lia).
  rewrite (find_free_walk fuel m 0) by done. rewrite Hff. cbn [mbind option_bind].
  rewrite Z.eqb_refl. cbn [negb]. cbv iota beta.
  assert (u32 (sizeof_malloc_chunk +
    Z.max (HEAP_CHUNK_MIN_SIZE_BYTES - sizeof_malloc_chunk) (aalign size 16)) = sz) as ->.
  { rewrite Hszd, u32_small; heap_unfold; lia. }
  assert (64 <= sz) by (heap_unfold; lia).
  pose proof (aalign_spec sz 64 ltac:(lia) ltac:(lia) ltac:(lia)) as [Ha64 _].
  unfold sbrk. rewrite Hbrk. cbv iota beta zeta. cbn [fd data mchunk_size mchunk_prev_size].
  rewrite (u64_small (hend + _)) by (heap_unfold; lia).
  fold (fresh_brk m base hend sz).
  assert (ld64 (fresh_brk m base hend sz) (base + o_mchunk) = head_or 0 al) as Hmch0.
  { rewrite <- Hmch. unfold fresh_brk. heap_unfold. by mem_simp. }
  fold (link_head (fresh_brk m base hend sz) base hend). rewrite Hmch0. reflexivity.
Qed.

Section Fresh.
Context (base : Z) (m : mem) (al fr : list block) (hend sz st : Z).
Context (H : heap_st base m al fr hend st) (Hsz : 64 <= sz < 4294967296 - 64).
Context (Hroom : hend + sz + 64 < 18446744073709551616).

Let hend' := hend + aalign sz HEAP_CHUNK_MIN_SIZE_BYTES.
Let m0 := fresh_brk m base hend sz.
Let mC := fresh_hdr m base hend sz (head_or 0 al).

Lemma fresh_end : hend + sz <= hend' < 18446744073709551616.
Proof.
  pose proof (aalign_spec sz 64 ltac:(lia) ltac:(lia) ltac:(lia)) as [Ha64 _].
  unfold hend'. heap_unfold. lia.
Qed.

Lemma fresh_in : Forall (in_heap base hend') ((hend, sz) :: al ++ fr).
Proof.
  pose proof fresh_end. pose proof (ho_end _ _ _ _ _ _ H). constructor; [heap_unfold; lia|].
  eapply list.Forall_impl; [apply H|]. intros x ?. heap_unfold. lia.
Qed.

Lemma fresh_apart : apart ((hend, sz) :: al ++ fr).
Proof.
  split; [|apply H]. eapply list.Forall_impl; [apply H|]. intros x ?. heap_unfold. lia.
Qed.

Lemma fresh_brk_seg p l : Forall (in_heap base hend) l -> seg m p l 0 -> seg m0 p l 0.
Proof. intros Hl. apply seg_store_off. eapply in_heap_off; [done|heap_unfold; lia]. Qed.

Lemma fresh_hdr_mem b : b < hend \/ hend + 32 <= b -> mread mC b = mread (link_head m0 base hend) b.
Proof.
  intros Hb. unfold mC, fresh_hdr, write_chunk. heap_unfold.
  cbn [mchunk_prev_size mchunk_size fd bk data]. by mem_simp.
Qed.

Lemma fresh_brk_state :
  ld64 m0 (base + o_heap_end) = hend' /\ ld64 m0 (base + o_mchunk) = head_or 0 al /\
  ld64 m0 (base + o_unsorted_bin_head) = head_or 0 fr.
Proof.
  pose proof fresh_end. pose proof (ho_end _ _ _ _ _ _ H). pose proof (ho_base _ _ _ _ _ _ H).
  rewrite <- (ho_mchunk _ _ _ _ _ _ H), <- (ho_bin _ _ _ _ _ _ H).
  unfold m0, fresh_brk. fold hend'. heap_unfold. mem_simp. rewrite u64_small; [done|lia].
Qed.

Lemma fresh_fields :
  ld32 mC (hend + o_mchunk_size) = sz /\ ld64 mC (hend + o_bk) = 0 /\
  ld64 mC (hend + o_data) = hend + sizeof_malloc_chunk.
Proof.
  pose proof (ho_end _ _ _ _ _ _ H). pose proof (ho_base _ _ _ _ _ _ H).
  unfold mC, fresh_hdr, write_chunk. cbn [mchunk_prev_size mchunk_size fd bk data].
  heap_unfold. mem_simp. rewrite u32_small, !u64_small by lia. done.
Qed.

Lemma fresh_post size : size + 32 <= sz ->
  malloc_post_st 0 base m (link_final al hend sz mC) al
    (HeapAbs ((hend, sz) :: al) fr hend') (hend + 32) size.
Proof.
  intros Hs. pose proof fresh_end as He. pose proof fresh_in as Hin'. pose proof fresh_apart as Hap'.
  pose proof fresh_hdr_mem as HmC. destruct fresh_brk_state as (S1 & S2 & S3).
  destruct fresh_fields as (F1 & F2 & F3).
  destruct H as [Hb Hend Hbrk Hmch Hbin Hal Hfr Hin Hap _]. apply Forall_app in Hin as [Hin1 Hin2].
  assert (base + 64 <= hend' < 18446744073709551616) as He' by (heap_unfold; lia).
  pose proof (fresh_brk_seg st al Hin1 Hal) as Hal'. pose proof (fresh_brk_seg 0 fr Hin2 Hfr) as Hfr'.
  split_and!; cbn [ab_alloc ab_free ab_end].
  - apply (link_ok base hend' m0 mC al fr hend sz st 0); try done. by left.
  - intros b Hb'. apply (link_final_zero base hend' mC al fr hend sz); auto. lia.
  - intros x b Hx Hb'. transitivity (mread m0 b).
    + apply (link_final_data base hend' m0 mC al fr hend sz st 0) with (x := x); auto.
      apply elem_of_app. by left.
    + apply mread_store_out. rewrite list.Forall_forall in Hin1. specialize (Hin1 x Hx).
      heap_unfold. simpl. lia.
  - intros b Hb'. transitivity (mread m0 b).
    + apply (link_final_outside base hend' m0 mC al fr hend sz st 0); auto.
    + apply mread_store_out. heap_unfold. simpl. lia.
Qed.
End Fresh.

(** The branch that reuses a chunk of the unsorted bin, wherever it is.  The
    header of the block keeps the [bk] it has in the bin: null at the head of
    the bin alone. *)
Section Reuse.
Context (base : Z) (m : mem) (al l1 l2 : list block) (a sz hend st : Z).
Context (H : heap_st base m al (l1 ++ (a, sz) :: l2) hend st).

Let m0 := unlink m (base + o_unsorted_bin_head) a.

Lemma reuse_in : Forall (in_heap base hend) ((a, sz) :: al ++ l1 ++ l2).
Proof.
  destruct H as [_ _ _ _ _ _ _ Hin _ _]. rewrite !Forall_app, list.Forall_cons in Hin.
  rewrite list.Forall_cons, !Forall_app. tauto.
Qed.

Lemma reuse_apart : apart ((a, sz) :: al ++ l1 ++ l2).
Proof.
  destruct H as [_ _ _ _ _ _ _ _ Hap _]. eapply apart_perm; [|exact Hap]. solve_Permutation.
Qed.

Lemma reuse_unlink :
  seg m0 0 (l1 ++ l2) 0 /\ ld64 m0 (base + o_unsorted_bin_head) = head_or 0 (l1 ++ l2) /\
  (forall b, b < base + 32 \/ base + 40 <= b ->
    (forall x, x ∈ l1 ++ l2 -> b < x.1 \/ x.1 + 32 <= b) -> mread m0 b = mread m b).
Proof.
  pose proof (heap_ok_good _ _ _ _ _ _ H) as Hg. apply Forall_app in Hg as [_ Hg].
  destruct H as [Hb He Hbrk Hmch Hbin Hal Hfr Hin Hap _].
  apply apart_app in Hap as (_ & Hap & _). apply Forall_app in Hin as [_ Hin].
  destruct (unlink_spec m (base + o_unsorted_bin_head) 0 l1 a sz l2) as (U1 & U2 & U3); try done; [by left| |].
  { eapply in_heap_off; [exact Hin|heap_unfold; lia]. }
  split_and!; [done|done|]. intros b ? ?. apply U3; [heap_unfold; lia|done].
Qed.

(** Unlinking reads and writes nothing of the block, of the allocated blocks
    and of the other fields of the heap state. *)
Lemma reuse_keeps b :
  (base <= b < base + 32 \/ a <= b < a + sz \/ exists x, x ∈ al /\ x.1 <= b < x.1 + x.2) ->
  mread m0 b = mread m b.
Proof.
  intros Hb. pose proof reuse_in as Hin. pose proof reuse_apart as [Hap1 Hap2].
  apply list.Forall_cons in Hin as [Hia Hin]. apply apart_app in Hap2 as (_ & _ & Hap2).
  rewrite list.Forall_forall in Hin, Hap1. apply reuse_unlink.
  - destruct Hb as [?|[?|(x & Hx & ?)]]; [lia|heap_unfold; lia|].
    specialize (Hin x ltac:(apply elem_of_app; by left)). heap_unfold. lia.
  - intros y Hy. pose proof (Hin y ltac:(apply elem_of_app; by right)) as Hiy.
    pose proof (Hap1 y ltac:(apply elem_of_app; by right)) as Hay.
    destruct Hb as [?|[?|(x & Hx & ?)]]; [heap_unfold; lia|heap_unfold; lia|].
    specialize (Hap2 x y Hx Hy). heap_unfold. lia.
Qed.

Lemma reuse_seg_al : seg m0 st al 0.
Proof.
  eapply seg_frame; [|apply H]. intros x Hx b Hb. apply reuse_keeps. right; right. exists x.
  split; [done|]. pose proof reuse_in as [_ Hin]%list.Forall_cons.
  rewrite list.Forall_forall in Hin. specialize (Hin x ltac:(apply elem_of_app; by left)).
  heap_unfold. lia.
Qed.

Lemma reuse_hdr : hdr m0 a sz (last_or 0 l1) (head_or 0 l2) /\ hdr (link_head m0 base a) a sz (last_or 0 l1) (head_or 0 l2).
Proof.
  pose proof reuse_in as Hin. pose proof reuse_apart as [Hap _].
  apply list.Forall_cons in Hin as [Hia Hin]. rewrite list.Forall_forall in Hin, Hap.
  assert (hdr m0 a sz (last_or 0 l1) (head_or 0 l2)) as Hh.
  { destruct H as [_ _ _ _ _ _ Hfr _ _ _]. apply seg_app in Hfr as [_ [Hh _]]. eapply hdr_frame; [|exact Hh].
    intros b Hb. apply reuse_keeps. heap_unfold. lia. }
  split; [done|]. eapply hdr_frame; [|exact Hh]. intros b Hb.
  apply link_head_mem; [heap_unfold; lia|]. cbv zeta.
  assert (ld64 m0 (base + o_mchunk) = head_or 0 al) as ->.
  { rewrite <- (ho_mchunk _ _ _ _ _ _ H). apply load_ext. intros c Hc. apply reuse_keeps.
    heap_unfold. simpl in Hc. lia. }
  destruct al as [|[x s] l]; [by left|right]. simpl head_or.
  specialize (Hin (x, s) ltac:(by left)). specialize (Hap (x, s) ltac:(by left)).
  heap_unfold. lia.
Qed.

Lemma reuse_state :
  ld64 m0 (base + o_heap_end) = hend /\ ld64 m0 (base + o_mchunk) = head_or 0 al.
Proof.
  rewrite <- (ho_mchunk _ _ _ _ _ _ H), <- (ho_brk _ _ _ _ _ _ H).
  split; apply load_ext; intros c Hc; apply reuse_keeps; heap_unfold; simpl in Hc; lia.
Qed.

Lemma malloc_reuse_run fuel size :
  0 <= size -> size + 64 <= 18446744073709551616 -> (length (l1 ++ (a, sz) :: l2) <= fuel)%nat ->
  first_such (fits (chunk_need size)) (l1 ++ (a, sz) :: l2) = Some (l1, (a, sz), l2) ->
  malloc fuel base m size = Some (link_final al a sz (link_head m0 base a), a + 32).
Proof.
  intros Hs Hsz Hf Hfit. pose proof (aalign16 size Hs ltac:(lia)) as Ha16.
  pose proof (heap_ok_good _ _ _ _ _ _ H) as Hg. apply Forall_app in Hg as [_ Hg].
  pose proof Hg as Hg'. apply Forall_app in Hg' as [_ [[Ha _] _]%list.Forall_cons]. simpl in Ha.
  destruct reuse_state as [_ S2]. destruct H as [_ _ _ _ Hbin _ Hfr _ _ _].
  pose proof Hfr as Hfr'. apply seg_app in Hfr' as [_ [(R1 & R2 & R3 & R4) _]].
  unfold chunk_need in *. unfold malloc. rewrite Hbin. rewrite u64_small by (heap_unfold; lia).
  rewrite (find_free_walk fuel m 0), Hfit by done. cbn [mbind option_bind fst].
  destruct (Z.eqb_spec a 0); [lia|]. cbn [negb]. cbv iota beta zeta.
  unfold read_chunk. cbn [fd data mchunk_size mchunk_prev_size bk]. rewrite R1, R4. fold m0.
  fold (link_head m0 base a). rewrite S2. reflexivity.
Qed.

(** The predecessor in the bin is a chunk of the heap. *)
Lemma reuse_prev : last_or 0 l1 = 0 \/ exists s, (last_or 0 l1, s) ∈ al ++ l1 ++ l2.
Proof.
  destruct l1 as [|[q sq] l _] using rev_ind; [by left|]. right. exists sq. rewrite last_or_snoc. set_solver.
Qed.

Lemma reuse_post size : size + 32 <= sz ->
  malloc_post_st (last_or 0 l1) base m (link_final al a sz (link_head m0 base a)) al
    (HeapAbs ((a, sz) :: al) (l1 ++ l2) hend) (a + 32) size.
Proof.
  intros Hs. pose proof reuse_in as Hin'. pose proof reuse_apart as Hap'.
  destruct reuse_unlink as (U1 & U2 & _). destruct reuse_state as [S1 S2].
  destruct reuse_hdr as [_ (R1 & R2 & R3 & R4)]. pose proof reuse_seg_al as Hal'.
  pose proof (ho_base _ _ _ _ _ _ H). pose proof (ho_end _ _ _ _ _ _ H) as He.
  assert (base + 64 <= hend < 18446744073709551616) as He' by (heap_unfold; lia).
  split_and!; cbn [ab_alloc ab_free ab_end].
  - apply (link_ok base hend m0 (link_head m0 base a) al (l1 ++ l2) a sz st (last_or 0 l1)); try done.
    apply reuse_prev.
  - intros b Hb'. apply (link_final_zero base hend _ al (l1 ++ l2) a sz); auto. lia.
  - intros x b Hx Hb'. transitivity (mread m0 b).
    + apply (link_final_data base hend m0 _ al (l1 ++ l2) a sz st (last_or 0 l1)) with (x := x); auto; [apply reuse_prev|].
      apply elem_of_app. by left.
    + apply reuse_keeps. right; right. exists x. split; [done|lia].
  - intros b Hb'. transitivity (mread m0 b).
    + apply (link_final_outside base hend m0 (link_head m0 base a) al (l1 ++ l2) a sz st (last_or 0 l1)); auto. apply reuse_prev.
    + apply reuse_unlink; [heap_unfold; lia|]. intros x Hx. apply list.Forall_cons in Hin' as [_ Hin'].
      rewrite list.Forall_forall in Hin'. specialize (Hin' x ltac:(apply elem_of_app; by right)). heap_unfold. lia.
Qed.
End Reuse.

(** ** free *)

(** What free of a known pointer promises: the invariant with the block at the
    head of the free list, the block zeroed, other blocks' data and all memory
    outside the heap untouched. *)
Definition free_post_st (st : Z) (base : Z) (m m' : mem) (al : list block) (h' : heap_abs) (x : block) : Prop :=
  heap_st base m' (ab_alloc h') (ab_free h') (ab_end h') st /\
  (forall b, x.1 + 32 <= b < x.1 + x.2 -> mread m' b = 0) /\
  (forall y b, y ∈ al -> y <> x -> y.1 + 32 <= b < y.1 + y.2 -> mread m' b = mread m b) /\
  (forall b, b < base \/ ab_end h' <= b -> mread m' b = mread m b).

Definition free_post := free_post_st 0.

(** Any block but a first one whose back pointer is stale. *)
Section Free.
Context (base : Z) (m : mem) (l1 l2 fr : list block) (a sz hend st : Z).
Context (H : heap_st base m (l1 ++ (a, sz) :: l2) fr hend st) (Hst : st = 0 \/ l1 <> []).

Let m1 := unlink m (base + o_mchunk) a.
Let m2 := st64 (st64 m1 (a + o_bk) 0) (a + o_fd) (head_or 0 fr).
Let m3 := if negb (head_or 0 fr =? 0) then st64 m2 (head_or 0 fr + o_bk) a else m2.
Let m4 := st64 m3 (base + o_unsorted_bin_head) a.

Lemma free_in : Forall (in_heap base hend) ((a, sz) :: (l1 ++ l2) ++ fr).
Proof.
  destruct H as [_ _ _ _ _ _ _ Hin _ _]. rewrite !Forall_app, list.Forall_cons in Hin.
  rewrite list.Forall_cons, !Forall_app. tauto.
Qed.

Lemma free_apart : apart ((a, sz) :: (l1 ++ l2) ++ fr).
Proof.
  destruct H as [_ _ _ _ _ _ _ _ Hap _]. eapply apart_perm; [|exact Hap]. solve_Permutation.
Qed.

Lemma free_in_other x :
  x ∈ (l1 ++ l2) ++ fr -> in_heap base hend x /\ apart2 (a, sz) x.
Proof.
  intros Hx. pose proof free_in as [_ Hin]%list.Forall_cons. destruct free_apart as [Hap _].
  rewrite list.Forall_forall in Hin, Hap. auto.
Qed.

Lemma free_in_block : in_heap base hend (a, sz).
Proof. by pose proof free_in as [? _]%list.Forall_cons. Qed.

Lemma free_unlink :
  seg m1 st (l1 ++ l2) 0 /\ ld64 m1 (base + o_mchunk) = head_or 0 (l1 ++ l2) /\
  (forall b, b < base + 24 \/ base + 32 <= b ->
    (forall x, x ∈ l1 ++ l2 -> b < x.1 \/ x.1 + 32 <= b) -> mread m1 b = mread m b).
Proof.
  pose proof (heap_ok_good _ _ _ _ _ _ H) as Hg. apply Forall_app in Hg as [Hg _].
  destruct H as [Hb He Hbrk Hmch Hbin Hal Hfr Hin Hap _].
  apply apart_app in Hap as (Hap & _). apply Forall_app in Hin as [Hin _].
  destruct (unlink_spec m (base + o_mchunk) st l1 a sz l2) as (U1 & U2 & U3); try done.
  { eapply in_heap_off; [exact Hin|heap_unfold; lia]. }
  split_and!; [done|done|]. intros b ? ?. apply U3; [heap_unfold; lia|done].
Qed.

(** Unlinking leaves the block, the free blocks and the rest of the state. *)
Lemma free_unlink_keeps b :
  (base <= b < base + 24 \/ base + 32 <= b < base + 64 \/ a <= b < a + sz \/
   exists x, x ∈ fr /\ x.1 <= b < x.1 + x.2) -> mread m1 b = mread m b.
Proof.
  intros Hb. pose proof free_in_block as Hia. pose proof free_in_other as Hio.
  destruct free_apart as [_ Hap]. apply apart_app in Hap as (_ & _ & Hap).
  apply free_unlink.
  - destruct Hb as [?|[?|[?|(x & Hx & ?)]]]; [lia|lia|heap_unfold; lia|].
    destruct (Hio x) as [Hix _]; [apply elem_of_app; by right|]. heap_unfold. lia.
  - intros y Hy. destruct (Hio y) as [Hiy Hay]; [apply elem_of_app; by left|].
    destruct Hb as [?|[?|[?|(x & Hx & ?)]]]; [heap_unfold; lia..|].
    specialize (Hap y x Hy Hx). heap_unfold. lia.
Qed.

(** The tail of [free_chunk] writes the block, the old head of the free list's
    back pointer and the bin pointer. *)
Lemma free_tail_mem b :
  b < a \/ a + 32 <= b -> b < base + 32 \/ base + 40 <= b ->
  (forall s, (head_or 0 fr, s) ∈ fr -> b < head_or 0 fr \/ head_or 0 fr + 32 <= b) ->
  mread m4 b = mread m1 b.
Proof.
  intros H1 H2 H3. unfold m4, m3. heap_unfold. rewrite mread_store_out by mem_side.
  transitivity (mread m2 b).
  - destruct fr as [|[x s] l]; [done|]. simpl head_or in *.
    destruct (negb (x =? 0)); [|done]. specialize (H3 s ltac:(by left)). by mem_simp.
  - unfold m2. heap_unfold. by mem_simp.
Qed.

Lemma free_seg_fr : seg m4 a fr 0 /\ hdr m4 a sz 0 (head_or 0 fr).
Proof.
  pose proof free_in_block as Hia. pose proof free_in_other as Hio.
  pose proof (heap_ok_good _ _ _ _ _ _ H) as Hg. apply Forall_app in Hg as [_ Hg].
  pose proof (ho_base _ _ _ _ _ _ H) as Hb0. pose proof (ho_end _ _ _ _ _ _ H) as He0.
  destruct free_apart as [_ Hap]. apply apart_app in Hap as (_ & Hap & _).
  assert (seg m2 0 fr 0) as Hfr2.
  { eapply seg_frame; [|apply H]. intros x Hx b Hb.
    destruct (Hio x) as [Hix Hax]; [apply elem_of_app; by right|].
    transitivity (mread m1 b); [unfold m2; heap_unfold; by mem_simp|].
    apply free_unlink_keeps. right; right; right. exists x. heap_unfold. split; [done|lia]. }
  assert (hdr m2 a sz 0 (head_or 0 fr)) as Hh2.
  { destruct H as [_ He _ _ _ Hal _ _ _ _]. apply seg_app in Hal as [_ [(R1 & _ & _ & R4) _]].
    assert (0 <= head_or 0 fr < 18446744073709551616).
    { clear -Hg. destruct fr as [|[x s] l]; simpl; [lia|].
      apply list.Forall_cons in Hg as [[? _] _]. simpl in *. lia. }
    unfold hdr, m2. revert R1 R4. heap_unfold. intros. mem_simp.
    rewrite !(load_ext _ m1 m) by (intros b Hb; apply free_unlink_keeps; heap_unfold; simpl in Hb; lia).
    rewrite !u64_small by lia. done. }
  assert (seg m3 a fr 0 /\ hdr m3 a sz 0 (head_or 0 fr)) as [Hfr3 Hh3].
  { unfold m3. destruct fr as [|[x s] l]; [done|]. simpl head_or.
    pose proof Hg as Hg'. apply list.Forall_cons in Hg' as [[Hx _] _]. simpl in Hx.
    destruct (Z.eqb_spec x 0); [lia|]. simpl negb. cbv iota. split.
    - apply (seg_set_prev m2 0); [done|done|heap_unfold; lia|done].
    - eapply hdr_frame; [|exact Hh2]. intros b Hb.
      destruct (Hio (x, s)) as [Hix Hax]; [apply elem_of_app; right; by left|].
      heap_unfold. by mem_simp. }
  assert (Forall (in_heap base hend) fr) as Hif.
  { destruct H as [_ _ _ _ _ _ _ Hin _ _]. by apply Forall_app in Hin as [_ ?]. }
  split.
  - apply seg_store_off; [|done]. eapply in_heap_off; [exact Hif|heap_unfold; lia].
  - eapply hdr_frame; [|exact Hh3]. intros b Hb. unfold m4. heap_unfold. by mem_simp.
Qed.

Lemma free_chunk_run :
  free_chunk base m a = memset m4 (a + sizeof_malloc_chunk) 0 (sz - sizeof_malloc_chunk).
Proof.
  pose proof free_in_block as Hia. unfold free_chunk. fold m1.
  assert (ld64 (st64 m1 (a + o_bk) 0) (base + o_unsorted_bin_head) = head_or 0 fr) as Hb.
  { rewrite <- (ho_bin _ _ _ _ _ _ H). heap_unfold. mem_simp.
    apply load_ext. intros b Hb. apply free_unlink_keeps. simpl in Hb. lia. }
  rewrite Hb. fold m2.
  assert (ld64 m2 (a + o_fd) = head_or 0 fr) as ->.
  { unfold m2. rewrite ld64_st64. rewrite <- (ho_bin _ _ _ _ _ _ H). apply u64_small, ld64_range. }
  fold m3. fold m4. destruct free_seg_fr as [_ (R1 & _ & _ & R4)]. rewrite R1, R4.
  rewrite u64_small by (heap_unfold; lia). done.
Qed.

(** Outside the block the result is what the linking left. *)
Lemma free_chunk_out b : b < a + 32 \/ a + sz <= b -> mread (free_chunk base m a) b = mread m4 b.
Proof.
  intros Hb. pose proof free_in_block. rewrite free_chunk_run. heap_unfold. by mem_simp.
Qed.

Lemma free_chunk_old x b :
  x ∈ l1 ++ l2 -> x.1 <= b < x.1 + x.2 -> mread (free_chunk base m a) b = mread m1 b.
Proof.
  intros Hx Hb. destruct (free_in_other x) as [Hix Hax]; [apply elem_of_app; by left|].
  pose proof free_in_block as Hia.
  rewrite free_chunk_out by (heap_unfold; lia). apply free_tail_mem; [heap_unfold; lia..|].
  intros s Hs. destruct free_apart as [_ Hap]. apply apart_app in Hap as (_ & _ & Hap).
  specialize (Hap _ _ Hx Hs).
  destruct (free_in_other (head_or 0 fr, s)) as [Hih _]; [apply elem_of_app; by right|].
  heap_unfold. lia.
Qed.

Lemma free_state b :
  base <= b < base + 64 -> b < base + 32 \/ base + 40 <= b ->
  mread (free_chunk base m a) b = mread m1 b.
Proof.
  intros Hb Hb'. pose proof free_in_block as Hia.
  rewrite free_chunk_out by (heap_unfold; lia). apply free_tail_mem; [heap_unfold; lia..|].
  intros s Hs. destruct (free_in_other (head_or 0 fr, s)) as [Hih _]; [apply elem_of_app; by right|].
  heap_unfold. lia.
Qed.

Lemma free_chunk_ok : heap_st base (free_chunk base m a) (l1 ++ l2) ((a, sz) :: fr) hend st.
Proof.
  pose proof free_in_block as Hia. pose proof free_in_other as Hio.
  destruct free_unlink as (U1 & U2 & _). destruct free_seg_fr as [F1 F2].
  pose proof (ho_base _ _ _ _ _ _ H) as Hb0. pose proof (ho_end _ _ _ _ _ _ H) as He0.
  split; try apply H.
  - rewrite <- (ho_brk _ _ _ _ _ _ H). apply load_ext. intros b Hb. simpl in Hb.
    rewrite free_state by (heap_unfold; lia). apply free_unlink_keeps. heap_unfold. lia.
  - rewrite <- U2. apply load_ext. intros b Hb. simpl in Hb. apply free_state; heap_unfold; lia.
  - simpl head_or. rewrite (load_ext 8 _ m4).
    + unfold m4. rewrite ld64_st64. apply u64_small. heap_unfold. lia.
    + intros b Hb. simpl in Hb. apply free_chunk_out. heap_unfold. lia.
  - eapply seg_frame; [|exact U1]. intros x Hx b Hb. apply (free_chunk_old x); [done|].
    destruct (Hio x) as [Hix _]; [apply elem_of_app; by left|]. heap_unfold. lia.
  - split.
    + eapply hdr_frame; [|exact F2]. intros b Hb. apply free_chunk_out. lia.
    + eapply seg_frame; [|exact F1]. intros x Hx b Hb. apply free_chunk_out.
      destruct (Hio x) as [Hix Hax]; [apply elem_of_app; by right|]. heap_unfold. lia.
  - pose proof free_in as Hin. rewrite list.Forall_cons, !Forall_app in Hin.
    rewrite !Forall_app, list.Forall_cons. tauto.
  - eapply apart_perm; [|apply free_apart]. solve_Permutation.
  - destruct (ho_st _ _ _ _ _ _ H) as [|[s Hs]]; [by left|right; exists s]. set_solver +Hs.
Qed.

Lemma free_chunk_post :
  free_post_st st base m (free_chunk base m a) (l1 ++ (a, sz) :: l2)
    (HeapAbs (l1 ++ l2) ((a, sz) :: fr) hend) (a, sz).
Proof.
  pose proof free_in_block as Hia.
  split_and!; cbn [ab_alloc ab_free ab_end fst snd].
  - apply free_chunk_ok.
  - intros b Hb. rewrite free_chunk_run. heap_unfold. by mem_simp.
  - intros y b Hy Hne Hb.
    assert (y ∈ l1 ++ l2) as Hy'.
    { apply elem_of_app in Hy as [|[->|]%elem_of_cons]; [|done|]; apply elem_of_app; tauto. }
    rewrite (free_chunk_old y) by (done || lia). apply free_unlink.
    + destruct (free_in_other y) as [Hiy _]; [apply elem_of_app; by left|]. heap_unfold. lia.
    + intros x Hx. destruct (decide (x = y)) as [->|Hxy]; [lia|].
      destruct free_apart as [_ Hap]. apply apart_app in Hap as (Hap & _).
      apply elem_of_Permutation in Hx as [k Hk].
      apply (apart_perm _ (x :: k)) in Hap as [Hf _]; [|done]. rewrite list.Forall_forall in Hf.
      assert (y ∈ x :: k) as Hin by (by rewrite <- Hk).
      apply elem_of_cons in Hin as [?|Hin]; [congruence|]. specialize (Hf y Hin).
      destruct (free_in_other y) as [Hiy _]; [apply elem_of_app; by left|].
      destruct (free_in_other x) as [Hix _].
      { apply elem_of_app; left. rewrite Hk. by left. }
      heap_unfold. lia.
  - intros b Hb. pose proof (ho_end _ _ _ _ _ _ H) as He. rewrite free_chunk_out by (heap_unfold; lia).
    rewrite free_tail_mem; [apply free_unlink; [heap_unfold; lia|]|heap_unfold; lia|heap_unfold; lia|].
    + intros x Hx. destruct (free_in_other x) as [Hix _]; [apply elem_of_app; by left|]. heap_unfold. lia.
    + intros s Hs. destruct (free_in_other (head_or 0 fr, s)) as [Hih _]; [apply elem_of_app; by right|]. heap_unfold. lia.
Qed.
End Free.

(** ** Theorems *)

Definition abs_heap (al fr : list block) (hend : Z) : heap_abs := HeapAbs al fr hend.

(** The first fit, if there is one, is the head of the free list. *)
Definition fit_at_head (size : Z) (fr : list block) : Prop :=
  match first_such (fits (chunk_need size)) fr with
  | Some (l1, _, _) => l1 = []
  | None => True
  end.

(** A request the header's 32-bit size and the address space can hold. *)
Definition request_ok (hend size : Z) : Prop :=
  0 <= size <= 4294967000 /\ hend + size + 256 < 18446744073709551616.

Lemma request_need hend size : 0 <= hend -> request_ok hend size ->
  size + 32 <= chunk_need size < size + 48 /\ size + 64 <= 18446744073709551616.
Proof.
  intros ? [? ?]. pose proof (aalign16 size ltac:(lia) ltac:(lia)). unfold chunk_need.
  heap_unfold. lia.
Qed.

(** The back pointer the block malloc hands out keeps: the predecessor of the
    chunk in the bin when one is reused. *)
Definition reuse_bk (size : Z) (fr : list block) : Z :=
  match first_such (fits (chunk_need size)) fr with
  | Some (l1, _, _) => last_or 0 l1
  | None => 0
  end.

Lemma fit_at_head_bk size fr : fit_at_head size fr -> reuse_bk size fr = 0.
Proof. unfold fit_at_head, reuse_bk. by destruct (first_such _ fr) as [[[l1 ?] ?]|]; [intros ->|]. Qed.

(** malloc refines the abstract first-fit allocator. *)
Lemma malloc_refines_st fuel base m al fr hend st size :
  heap_st base m al fr hend st -> request_ok hend size -> (length fr <= fuel)%nat ->
  let '(h', p) := abs_malloc (abs_heap al fr hend) size in
  exists m', malloc fuel base m size = Some (m', p) /\
    malloc_post_st (reuse_bk size fr) base m m' al h' p size.
Proof.
  intros H Hr Hf. pose proof (ho_end _ _ _ _ _ _ H) as He. pose proof (ho_base _ _ _ _ _ _ H).
  destruct (request_need hend size) as [Hn1 Hn2]; [heap_unfold; lia|done|].
  destruct Hr as [Hr1 Hr2]. unfold reuse_bk, abs_malloc, abs_heap in *.
  cbn [ab_alloc ab_free ab_end].
  destruct (first_such (fits (chunk_need size)) fr) as [[[l1 [a sz]] l2]|] eqn:Hff.
  - pose proof Hff as Hff'. apply first_such_Some in Hff' as [-> Hfit]. unfold fits in Hfit.
    apply Z.leb_le in Hfit. simpl in Hfit.
    eexists. split; [by eapply malloc_reuse_run; try done; lia|].
    eapply reuse_post; [done|]. lia.
  - set (sz := Z.max HEAP_CHUNK_MIN_SIZE_BYTES (chunk_need size)).
    assert (64 <= sz < 4294967296 - 64 /\ hend + sz + 64 < 18446744073709551616 /\ size + 32 <= sz)
      as (Hs1 & Hs2 & Hs3) by (unfold sz; heap_unfold; lia).
    eexists. split; [eapply malloc_fresh_run; try done; lia|].
    by eapply fresh_post.
Qed.

(** When the first fit heads the bin no stale pointer is left. *)
Lemma malloc_refines_abs fuel base m al fr hend size :
  heap_ok base m al fr hend -> request_ok hend size -> fit_at_head size fr ->
  (length fr <= fuel)%nat ->
  let '(h', p) := abs_malloc (abs_heap al fr hend) size in
  exists m', malloc fuel base m size = Some (m', p) /\ malloc_post base m m' al h' p size.
Proof.
  intros H Hr Hhd Hf. unfold malloc_post. rewrite <- (fit_at_head_bk size fr Hhd).
  by apply (malloc_refines_st fuel base m al fr hend 0).
Qed.

(** The pointer of a first allocated block whose back pointer is stale. *)
Definition stale_head (st : Z) (al : list block) (ptr : Z) : bool :=
  match al with
  | [] => false
  | (a, _) :: _ => negb (st =? 0) && (a + sizeof_malloc_chunk =? ptr)
  end.

(** free of any other pointer refines the abstract allocator. *)
Lemma free_refines_st fuel base m al fr hend st ptr :
  heap_st base m al fr hend st -> (length al <= fuel)%nat -> stale_head st al ptr = false ->
  exists m', free fuel base m ptr = Some m' /\
  match first_such (fun x => x.1 + sizeof_malloc_chunk =? ptr) al with
  | Some (_, x, _) => free_post_st st base m m' al (abs_free (abs_heap al fr hend) ptr) x
  | None => m' = m
  end.
Proof.
  intros H Hf Hs. pose proof (heap_ok_good _ _ _ _ _ _ H) as Hg. apply Forall_app in Hg as [Hg _].
  unfold free. rewrite (ho_mchunk _ _ _ _ _ _ H).
  rewrite (free_walk fuel base m st) by (done || apply H).
  eexists. split; [reflexivity|]. unfold abs_free, abs_heap. cbn [ab_alloc ab_free ab_end].
  destruct (first_such _ al) as [[[l1 [a sz]] l2]|] eqn:Hff; [|done].
  apply first_such_Some in Hff as [-> Hd]. cbn [fst]. apply free_chunk_post; [done|].
  destruct l1; [left|by right]. unfold stale_head in Hs. cbn [app fst] in Hs, Hd.
  rewrite Hd, andb_true_r in Hs. apply negb_false_iff in Hs. by apply Z.eqb_eq.
Qed.

Lemma free_refines_abs fuel base m al fr hend ptr :
  heap_ok base m al fr hend -> (length al <= fuel)%nat ->
  exists m', free fuel base m ptr = Some m' /\
  match first_such (fun x => x.1 + sizeof_malloc_chunk =? ptr) al with
  | Some (_, x, _) => free_post base m m' al (abs_free (abs_heap al fr hend) ptr) x
  | None => m' = m
  end.
Proof. intros H Hf. apply (free_refines_st fuel base m al fr hend 0); [done..|]. by destruct al as [|[]]. Qed.

(** Memory that agrees on the block, on the heap's state and on the chunks of
    the bin. *)
Lemma free_tail_heads base m a sz fr hend :
  0 < base -> hend < 18446744073709551616 -> in_heap base hend (a, sz) -> Forall (in_heap base hend) fr ->
  ld32 m (a + o_mchunk_size) = sz -> ld64 m (a + o_data) = a + sizeof_malloc_chunk ->
  ld64 m (base + o_unsorted_bin_head) = head_or 0 fr -> Forall (apart2 (a, sz)) fr ->
  forall m', m' = (let m := st64 m (a + o_bk) 0 in
  let m := st64 m (a + o_fd) (ld64 m (base + o_unsorted_bin_head)) in
  let m := if negb (ld64 m (a + o_fd) =? 0)
           then st64 m (ld64 m (a + o_fd) + o_bk) a else m in
  let m := st64 m (base + o_unsorted_bin_head) a in
  memset m (ld64 m (a + o_data)) 0 (u64 (ld32 m (a + o_mchunk_size) - sizeof_malloc_chunk))) ->
  ld64 m' (base + o_mchunk) = ld64 m (base + o_mchunk) /\ ld64 m' (base + o_unsorted_bin_head) = a.
Proof.
  intros Hb He Hia Hif R1 R4 Hbin Hap m' ->. cbv zeta.
  set (m2 := st64 (st64 m (a + o_bk) 0) _ _).
  assert (ld64 m2 (a + o_fd) = head_or 0 fr) as E.
  { unfold m2. rewrite ld64_st64, u64_small by apply ld64_range. rewrite <- Hbin. heap_unfold. by mem_simp. }
  rewrite E. set (m3 := if negb _ then _ else _).
  assert (forall b, base <= b < base + 64 \/ a <= b < a + sz -> mread m3 b = mread m2 b) as H3.
  { intros b Hb'. unfold m3. destruct fr as [|[x s] l]; [done|]. cbn [head_or].
    apply list.Forall_cons in Hif as [Hix _]. apply list.Forall_cons in Hap as [Hax _].
    destruct (negb (x =? 0)); [|done]. apply mread_store_out. heap_unfold. simpl. lia. }
  set (m4 := st64 m3 _ _).
  assert (ld32 m4 (a + o_mchunk_size) = sz /\ ld64 m4 (a + o_data) = a + sizeof_malloc_chunk) as [-> ->].
  { split; [rewrite <- R1|rewrite <- R4]; unfold m4; heap_unfold; mem_simp;
      rewrite (load_ext _ m3 m2) by (intros b Hb'; apply H3; simpl in Hb'; lia);
      unfold m2; heap_unfold; by mem_simp. }
  rewrite u64_small by (heap_unfold; lia). unfold m4. heap_unfold. mem_simp. split; [|apply u64_small; lia].
  rewrite (load_ext _ m3 m2) by (intros b Hb'; apply H3; simpl in Hb'; lia). unfold m2. heap_unfold. by mem_simp.
Qed.

(** The free that is not served: the block stays the first of the allocated
    list and is put in the bin all the same. *)
Lemma free_stale_both fuel base m al fr hend st ptr :
  heap_st base m al fr hend st -> stale_head st al ptr = true ->
  exists m' a, free fuel base m ptr = Some m' /\ 0 < a /\
    ld64 m' (base + o_mchunk) = a /\ ld64 m' (base + o_unsorted_bin_head) = a.
Proof.
  intros H Hs. pose proof (heap_ok_good _ _ _ _ _ _ H) as Hg.
  pose proof (ho_base _ _ _ _ _ _ H) as Hb. pose proof (ho_end _ _ _ _ _ _ H) as He.
  destruct al as [|[a sz] al]; [done|]. unfold stale_head in Hs.
  apply andb_true_iff in Hs as [Hs1 Hs2]. apply negb_true_iff, Z.eqb_neq in Hs1. apply Z.eqb_eq in Hs2.
  pose proof Hg as Hg'. apply list.Forall_cons in Hg' as [[Ha _] _]. simpl in Ha.
  destruct H as [_ _ _ Hmch Hbin [(R1 & R2 & R3 & R4) _] _ Hin Hap [?|[s0 Hs0]]]; [done|].
  pose proof Hin as Hin'. rewrite Forall_app in Hin'. destruct Hin' as [[Hia Hial]%list.Forall_cons Hifr].
  pose proof Hmch as Hmch'. cbn [head_or] in Hmch'.
  unfold free. rewrite Hmch. cbn [head_or].
  assert (free_loop fuel base m a ptr = Some (free_chunk base m a)) as ->.
  { destruct fuel; simpl; destruct (Z.eqb_spec a 0); try lia; rewrite R4, Hs2, Z.eqb_refl; done. }
  eexists _, a. split; [reflexivity|]. split; [lia|].
  pose proof Hap as [Hap1 _]. rewrite list.Forall_forall in Hap1.
  assert (in_heap base hend (st, s0) /\ (st = a \/ apart2 (a, sz) (st, s0))) as [Hist Hap2].
  { rewrite Forall_app, list.Forall_cons in Hin. rewrite !list.Forall_forall in Hin.
    cbn [app] in Hs0. apply elem_of_cons in Hs0 as [[= -> ->]|Hs0]; [tauto|]. split; [|by right; apply Hap1].
    apply elem_of_app in Hs0. naive_solver. }
  set (mu := unlink m (base + o_mchunk) a).
  assert (forall b, base <= b < base + 64 \/ a <= b < a + 8 \/ a + 16 <= b < a + 32 -> mread mu b = mread m b) as Hu.
  { intros b Hb'. unfold mu, unlink. rewrite R2, R3. destruct (Z.eqb_spec st 0); [done|]. cbn [negb]. cbv iota.
    assert (ld64 (st64 m (st + o_fd) (head_or 0 al)) (a + o_fd) = head_or 0 al) as ->.
    { destruct Hap2 as [->|Hap2].
      - rewrite ld64_st64, u64_small; [done|]. rewrite <- R2. apply ld64_range.
      - rewrite <- R2 at 2. heap_unfold. by mem_simp. }
    destruct al as [|[x s] l]; cbn [head_or].
    - rewrite Z.eqb_refl. cbn [negb]. cbv iota. apply mread_store_out. heap_unfold. simpl. destruct Hap2; [subst st|]; lia.
    - specialize (Hap1 (x, s) ltac:(left)). apply list.Forall_cons in Hial as [Hix _].
      transitivity (mread (st64 m (st + o_fd) x) b).
      + destruct (negb (x =? 0)); [|done]. apply mread_store_out. heap_unfold. simpl. lia.
      + apply mread_store_out. heap_unfold. simpl. destruct Hap2; [subst st|]; lia. }
  destruct (free_tail_heads base mu a sz fr hend ltac:(lia) ltac:(lia) Hia Hifr) with (m' := free_chunk base m a)
    as [E1 E2]; try done.
  - rewrite <- R1. apply load_ext. intros b Hb'. apply Hu. heap_unfold. simpl in Hb'. lia.
  - rewrite <- R4. apply load_ext. intros b Hb'. apply Hu. heap_unfold. simpl in Hb'. lia.
  - rewrite <- Hbin. apply load_ext. intros b Hb'. apply Hu. heap_unfold. simpl in Hb'. lia.
  - rewrite list.Forall_forall. intros x Hx. apply Hap1. apply elem_of_app. by right.
  - split; [|exact E2]. etransitivity; [exact E1|]. rewrite <- Hmch'. apply load_ext. intros b Hb'. apply Hu.
    heap_unfold. simpl in Hb'. lia.
Qed.

(** A write into the data of one block, or outside the heap, keeps the lists. *)
Lemma heap_block_write base m m' al fr hend a sz : heap_ok base m al fr hend -> (a, sz) ∈ al ++ fr ->
  (forall b, base <= b < hend -> b < a + 32 \/ a + sz <= b -> mread m' b = mread m b) -> heap_ok base m' al fr hend.
Proof.
  intros H Hx Hm. pose proof (ho_end _ _ _ _ _ _ H) as He.
  assert (Hin : forall y, y ∈ al ++ fr -> in_heap base hend y).
  { pose proof (ho_in _ _ _ _ _ _ H) as Hi. by rewrite list.Forall_forall in Hi. }
  pose proof (Hin _ Hx) as Hia.
  assert (Hout : forall y, y ∈ al ++ fr -> forall b, y.1 <= b < y.1 + 32 -> mread m' b = mread m b).
  { intros y Hy b Hb. pose proof (Hin y Hy) as Hiy. apply Hm; [heap_unfold; lia|]. destruct (decide (y = (a, sz))) as [->|Hne]; [simpl in Hb; lia|].
    pose proof (ho_apart _ _ _ _ _ _ H) as Hap. apply elem_of_Permutation in Hx as [k Hk].
    apply (apart_perm _ ((a, sz) :: k)) in Hap as [Hf _]; [|done]. rewrite list.Forall_forall in Hf.
    assert (Hyk : y ∈ (a, sz) :: k) by (by rewrite <- Hk). apply elem_of_cons in Hyk as [|Hyk]; [done|].
    specialize (Hf y Hyk). heap_unfold. lia. }
  assert (Hst : forall b, base <= b < base + 64 -> mread m' b = mread m b) by (intros b Hb; apply Hm; heap_unfold; lia).
  split; try apply H.
  - rewrite <- (ho_brk _ _ _ _ _ _ H). apply load_ext. intros b Hb. apply Hst. heap_unfold. simpl in Hb. lia.
  - rewrite <- (ho_mchunk _ _ _ _ _ _ H). apply load_ext. intros b Hb. apply Hst. heap_unfold. simpl in Hb. lia.
  - rewrite <- (ho_bin _ _ _ _ _ _ H). apply load_ext. intros b Hb. apply Hst. heap_unfold. simpl in Hb. lia.
  - eapply seg_frame; [|apply H]. intros y Hy b Hb. apply (Hout y); [apply elem_of_app; by left|heap_unfold; lia].
  - eapply seg_frame; [|apply H]. intros y Hy b Hb. apply (Hout y); [apply elem_of_app; by right|heap_unfold; lia].
Qed.

(** The block malloc takes heads the allocated ones; freeing it puts it in the bin. *)
Lemma abs_malloc_block al fr hend size : 0 <= size -> size + 16 <= 18446744073709551616 -> exists a sz fr' hend',
  abs_malloc (abs_heap al fr hend) size = (HeapAbs ((a, sz) :: al) fr' hend', a + 32) /\ size + 32 <= sz.
Proof.
  intros Hs Hs'. pose proof (aalign16 size Hs Hs') as Ha. unfold abs_malloc, abs_heap. cbn [ab_alloc ab_free ab_end].
  destruct (first_such _ fr) as [[[l1 [a sz]] l2]|] eqn:E.
  - apply first_such_Some in E as [_ Hfit]. unfold fits in Hfit. apply Z.leb_le in Hfit. simpl in Hfit.
    eexists a, sz, _, _. split; [reflexivity|]. unfold chunk_need in Hfit. heap_unfold. lia.
  - eexists _, _, _, _. split; [reflexivity|]. unfold chunk_need. heap_unfold. lia.
Qed.

Lemma abs_free_head a sz al fr hend : abs_free (abs_heap ((a, sz) :: al) fr hend) (a + 32) = HeapAbs al ((a, sz) :: fr) hend.
Proof. unfold abs_free, abs_heap. cbn [ab_alloc ab_free ab_end first_such fst]. unfold sizeof_malloc_chunk. by rewrite Z.eqb_refl. Qed.

(** The heap that init_heap builds is empty and well formed. *)
Lemma init_heap_empty m junk base_addr size :
  0 < base_addr -> base_addr + 256 < 18446744073709551616 ->
  let '(m', b) := init_heap m junk base_addr size in
  b = aalign base_addr 64 /\ base_addr <= b /\ heap_ok b m' [] [] (b + 64).
Proof.
  intros H1 H2. pose proof (aalign_spec base_addr 64 ltac:(lia) ltac:(lia) ltac:(lia)) as [Ha _].
  unfold init_heap. cbv zeta. split_and!; [done|heap_unfold; lia|].
  assert (0 < aalign base_addr HEAP_CHUNK_MIN_SIZE_BYTES < 18446744073709551616 - 128) as Hb
    by (heap_unfold; lia).
  set (b := aalign base_addr HEAP_CHUNK_MIN_SIZE_BYTES) in *. clearbody b. unfold brk.
  split; try done; heap_unfold; try lia; mem_simp; simpl head_or; try done.
  apply u64_small. lia.
Qed.

(** ** Traces of requests *)

Inductive heap_op := OMalloc (size : Z) | OFree (ptr : Z).

Definition heap_step (fuel : nat) (base : Z) (m : mem) (o : heap_op) : option mem :=
  match o with
  | OMalloc size => '(m', _) ← malloc fuel base m size; Some m'
  | OFree ptr => free fuel base m ptr
  end.

Definition abs_step (h : heap_abs) (o : heap_op) : heap_abs :=
  match o with OMalloc size => (abs_malloc h size).1 | OFree ptr => abs_free h ptr end.

(** The back pointer the first allocated block keeps after a request. *)
Definition abs_stale (h : heap_abs) (st : Z) (o : heap_op) : Z :=
  match o with OMalloc size => reuse_bk size (ab_free h) | OFree _ => st end.

Fixpoint heap_run (fuel : nat) (base : Z) (m : mem) (os : list heap_op) : option mem :=
  match os with
  | [] => Some m
  | o :: os => m' ← heap_step fuel base m o; heap_run fuel base m' os
  end.

Fixpoint abs_run (h : heap_abs) (st : Z) (os : list heap_op) : heap_abs * Z :=
  match os with [] => (h, st) | o :: os => abs_run (abs_step h o) (abs_stale h st o) os end.

(** A size the header's 32 bits hold, with room below the limit [lim] of the
    memory the heap has. *)
Definition op_ok (lim : Z) (h : heap_abs) (o : heap_op) : Prop :=
  match o with
  | OMalloc size => 0 <= size <= 4294967000 /\ ab_end (abs_malloc h size).1 <= lim
  | OFree _ => True
  end.

Fixpoint trace_ok (lim : Z) (h : heap_abs) (os : list heap_op) : Prop :=
  match os with [] => True | o :: os => op_ok lim h o /\ trace_ok lim (abs_step h o) os end.

(** A trace up to its first free of a block whose back pointer is stale, with
    the pointer that request frees; [None] when there is no such request. *)
Fixpoint first_stale_free (h : heap_abs) (st : Z) (os : list heap_op) : option (list heap_op * Z) :=
  match os with
  | [] => None
  | o :: os =>
      match o with
      | OFree ptr => if stale_head st (ab_alloc h) ptr then Some ([], ptr)
                     else '(pre, p) ← first_stale_free (abs_step h o) (abs_stale h st o) os; Some (o :: pre, p)
      | OMalloc _ => '(pre, p) ← first_stale_free (abs_step h o) (abs_stale h st o) os; Some (o :: pre, p)
      end
  end.

Definition abs_size (h : heap_abs) : nat := length (ab_alloc h) + length (ab_free h).

Lemma abs_step_size h o : (abs_size (abs_step h o) <= S (abs_size h))%nat.
Proof.
  destruct h as [al fr he]. unfold abs_size. destruct o as [size|ptr]; simpl.
  - unfold abs_malloc. simpl. destruct (first_such _ fr) as [[[l1 x] l2]|] eqn:E; simpl; [|lia].
    apply first_such_Some in E as [-> _]. rewrite !length_app. simpl. lia.
  - unfold abs_free. simpl. destruct (first_such _ al) as [[[l1 x] l2]|] eqn:E; simpl; [|lia].
    apply first_such_Some in E as [-> _]. rewrite !length_app. simpl. lia.
Qed.

Definition heap_rep_st (base : Z) (m : mem) (h : heap_abs * Z) : Prop :=
  heap_st base m (ab_alloc h.1) (ab_free h.1) (ab_end h.1) h.2.

Definition heap_rep (base : Z) (m : mem) (h : heap_abs) : Prop := heap_rep_st base m (h, 0).

(** A served request does not touch the memory outside the heap. *)
Lemma heap_step_sim fuel base m h st o lim :
  heap_rep_st base m (h, st) -> ab_end h <= lim < 9223372036854775808 -> op_ok lim h o -> (abs_size h <= fuel)%nat ->
  (forall ptr, o = OFree ptr -> stale_head st (ab_alloc h) ptr = false) ->
  exists m', heap_step fuel base m o = Some m' /\ heap_rep_st base m' (abs_step h o, abs_stale h st o) /\
    ab_end (abs_step h o) <= lim /\ (forall b, b < base \/ lim <= b -> mread m' b = mread m b).
Proof.
  destruct h as [al fr he]. unfold heap_rep_st, abs_size. cbn [fst snd ab_alloc ab_free ab_end]. intros H Hl Ho Hf Hs.
  destruct o as [size|ptr].
  - destruct Ho as [Hr Hr2].
    pose proof (malloc_refines_st fuel base m al fr he st size H ltac:(unfold request_ok; lia) ltac:(lia)) as Hm.
    unfold abs_heap in Hm. simpl. destruct (abs_malloc _ size) as [h' p] eqn:E. simpl in Hr2.
    destruct Hm as (m' & -> & Hp & _ & _ & Ho). exists m'. split_and!; try done.
    intros b Hb. apply Ho. lia.
  - destruct (free_refines_st fuel base m al fr he st ptr H ltac:(lia) (Hs ptr eq_refl)) as (m' & Hm & Hp).
    exists m'. split; [done|]. simpl. unfold abs_heap in Hp. unfold abs_free in *. simpl in *.
    destruct (first_such _ al) as [[[l1 x] l2]|] eqn:E; [|subst m'; split_and!; (done || exact (proj1 Hl))].
    destruct Hp as (Hp & _ & _ & Hu). split_and!; [done|simpl; lia|]. intros b Hb. apply Hu. simpl. lia.
Qed.

Lemma heap_run_sim fuel base m h st os lim :
  heap_rep_st base m (h, st) -> ab_end h <= lim < 9223372036854775808 -> trace_ok lim h os ->
  (abs_size h + length os <= fuel)%nat ->
  match first_stale_free h st os with
  | None => exists m', heap_run fuel base m os = Some m' /\ heap_rep_st base m' (abs_run h st os) /\
      (forall b, b < base \/ lim <= b -> mread m' b = mread m b)
  | Some (pre, ptr) => exists m1, heap_run fuel base m pre = Some m1 /\ heap_rep_st base m1 (abs_run h st pre) /\
      (forall b, b < base \/ lim <= b -> mread m1 b = mread m b) /\
      stale_head (abs_run h st pre).2 (ab_alloc (abs_run h st pre).1) ptr = true
  end.
Proof.
  revert m h st. induction os as [|o os IH]; intros m h st H Hl Ht Hf; [by exists m|].
  destruct Ht as [Ho Ht]. cbn [first_stale_free].
  assert (Hgo : (forall ptr, o = OFree ptr -> stale_head st (ab_alloc h) ptr = false) ->
    match ('(pre, p) ← first_stale_free (abs_step h o) (abs_stale h st o) os; Some (o :: pre, p)) with
    | None => exists m', heap_run fuel base m (o :: os) = Some m' /\ heap_rep_st base m' (abs_run h st (o :: os)) /\
        (forall b, b < base \/ lim <= b -> mread m' b = mread m b)
    | Some (pre, ptr) => exists m1, heap_run fuel base m pre = Some m1 /\ heap_rep_st base m1 (abs_run h st pre) /\
        (forall b, b < base \/ lim <= b -> mread m1 b = mread m b) /\
        stale_head (abs_run h st pre).2 (ab_alloc (abs_run h st pre).1) ptr = true
    end).
  { intros Hs. simpl in Hf. destruct (heap_step_sim fuel base m h st o lim) as (m' & E & H' & Hl' & Hm); [done..|lia|done|].
    pose proof (abs_step_size h o) as Hsz.
    specialize (IH m' (abs_step h o) (abs_stale h st o) H' ltac:(lia) Ht ltac:(lia)).
    destruct (first_stale_free (abs_step h o) (abs_stale h st o) os) as [[pre ptr]|]; cbn [mbind option_bind].
    - destruct IH as (m1 & E1 & R1 & O1 & S1). exists m1. cbn [heap_run abs_run]. rewrite E. cbn [mbind option_bind].
      split_and!; try done. intros b Hb. by rewrite O1, Hm.
    - destruct IH as (m1 & E1 & R1 & O1). exists m1. cbn [heap_run abs_run]. rewrite E. cbn [mbind option_bind].
      split_and!; try done. intros b Hb. by rewrite O1, Hm. }
  destruct o as [size|ptr]; [by apply Hgo|].
  destruct (stale_head st (ab_alloc h) ptr) eqn:Es.
  - exists m. by split_and!.
  - apply Hgo. by intros p [= <-].
Qed.

(** The abstract heap at boot. *)
Definition empty_heap (base_addr : Z) : heap_abs := HeapAbs [] [] (aalign base_addr 64 + 64).

(** The lists of a memory cannot be read off when one block heads both. *)
Lemma both_heads_not_heap base m a : 0 < a ->
  ld64 m (base + o_mchunk) = a -> ld64 m (base + o_unsorted_bin_head) = a ->
  ~ exists al fr hend st, heap_st base m al fr hend st.
Proof.
  intros Ha H1 H2 (al & fr & hend & st & H). pose proof (heap_ok_good _ _ _ _ _ _ H) as Hg.
  pose proof (ho_mchunk _ _ _ _ _ _ H) as E1. pose proof (ho_bin _ _ _ _ _ _ H) as E2.
  rewrite H1 in E1. rewrite H2 in E2. pose proof (ho_apart _ _ _ _ _ _ H) as Hap.
  destruct al as [|[x sx] al]; simpl in E1; [lia|]. destruct fr as [|[y sy] fr]; simpl in E2; [lia|]. subst x y.
  apply apart_app in Hap as (_ & _ & Hap). specialize (Hap (a, sx) (a, sy) ltac:(left) ltac:(left)).
  rewrite list.Forall_forall in Hg. pose proof (Hg (a, sx) ltac:(left)) as [_ ?].
  pose proof (Hg (a, sy) ltac:(set_solver)) as [_ ?]. heap_unfold. lia.
Qed.

(** C1: from the heap that init_heap builds (with room for its own state), a
    trace of malloc and free requests whose sizes fit the 32-bit chunk header
    and whose break stays within the memory init_heap maps (up to [base_addr]
    plus the aligned size, below 2^63). While no request frees a block whose
    back pointer is stale, with as much fuel as there are requests the trace
    runs to completion, leaves in memory exactly the lists of the abstract
    first-fit allocator, and writes nothing outside that memory. A block is
    stale when it is the last one allocated and was taken from behind the head
    of the bin (malloc.c, line 85, does not write the cleared back pointer). The
    first request that frees a stale block is where the contract ends:
    everything before it is as above, and that free returns with a memory that
    is no heap any more, for any lists of chunks. *)
Theorem heap_trace_refines fuel m junk base_addr size os :
  0 < base_addr -> 0 <= size -> base_addr + size + 64 < 9223372036854775808 ->
  aalign base_addr 64 + 64 <= base_addr + aalign size 64 ->
  trace_ok (base_addr + aalign size 64) (empty_heap base_addr) os -> (length os <= fuel)%nat ->
  let '(m0, b) := init_heap m junk base_addr size in
  let lim := base_addr + aalign size 64 in
  match first_stale_free (empty_heap base_addr) 0 os with
  | None => exists m', heap_run fuel b m0 os = Some m' /\
      heap_rep_st b m' (abs_run (empty_heap base_addr) 0 os) /\
      (forall a, a < b \/ lim <= a -> mread m' a = mread m0 a)
  | Some (pre, ptr) => exists m1 m2, heap_run fuel b m0 pre = Some m1 /\
      heap_rep_st b m1 (abs_run (empty_heap base_addr) 0 pre) /\
      (forall a, a < b \/ lim <= a -> mread m1 a = mread m0 a) /\
      free fuel b m1 ptr = Some m2 /\ ~ exists al fr hend st, heap_st b m2 al fr hend st
  end.
Proof.
  intros H1 H0 H2 H3 Ht Hf. pose proof (init_heap_empty m junk base_addr size H1) as Hi.
  destruct (aalign_spec size 64) as [Ha _]; [lia..|].
  destruct (init_heap m junk base_addr size) as [m0 b]. destruct Hi as (Hb & _ & Hi); [lia|].
  rewrite Hb in Hi. rewrite Hb.
  pose proof (heap_run_sim fuel (aalign base_addr 64) m0 (empty_heap base_addr) 0 os (base_addr + aalign size 64) Hi) as R.
  assert (base_addr + aalign size 64 < 9223372036854775808) as H4 by lia.
  cbv zeta. specialize (R (conj H3 H4) Ht Hf).
  destruct (first_stale_free _ _ os) as [[pre ptr]|]; [|exact R].
  destruct R as (m1 & E1 & R1 & O1 & S1).
  destruct (free_stale_both fuel _ m1 _ _ _ _ ptr R1 S1) as (m2 & a & E2 & Ha0 & L1 & L2).
  exists m1, m2. split_and!; try done. by apply (both_heads_not_heap _ m2 a).
Qed.

(** C6: malloc on a heap of allocated chunks [al] and free chunks [fr], with a
    size that fits the 32-bit chunk header and room below the limit [lim] of
    the heap's memory (below 2^63), wherever in the bin the first fit is: it
    returns, never running out of chunks to visit; the pointer is the abstract
    allocator's; the [size] bytes at it are zero, end below the limit and
    overlap no live block; the lists in memory are the abstract ones, but for
    the back pointer of the new block, which is its predecessor in the bin when
    the block was behind the bin's head (and null else); no byte of a live
    block's data, and none outside the heap, has changed. *)
Theorem malloc_refines fuel base m al fr hend st size lim :
  heap_st base m al fr hend st -> 0 <= size <= 4294967000 ->
  hend <= lim < 9223372036854775808 -> (length fr <= fuel)%nat ->
  let '(h', p) := abs_malloc (abs_heap al fr hend) size in
  ab_end h' <= lim ->
  exists m', malloc fuel base m size = Some (m', p) /\
    heap_st base m' (ab_alloc h') (ab_free h') (ab_end h') (reuse_bk size fr) /\
    (forall b, p <= b < p + size -> mread m' b = 0) /\ p + size <= lim /\
    Forall (fun x => p + size <= x.1 \/ x.1 + x.2 <= p) al /\
    (forall x b, x ∈ al -> x.1 + 32 <= b < x.1 + x.2 -> mread m' b = mread m b) /\
    (forall b, b < base \/ lim <= b -> mread m' b = mread m b).
Proof.
  intros H Hr Hl Hf. pose proof (malloc_refines_st fuel base m al fr hend st size H ltac:(unfold request_ok; lia) Hf) as Hm.
  pose proof (ho_base _ _ _ _ _ _ H) as Hb. pose proof (ho_end _ _ _ _ _ _ H) as He.
  destruct (request_need hend size) as [Hn1 Hn2]; [heap_unfold; lia|unfold request_ok; lia|].
  pose proof (abs_malloc_block al fr hend size ltac:(lia) ltac:(lia)) as (a & sz & fr' & hend' & Eab & Hsz).
  rewrite Eab in *. intros Hlim. cbn [ab_alloc ab_free ab_end] in *.
  destruct Hm as (m' & Hm & Hp & Hz & Hd & Ho). exists m'.
  pose proof (ho_in _ _ _ _ _ _ Hp) as Hin. pose proof (ho_apart _ _ _ _ _ _ Hp) as Hap.
  cbn [ab_alloc ab_free ab_end app] in *. apply list.Forall_cons in Hin as [Hi _]. destruct Hap as [Hap _].
  apply Forall_app in Hap as [Hap _].
  split_and!; try done; [heap_unfold; lia| |intros b Hb'; apply Ho; lia].
  eapply list.Forall_impl; [exact Hap|]. intros x ?. heap_unfold. lia.
Qed.

(** C9: free on a heap of allocated chunks [al] and free chunks [fr] returns for
    every pointer.  A pointer of no live block (null included) leaves the
    memory as it is.  A live block's pointer, unless the block is stale, moves
    exactly that block to the head of the free list, zeroes its data, and
    leaves the data of every other block and everything outside the heap alone.
    A block is stale when it heads the allocated list and was reused from behind
    the head of the bin ([st] is the back pointer it kept); freeing that one
    leaves no heap, for any lists of chunks. *)
Theorem free_refines fuel base m al fr hend st ptr :
  heap_st base m al fr hend st -> (length al <= fuel)%nat ->
  exists m', free fuel base m ptr = Some m' /\
  match first_such (fun x => x.1 + sizeof_malloc_chunk =? ptr) al with
  | Some (_, x, _) =>
      if stale_head st al ptr then ~ exists al' fr' hend' st', heap_st base m' al' fr' hend' st'
      else free_post_st st base m m' al (abs_free (abs_heap al fr hend) ptr) x
  | None => m' = m
  end.
Proof.
  intros H Hf. destruct (stale_head st al ptr) eqn:Es.
  - destruct (free_stale_both fuel base m al fr hend st ptr H Es) as (m' & a & E & Ha & L1 & L2).
    exists m'. split; [done|]. destruct al as [|[x s] al]; [done|]. unfold stale_head in Es.
    apply andb_true_iff in Es as [_ Es]. cbn [first_such fst]. rewrite Es. by apply (both_heads_not_heap _ m' a).
  - by apply free_refines_st.
Qed.

(** ** A reuse that is not at the head

    malloc copies the header of the chunk it reuses, clears [bk] in the copy
    and never writes it back, so the chunk keeps the back pointer it had in the
    unsorted bin. *)

Definition kbase : Z := 33554432.

(** Two blocks freed, the older one (further in the bin) reused, freed and
    reused again. *)
Definition stale_trace : list heap_op :=
  [OMalloc 200; OMalloc 16; OFree (kbase + 96); OFree (kbase + 352);
   OMalloc 100; OFree (kbase + 96); OMalloc 100].

Lemma free_loop_cycle fuel base m c ptr :
  c <> 0 -> ld64 m (c + o_data) <> ptr -> ld64 m (c + o_fd) = c ->
  free_loop fuel base m c ptr = None.
Proof.
  intros H1 H2 H3. induction fuel as [|fuel IH]; simpl;
    destruct (Z.eqb_spec c 0); try done; destruct (Z.eqb_spec (ld64 m (c + o_data)) ptr); try done.
  by rewrite H3.
Qed.

Definition stale_mem : option mem :=
  heap_run 8 kbase (init_heap ∅ 0 kbase 4194304).1 stale_trace.

Definition self_cycle (base : Z) (m : mem) : bool :=
  let c := ld64 m (base + o_mchunk) in
  negb (c =? 0) && negb (ld64 m (c + o_data) =? 0) && (ld64 m (c + o_fd) =? c).

Lemma stale_cycle : match stale_mem with Some m => self_cycle kbase m | None => false end = true.
Proof. vm_compute. reflexivity. Qed.

(** Fact: after seven legal requests, the fifth reusing a chunk that is not the
    head of the unsorted bin, the allocated list is a cycle: a later free(NULL)
    never returns, whatever the fuel. *)
Theorem free_after_reuse_diverges :
  exists m, stale_mem = Some m /\ forall fuel, free fuel kbase m 0 = None.
Proof.
  pose proof stale_cycle as H. destruct stale_mem as [m|]; [|done].
  exists m. split; [done|]. intros fuel. unfold self_cycle in H.
  rewrite !andb_true_iff, !negb_true_iff, !Z.eqb_neq, Z.eqb_eq in H. destruct H as [[H1 H2] H3].
  by apply free_loop_cycle.
Qed.

(** ** Witnesses *)

(** A block freed and reused as the head of the bin, twice, and a block behind
    the head reused and kept. *)
Definition good_trace : list heap_op :=
  [OMalloc 200; OMalloc 16; OFree (kbase + 96); OMalloc 100; OFree (kbase + 96); OMalloc 48; OFree 0;
   OMalloc 300; OFree (kbase + 96); OFree (kbase + 352); OMalloc 150; OMalloc 20; OFree (kbase + 96)].

Ltac trace_side := repeat split; vm_compute; (done || discriminate || reflexivity).

Lemma heap_trace_refines_witness :
  first_stale_free (empty_heap kbase) 0 good_trace = None /\
  (exists m', heap_run 13 kbase (init_heap ∅ 0 kbase 4194304).1 good_trace = Some m' /\
    heap_rep_st kbase m' (abs_run (empty_heap kbase) 0 good_trace) /\
    (forall a, a < kbase \/ kbase + 4194304 <= a -> mread m' a = mread (init_heap ∅ 0 kbase 4194304).1 a)) /\
  exists m1 m2, heap_run 13 kbase (init_heap ∅ 0 kbase 4194304).1 (take 5 stale_trace) = Some m1 /\
    heap_rep_st kbase m1 (abs_run (empty_heap kbase) 0 (take 5 stale_trace)) /\
    (forall a, a < kbase \/ kbase + 4194304 <= a -> mread m1 a = mread (init_heap ∅ 0 kbase 4194304).1 a) /\
    free 13 kbase m1 (kbase + 96) = Some m2 /\ ~ exists al fr hend st, heap_st kbase m2 al fr hend st.
Proof.
  split; [reflexivity|]. split.
  - apply (heap_trace_refines 13 ∅ 0 kbase 4194304 good_trace);
      [reflexivity|discriminate|reflexivity|discriminate|trace_side|simpl; lia].
  - apply (heap_trace_refines 13 ∅ 0 kbase 4194304 stale_trace);
      [reflexivity|discriminate|reflexivity|discriminate|trace_side|simpl; lia].
Defined.

Lemma kernel_heap_ok : heap_ok kbase (init_heap ∅ 0 kbase 4194304).1 [] [] (kbase + 64).
Proof. exact (proj2 (proj2 (init_heap_empty ∅ 0 kbase 4194304 eq_refl eq_refl))). Qed.

Lemma malloc_refines_witness :
  exists m', malloc 0 kbase (init_heap ∅ 0 kbase 4194304).1 100 = Some (m', kbase + 96) /\
    heap_st kbase m' [(kbase + 64, 144)] [] (kbase + 256) 0 /\
    (forall b, kbase + 96 <= b < kbase + 96 + 100 -> mread m' b = 0) /\ kbase + 96 + 100 <= kbase + 4194304 /\
    Forall (fun x => kbase + 96 + 100 <= x.1 \/ x.1 + x.2 <= kbase + 96) [] /\
    (forall x b, x ∈ ([] : list block) -> x.1 + 32 <= b < x.1 + x.2 ->
      mread m' b = mread (init_heap ∅ 0 kbase 4194304).1 b) /\
    (forall b, b < kbase \/ kbase + 4194304 <= b -> mread m' b = mread (init_heap ∅ 0 kbase 4194304).1 b).
Proof.
  refine (malloc_refines 0 kbase (init_heap ∅ 0 kbase 4194304).1 [] [] (kbase + 64) 0 100 (kbase + 4194304)
           kernel_heap_ok _ _ _ _); try (by vm_compute); simpl; lia.
Defined.

Lemma kernel_heap_malloc :
  exists m, malloc 0 kbase (init_heap ∅ 0 kbase 4194304).1 100 = Some (m, kbase + 96) /\
    heap_ok kbase m [(kbase + 64, 144)] [] (kbase + 256).
Proof.
  destruct (malloc_refines_abs 0 kbase (init_heap ∅ 0 kbase 4194304).1 [] [] (kbase + 64) 100
              kernel_heap_ok) as (m & H1 & H2 & _); [trace_side|reflexivity|simpl; lia|exists m; exact (conj H1 H2)].
Qed.

Lemma free_refines_witness :
  exists m m', malloc 0 kbase (init_heap ∅ 0 kbase 4194304).1 100 = Some (m, kbase + 96) /\
    free 1 kbase m (kbase + 96) = Some m' /\
    free_post kbase m m' [(kbase + 64, 144)] (HeapAbs [] [(kbase + 64, 144)] (kbase + 256))
      (kbase + 64, 144).
Proof.
  destruct kernel_heap_malloc as (m & H1 & H2).
  destruct (free_refines 1 kbase m [(kbase + 64, 144)] [] (kbase + 256) 0 (kbase + 96) H2
              ltac:(simpl; lia)) as (m' & H3 & H4).
  exists m, m'. exact (conj H1 (conj H3 H4)).
Defined.
