(* ===== verification/Endian.v ===== *)
(** * Endian: libc/endian/endian.c

    The byte-order conversions of the network code.  A swap is described by
    where it moves every bit; that it reverses the bytes in memory and that it
    is its own inverse follow. *)

From S2P Require Import Prelude Mem.

(** [num] is stored in memory and its first byte read back. *)
Definition is_little_endian : bool := mread (st32 ∅ 0 1) 0 =? 1.

Definition swap16 (value : Z) : Z := u16 (Z.lor (Z.shiftl value 8) (Z.shiftr value 8)).

Definition swap32 (value : Z) : Z :=
  Z.lor (Z.lor (Z.lor
    (Z.land (u32 (Z.shiftl value 24)) 0xFF000000)
    (Z.land (u32 (Z.shiftl value 8)) 0x00FF0000))
    (Z.land (Z.shiftr value 8) 0x0000FF00))
    (Z.land (Z.shiftr value 24) 0x000000FF).

Definition swap64 (value : Z) : Z :=
  Z.lor (Z.lor (Z.lor (Z.lor (Z.lor (Z.lor (Z.lor
    (Z.land (u64 (Z.shiftl value 56)) 0xFF00000000000000)
    (Z.land (u64 (Z.shiftl value 40)) 0x00FF000000000000))
    (Z.land (u64 (Z.shiftl value 24)) 0x0000FF0000000000))
    (Z.land (u64 (Z.shiftl value 8)) 0x000000FF00000000))
    (Z.land (Z.shiftr value 8) 0x00000000FF000000))
    (Z.land (Z.shiftr value 24) 0x0000000000FF0000))
    (Z.land (Z.shiftr value 40) 0x000000000000FF00))
    (Z.land (Z.shiftr value 56) 0x00000000000000FF).

Definition htobe16 (host_16bits : Z) : Z := if is_little_endian then swap16 host_16bits else host_16bits.
Definition htobe32 (host_32bits : Z) : Z := if is_little_endian then swap32 host_32bits else host_32bits.
Definition htobe64 (host_64bits : Z) : Z := if is_little_endian then swap64 host_64bits else host_64bits.

Definition htole16 (host_16bits : Z) : Z := if is_little_endian then host_16bits else swap16 host_16bits.
Definition htole32 (host_32bits : Z) : Z := if is_little_endian then host_32bits else swap32 host_32bits.
Definition htole64 (host_64bits : Z) : Z := if is_little_endian then host_64bits else swap64 host_64bits.

Definition be16toh (big_endian_16bits : Z) : Z := htobe16 big_endian_16bits.
Definition be32toh (big_endian_32bits : Z) : Z := htobe32 big_endian_32bits.
Definition be64toh (big_endian_64bits : Z) : Z := htobe64 big_endian_64bits.

Definition le16toh (little_endian_16bits : Z) : Z := htole16 little_endian_16bits.
Definition le32toh (little_endian_32bits : Z) : Z := htole32 little_endian_32bits.
Definition le64toh (little_endian_64bits : Z) : Z := htole64 little_endian_64bits.

(** ** Where the bits go *)

(** The source position of bit [i] of a byte-swapped [w]-bit value. *)
Definition rev_bit (w i : Z) : Z := w - 8 - 8 * (i / 8) + i mod 8.

Lemma u16_bits x i : 0 <= i < 16 -> Z.testbit (u16 x) i = Z.testbit x i.
Proof. intros. unfold u16. change 65536 with (2 ^ 16). rewrite Z.mod_pow2_bits_low; [done|lia]. Qed.

Lemma u32_bits x i : 0 <= i < 32 -> Z.testbit (u32 x) i = Z.testbit x i.
Proof. intros. unfold u32. change 4294967296 with (2 ^ 32). rewrite Z.mod_pow2_bits_low; [done|lia]. Qed.

Lemma u64_bits x i : 0 <= i < 64 -> Z.testbit (u64 x) i = Z.testbit x i.
Proof. intros. unfold u64. change 18446744073709551616 with (2 ^ 64). rewrite Z.mod_pow2_bits_low; [done|lia]. Qed.

Lemma swap16_bits v i : 0 <= v < 2 ^ 16 -> 0 <= i < 16 ->
  Z.testbit (swap16 v) i = Z.testbit v (rev_bit 16 i).
Proof.
  intros Hv Hi. unfold swap16, rev_bit. rewrite u16_bits, Z.lor_spec, Z.shiftr_spec by lia.
  destruct (Z.lt_ge_cases i 8).
  - rewrite Z.shiftl_spec_low by lia. simpl. f_equal. zlia.
  - rewrite Z.shiftl_spec_high, (testbit_high 16 v (i + 8)), orb_false_r by lia. f_equal. zlia.
Qed.

(** One masked byte of a swap: the byte at [lo] of the result. *)
Lemma mask_byte x lo i :
  0 <= lo -> 0 <= i ->
  Z.testbit (Z.land x (Z.shiftl 255 lo)) i = (lo <=? i) && (i <? lo + 8) && Z.testbit x i.
Proof.
  intros Hlo Hi. rewrite Z.land_spec. destruct (Z.leb_spec lo i) as [H|H]; simpl.
  - rewrite Z.shiftl_spec_high by lia. destruct (Z.ltb_spec i (lo + 8)).
    + change 255 with (Z.ones 8). rewrite Z.ones_spec_low by lia. simpl. by rewrite andb_true_r.
    + change 255 with (Z.ones 8). rewrite Z.ones_spec_high by lia. simpl. apply andb_false_r.
  - rewrite Z.shiftl_spec_low by lia. apply andb_false_r.
Qed.

Lemma shl_bits w v k i : 0 <= k -> 0 <= i < w ->
  Z.testbit ((Z.shiftl v k) mod 2 ^ w) i = if i <? k then false else Z.testbit v (i - k).
Proof.
  intros. rewrite Z.mod_pow2_bits_low by lia. destruct (Z.ltb_spec i k).
  - by rewrite Z.shiftl_spec_low by lia.
  - by rewrite Z.shiftl_spec_high by lia.
Qed.

(** Bit [i] of a disjunction of masked shifts, by comparing [i] with the masks. *)
Ltac mask_cases :=
  repeat match goal with
  | |- context [?a <=? ?b] => destruct (Z.leb_spec a b); try lia
  | |- context [?a <? ?b] => destruct (Z.ltb_spec a b); try lia
  end; cbn [andb orb]; rewrite ?orb_false_r; f_equal; zlia.

Lemma swap32_bits v i : 0 <= i < 32 -> Z.testbit (swap32 v) i = Z.testbit v (rev_bit 32 i).
Proof.
  intros Hi. unfold swap32, rev_bit, u32.
  change 4294967296 with (2 ^ 32). change 0xFF000000 with (Z.shiftl 255 24).
  change 0xFF0000 with (Z.shiftl 255 16). change 0xFF00 with (Z.shiftl 255 8).
  change 0xFF with (Z.shiftl 255 0) at 4.
  rewrite !Z.lor_spec, !mask_byte, !shl_bits, !Z.shiftr_spec by lia. mask_cases.
Qed.

Lemma swap64_bits v i : 0 <= i < 64 -> Z.testbit (swap64 v) i = Z.testbit v (rev_bit 64 i).
Proof.
  intros Hi. unfold swap64, rev_bit, u64.
  change 18446744073709551616 with (2 ^ 64).
  change 0xFF00000000000000 with (Z.shiftl 255 56). change 0xFF000000000000 with (Z.shiftl 255 48).
  change 0xFF0000000000 with (Z.shiftl 255 40). change 0xFF00000000 with (Z.shiftl 255 32).
  change 0xFF000000 with (Z.shiftl 255 24). change 0xFF0000 with (Z.shiftl 255 16).
  change 0xFF00 with (Z.shiftl 255 8). change 0xFF with (Z.shiftl 255 0) at 8.
  rewrite !Z.lor_spec, !mask_byte, !shl_bits, !Z.shiftr_spec by lia. mask_cases.
Qed.

(** The results stay in their width. *)
Lemma swap16_range v : 0 <= swap16 v < 2 ^ 16.
Proof. apply u16_range. Qed.

Lemma swap32_range v : 0 <= swap32 v < 2 ^ 32.
Proof. unfold swap32. repeat (apply lor_below; [lia| |]); apply land_below; lia. Qed.

Lemma swap64_range v : 0 <= swap64 v < 2 ^ 64.
Proof. unfold swap64. repeat (apply lor_below; [lia| |]); apply land_below; lia. Qed.

Lemma rev_bit_range w i : (8 | w) -> 0 <= i < w -> 0 <= rev_bit w i < w.
Proof. intros [k ->] H. unfold rev_bit. zlia. Qed.

Lemma rev_bit_inv w i : (8 | w) -> 0 <= i < w -> rev_bit w (rev_bit w i) = i.
Proof. intros [k ->] H. unfold rev_bit. zlia. Qed.

Lemma swap16_invol v : 0 <= v < 2 ^ 16 -> swap16 (swap16 v) = v.
Proof.
  intros Hv. apply (bits_below 16); [lia|apply swap16_range|done|]. intros i Hi.
  pose proof (rev_bit_range 16 i (ltac:(by exists 2)) Hi).
  rewrite !swap16_bits, rev_bit_inv; auto using swap16_range; by exists 2.
Qed.

Lemma swap32_invol v : 0 <= v < 2 ^ 32 -> swap32 (swap32 v) = v.
Proof.
  intros Hv. apply (bits_below 32); [lia|apply swap32_range|done|]. intros i Hi.
  pose proof (rev_bit_range 32 i (ltac:(by exists 4)) Hi).
  rewrite !swap32_bits, rev_bit_inv; auto; by exists 4.
Qed.

Lemma swap64_invol v : 0 <= v < 2 ^ 64 -> swap64 (swap64 v) = v.
Proof.
  intros Hv. apply (bits_below 64); [lia|apply swap64_range|done|]. intros i Hi.
  pose proof (rev_bit_range 64 i (ltac:(by exists 8)) Hi).
  rewrite !swap64_bits, rev_bit_inv; auto; by exists 8.
Qed.

(** ** The bytes in memory *)

(** Byte [k] of a value, from the least significant. *)
Definition byte_of (v k : Z) : Z := v / 256 ^ k mod 256.

Lemma mread_store_in n m a v k :
  0 <= k < Z.of_nat n -> mread (store n m a v) (a + k) = byte_of v k.
Proof.
  revert m a v k. induction n as [|n IH]; intros m a v k Hk; [lia|].
  change (store (S n) m a v) with (store n (mwrite m a v) (a + 1) (v / 256)).
  destruct (Z.eq_dec k 0) as [->|Hne].
  - rewrite mread_store_out by lia. rewrite Z.add_0_r, mread_mwrite_eq. unfold byte_of, u8.
    by rewrite Z.pow_0_r, Z.div_1_r.
  - replace (a + k) with (a + 1 + (k - 1)) by lia. rewrite IH by lia. unfold byte_of.
    rewrite Z.div_div by lia. f_equal. f_equal.
    replace k with (1 + (k - 1)) at 2 by lia. rewrite Z.pow_add_r by lia. lia.
Qed.

Lemma byte_of_bits v k j : 0 <= k -> 0 <= j < 8 -> Z.testbit (byte_of v k) j = Z.testbit v (8 * k + j).
Proof.
  intros. unfold byte_of. change 256 with (2 ^ 8) at 2. rewrite Z.mod_pow2_bits_low by lia.
  replace (256 ^ k) with (2 ^ (8 * k)) by (by rewrite Z.pow_mul_r by lia).
  rewrite Z.div_pow2_bits by lia. f_equal. lia.
Qed.

Lemma byte_of_eq v v' k k' :
  0 <= k -> 0 <= k' ->
  (forall j, 0 <= j < 8 -> Z.testbit v (8 * k + j) = Z.testbit v' (8 * k' + j)) ->
  byte_of v k = byte_of v' k'.
Proof.
  intros Hk Hk' H. apply (bits_below 8); [lia|unfold byte_of; apply Z.mod_pos_bound; lia..|].
  intros j Hj. rewrite !byte_of_bits by lia. by apply H.
Qed.

Lemma rev_bit_byte w k j : (8 | w) -> 0 <= j < 8 -> rev_bit w (8 * k + j) = 8 * (w / 8 - 1 - k) + j.
Proof. intros [q ->] H. unfold rev_bit. zlia. Qed.

Lemma little_endian : is_little_endian = true.
Proof. reflexivity. Qed.

(** Fact: the host-to-network conversions really produce network byte order on
    this little-endian machine: a value converted with htobe16/32/64 and stored
    lies in memory most significant byte first, byte [k] of the field being byte
    [n-1-k] of the value. *)
Theorem htobe_network_order m a v k :
  (0 <= v < 2 ^ 16 -> 0 <= k < 2 -> mread (st16 m a (htobe16 v)) (a + k) = byte_of v (1 - k)) /\
  (0 <= v < 2 ^ 32 -> 0 <= k < 4 -> mread (st32 m a (htobe32 v)) (a + k) = byte_of v (3 - k)) /\
  (0 <= v < 2 ^ 64 -> 0 <= k < 8 -> mread (st64 m a (htobe64 v)) (a + k) = byte_of v (7 - k)).
Proof.
  unfold htobe16, htobe32, htobe64. rewrite little_endian.
  split_and!; intros Hv Hk; rewrite mread_store_in by lia; apply byte_of_eq; try lia; intros j Hj.
  - rewrite swap16_bits, rev_bit_byte by (lia || by exists 2). f_equal; lia.
  - rewrite swap32_bits, rev_bit_byte by (lia || by exists 4). f_equal; lia.
  - rewrite swap64_bits, rev_bit_byte by (lia || by exists 8). f_equal; lia.
Qed.

(** Fact: converting to network order and back is the identity on every value
    of the width, for the three widths and both directions. *)
Theorem byte_order_roundtrip v :
  (0 <= v < 2 ^ 16 -> be16toh (htobe16 v) = v /\ le16toh (htole16 v) = v) /\
  (0 <= v < 2 ^ 32 -> be32toh (htobe32 v) = v /\ le32toh (htole32 v) = v) /\
  (0 <= v < 2 ^ 64 -> be64toh (htobe64 v) = v /\ le64toh (htole64 v) = v).
Proof.
  unfold be16toh, be32toh, be64toh, le16toh, le32toh, le64toh, htobe16, htobe32, htobe64,
    htole16, htole32, htole64. rewrite little_endian.
  split_and!; intros Hv; split; auto using swap16_invol, swap32_invol, swap64_invol.
Qed.

(** ** Witnesses *)

Lemma htobe_network_order_witness :
  mread (st32 ∅ 100 (htobe32 0x0A000002)) 100 = 10 /\
  mread (st16 ∅ 0 (htobe16 53)) 1 = byte_of 53 0.
Proof.
  split.
  - exact (proj1 (proj2 (htobe_network_order ∅ 100 0x0A000002 0)) ltac:(lia) ltac:(lia)).
  - exact (proj1 (htobe_network_order ∅ 0 53 1) ltac:(lia) ltac:(lia)).
Defined.

Lemma byte_order_roundtrip_witness : be16toh (htobe16 0x1234) = 0x1234 /\ htobe16 0x1234 = 0x3412.
Proof.
  split; [|reflexivity]. exact (proj1 (proj1 (byte_order_roundtrip 0x1234) ltac:(lia))).
Defined.
