(* ===== verification/CString.v ===== *)
(** * CString: libc/string/string.c, strlen.c and libc/ctype/ctype.c

    NUL-terminated strings in memory.  The scanning loops take fuel and return
    [None] when it runs out; [cstr m a s] says that the bytes [s], none of them
    NUL, and a terminator are at [a], and every routine returns on such a string
    with fuel its length plus one. *)

From S2P Require Import Prelude Mem.

Definition NULL : Z := 0.

(** ** ctype.c *)

Definition isdigit (c : Z) : bool := (48 <=? c) && (c <=? 57).

Definition isspace (c : Z) : bool :=
  (c =? 32) || (c =? 9) || (c =? 10) || (c =? 11) || (c =? 12) || (c =? 13).

Definition isxdigit (c : Z) : bool :=
  ((48 <=? c) && (c <=? 57)) || ((97 <=? c) && (c <=? 102)) || ((65 <=? c) && (c <=? 70)).

Definition tolower (c : Z) : Z := if (65 <=? c) && (c <=? 90) then c + (97 - 65) else c.

(** ** strlen.c *)

Fixpoint strlen_loop (fuel : nat) (m : mem) (str len : Z) : option Z :=
  match fuel with
  | O => None
  | S fuel => if mread m (str + len) =? 0 then Some len else strlen_loop fuel m str (len + 1)
  end.

Definition strlen (fuel : nat) (m : mem) (str : Z) : option Z := strlen_loop fuel m str 0.

(** The digit test of [isnumber] reads a signed char; a byte of 128 or more is
    negative and no digit either way. *)
Fixpoint isnumber_loop (k : nat) (m : mem) (s i : Z) : bool :=
  match k with
  | O => true
  | S k => if negb (isdigit (s8 (mread m (s + i)))) then false else isnumber_loop k m s (i + 1)
  end.

Definition isnumber (fuel : nat) (m : mem) (s : Z) : option bool :=
  len ← strlen fuel m s; Some (isnumber_loop (Z.to_nat len) m s 0).

(** ** string.c *)

Fixpoint strchr_loop (fuel : nat) (m : mem) (s c : Z) : option Z :=
  match fuel with
  | O => None
  | S fuel =>
      if mread m s =? 0 then Some (if negb (c =? 0) then NULL else s)
      else if mread m s =? u8 c then Some s
      else strchr_loop fuel m (s + 1) c
  end.

Definition strchr (fuel : nat) (m : mem) (s c : Z) : option Z := strchr_loop fuel m s c.

Fixpoint strncmp_loop (k : nat) (m : mem) (a b i : Z) : Z :=
  match k with
  | O => 0
  | S k =>
      if (mread m (a + i) =? 0) && (mread m (b + i) =? 0) then 0
      else if mread m (a + i) =? 0 then -1
      else if mread m (b + i) =? 0 then 1
      else if mread m (a + i) <? mread m (b + i) then -1
      else if mread m (b + i) <? mread m (a + i) then 1
      else strncmp_loop k m a b (i + 1)
  end.

Definition strncmp (m : mem) (aptr bptr size : Z) : Z := strncmp_loop (Z.to_nat size) m aptr bptr 0.

Fixpoint strrchr_loop (fuel : nat) (m : mem) (str c last_occurrence : Z) : option Z :=
  match fuel with
  | O => None
  | S fuel =>
      if mread m str =? 0 then Some (if c =? 0 then str else last_occurrence)
      else strrchr_loop fuel m (str + 1) c (if mread m str =? u8 c then str else last_occurrence)
  end.

Definition strrchr (fuel : nat) (m : mem) (str c : Z) : option Z := strrchr_loop fuel m str c NULL.

(** The inner loop of strstr: where [n] stops. *)
Fixpoint strstr_match (fuel : nat) (m : mem) (h n : Z) : option Z :=
  match fuel with
  | O => None
  | S fuel =>
      if (mread m h =? mread m n) && negb (mread m n =? 0)
      then strstr_match fuel m (h + 1) (n + 1) else Some n
  end.

Fixpoint strstr_loop (fuel : nat) (m : mem) (haystack needle : Z) : option Z :=
  match fuel with
  | O => None
  | S k =>
      if mread m haystack =? 0 then Some NULL
      else n ← strstr_match fuel m haystack needle;
           if mread m n =? 0 then Some haystack else strstr_loop k m (haystack + 1) needle
  end.

Definition strstr (fuel : nat) (m : mem) (haystack needle : Z) : option Z :=
  if (needle =? NULL) || (mread m needle =? 0) then Some haystack
  else if (haystack =? NULL) || (mread m haystack =? 0) then Some NULL
  else strstr_loop fuel m haystack needle.

(** strtok keeps its position in the static [start]: it is passed and returned.
    The search for the token's end calls strchr on the delimiters. *)
Fixpoint tok_end (fuel : nat) (m : mem) (e delim : Z) : option Z :=
  match fuel with
  | O => None
  | S k =>
      if mread m e =? 0 then Some e
      else p ← strchr fuel m delim (s8 (mread m e));
           if p =? NULL then tok_end k m (e + 1) delim else Some e
  end.

(** Returns the memory, the new [start] and the token. *)
Definition strtok (fuel : nat) (m : mem) (start str delim : Z) : option (mem * Z * Z) :=
  let start := if negb (str =? NULL) then str else start in
  if start =? NULL then Some (m, start, NULL)
  else
    e ← tok_end fuel m start delim;
    if e =? start then Some (m, NULL, NULL)
    else if mread m e =? 0 then Some (m, NULL, start)
    else Some (mwrite m e 0, e + 1, start).

Fixpoint strcmp_loop (fuel : nat) (m : mem) (s1 s2 : Z) : option Z :=
  match fuel with
  | O => None
  | S fuel =>
      if negb (mread m s1 =? 0) && (mread m s1 =? mread m s2)
      then strcmp_loop fuel m (s1 + 1) (s2 + 1)
      else Some (mread m s1 - mread m s2)
  end.

Definition strcmp (fuel : nat) (m : mem) (s1 s2 : Z) : option Z := strcmp_loop fuel m s1 s2.

(** [while ( *dst) dst++] *)
Fixpoint str_end (fuel : nat) (m : mem) (dst : Z) : option Z :=
  match fuel with
  | O => None
  | S fuel => if mread m dst =? 0 then Some dst else str_end fuel m (dst + 1)
  end.

(** [while ( *src) *(dst++) = *(src++)]: the memory and the advanced dst. *)
Fixpoint str_copy (fuel : nat) (m : mem) (dst src : Z) : option (mem * Z) :=
  match fuel with
  | O => None
  | S fuel =>
      if mread m src =? 0 then Some (m, dst)
      else str_copy fuel (mwrite m dst (mread m src)) (dst + 1) (src + 1)
  end.

Definition strcat (fuel : nat) (m : mem) (dst src : Z) : option (mem * Z) :=
  let dst_save := dst in
  dst ← str_end fuel m dst;
  '(m, dst) ← str_copy fuel m dst src;
  Some (mwrite m dst 0, dst_save).

(** argv is an array of pointers in memory. *)
Fixpoint strjoin_loop (fuel k : nat) (m : mem) (dst i argv delim : Z) : option (mem * Z) :=
  match k with
  | O => Some (m, dst)
  | S k =>
      '(m, dst) ← str_copy fuel m dst (ld64 m (argv + 8 * i));
      '(m, dst) ← str_copy fuel m dst delim;
      strjoin_loop fuel k m dst (i + 1) argv delim
  end.

Definition strjoin (fuel : nat) (m : mem) (dst argc argv delim : Z) : option (mem * Z) :=
  let dst_save := dst in
  dst ← str_end fuel m dst;
  '(m, dst) ← strjoin_loop fuel (Z.to_nat (argc - 1)) m dst 0 argv delim;
  '(m, dst) ← str_copy fuel m dst (ld64 m (argv + 8 * (argc - 1)));
  Some (mwrite m dst 0, dst_save).

(** ** Strings in memory *)

Fixpoint cstr (m : mem) (a : Z) (s : list Z) : Prop :=
  match s with
  | [] => mread m a = 0
  | c :: s => mread m a = c /\ c <> 0 /\ cstr m (a + 1) s
  end.

Lemma cstr_app m a s t : cstr m a (s ++ t) <->
  (forall i c, s !! i = Some c -> mread m (a + Z.of_nat i) = c /\ c <> 0) /\ cstr m (a + zlen s) t.
Proof.
  revert a. induction s as [|c s IH]; intros a; simpl.
  - rewrite Z.add_0_r. split; [intros H; split; [by intros|done]|by intros [_ H]].
  - rewrite IH, zlen_cons, Z.add_assoc. split.
    + intros (H1 & H2 & H3 & H4). split; [|done].
      intros [|i] d; simpl; [intros [= <-]; rewrite Z.add_0_r; done|].
      intros Hd. destruct (H3 i d Hd). split; [|done]. by replace (a + Z.of_nat (S i)) with (a + 1 + Z.of_nat i) by lia.
    + intros [H1 H2]. destruct (H1 0%nat c eq_refl) as [H3 H4].
      rewrite Z.add_0_r in H3. split_and!; try done.
      intros i d Hd. destruct (H1 (S i) d Hd). split; [|done].
      by replace (a + 1 + Z.of_nat i) with (a + Z.of_nat (S i)) by lia.
Qed.

Lemma cstr_ext m1 m2 a s :
  (forall b, a <= b <= a + zlen s -> mread m2 b = mread m1 b) -> cstr m1 a s -> cstr m2 a s.
Proof.
  revert a. induction s as [|c s IH]; intros a H; simpl.
  - intros. rewrite H; [done|]. unfold zlen. simpl. lia.
  - rewrite zlen_cons in H. pose proof (zlen_nonneg s). intros (H1 & H2 & H3). rewrite H by lia.
    split_and!; try done. apply IH; [|done]. intros b Hb. apply H. lia.
Qed.

Lemma cstr_fun m a s t : cstr m a s -> cstr m a t -> s = t.
Proof.
  revert a t. induction s as [|c s IH]; intros a [|d t]; simpl; try done; try congruence.
  - by intros -> (<- & ? & _).
  - by intros (<- & H & _) ?.
  - intros (<- & _ & H1) (<- & _ & H2). f_equal. by apply (IH (a + 1)).
Qed.

Lemma cstr_chars m a s : cstr m a s -> Forall (fun c => 0 < c < 256) s.
Proof.
  revert a. induction s as [|c s IH]; intros a; simpl; [done|].
  intros (<- & H1 & H2). constructor; [|by eapply IH]. pose proof (mread_range m a). lia.
Qed.

(** ** The scans *)

Lemma strlen_loop_spec fuel m a s len :
  cstr m (a + len) s -> (length s < fuel)%nat -> strlen_loop fuel m a len = Some (len + zlen s).
Proof.
  revert fuel len. induction s as [|c s IH]; intros [|fuel] len; simpl; try lia.
  - intros -> _. simpl. f_equal. unfold zlen. simpl. lia.
  - intros (-> & Hc & Hs) Hf. destruct (Z.eqb_spec c 0); [done|].
    rewrite IH; [rewrite zlen_cons; f_equal; lia| |lia]. by rewrite Z.add_assoc.
Qed.

Lemma strlen_spec fuel m a s : cstr m a s -> (length s < fuel)%nat -> strlen fuel m a = Some (zlen s).
Proof. intros. apply (strlen_loop_spec fuel m a s 0); [by rewrite Z.add_0_r|done]. Qed.

(** Position of the first and of the last occurrence. *)
Fixpoint index_of (c : Z) (s : list Z) : option Z :=
  match s with
  | [] => None
  | d :: s => if d =? c then Some 0 else i ← index_of c s; Some (i + 1)
  end.

Fixpoint rindex_of (c : Z) (s : list Z) : option Z :=
  match s with
  | [] => None
  | d :: s => match rindex_of c s with
              | Some i => Some (i + 1)
              | None => if d =? c then Some 0 else None
              end
  end.

Lemma strchr_spec fuel m a s c :
  cstr m a s -> (length s < fuel)%nat -> 0 < c < 256 ->
  strchr fuel m a c = Some (match index_of c s with Some i => a + i | None => NULL end).
Proof.
  intros Hs Hf Hc. revert fuel a Hs Hf. induction s as [|d s IH]; intros [|fuel] a; simpl; try lia.
  - intros -> _. simpl. by destruct (Z.eqb_spec c 0); [lia|].
  - intros (-> & Hd & Hs) Hf. destruct (Z.eqb_spec d 0); [done|]. rewrite u8_small by lia.
    destruct (d =? c); [by rewrite Z.add_0_r|]. unfold strchr in IH. rewrite IH by (done || lia).
    destruct (index_of c s); simpl; [f_equal; lia|done].
Qed.

Lemma strchr_nul fuel m a s :
  cstr m a s -> (length s < fuel)%nat -> strchr fuel m a 0 = Some (a + zlen s).
Proof.
  revert fuel a. induction s as [|d s IH]; intros [|fuel] a; simpl; try lia.
  - intros -> _. simpl. f_equal. unfold zlen; simpl; lia.
  - intros (-> & Hd & Hs) Hf. destruct (Z.eqb_spec d 0); [done|]. change (u8 0) with 0.
    destruct (Z.eqb_spec d 0); [done|]. unfold strchr in IH. rewrite IH by (done || lia).
    rewrite zlen_cons. f_equal. lia.
Qed.

Lemma strrchr_loop_spec fuel m a s c l :
  cstr m a s -> (length s < fuel)%nat -> 0 < c < 256 ->
  strrchr_loop fuel m a c l = Some (match rindex_of c s with Some i => a + i | None => l end).
Proof.
  intros Hs Hf Hc. revert fuel a l Hs Hf. induction s as [|d s IH]; intros [|fuel] a l; simpl; try lia.
  - intros -> _. simpl. by destruct (Z.eqb_spec c 0); [lia|].
  - intros (-> & Hd & Hs) Hf. destruct (Z.eqb_spec d 0); [done|]. rewrite u8_small by lia.
    rewrite IH by (done || lia). destruct (rindex_of c s); [f_equal; lia|].
    destruct (d =? c); f_equal; lia.
Qed.

(** ** Comparison *)

(** The difference at the first position where two strings differ, a missing
    character counting as NUL. *)
Fixpoint str_diff (s t : list Z) : Z :=
  match s, t with
  | [], [] => 0
  | [], d :: _ => - d
  | c :: _, [] => c
  | c :: s, d :: t => if c =? d then str_diff s t else c - d
  end.

Lemma str_diff_zero s t : Forall (fun c => 0 < c < 256) s -> Forall (fun c => 0 < c < 256) t ->
  str_diff s t = 0 <-> s = t.
Proof.
  intros Hs. revert t. induction Hs as [|c s Hc Hs IH]; intros [|d t] Ht; simpl; try done.
  - apply list.Forall_cons in Ht as [Hd _]. split; [lia|done].
  - split; [lia|done].
  - apply list.Forall_cons in Ht as [Hd Ht]. destruct (Z.eqb_spec c d) as [->|Hne].
    + rewrite IH by done. split; congruence.
    + split; [lia|congruence].
Qed.

Lemma strcmp_diff fuel m a b s t :
  cstr m a s -> cstr m b t -> (length s < fuel)%nat -> strcmp fuel m a b = Some (str_diff s t).
Proof.
  revert fuel a b t. induction s as [|c s IH]; intros [|fuel] a b [|d t]; simpl; try lia.
  - intros -> ->. done.
  - intros -> (-> & _). simpl. done.
  - intros (-> & Hc & _) -> _. destruct (Z.eqb_spec c 0); [done|]. simpl. f_equal. lia.
  - intros (-> & Hc & Hs) (-> & Hd & Ht) Hf. destruct (Z.eqb_spec c 0); [done|]. simpl.
    destruct (Z.eqb_spec c d); [|done]. unfold strcmp in IH. by rewrite (IH _ _ _ t) by (done || lia).
Qed.

Lemma strncmp_loop_spec k m a b s t i :
  cstr m (a + i) s -> cstr m (b + i) t ->
  strncmp_loop k m a b i = Z.sgn (str_diff (take k s) (take k t)).
Proof.
  revert i s t. induction k as [|k IH]; intros i s t; [done|]. cbn [strncmp_loop].
  destruct s as [|c s], t as [|d t]; cbn [cstr take str_diff].
  - by intros -> ->.
  - intros -> (H & Hd & _). pose proof (mread_range m (b + i)). rewrite H.
    destruct (Z.eqb_spec d 0); [done|]. simpl. rewrite Z.sgn_neg; lia.
  - intros (H & Hc & _) ->. pose proof (mread_range m (a + i)). rewrite H.
    destruct (Z.eqb_spec c 0); [done|]. simpl. rewrite Z.sgn_pos; lia.
  - intros (-> & Hc & Hs) (-> & Hd & Ht).
    destruct (Z.eqb_spec c 0), (Z.eqb_spec d 0); try done. cbn [andb].
    rewrite <- Z.add_assoc in Hs, Ht.
    destruct (Z.ltb_spec c d); [destruct (Z.eqb_spec c d); [lia|rewrite Z.sgn_neg; lia]|].
    destruct (Z.ltb_spec d c); [destruct (Z.eqb_spec c d); [lia|rewrite Z.sgn_pos; lia]|].
    destruct (Z.eqb_spec c d); [|lia]. by apply IH.
Qed.

(** ** Substring search *)

Fixpoint prefixb (n h : list Z) : bool :=
  match n, h with
  | [], _ => true
  | c :: n, d :: h => (c =? d) && prefixb n h
  | _ :: _, [] => false
  end.

Fixpoint find_sub (n h : list Z) : option Z :=
  if prefixb n h then Some 0
  else match h with [] => None | _ :: h => i ← find_sub n h; Some (i + 1) end.

Lemma prefixb_spec n h : prefixb n h = true <-> exists k, h = n ++ k.
Proof.
  revert h. induction n as [|c n IH]; intros [|d h]; simpl.
  - split; [by exists []|done].
  - split; [by eexists|done].
  - split; [done|by intros [k ?]].
  - rewrite andb_true_iff, Z.eqb_eq, IH. split.
    + intros [-> [k ->]]. by exists k.
    + intros [k [= -> ->]]. split; [done|by exists k].
Qed.

Lemma strstr_match_spec fuel m h n hs ns :
  cstr m h hs -> cstr m n ns -> (length hs < fuel)%nat ->
  exists p, strstr_match fuel m h n = Some p /\ (mread m p =? 0) = prefixb ns hs.
Proof.
  revert fuel h n ns. induction hs as [|c hs IH]; intros [|fuel] h n [|d ns]; simpl; try lia.
  - intros -> Hn _. rewrite Hn. simpl. exists n. by rewrite Hn.
  - intros -> (Hn & Hd & _) _. rewrite Hn. exists n. rewrite Hn.
    destruct (Z.eqb_spec 0 d), (Z.eqb_spec d 0); try done.
  - intros (-> & Hc & _) Hn _. rewrite Hn. exists n. rewrite Hn.
    by destruct (Z.eqb_spec c 0).
  - intros (-> & Hc & Hh) (Hn & Hd & Hns) Hf. rewrite Hn.
    destruct (Z.eqb_spec c d) as [->|Hne]; simpl.
    + destruct (Z.eqb_spec d 0); [done|]. simpl. rewrite Z.eqb_refl. simpl.
      apply IH; [done|done|lia].
    + exists n. rewrite Hn. destruct (Z.eqb_spec d 0), (Z.eqb_spec d c); try done; congruence.
Qed.

Lemma strstr_loop_spec fuel m h n hs ns :
  cstr m h hs -> cstr m n ns -> ns <> [] -> (length hs < fuel)%nat ->
  strstr_loop fuel m h n = Some (match find_sub ns hs with Some i => h + i | None => NULL end).
Proof.
  intros Hh Hn Hne. revert fuel h Hh. induction hs as [|c hs IH]; intros [|fuel] h; cbn [length]; try lia.
  - intros Hh _. cbn [strstr_loop]. simpl in Hh. rewrite Hh. by destruct ns.
  - intros Hh Hf. destruct (strstr_match_spec (S fuel) m h n (c :: hs) ns Hh Hn) as (p & Hp & Hz);
      [simpl; lia|].
    cbn [strstr_loop]. rewrite Hp. cbn [mbind option_bind]. rewrite Hz.
    destruct Hh as (-> & Hc & Hh). destruct (Z.eqb_spec c 0); [done|].
    cbn [find_sub]. destruct (prefixb ns (c :: hs)); [by rewrite Z.add_0_r|].
    rewrite IH by (done || lia). destruct (find_sub ns hs); simpl; [f_equal; lia|done].
Qed.

(** ** Copies *)

Lemma str_end_spec fuel m a s : cstr m a s -> (length s < fuel)%nat -> str_end fuel m a = Some (a + zlen s).
Proof.
  revert fuel a. induction s as [|c s IH]; intros [|fuel] a; simpl; try lia.
  - intros -> _. simpl. f_equal. unfold zlen; simpl; lia.
  - intros (-> & Hc & Hs) Hf. destruct (Z.eqb_spec c 0); [done|].
    rewrite IH by (done || lia). rewrite zlen_cons. f_equal. lia.
Qed.

Lemma str_copy_spec fuel m dst src t :
  cstr m src t -> (length t < fuel)%nat ->
  dst + zlen t <= src \/ src + zlen t < dst ->
  str_copy fuel m dst src = Some (mputs m dst t, dst + zlen t).
Proof.
  revert fuel m dst src. induction t as [|c t IH]; intros [|fuel] m dst src; simpl; try lia.
  - intros -> _ _. simpl. do 2 f_equal. unfold zlen; simpl; lia.
  - rewrite zlen_cons. pose proof (zlen_nonneg t). intros (Hc & Hc0 & Ht) Hf Hd. rewrite Hc.
    destruct (Z.eqb_spec c 0); [done|]. rewrite IH; [do 2 f_equal; lia| |lia|lia].
    eapply cstr_ext; [|exact Ht]. intros b Hb. apply mread_mwrite_ne. lia.
Qed.

Lemma cstr_put m a s t :
  (forall i c, s !! i = Some c -> mread m (a + Z.of_nat i) = c /\ c <> 0) ->
  Forall (fun c => 0 < c < 256) t ->
  cstr (mwrite (mputs m (a + zlen s) t) (a + zlen s + zlen t) 0) a (s ++ t).
Proof.
  intros Hs Ht. pose proof (zlen_nonneg t). rewrite <- (app_nil_r (s ++ t)). apply cstr_app. split.
  - intros i c Hi. apply lookup_app_Some in Hi as [Hi|[Hlen Hi]].
    + destruct (Hs i c Hi). split; [|done]. apply lookup_lt_Some in Hi. unfold zlen in *.
      rewrite mread_mwrite_ne, mread_mputs_out by (unfold zlen; lia). done.
    + rewrite list.Forall_forall in Ht. destruct (Ht c) as [Hc Hc'].
      { by eapply list_elem_of_lookup_2. }
      pose proof (lookup_lt_Some _ _ _ Hi) as Hlt. split; [|lia]. unfold zlen in *.
      rewrite mread_mwrite_ne by lia.
      replace (a + Z.of_nat i) with (a + Z.of_nat (length s) + Z.of_nat (i - length s)) by lia.
      rewrite (mread_mputs_in _ _ _ _ c Hi). apply u8_small. lia.
  - simpl. rewrite zlen_app, Z.add_assoc, mread_mwrite_eq. done.
Qed.

Lemma cstr_prefix m a s i c : cstr m a s -> s !! i = Some c -> mread m (a + Z.of_nat i) = c /\ c <> 0.
Proof. rewrite <- (app_nil_r s) at 1. intros [H _]%cstr_app. apply H. Qed.

(** The string at [p] lies outside the bytes [lo, hi). *)
Definition clear_of (lo hi p : Z) (s : list Z) : Prop := p + zlen s < lo \/ hi <= p.

(** Copying a string that is clear of the text being built appends it. *)
Lemma str_copy_append fuel m lo hi w p t :
  cstr m p t -> (length t < fuel)%nat -> clear_of lo hi p t -> lo + zlen (w ++ t) <= hi ->
  str_copy fuel (mputs m lo w) (lo + zlen w) p = Some (mputs m lo (w ++ t), lo + zlen (w ++ t)).
Proof.
  intros Hp Hf Hc Hhi. unfold clear_of in Hc. rewrite zlen_app in *.
  pose proof (zlen_nonneg w). pose proof (zlen_nonneg t).
  rewrite (str_copy_spec fuel _ _ _ t); [|  |done|lia].
  - rewrite mputs_app. do 2 f_equal. lia.
  - eapply cstr_ext; [|exact Hp]. intros b Hb. apply mread_mputs_out. lia.
Qed.

(** The strings of an argument vector: the pointers are in the array and the
    strings behind them, all clear of [lo, hi). *)
Fixpoint args_at (m : mem) (fuel : nat) (lo hi argv i : Z) (ts : list (list Z)) : Prop :=
  match ts with
  | [] => True
  | t :: ts =>
      (argv + 8 * i + 8 <= lo \/ hi <= argv + 8 * i) /\
      cstr m (ld64 m (argv + 8 * i)) t /\ clear_of lo hi (ld64 m (argv + 8 * i)) t /\
      (length t < fuel)%nat /\ args_at m fuel lo hi argv (i + 1) ts
  end.

(** The arguments with the delimiter between them. *)
Fixpoint join (d : list Z) (ts : list (list Z)) : list Z :=
  match ts with
  | [] => []
  | [t] => t
  | t :: ts => t ++ d ++ join d ts
  end.

Lemma ld64_mputs_out m lo w a : a + 8 <= lo \/ lo + zlen w <= a -> ld64 (mputs m lo w) a = ld64 m a.
Proof. intros H. apply load_ext. intros b Hb. apply mread_mputs_out. simpl in Hb. lia. Qed.

Lemma strjoin_loop_spec fuel m lo hi w i argv delim d ts t :
  args_at m fuel lo hi argv i (ts ++ [t]) -> cstr m delim d -> (length d < fuel)%nat ->
  clear_of lo hi delim d -> lo + zlen (w ++ join d (ts ++ [t])) <= hi ->
  exists m1 dst, strjoin_loop fuel (length ts) (mputs m lo w) (lo + zlen w) i argv delim = Some (m1, dst) /\
    str_copy fuel m1 dst (ld64 m1 (argv + 8 * (i + zlen ts))) =
      Some (mputs m lo (w ++ join d (ts ++ [t])), lo + zlen (w ++ join d (ts ++ [t]))).
Proof.
  intros Ha Hd Hfd Hcd. revert w i Ha. induction ts as [|x ts IH]; intros w i Ha Hhi; cbn [length strjoin_loop].
  - destruct Ha as (Ha1 & Ha2 & Ha3 & Ha4 & _). simpl in Hhi. rewrite zlen_app in Hhi.
    pose proof (zlen_nonneg t). do 2 eexists. split; [reflexivity|].
    unfold zlen at 2. simpl. rewrite Z.add_0_r, ld64_mputs_out by lia.
    apply (str_copy_append _ _ _ hi); try done. rewrite zlen_app. lia.
  - assert (join d ((x :: ts) ++ [t]) = x ++ d ++ join d (ts ++ [t])) as Hj by (by destruct ts).
    rewrite Hj in *. destruct Ha as (Ha1 & Ha2 & Ha3 & Ha4 & Ha5).
    pose proof (zlen_nonneg x). pose proof (zlen_nonneg d). pose proof (zlen_nonneg (join d (ts ++ [t]))).
    rewrite !zlen_app in Hhi. rewrite ld64_mputs_out by lia.
    rewrite (str_copy_append _ _ _ hi _ _ x) by (done || rewrite zlen_app; lia). cbn [mbind option_bind].
    rewrite (str_copy_append _ _ _ hi _ _ d) by (done || rewrite !zlen_app; lia). cbn [mbind option_bind].
    replace (i + zlen (x :: ts)) with (i + 1 + zlen ts) by (rewrite zlen_cons; lia).
    destruct (IH ((w ++ x) ++ d) (i + 1)) as (m1 & dst & HJ1 & HJ2); [done|rewrite !zlen_app; lia|].
    exists m1, dst. split; [done|]. rewrite HJ2, <- !app_assoc. done.
Qed.

(** ** Tokens *)

(** The tokens the repeated calls of strtok deliver: maximal runs without a
    delimiter, ending at the first empty one. *)
Fixpoint tokens (d acc s : list Z) : list (list Z) :=
  match s with
  | [] => match acc with [] => [] | _ => [acc] end
  | c :: s =>
      if bool_decide (c ∈ d) then match acc with [] => [] | _ => acc :: tokens d [] s end
      else tokens d (acc ++ [c]) s
  end.

(** strtok called with the string, then with NULL until it returns NULL. *)
Fixpoint strtok_all (fuel k : nat) (m : mem) (start str delim : Z) : option (mem * list Z) :=
  match k with
  | O => None
  | S k =>
      '(m, start, token) ← strtok fuel m start str delim;
      if token =? NULL then Some (m, [])
      else '(m, ts) ← strtok_all fuel k m start NULL delim; Some (m, token :: ts)
  end.

Lemma index_of_None c s : index_of c s = None <-> c ∉ s.
Proof.
  induction s as [|d s IH]; simpl; [by split; [set_solver|]|].
  rewrite not_elem_of_cons. destruct (Z.eqb_spec d c) as [->|Hne]; [by split; [|intros []]|].
  destruct (index_of c s) eqn:E; simpl.
  - split; [done|]. intros [_ H]. by apply IH in H.
  - split; [|done]. intros _. split; [congruence|by apply IH].
Qed.

Lemma index_of_nonneg c s i : index_of c s = Some i -> 0 <= i.
Proof.
  revert i. induction s as [|d s IH]; intros i; simpl; [done|].
  destruct (d =? c); [by intros [= <-]|]. destruct (index_of c s) as [j|]; [|done].
  intros [= <-]. specialize (IH j eq_refl). lia.
Qed.

(** A delimiter test on the signed character is one on the byte. *)
Lemma strchr_s8 fuel m a c : 0 <= c < 256 -> strchr fuel m a (s8 c) = strchr fuel m a c.
Proof.
  intros Hc. unfold strchr. revert a. induction fuel as [|k IH]; intros a; [done|]. simpl.
  rewrite IH. assert (u8 (s8 c) = u8 c) as -> by ulia.
  destruct (Z.eqb_spec (s8 c) 0), (Z.eqb_spec c 0); try done; ulia.
Qed.

(** The end of the token: the string splits into a delimiter-free prefix and a
    rest that is empty or starts with a delimiter. *)
Lemma tok_end_spec fuel m e delim d t rest :
  cstr m e (t ++ rest) -> cstr m delim d -> 0 < delim ->
  (length (t ++ rest) + length d < fuel)%nat -> Forall (fun c => c ∉ d) t ->
  match rest with [] => True | c :: _ => c ∈ d end ->
  tok_end fuel m e delim = Some (e + zlen t).
Proof.
  intros Ht Hd Hdl Hf Hall Hr. revert fuel e Ht Hf. induction t as [|c t IH]; intros fuel e Ht Hf.
  - rewrite Z.add_0_r. destruct fuel as [|fuel]; [lia|]. cbn [tok_end].
    destruct rest as [|c rest]; simpl in Ht; [by rewrite Ht|]. destruct Ht as (Hc & Hc0 & _).
    pose proof (mread_range m e) as Hrg. rewrite Hc in Hrg |- *. destruct (Z.eqb_spec c 0); [done|].
    rewrite strchr_s8, (strchr_spec _ _ _ d) by (done || simpl in *; lia). cbn [mbind option_bind].
    destruct (index_of c d) as [i|] eqn:E; [|by apply index_of_None in E].
    apply index_of_nonneg in E. destruct (Z.eqb_spec (delim + i) NULL) as [Hn|]; [unfold NULL in *; lia|done].
  - apply list.Forall_cons in Hall as [Hc Hall]. simpl in Ht, Hf. destruct Ht as (Hcm & Hc0 & Ht).
    destruct fuel as [|fuel]; [lia|]. cbn [tok_end].
    pose proof (mread_range m e) as Hrg. rewrite Hcm in Hrg |- *. destruct (Z.eqb_spec c 0); [done|].
    rewrite strchr_s8, (strchr_spec _ _ _ d) by (done || simpl in *; lia). cbn [mbind option_bind].
    destruct (index_of c d) as [i|] eqn:E.
    { exfalso. destruct (decide (index_of c d = None)) as [H|H]; [congruence|]. apply H. by apply index_of_None. }
    simpl. rewrite IH; [rewrite zlen_cons; f_equal; lia|done|done|lia].
Qed.

Lemma tokens_split d acc t rest :
  Forall (fun c => c ∉ d) t -> match rest with [] => True | c :: _ => c ∈ d end ->
  tokens d acc (t ++ rest) =
  match acc ++ t with
  | [] => []
  | tok => match rest with [] => [tok] | _ :: r => tok :: tokens d [] r end
  end.
Proof.
  intros Ht Hr. revert acc. induction Ht as [|c t Hc Ht IH]; intros acc; simpl.
  - rewrite app_nil_r. destruct rest as [|c r]; [by destruct acc|].
    simpl. rewrite bool_decide_eq_true_2 by done. by destruct acc.
  - rewrite bool_decide_eq_false_2 by done. rewrite IH, <- app_assoc. done.
Qed.

(** Every string is a delimiter-free prefix and such a rest. *)
Lemma token_prefix (d s : list Z) : exists t rest, s = t ++ rest /\ Forall (fun c => c ∉ d) t /\
  match rest with [] => True | c :: _ => c ∈ d end.
Proof.
  induction s as [|c s (t & rest & -> & Ht & Hr)]; [by exists [], []|].
  destruct (decide (c ∈ d)); [by exists [], (c :: t ++ rest)|].
  exists (c :: t), rest. split_and!; [done|by constructor|done].
Qed.

(** One call: the token, the position it leaves and the memory. *)
Lemma strtok_call fuel m start str delim d a t rest :
  (if negb (str =? NULL) then str else start) = a -> 0 < a -> 0 < delim ->
  cstr m a (t ++ rest) -> cstr m delim d -> (length (t ++ rest) + length d < fuel)%nat ->
  Forall (fun c => c ∉ d) t -> match rest with [] => True | c :: _ => c ∈ d end ->
  strtok fuel m start str delim =
  Some (match t, rest with
        | [], _ => (m, NULL, NULL)
        | _, [] => (m, NULL, a)
        | _, _ :: _ => (mwrite m (a + zlen t) 0, a + zlen t + 1, a)
        end).
Proof.
  intros Ha Ha0 Hdl Hs Hd Hf Ht Hr. unfold strtok. rewrite Ha.
  destruct (Z.eqb_spec a NULL) as [Hn|_]; [unfold NULL in Hn; lia|].
  rewrite (tok_end_spec fuel m a delim d t rest) by done. cbn [mbind option_bind].
  apply cstr_app in Hs as [_ Hs]. pose proof (zlen_nonneg t).
  destruct t as [|c t]; [by rewrite Z.add_0_r, Z.eqb_refl|].
  rewrite zlen_cons in *. pose proof (zlen_nonneg t).
  destruct (Z.eqb_spec (a + (1 + zlen t)) a); [lia|].
  destruct rest as [|x r]; simpl in Hs; [by rewrite Hs|]. destruct Hs as (-> & Hx & _).
  by destruct (Z.eqb_spec x 0).
Qed.

Lemma strtok_all_spec fuel m start str delim d a s n k :
  (length s <= n)%nat ->
  (if negb (str =? NULL) then str else start) = a -> 0 < a -> 0 < delim ->
  cstr m a s -> cstr m delim d -> clear_of a (a + zlen s) delim d ->
  (length s + length d < fuel)%nat -> (length (tokens d [] s) < k)%nat ->
  exists m' ps, strtok_all fuel k m start str delim = Some (m', ps) /\
    Forall2 (cstr m') ps (tokens d [] s) /\
    (forall b, b < a \/ a + zlen s <= b -> mread m' b = mread m b).
Proof.
  revert m start str a s k. induction n as [|n IH]; intros m start str a s k Hn Ha Ha0 Hdl Hs Hd Hcl Hf Hk;
    (destruct k as [|k]; [lia|]);
    destruct (token_prefix d s) as (t & rest & -> & Ht & Hr); cbn [strtok_all];
    rewrite (strtok_call fuel m start str delim d a t rest) by done; cbn [mbind option_bind];
    rewrite (tokens_split d [] t rest) in * by done; simpl app in *.
  all: destruct t as [|c t]; [by exists m, []; split_and!; [|constructor|]|].
  { simpl in Hn. lia. }
  destruct rest as [|x r].
  - destruct (Z.eqb_spec a NULL) as [E|_]; [unfold NULL in E; lia|].
    destruct k as [|k]; [simpl in Hk; lia|]. cbn [strtok_all]. unfold strtok. simpl.
    exists m, [a]. split_and!; [done| |done]. constructor; [|constructor]. by rewrite app_nil_r in Hs.
  - destruct (Z.eqb_spec a NULL) as [E|_]; [unfold NULL in E; lia|].
    set (w := c :: t) in *. pose proof (zlen_nonneg w) as Hw. rewrite zlen_app, zlen_cons in *.
    pose proof (zlen_nonneg r). rewrite length_app in Hf, Hn. cbn [length] in Hf, Hn, Hk.
    assert (1 <= length w)%nat by (unfold w; simpl; lia).
    pose proof Hs as Hs'. apply cstr_app in Hs' as [Hw1 (_ & _ & Hr1)].
    unfold clear_of in Hcl.
    destruct (IH (mwrite m (a + zlen w) 0) (a + zlen w + 1) NULL (a + zlen w + 1) r k)
      as (m' & ps & HT1 & HT2 & HT3); try done; try (unfold clear_of; lia).
    + eapply cstr_ext; [|exact Hr1]. intros b Hb. apply mread_mwrite_ne. lia.
    + eapply cstr_ext; [|exact Hd]. intros b Hb. apply mread_mwrite_ne. pose proof (zlen_nonneg d). lia.
    + rewrite HT1. cbn [mbind option_bind]. exists m', (a :: ps). split_and!; [done| |].
      * constructor; [|done]. rewrite <- (app_nil_r w). apply cstr_app. split.
        -- intros i y Hi. pose proof (lookup_lt_Some _ _ _ Hi). unfold zlen in *.
           rewrite HT3, mread_mwrite_ne by lia. by apply Hw1.
        -- simpl. rewrite HT3 by lia. by rewrite mread_mwrite_eq.
      * intros b Hb. rewrite HT3 by lia. apply mread_mwrite_ne. lia.
Qed.

(** ** Theorems *)

(** Fact: the searches on a NUL-terminated string return, and return the right
    pointer: strlen the length, strchr and strrchr the first and the last
    occurrence or NULL (the terminator for the character NUL), strstr the first
    occurrence of a non-empty needle or NULL. *)
Theorem string_search fuel m a s n ns c :
  cstr m a s -> cstr m n ns -> 0 < a -> 0 < n -> ns <> [] -> 0 < c < 256 ->
  (length s < fuel)%nat ->
  strlen fuel m a = Some (zlen s) /\
  strchr fuel m a c = Some (match index_of c s with Some i => a + i | None => NULL end) /\
  strchr fuel m a 0 = Some (a + zlen s) /\
  strrchr fuel m a c = Some (match rindex_of c s with Some i => a + i | None => NULL end) /\
  strstr fuel m a n = Some (match find_sub ns s with Some i => a + i | None => NULL end).
Proof.
  intros Hs Hn Ha Hn0 Hne Hc Hf. split_and!.
  - by apply strlen_spec.
  - by apply strchr_spec.
  - by apply strchr_nul.
  - by apply strrchr_loop_spec.
  - unfold strstr. destruct (Z.eqb_spec n NULL) as [E|_]; [unfold NULL in E; lia|].
    destruct (Z.eqb_spec a NULL) as [E|_]; [unfold NULL in E; lia|].
    destruct ns as [|d ns]; [done|]. pose proof Hn as (-> & Hd & _).
    destruct (Z.eqb_spec d 0); [done|]. simpl orb.
    destruct s as [|e s]; [simpl in Hs; by rewrite Hs|]. pose proof Hs as (-> & He & _).
    destruct (Z.eqb_spec e 0); [done|]. by apply strstr_loop_spec.
Qed.

(** Fact: strcmp returns the difference of the first differing characters, so 0
    exactly for equal strings, and strncmp the sign of the same difference of
    the first [n] characters. *)
Theorem string_compare fuel m a b s t n :
  cstr m a s -> cstr m b t -> (length s < fuel)%nat -> 0 <= n ->
  strcmp fuel m a b = Some (str_diff s t) /\ (strcmp fuel m a b = Some 0 <-> s = t) /\
  strncmp m a b n = Z.sgn (str_diff (take (Z.to_nat n) s) (take (Z.to_nat n) t)) /\
  (strncmp m a b n = 0 <-> take (Z.to_nat n) s = take (Z.to_nat n) t).
Proof.
  intros Hs Ht Hf Hn. pose proof (cstr_chars _ _ _ Hs) as Cs. pose proof (cstr_chars _ _ _ Ht) as Ct.
  assert (strncmp m a b n = Z.sgn (str_diff (take (Z.to_nat n) s) (take (Z.to_nat n) t))) as Hc.
  { apply strncmp_loop_spec; by rewrite Z.add_0_r. }
  rewrite (strcmp_diff fuel m a b s t) by done. split_and!; [done| |done|].
  - rewrite <- str_diff_zero by done. split; [by intros [= ->]|by intros ->].
  - rewrite Hc, Z.sgn_null_iff. apply str_diff_zero; by apply Forall_take.
Qed.

(** Fact: strcat appends: with the source clear of the bytes written, dst holds
    the concatenation, and no byte outside the appended text and its terminator
    changes. *)
Theorem strcat_appends fuel m dst src s t :
  cstr m dst s -> cstr m src t -> (length s < fuel)%nat -> (length t < fuel)%nat ->
  clear_of (dst + zlen s) (dst + zlen s + zlen t + 1) src t ->
  exists m', strcat fuel m dst src = Some (m', dst) /\ cstr m' dst (s ++ t) /\ cstr m' src t /\
    (forall b, b < dst + zlen s \/ dst + zlen s + zlen t < b -> mread m' b = mread m b).
Proof.
  intros Hs Ht Hfs Hft Hcl. unfold clear_of in Hcl. unfold strcat.
  pose proof (zlen_nonneg s). pose proof (zlen_nonneg t).
  rewrite (str_end_spec fuel m dst s) by done. cbn [mbind option_bind].
  rewrite (str_copy_spec fuel m _ src t) by (done || lia). cbn [mbind option_bind].
  eexists. split; [reflexivity|].
  assert (forall b, b < dst + zlen s \/ dst + zlen s + zlen t < b ->
    mread (mwrite (mputs m (dst + zlen s) t) (dst + zlen s + zlen t) 0) b = mread m b) as Hout.
  { intros b Hb. rewrite mread_mwrite_ne by lia. apply mread_mputs_out. lia. }
  split_and!; [|eapply cstr_ext; [|exact Ht]; intros b Hb; apply Hout; lia|done].
  apply cstr_put; [|by eapply cstr_chars]. intros i c Hi. by apply (cstr_prefix m dst s).
Qed.

(** Fact: strjoin appends to dst the arguments with the delimiter between them,
    and changes nothing outside the text and its terminator. *)
Theorem strjoin_joins fuel m dst s argv delim d ts t :
  cstr m dst s -> (length s < fuel)%nat -> cstr m delim d -> (length d < fuel)%nat ->
  let lo := dst + zlen s in let hi := lo + zlen (join d (ts ++ [t])) in
  clear_of lo hi delim d -> args_at m fuel lo hi argv 0 (ts ++ [t]) ->
  Forall (fun c => 0 < c < 256) (join d (ts ++ [t])) ->
  exists m', strjoin fuel m dst (zlen ts + 1) argv delim = Some (m', dst) /\
    cstr m' dst (s ++ join d (ts ++ [t])) /\
    (forall b, b < lo \/ hi < b -> mread m' b = mread m b).
Proof.
  intros Hs Hfs Hd Hfd lo hi Hcl Ha Hch. unfold strjoin. pose proof (zlen_nonneg (join d (ts ++ [t]))).
  rewrite (str_end_spec fuel m dst s) by done. cbn [mbind option_bind]. fold lo.
  destruct (strjoin_loop_spec fuel m lo hi [] 0 argv delim d ts t) as (m1 & p & HJ1 & HJ2);
    [done..|simpl; lia|].
  simpl in HJ1. rewrite Z.add_0_r in HJ1.
  replace (Z.to_nat (zlen ts + 1 - 1)) with (length ts) by (unfold zlen; lia). rewrite HJ1.
  cbn [mbind option_bind]. replace (zlen ts + 1 - 1) with (0 + zlen ts) by lia.
  rewrite HJ2. cbn [mbind option_bind]. eexists. split; [reflexivity|]. simpl app. split.
  - apply cstr_put; [|done]. intros i c Hi. by apply (cstr_prefix m dst s).
  - intros b Hb. unfold hi in *. rewrite mread_mwrite_ne by lia. apply mread_mputs_out. lia.
Qed.

(** Fact: calling strtok on a string and then on NULL until it returns NULL
    yields exactly the tokens of the string (the maximal delimiter-free runs up
    to the first empty one): every token pointer is a NUL-terminated copy of its
    token in the final memory, the loop ends, and only bytes of the string
    itself are overwritten. *)
Theorem strtok_tokens fuel k m start a delim d s :
  0 < a -> 0 < delim -> cstr m a s -> cstr m delim d -> clear_of a (a + zlen s) delim d ->
  (length s + length d < fuel)%nat -> (length (tokens d [] s) < k)%nat ->
  exists m' ps, strtok_all fuel k m start a delim = Some (m', ps) /\
    Forall2 (cstr m') ps (tokens d [] s) /\
    (forall b, b < a \/ a + zlen s <= b -> mread m' b = mread m b).
Proof.
  intros Ha Hdl Hs Hd Hcl Hf Hk. eapply strtok_all_spec; try done.
  destruct (Z.eqb_spec a NULL) as [E|_]; [unfold NULL in E; lia|done].
Qed.

(** ** Witnesses *)

(** "ab,cd" at 100 and "," at 200. *)
Definition demo_mem : mem := mputs (mputs ∅ 100 [97; 98; 44; 99; 100; 0]) 200 [44; 0].

Ltac cstr_demo := repeat split; vm_compute; (reflexivity || discriminate).

Lemma string_search_witness :
  strlen 6 demo_mem 100 = Some 5 /\ strchr 6 demo_mem 100 44 = Some 102 /\
  strchr 6 demo_mem 100 0 = Some 105 /\ strrchr 6 demo_mem 100 44 = Some 102 /\
  strstr 6 demo_mem 100 200 = Some 102.
Proof.
  apply (string_search 6 demo_mem 100 [97; 98; 44; 99; 100] 200 [44] 44);
    [cstr_demo|cstr_demo|lia|lia|done|lia|simpl; lia].
Defined.

Lemma string_compare_witness :
  strcmp 6 demo_mem 100 200 = Some 53 /\ strncmp demo_mem 100 200 2 = 1.
Proof.
  destruct (string_compare 6 demo_mem 100 200 [97; 98; 44; 99; 100] [44] 2) as (H1 & _ & H2 & _);
    [cstr_demo|cstr_demo|simpl; lia|lia|]. exact (conj H1 H2).
Defined.

Lemma strcat_appends_witness :
  exists m', strcat 6 demo_mem 100 200 = Some (m', 100) /\ cstr m' 100 [97; 98; 44; 99; 100; 44].
Proof.
  destruct (strcat_appends 6 demo_mem 100 200 [97; 98; 44; 99; 100] [44]) as (m' & H1 & H2 & _);
    [cstr_demo|cstr_demo|simpl; lia|simpl; lia|right; vm_compute; discriminate|].
  exists m'. exact (conj H1 H2).
Defined.

Lemma strtok_tokens_witness :
  exists m' ps, strtok_all 7 3 demo_mem 0 100 200 = Some (m', ps) /\
    Forall2 (cstr m') ps [[97; 98]; [99; 100]].
Proof.
  destruct (strtok_tokens 7 3 demo_mem 0 100 200 [44] [97; 98; 44; 99; 100])
    as (m' & ps & H1 & H2 & _);
    [lia|lia|cstr_demo|cstr_demo|right; vm_compute; discriminate|simpl; lia|vm_compute; lia|].
  exists m', ps. exact (conj H1 H2).
Defined.

(** argv = {100, 200} at 400, joined with "," at 200 onto the empty string at 300. *)
Definition join_mem : mem := st64 (st64 demo_mem 400 100) 408 100.

Lemma strjoin_joins_witness :
  exists m', strjoin 7 join_mem 300 2 400 200 = Some (m', 300) /\
    cstr m' 300 [97; 98; 44; 99; 100; 44; 97; 98; 44; 99; 100].
Proof.
  destruct (strjoin_joins 7 join_mem 300 [] 400 200 [44] [[97; 98; 44; 99; 100]]
              [97; 98; 44; 99; 100]) as (m' & H1 & H2 & _);
    [cstr_demo|simpl; lia|cstr_demo|simpl; lia|left; vm_compute; reflexivity| | |].
  - repeat split; try (right; vm_compute; discriminate); try (left; vm_compute; reflexivity);
      vm_compute; (reflexivity || discriminate || lia).
  - repeat constructor; lia.
  - exists m'. exact (conj H1 H2).
Defined.
