(* ===== verification/CStdlib.v ===== *)
(** * CStdlib: libc/stdlib (itoa, atoi, abs, pow, rand) and the macros of math.h *)

From S2P Require Import Prelude Mem CString.

Definition MIN (a b : Z) : Z := if a <? b then a else b.
Definition MAX (a b : Z) : Z := if a <? b then b else a.
Definition UPPER_DIVIDE (n d : Z) : Z := (n + d - 1) / d.

Definition abs (x : Z) : Z := if x <? 0 then s32 (- x) else x.

(** ** math.c *)

Fixpoint pow_loop (k : nat) (base result : Z) : Z :=
  match k with O => result | S k => pow_loop k base (s32 (result * base)) end.

Definition pow (base exp : Z) : Z := pow_loop (Z.to_nat exp) base 1.

(** ** atoi.c *)

Fixpoint atoi_skip (fuel : nat) (m : mem) (nptr : Z) : option Z :=
  match fuel with
  | O => None
  | S fuel => if isspace (mread m nptr) then atoi_skip fuel m (nptr + 1) else Some nptr
  end.

Fixpoint atoi_digits (fuel : nat) (m : mem) (nptr num : Z) : option Z :=
  match fuel with
  | O => None
  | S fuel =>
      if (48 <=? mread m nptr) && (mread m nptr <=? 57)
      then atoi_digits fuel m (nptr + 1) (s64 (s64 (num * 10) + (mread m nptr - 48)))
      else Some num
  end.

Definition atoi (fuel : nat) (m : mem) (nptr : Z) : option Z :=
  nptr ← atoi_skip fuel m nptr;
  let '(sign, nptr) :=
    if mread m nptr =? 45 then (-1, nptr + 1)
    else if mread m nptr =? 43 then (1, nptr + 1) else (1, nptr) in
  num ← atoi_digits fuel m nptr 0;
  Some (s64 (sign * num)).

(** ** itoa.c *)

(** The digit loop; [num] is an int64_t, division truncates and [num *= -1]
    wraps. *)
Fixpoint itoa_digits (fuel : nat) (m : mem) (str i num base : Z) : option (mem * Z) :=
  if num =? 0 then Some (m, i)
  else match fuel with
       | O => None
       | S fuel =>
           let num := if num <? 0 then s64 (num * -1) else num in
           let rem := u64 (Z.rem num base) in
           let m := mwrite m (str + i) (if 9 <? rem then rem - 10 + 97 else rem + 48) in
           itoa_digits fuel m str (i + 1) (Z.quot num base) base
       end.

Fixpoint itoa_reverse (fuel : nat) (m : mem) (str start e : Z) : mem :=
  match fuel with
  | O => m
  | S fuel =>
      if start <? e then
        let temp := mread m (str + start) in
        let m := mwrite m (str + start) (mread m (str + e)) in
        let m := mwrite m (str + e) temp in
        itoa_reverse fuel m str (start + 1) (e - 1)
      else m
  end.

(** 64 digits are enough for any number and base, and a reversal swaps at most
    half of them. *)
Definition itoa_fuel : nat := 64.

Definition itoa (m : mem) (num str base : Z) : option (mem * Z) :=
  let i := 0 in
  if base =? 0 then Some (m, NULL)
  else if (base <? 2) || (36 <? base) then Some (m, NULL)
  else if num =? 0 then Some (mwrite (mwrite m (str + i) 48) (str + (i + 1)) 0, str)
  else
    let '(m, i, num) :=
      if (num <? 0) && (base =? 10) then (mwrite m (str + i) 45, i + 1, s64 (- num)) else (m, i, num) in
    '(m, i) ← itoa_digits itoa_fuel m str i num base;
    let m := mwrite m (str + i) 0 in
    let start := if mread m (str + 0) =? 45 then 1 else 0 in
    Some (itoa_reverse itoa_fuel m str start (i - 1), str).

(** ** random.c *)

Definition srand (seed : Z) : Z := seed.

(** [r] is the local array of ints. *)
Fixpoint rand_lcg (k : nat) (r : list Z) (i : Z) : list Z :=
  match k with
  | O => r
  | S k =>
      let r := updZ r i (s32 (Z.rem (16807 * nthZ r (i - 1)) 2147483647)) in
      let r := if nthZ r i <? 0 then updZ r i (s32 (nthZ r i + 2147483647)) else r in
      rand_lcg k r (i + 1)
  end.

Fixpoint rand_copy (k : nat) (r : list Z) (i : Z) : list Z :=
  match k with
  | O => r
  | S k => rand_copy k (updZ r i (nthZ r (i - 31))) (i + 1)
  end.

Fixpoint rand_add (k : nat) (r : list Z) (i : Z) : list Z :=
  match k with
  | O => r
  | S k => rand_add k (updZ r i (s32 (nthZ r (i - 31) + nthZ r (i - 3)))) (i + 1)
  end.

(** Returns the value and the new seed: the last loop returns in its first
    iteration. *)
Definition rand (seed : Z) : Z * Z :=
  let r := updZ (replicate 1000 0) 0 (s32 seed) in
  let r := rand_lcg 30 r 1 in
  let r := rand_copy 3 r 31 in
  let r := rand_add 310 r 34 in
  let r := rand_add 1 r 344 in
  (Z.shiftr (u32 (nthZ r 344)) 1, u32 (nthZ r 344)).

(** ** Digits *)

Definition dchar (d : Z) : Z := if 9 <? d then d - 10 + 97 else d + 48.

(** Digits of [n] in [base], least significant first. *)
Fixpoint ldigits (fuel : nat) (base n : Z) : list Z :=
  match fuel with
  | O => []
  | S fuel => if n =? 0 then [] else n mod base :: ldigits fuel base (n / base)
  end.

Fixpoint lvalue (base : Z) (l : list Z) : Z :=
  match l with [] => 0 | d :: l => d + base * lvalue base l end.

Lemma lvalue_ldigits fuel base n :
  2 <= base -> 0 <= n < 2 ^ Z.of_nat fuel -> lvalue base (ldigits fuel base n) = n.
Proof.
  intros Hb. revert n. induction fuel as [|fuel IH]; intros n Hn; simpl; [simpl in Hn; lia|].
  destruct (Z.eqb_spec n 0) as [->|]; [done|]. simpl. rewrite IH.
  - rewrite (Z.div_mod n base) at 3 by lia. lia.
  - rewrite Nat2Z.inj_succ, Z.pow_succ_r in Hn by lia. split; [apply Z.div_pos; lia|].
    apply Z.div_lt_upper_bound; [lia|]. nia.
Qed.

Lemma ldigits_range fuel base n : 2 <= base -> 0 <= n -> Forall (fun d => 0 <= d < base) (ldigits fuel base n).
Proof.
  intros Hb. revert n. induction fuel as [|fuel IH]; intros n Hn; simpl; [done|].
  destruct (n =? 0); [done|]. constructor; [apply Z.mod_pos_bound; lia|].
  apply IH. apply Z.div_pos; lia.
Qed.

Lemma ldigits_length fuel base n : (length (ldigits fuel base n) <= fuel)%nat.
Proof.
  revert n. induction fuel as [|fuel IH]; intros n; simpl; [done|].
  destruct (n =? 0); simpl; [lia|]. specialize (IH (n / base)). lia.
Qed.

Lemma itoa_digits_spec fuel m str i n base :
  2 <= base <= 36 -> 0 <= n < 2 ^ Z.of_nat fuel ->
  itoa_digits fuel m str i n base =
  Some (mputs m (str + i) (map dchar (ldigits fuel base n)), i + zlen (ldigits fuel base n)).
Proof.
  intros Hb. revert m i n. induction fuel as [|fuel IH]; intros m i n Hn.
  - simpl in *. assert (n = 0) as -> by lia. simpl. by rewrite Z.add_0_r.
  - cbn [itoa_digits ldigits]. destruct (Z.eqb_spec n 0) as [->|Hne]; [simpl; by rewrite Z.add_0_r|].
    destruct (Z.ltb_spec n 0); [lia|].
    rewrite Z.rem_mod_nonneg, Z.quot_div_nonneg by lia.
    pose proof (Z.mod_pos_bound n base ltac:(lia)).
    rewrite u64_small by lia. rewrite IH.
    + simpl map. simpl mputs. rewrite zlen_cons. do 2 f_equal; [|lia]. f_equal. lia.
    + rewrite Nat2Z.inj_succ, Z.pow_succ_r in Hn by lia. split; [apply Z.div_pos; lia|].
      apply Z.div_lt_upper_bound; [lia|]. nia.
Qed.

(** ** Reversal in memory *)

Lemma itoa_reverse_spec fuel m str s e b :
  (Z.to_nat (e - s + 1) <= 2 * fuel)%nat ->
  mread (itoa_reverse fuel m str s e) (str + b) =
  if (s <=? b) && (b <=? e) then mread m (str + (s + e - b)) else mread m (str + b).
Proof.
  revert m s e. induction fuel as [|fuel IH]; intros m s e Hf; cbn [itoa_reverse].
  - destruct (Z.leb_spec s b), (Z.leb_spec b e); try done. lia.
  - destruct (Z.ltb_spec s e) as [Hse|Hse].
    + rewrite IH by lia. rewrite !mread_mwrite. repeat case_decide; try lia;
        repeat match goal with |- context [?a <=? ?b] => destruct (Z.leb_spec a b); try lia end;
        cbn [andb]; rewrite ?u8_small by apply mread_range; try done; f_equal; lia.
    + destruct (Z.leb_spec s b), (Z.leb_spec b e); try done. cbn [andb]. f_equal. lia.
Qed.

Lemma cstr_intro m a s :
  (forall i c, s !! i = Some c -> mread m (a + Z.of_nat i) = c /\ c <> 0) ->
  mread m (a + zlen s) = 0 -> cstr m a s.
Proof. intros H1 H2. rewrite <- (app_nil_r s). apply cstr_app. done. Qed.

Lemma dchar_char base d : 2 <= base <= 36 -> 0 <= d < base -> 0 < dchar d < 256 /\ dchar d <> 45.
Proof. intros. unfold dchar. destruct (Z.ltb_spec 9 d); lia. Qed.

(** What follows the digits: terminator, then reversal of everything after the
    sign. *)
Lemma itoa_finish m str i l :
  0 <= i <= 1 -> (length l <= 64)%nat -> Forall (fun c => 0 < c < 256) l ->
  (i = 1 -> mread m str = 45) ->
  cstr (itoa_reverse itoa_fuel (mwrite (mputs m (str + i) l) (str + (i + zlen l)) 0) str i (i + zlen l - 1))
    str ((if i =? 1 then [45] else []) ++ reverse l).
Proof.
  intros Hi Hl Hc Hs. unfold itoa_fuel. pose proof (zlen_nonneg l) as Hn.
  set (m1 := mwrite (mputs m (str + i) l) (str + (i + zlen l)) 0).
  set (mf := itoa_reverse 64 m1 str i (i + zlen l - 1)).
  assert (forall b, mread mf (str + b) = if (i <=? b) && (b <=? i + zlen l - 1)
    then mread m1 (str + (i + (i + zlen l - 1) - b)) else mread m1 (str + b)) as HR.
  { intros b. apply itoa_reverse_spec. unfold zlen. lia. }
  clearbody mf.
  assert (forall k c, reverse l !! k = Some c -> mread mf (str + (i + Z.of_nat k)) = c /\ c <> 0) as HF.
  { intros k c Hk. pose proof (lookup_lt_Some _ _ _ Hk) as Hlt. rewrite length_reverse in Hlt.
    rewrite reverse_lookup in Hk by done. rewrite HR. unfold m1, zlen in *.
    destruct (Z.leb_spec i (i + Z.of_nat k)), (Z.leb_spec (i + Z.of_nat k) (i + Z.of_nat (length l) - 1)); try lia.
    cbn [andb]. rewrite mread_mwrite_ne by lia.
    replace (str + (i + (i + Z.of_nat (length l) - 1) - (i + Z.of_nat k)))
      with (str + i + Z.of_nat (length l - S k)) by lia.
    rewrite (mread_mputs_in _ _ _ _ c Hk). rewrite list.Forall_forall in Hc.
    specialize (Hc c ltac:(by eapply list_elem_of_lookup_2)). cbv beta in Hc.
    rewrite u8_small by lia.
    split; [done|lia]. }
  assert (mread mf (str + (i + zlen l)) = 0) as H0.
  { rewrite HR. destruct (Z.leb_spec (i + zlen l) (i + zlen l - 1)); [lia|]. rewrite andb_false_r.
    unfold m1. by rewrite mread_mwrite_eq. }
  assert (zlen (reverse l) = zlen l) as Hrl by (unfold zlen; by rewrite length_reverse).
  destruct (Z.eqb_spec i 1) as [->|Hne].
  - apply cstr_intro.
    + intros [|k] c Hk.
      * inversion Hk; subst. split; [|done]. rewrite HR. destruct (Z.leb_spec 1 (Z.of_nat 0)); [lia|].
        cbn [andb]. unfold m1. simpl Z.of_nat. rewrite mread_mwrite_ne, mread_mputs_out by lia.
        rewrite Z.add_0_r. auto.
      * replace (Z.of_nat (S k)) with (1 + Z.of_nat k) by lia. by apply HF.
    + rewrite zlen_app, Hrl. by change (zlen [45]) with 1.
  - assert (i = 0) as -> by lia. simpl app. apply cstr_intro.
    + intros k c Hk. destruct (HF k c Hk) as [H1 H2]. split; [|done]. by rewrite Z.add_0_l in H1.
    + by rewrite Hrl.
Qed.

(** The text itoa writes for a non-zero number. *)
Definition itoa_text (num base : Z) : list Z :=
  (if (num <? 0) && (base =? 10) then [45] else []) ++ reverse (map dchar (ldigits 64 base (Z.abs num))).

(** The text of any number. *)
Definition number_text (z base : Z) : list Z := if z =? 0 then [48] else itoa_text z base.

Lemma ldigits_step fuel base n : 0 < n ->
  ldigits (S fuel) base n = n mod base :: ldigits fuel base (n / base).
Proof. intros. cbn [ldigits]. by destruct (Z.eqb_spec n 0); [lia|]. Qed.

Lemma itoa_digits_neg fuel m str i n base :
  - 2 ^ 63 < n < 0 ->
  itoa_digits (S fuel) m str i n base = itoa_digits (S fuel) m str i (- n) base.
Proof.
  intros Hn. cbn [itoa_digits].
  destruct (Z.eqb_spec n 0), (Z.eqb_spec (- n) 0), (Z.ltb_spec n 0), (Z.ltb_spec (- n) 0); try lia.
  rewrite s64_small by lia. by replace (n * -1) with (- n) by lia.
Qed.

Lemma itoa_fuel_pow : 2 ^ Z.of_nat itoa_fuel = 18446744073709551616.
Proof. reflexivity. Qed.

(** itoa writes inside the first 66 bytes of its buffer. *)
Lemma itoa_digits_out fuel m str i num base m' i' :
  itoa_digits fuel m str i num base = Some (m', i') ->
  i <= i' <= i + Z.of_nat fuel /\
  forall b, b < str + i \/ str + i + Z.of_nat fuel <= b -> mread m' b = mread m b.
Proof.
  revert m i num. induction fuel as [|fuel IH]; intros m i num; cbn [itoa_digits]; destruct (num =? 0);
    try (intros [= <- <-]; split; [lia|done]); [done|].
  intros H. apply IH in H as [H1 H2]. split; [lia|]. intros b Hb. rewrite H2 by lia. apply mread_mwrite_ne. lia.
Qed.

Lemma itoa_reverse_out fuel m str s e b : b < str + s \/ str + e < b -> mread (itoa_reverse fuel m str s e) b = mread m b.
Proof.
  revert m s e. induction fuel as [|fuel IH]; intros m s e Hb; cbn [itoa_reverse]; [done|].
  destruct (Z.ltb_spec s e); [|done]. rewrite IH by lia. by rewrite !mread_mwrite_ne by lia.
Qed.

#[global] Arguments ldigits : simpl never.
#[global] Arguments itoa_digits : simpl never.
#[global] Arguments itoa_reverse : simpl never.

Lemma itoa_spec m num str base :
  2 <= base <= 36 -> - 2 ^ 63 < num < 2 ^ 63 -> num <> 0 ->
  exists m', itoa m num str base = Some (m', str) /\ cstr m' str (itoa_text num base).
Proof.
  intros Hb Hn Hne. unfold itoa, itoa_text.
  destruct (Z.eqb_spec base 0); [lia|]. destruct (Z.ltb_spec base 2), (Z.ltb_spec 36 base); try lia.
  simpl orb. cbv iota. destruct (Z.eqb_spec num 0); [done|].
  set (L := map dchar (ldigits 64 base (Z.abs num))).
  assert (zlen (ldigits 64 base (Z.abs num)) = zlen L) as HlL by (unfold L, zlen; by rewrite length_map).
  assert (length L <= 64)%nat as Hlen by (unfold L; rewrite length_map; apply ldigits_length).
  assert (Forall (fun c => 0 < c < 256 /\ c <> 45) L) as Hch.
  { apply Forall_map. eapply list.Forall_impl; [apply ldigits_range; lia|].
    intros d Hd. by apply (dchar_char base). }
  assert (Forall (fun c => 0 < c < 256) L) as Hch' by (eapply list.Forall_impl; [exact Hch|]; tauto).
  destruct ((num <? 0) && (base =? 10)) eqn:Hsgn.
  - apply andb_true_iff in Hsgn as [Hlt ->%Z.eqb_eq]. apply Z.ltb_lt in Hlt.
    rewrite s64_small by lia. rewrite itoa_digits_spec by (rewrite ?itoa_fuel_pow; lia).
    replace (- num) with (Z.abs num) by lia. cbn [mbind option_bind].
    change (ldigits itoa_fuel) with (ldigits 64). rewrite HlL. fold L. eexists. split; [reflexivity|].
    rewrite Z.add_0_r. pose proof (zlen_nonneg L).
    rewrite mread_mwrite_ne, mread_mputs_out, mread_mwrite_eq by lia. change (u8 45 =? 45) with true.
    cbv iota. replace (0 + 1) with 1 by lia.
    apply (itoa_finish (mwrite m str 45) str 1 L); try done; try lia.
    by rewrite mread_mwrite_eq.
  - assert (itoa_digits itoa_fuel m str 0 num base = itoa_digits itoa_fuel m str 0 (Z.abs num) base) as ->.
    { destruct (Z.ltb_spec num 0).
      - change itoa_fuel with (S 63). rewrite itoa_digits_neg by lia.
        by rewrite (Z.abs_neq num) by lia.
      - by rewrite (Z.abs_eq num) by lia. }
    rewrite itoa_digits_spec by (rewrite ?itoa_fuel_pow; lia). cbn [mbind option_bind].
    change (ldigits itoa_fuel) with (ldigits 64). rewrite HlL. fold L. eexists. split; [reflexivity|].
    pose proof (ldigits_step 63 base (Z.abs num) ltac:(lia)) as Hl.
    assert (exists d L', L = d :: L' /\ 0 < d < 256 /\ d <> 45) as (d & L' & HL & Hd1 & Hd2).
    { unfold L. rewrite Hl. simpl. do 2 eexists. split; [reflexivity|].
      apply (dchar_char base); [lia|]. apply Z.mod_pos_bound. lia. }
    assert ((mread (mwrite (mputs m (str + 0) L) (str + (0 + zlen L)) 0) (str + 0) =? 45) = false) as ->.
    { pose proof (zlen_nonneg L'). rewrite HL at 2. rewrite zlen_cons, mread_mwrite_ne by lia.
      assert (L !! 0%nat = Some d) as HL0 by (by rewrite HL).
      pose proof (mread_mputs_in m (str + 0) L 0 d HL0) as Hm.
      replace (str + 0 + Z.of_nat 0) with (str + 0) in Hm by lia. rewrite Hm, u8_small by lia. by apply Z.eqb_neq. }
    cbv iota. apply (itoa_finish m str 0 L); try done; lia.
Qed.

Lemma itoa_tail_out F m m0 str i0 n0 base m' r b : 0 <= i0 <= 1 -> Z.of_nat F <= 64 -> mread m0 b = mread m b ->
  b < str \/ str + 66 <= b ->
  ('(m, i) ← itoa_digits F m0 str i0 n0 base;
   let m := mwrite m (str + i) 0 in
   let start := if mread m (str + 0) =? 45 then 1 else 0 in
   Some (itoa_reverse F m str start (i - 1), str)) = Some (m', r) ->
  mread m' b = mread m b.
Proof.
  intros Hi HF E0 Hb E. destruct (itoa_digits _ _ _ _ _ _) as [[m1 i1]|] eqn:D; [|done].
  cbn [mbind option_bind] in E. injection E as <- _. apply itoa_digits_out in D as [D1 D2].
  rewrite itoa_reverse_out, mread_mwrite_ne, D2, E0; [done|lia|lia|]. destruct (_ =? 45); lia.
Qed.

#[local] Opaque itoa_fuel.

Lemma itoa_out m num str base m' r b : itoa m num str base = Some (m', r) -> b < str \/ str + 66 <= b ->
  mread m' b = mread m b.
Proof.
  unfold itoa. intros H Hb. destruct (base =? 0); [by injection H as <- <-|].
  destruct ((base <? 2) || (36 <? base)); [by injection H as <- <-|].
  destruct (num =? 0); [injection H as <- <-; by rewrite !mread_mwrite_ne by lia|].
  destruct ((num <? 0) && (base =? 10)); revert H; apply itoa_tail_out; try done; try lia.
  apply mread_mwrite_ne. lia.
Qed.

#[local] Transparent itoa_fuel.

(** ** atoi *)

(** The value of a digit string, most significant first. *)
Definition dec_value (ds : list Z) : Z := fold_left (fun v c => v * 10 + (c - 48)) ds 0.

Lemma dec_fold_mono ds v w :
  Forall (fun c => 48 <= c <= 57) ds -> 0 <= v <= w ->
  v <= fold_left (fun v c => v * 10 + (c - 48)) ds w.
Proof.
  revert w. induction ds as [|c ds IH]; intros w H Hv; simpl; [lia|].
  apply list.Forall_cons in H as [Hc H]. apply IH; [done|lia].
Qed.

Lemma atoi_digits_spec fuel m a ds num :
  cstr m a ds -> Forall (fun c => 48 <= c <= 57) ds -> (length ds < fuel)%nat -> 0 <= num ->
  fold_left (fun v c => v * 10 + (c - 48)) ds num < 2 ^ 63 ->
  atoi_digits fuel m a num = Some (fold_left (fun v c => v * 10 + (c - 48)) ds num).
Proof.
  revert fuel a num. induction ds as [|c ds IH]; intros [|fuel] a num; simpl; try lia.
  - by intros ->.
  - intros (-> & Hc0 & Hs) [Hc Hd]%list.Forall_cons Hf Hn Hv.
    destruct (Z.leb_spec 48 c), (Z.leb_spec c 57); try lia. simpl.
    pose proof (dec_fold_mono ds (num * 10 + (c - 48)) (num * 10 + (c - 48)) Hd ltac:(lia)).
    rewrite (s64_small (num * 10)), s64_small by lia. apply IH; try done; lia.
Qed.

Lemma lvalue_dec l : Forall (fun d => 0 <= d < 10) l -> dec_value (reverse (map dchar l)) = lvalue 10 l.
Proof.
  unfold dec_value. induction 1 as [|d l Hd Hl IH]; [done|]. simpl map. rewrite reverse_cons, fold_left_app, IH.
  simpl. unfold dchar. destruct (Z.ltb_spec 9 d); lia.
Qed.

(** The decimal text of a number has digits only, after the sign. *)
Lemma dec_digits n : 0 <= n -> Forall (fun c => 48 <= c <= 57) (reverse (map dchar (ldigits 64 10 n))).
Proof.
  intros Hn. apply Forall_reverse, Forall_map. eapply list.Forall_impl; [apply ldigits_range; lia|].
  intros d Hd. cbv beta in Hd. unfold dchar, compose. destruct (Z.ltb_spec 9 d); lia.
Qed.

(** atoi on a string of digits. *)
Lemma atoi_unsigned fuel m a c ds :
  cstr m a (c :: ds) -> Forall (fun c => 48 <= c <= 57) (c :: ds) -> (S (length ds) < fuel)%nat ->
  dec_value (c :: ds) < 2 ^ 63 -> atoi fuel m a = Some (dec_value (c :: ds)).
Proof.
  intros Hs Hd Hf Hv. unfold atoi. destruct fuel as [|fuel]; [lia|]. cbn [atoi_skip].
  pose proof Hs as (H3 & _ & _). pose proof Hd as [Hc _]%list.Forall_cons. rewrite H3.
  assert (isspace c = false) as ->.
  { unfold isspace. repeat match goal with |- context [c =? ?k] => destruct (Z.eqb_spec c k); [lia|] end. done. }
  cbn [mbind option_bind]. rewrite H3.
  destruct (Z.eqb_spec c 45), (Z.eqb_spec c 43); try lia. cbv iota beta.
  rewrite (atoi_digits_spec _ _ _ (c :: ds)) by (done || simpl length; lia).
  pose proof (dec_fold_mono (c :: ds) 0 0 Hd ltac:(lia)).
  cbn [mbind option_bind]. fold (dec_value (c :: ds)) in *. f_equal. rewrite s64_small; lia.
Qed.

(** atoi of the decimal text of a number. *)
Lemma atoi_text fuel m a num : - 2 ^ 63 < num < 2 ^ 63 -> num <> 0 -> cstr m a (itoa_text num 10) -> (66 <= fuel)%nat ->
  atoi fuel m a = Some num.
Proof.
  intros Hn Hne H2 Hf. unfold itoa_text in H2. pose proof (dec_digits (Z.abs num) ltac:(lia)) as Hd.
  set (ds := reverse (map dchar (ldigits 64 10 (Z.abs num)))) in *.
  assert (dec_value ds = Z.abs num) as Hv.
  { unfold ds. rewrite lvalue_dec by (apply ldigits_range; lia).
    apply lvalue_ldigits; [lia|]. simpl Z.of_nat. lia. }
  assert (length ds < 66)%nat as Hlen.
  { unfold ds. rewrite length_reverse, length_map. pose proof (ldigits_length 64 10 (Z.abs num)). lia. }
  assert (exists c ds', ds = c :: ds') as (c & ds' & Hds).
  { destruct ds as [|c ds']; [|by eauto]. unfold dec_value in Hv. simpl in Hv. lia. }
  clearbody ds. destruct fuel as [|fuel]; [lia|]. destruct (Z.ltb_spec num 0); simpl in H2.
  - destruct H2 as (H2 & _ & H3). unfold atoi. unfold dec_value in Hv.
    cbn [atoi_skip]. rewrite H2. change (isspace 45) with false. cbn [mbind option_bind].
    rewrite H2. change (45 =? 45) with true. cbv iota beta. rewrite (atoi_digits_spec _ _ _ ds) by (done || lia).
    cbn [mbind option_bind]. rewrite Hv. f_equal. rewrite s64_small; lia.
  - rewrite Hds in *. rewrite (atoi_unsigned (S fuel) m a c ds') by (done || simpl in *; lia).
    rewrite Hv. f_equal. lia.
Qed.

(** ** Theorems *)

(** Fact: itoa in any base from 2 to 36 writes a NUL-terminated numeral: for a
    non-zero number other than INT64_MIN the digits are those of its absolute
    value, most significant first, preceded by a minus sign exactly when it is
    negative and the base is 10, and the digits evaluate back to that value. *)
Theorem itoa_numeral m num str base :
  2 <= base <= 36 -> - 2 ^ 63 < num < 2 ^ 63 -> num <> 0 ->
  (exists m', itoa m num str base = Some (m', str) /\ cstr m' str (itoa_text num base)) /\
  lvalue base (ldigits 64 base (Z.abs num)) = Z.abs num.
Proof.
  intros Hb Hn H0. split; [by apply itoa_spec|].
  apply lvalue_ldigits; [lia|]. simpl Z.of_nat. lia.
Qed.

(** Fact: atoi reads back what itoa writes in base 10, for every int64_t but
    INT64_MIN. *)
Theorem atoi_itoa m num str :
  - 2 ^ 63 < num < 2 ^ 63 ->
  exists m', itoa m num str 10 = Some (m', str) /\ atoi 66 m' str = Some num.
Proof.
  intros Hn. destruct (Z.eq_dec num 0) as [->|Hne].
  { eexists. split; [reflexivity|]. apply (atoi_unsigned 66 _ str 48 []); try done.
    - rewrite Z.add_0_r. split_and!; [|done|]; cbn [cstr].
      + by rewrite mread_mwrite_ne, mread_mwrite_eq by lia.
      + by rewrite mread_mwrite_eq.
    - repeat constructor; lia.
    - simpl. lia. }
  destruct (itoa_spec m num str 10) as (m' & H1 & H2); [lia|done|done|].
  exists m'. split; [done|]. apply atoi_text; [done|done|done|lia].
Qed.

(** ** pow and rand *)

Lemma pow_loop_spec k base r : s32 r = r -> pow_loop k base r = s32 (r * base ^ Z.of_nat k).
Proof.
  revert r. induction k as [|k IH]; intros r Hr; simpl pow_loop.
  - by rewrite Z.pow_0_r, Z.mul_1_r.
  - rewrite IH by ulia. rewrite Nat2Z.inj_succ, Z.pow_succ_r by lia.
    replace (r * (base * base ^ Z.of_nat k)) with (r * base * base ^ Z.of_nat k) by lia.
    generalize (base ^ Z.of_nat k). generalize (r * base). clear. intros x y.
    unfold s32. f_equal.
    assert (exists q, (x + 2147483648) mod 4294967296 - 2147483648 = x - 4294967296 * q) as [q ->].
    { exists ((x + 2147483648) / 4294967296). pose proof (Z.div_mod (x + 2147483648) 4294967296). lia. }
    replace ((x - 4294967296 * q) * y + 2147483648) with (x * y + 2147483648 + (- (q * y)) * 4294967296) by lia.
    by rewrite Z.mod_add by lia.
Qed.

(** Fact: pow computes the power in int arithmetic: the true power reduced to 32
    bits, hence the true power whenever it fits; a negative exponent gives 1. *)
Theorem pow_correct base exp :
  pow base exp = s32 (base ^ Z.max 0 exp).
Proof.
  unfold pow. rewrite pow_loop_spec by done. rewrite Z.mul_1_l. do 2 f_equal. lia.
Qed.

(** Fact: rand returns a value under 2^31 and leaves a 32-bit seed, whatever the
    seed. *)
Theorem rand_range seed : 0 <= (rand seed).1 < 2 ^ 31 /\ 0 <= (rand seed).2 < 2 ^ 32.
Proof.
  unfold rand. cbn [fst snd]. generalize (nthZ (rand_add 1 (rand_add 310 (rand_copy 3 (rand_lcg 30
    (updZ (replicate 1000 0) 0 (s32 seed)) 1) 31) 34) 344) 344). intros x.
  rewrite Z.shiftr_div_pow2 by lia. pose proof (u32_range x). zlia.
Qed.

(** ** Witnesses *)

Lemma itoa_numeral_witness :
  exists m', itoa ∅ 255 100 16 = Some (m', 100) /\ cstr m' 100 [102; 102].
Proof. exact (proj1 (itoa_numeral ∅ 255 100 16 ltac:(lia) ltac:(lia) ltac:(lia))). Defined.

Lemma atoi_itoa_witness :
  exists m', itoa ∅ (-1204) 100 10 = Some (m', 100) /\ atoi 66 m' 100 = Some (-1204).
Proof. exact (atoi_itoa ∅ (-1204) 100 ltac:(lia)). Defined.

(** A negative number in another base loses its sign. *)
Example itoa_hex_negative :
  (fst <$> itoa ∅ (-1) 100 16) ≫= (fun m => Some (mread m 100, mread m 101)) = Some (49, 0).
Proof. vm_compute. reflexivity. Qed.
