(* ===== verification/LinkedList.v ===== *)
(** * LinkedList: kernel/include/linkedList.h over an allocator interface

    [Allocator] is what the list promises to need of malloc and free; the list
    operations and their theorems are stated against it, and [heap_allocator]
    is the chunk heap of libc/memory as an instance. *)

From S2P Require Import Prelude Mem Heap.

(** ** The interface *)

(** Live blocks are the data areas handed out: address and size. *)
Class Allocator := {
  ast : Type;
  al_rep : mem -> ast -> Prop;
  al_live : ast -> list (Z * Z);
  al_ready : ast -> Z -> Prop;
  al_malloc : mem -> Z -> option (mem * Z);
  al_free : mem -> Z -> option mem;
  al_malloc_law m h size : al_rep m h -> al_ready h size ->
    exists m' p sz h', al_malloc m size = Some (m', p) /\ al_rep m' h' /\
      al_live h' = (p, sz) :: al_live h /\ size <= sz /\ 0 < p /\ p + sz <= 18446744073709551616 /\
      (forall x b, x ∈ al_live h -> x.1 <= b < x.1 + x.2 -> mread m' b = mread m b);
  al_free_law m h l1 p sz l2 : al_rep m h -> al_live h = l1 ++ (p, sz) :: l2 ->
    exists m' h', al_free m p = Some m' /\ al_rep m' h' /\ al_live h' = l1 ++ l2 /\
      (forall x b, x ∈ l1 ++ l2 -> x.1 <= b < x.1 + x.2 -> mread m' b = mread m b);
  al_apart m h : al_rep m h -> forall l1 x l2, al_live h = l1 ++ x :: l2 ->
    forall y, y ∈ l1 ++ l2 -> x.1 + x.2 <= y.1 \/ y.1 + y.2 <= x.1;
  al_pos m h x : al_rep m h -> x ∈ al_live h -> 0 < x.1 /\ x.1 + x.2 <= 18446744073709551616;
  al_write m m' h : al_rep m h ->
    (forall b, (forall x, x ∈ al_live h -> b < x.1 \/ x.1 + x.2 <= b) -> mread m' b = mread m b) ->
    al_rep m' h;
}.

(** ** linkedList.h *)

Definition sizeof_linkedListNode : Z := 16.
Definition o_node_data : Z := 0.
Definition o_node_next : Z := 8.

Section List.
Context `{Allocator}.

Definition create_node (m : mem) (data : Z) : option (mem * Z) :=
  '(m, new_node) ← al_malloc m sizeof_linkedListNode;
  if negb (new_node =? 0) then
    let m := st64 m (new_node + o_node_data) data in
    let m := st64 m (new_node + o_node_next) 0 in
    Some (m, new_node)
  else Some (m, new_node).

(** The head variable is passed and returned. *)
Definition append_node (m : mem) (head data : Z) : option (mem * Z) :=
  '(m, new_node) ← create_node m data;
  if new_node =? 0 then Some (m, head)
  else if head =? 0 then Some (st64 m (new_node + o_node_next) 0, new_node)
  else Some (st64 m (new_node + o_node_next) head, new_node).

Fixpoint remove_loop (fuel : nat) (m : mem) (head previous current data : Z)
    (cmp : mem -> Z -> Z -> Z) : option (mem * Z) :=
  if current =? 0 then Some (m, head)
  else if cmp m (ld64 m (current + o_node_data)) data =? 0 then
    let '(m, head) :=
      if previous =? 0 then (m, ld64 m (current + o_node_next))
      else (st64 m (previous + o_node_next) (ld64 m (current + o_node_next)), head) in
    m ← al_free m current; Some (m, head)
  else match fuel with
       | O => None
       | S fuel => remove_loop fuel m head current (ld64 m (current + o_node_next)) data cmp
       end.

Definition remove_node (fuel : nat) (m : mem) (head data : Z) (cmp : mem -> Z -> Z -> Z)
    : option (mem * Z) :=
  remove_loop fuel m head 0 head data cmp.

Fixpoint free_list (fuel : nat) (m : mem) (current : Z) : option mem :=
  if current =? 0 then Some m
  else match fuel with
       | O => None
       | S fuel =>
           let next_node := ld64 m (current + o_node_next) in
           m ← al_free m current;
           free_list fuel m next_node
       end.

(** ** Lists in memory *)

(** The nodes [l], each an address with its data, linked from [head] to [n]. *)
Fixpoint lseg (m : mem) (head : Z) (l : list (Z * Z)) (n : Z) : Prop :=
  match l with
  | [] => head = n
  | (a, d) :: l => head = a /\ a <> 0 /\ ld64 m (a + o_node_data) = d /\
      lseg m (ld64 m (a + o_node_next)) l n
  end.

(** Every node is a live block, in the order [rest] has them among the others. *)
Definition owns (h : ast) (l : list (Z * Z)) (others : list (Z * Z)) : Prop :=
  exists szs, length szs = length l /\ Forall (fun s => 16 <= s) szs /\
    al_live h ≡ₚ zip (l.*1) szs ++ others.

Lemma lseg_ext m m' head l n :
  (forall x b, x ∈ l -> x.1 <= b < x.1 + 16 -> mread m' b = mread m b) ->
  lseg m head l n -> lseg m' head l n.
Proof.
  revert head. induction l as [|[a d] l IH]; intros head Hm; [done|]. simpl.
  intros (-> & Ha & Hd & Hl).
  assert (forall k, 0 <= k <= 8 -> ld64 m' (a + k) = ld64 m (a + k)) as E.
  { intros k Hk. apply load_ext. intros b Hb. simpl in Hb. apply (Hm (a, d)); [by left|simpl; lia]. }
  unfold o_node_data, o_node_next in *. rewrite !E by lia. split_and!; try done.
  apply IH; [|done]. intros x b Hx. apply Hm. by right.
Qed.

Lemma lseg_app m head l1 l2 n :
  lseg m head (l1 ++ l2) n <-> exists k, lseg m head l1 k /\ lseg m k l2 n.
Proof.
  revert head. induction l1 as [|[a d] l1 IH]; intros head; simpl.
  - split; [by exists head|by intros (k & -> & ?)].
  - rewrite IH. split; [intros (? & ? & ? & k & ? & ?); exists k; tauto|].
    intros (k & (? & ? & ? & ?) & ?). split_and!; try done. by exists k.
Qed.

Lemma live_elem h l others x :
  owns h l others -> x ∈ l -> exists s, 16 <= s /\ (x.1, s) ∈ al_live h.
Proof.
  intros (szs & Hlen & Hs & Hp) Hx. apply list_elem_of_lookup in Hx as [i Hi].
  assert (i < length szs)%nat as Hlt by (rewrite Hlen; by eapply lookup_lt_Some).
  destruct (lookup_lt_is_Some_2 szs i Hlt) as [s Hsi]. exists s. split.
  - rewrite list.Forall_forall in Hs. apply Hs. by eapply list_elem_of_lookup_2.
  - rewrite Hp. apply elem_of_app. left. apply list_elem_of_lookup. exists i.
    rewrite lookup_zip_with, list_lookup_fmap, Hi. simpl. by rewrite Hsi.
Qed.

(** Bytes of list nodes survive a change confined to the other blocks. *)
Lemma lseg_keep m m' h l others head n :
  owns h l others ->
  (forall x b, x ∈ al_live h -> x.1 <= b < x.1 + x.2 -> mread m' b = mread m b) ->
  lseg m head l n -> lseg m' head l n.
Proof.
  intros Ho Hm. apply lseg_ext. intros x b Hx Hb. destruct (live_elem h l others x Ho Hx) as (s & Hs & Hin).
  apply (Hm (x.1, s)); [done|simpl; lia].
Qed.

(** ** append_node *)

Lemma append_node_spec m h head data l others :
  al_rep m h -> owns h l others -> lseg m head l 0 -> al_ready h 16 ->
  0 <= data < 18446744073709551616 ->
  exists m' n h', append_node m head data = Some (m', n) /\ al_rep m' h' /\
    owns h' ((n, data) :: l) others /\ lseg m' n ((n, data) :: l) 0 /\
    (forall x b, x ∈ al_live h -> x.1 <= b < x.1 + x.2 -> mread m' b = mread m b).
Proof.
  intros Hr Ho Hl Hrd Hd. unfold append_node, create_node.
  destruct (al_malloc_law m h 16 Hr Hrd) as (m1 & p & sz & h' & E & R & L & Hsz & Hp & Hpe & Hkeep).
  unfold sizeof_linkedListNode. rewrite E. cbn [mbind option_bind].
  destruct (Z.eqb_spec p 0); [lia|]. cbn [negb]. cbn [mbind option_bind].
  destruct (Z.eqb_spec p 0); [lia|].
  set (m2 := st64 (st64 m1 (p + o_node_data) data) (p + o_node_next) 0).
  assert (head = (if head =? 0 then 0 else head)) as Hhd by (by destruct (Z.eqb_spec head 0)).
  assert ((if head =? 0 then Some (st64 m2 (p + o_node_next) 0, p)
           else Some (st64 m2 (p + o_node_next) head, p)) = Some (st64 m2 (p + o_node_next) head, p)) as ->.
  { by destruct (Z.eqb_spec head 0) as [->|]. }
  set (m3 := st64 m2 (p + o_node_next) head).
  assert (forall b, b < p \/ p + 16 <= b -> mread m3 b = mread m1 b) as Hout.
  { intros b Hb. unfold m3, m2, o_node_data, o_node_next. by mem_simp. }
  assert (0 <= head < 18446744073709551616) as Hhr.
  { destruct l as [|[a d] l]; simpl in Hl; [lia|]. destruct Hl as (-> & _).
    destruct (live_elem h _ others (a, d) Ho ltac:(by left)) as (s & Hs & Hin).
    destruct (al_pos m h _ Hr Hin). simpl in *. lia. }
  assert (forall x b, x ∈ al_live h -> x.1 <= b < x.1 + x.2 -> mread m3 b = mread m b) as Hall.
  { intros x b Hx Hb. rewrite Hout; [by apply (Hkeep x)|].
    destruct (al_apart m1 h' R [] (p, sz) (al_live h) L x Hx); simpl in *; lia. }
  exists m3, p, h'. split_and!; try done.
  - apply (al_write m1); [done|]. intros b Hb. apply Hout.
    specialize (Hb (p, sz)). rewrite L in Hb. specialize (Hb ltac:(by left)). simpl in Hb. lia.
  - destruct Ho as (szs & H1 & H2 & H3). exists (sz :: szs). split_and!; simpl; [lia|by constructor|].
    rewrite L, H3. done.
  - simpl. split_and!; [done|done| |].
    + unfold m3, m2, o_node_data, o_node_next. mem_simp. apply u64_small. lia.
    + assert (ld64 m3 (p + o_node_next) = head) as ->.
      { unfold m3. rewrite ld64_st64. by apply u64_small. }
      by eapply lseg_keep.
Qed.

(** ** Freeing *)

(** A node's block among the live ones, and the blocks left without it. *)
Lemma owns_split h l1 a d l2 others :
  owns h (l1 ++ (a, d) :: l2) others ->
  exists s k1 k2 szs, 16 <= s /\ al_live h = k1 ++ (a, s) :: k2 /\
    length szs = length (l1 ++ l2) /\ Forall (fun s => 16 <= s) szs /\
    k1 ++ k2 ≡ₚ zip ((l1 ++ l2).*1) szs ++ others.
Proof.
  intros (szs & Hlen & Hs & Hp). rewrite length_app in Hlen. simpl in Hlen.
  destruct (lookup_lt_is_Some_2 szs (length l1)) as [s Hsl]; [lia|].
  pose proof (take_drop_middle szs (length l1) s Hsl) as Hsz.
  set (s1 := take (length l1) szs) in *. set (s2 := drop (S (length l1)) szs) in *.
  assert (length s1 = length l1) as Hl1 by (unfold s1; rewrite length_take; lia).
  rewrite <- Hsz in Hp, Hs, Hlen. rewrite length_app in Hlen. simpl in Hlen.
  rewrite fmap_app, fmap_cons in Hp.
  rewrite zip_with_app in Hp by (rewrite length_fmap; lia). simpl in Hp.
  assert ((a, s) ∈ al_live h) as Hin.
  { rewrite Hp. apply elem_of_app; left. apply elem_of_app; right. by left. }
  apply list_elem_of_split in Hin as (k1 & k2 & Hk).
  apply Forall_app in Hs as [Hs1 [Hs0 Hs2]%list.Forall_cons].
  exists s, k1, k2, (s1 ++ s2). split_and!; try done.
  - rewrite !length_app. lia.
  - by apply Forall_app.
  - rewrite fmap_app, zip_with_app by (rewrite length_fmap; lia).
    apply (Permutation_cons_inv (a := (a, s))).
    transitivity (al_live h); [rewrite Hk; solve_Permutation|]. rewrite Hp. solve_Permutation.
Qed.

(** Freeing a node of the list gives its block back and leaves the rest. *)
Lemma free_node_spec m h l1 a d l2 others :
  al_rep m h -> owns h (l1 ++ (a, d) :: l2) others ->
  exists m' h', al_free m a = Some m' /\ al_rep m' h' /\ owns h' (l1 ++ l2) others /\
    (forall x b, x ∈ al_live h' -> x.1 <= b < x.1 + x.2 -> mread m' b = mread m b).
Proof.
  intros Hr Ho. destruct (owns_split _ _ _ _ _ _ Ho) as (s & k1 & k2 & szs & Hs & Hk & H1 & H2 & H3).
  destruct (al_free_law m h k1 a s k2 Hr Hk) as (m' & h' & E & R & L & Hkeep).
  exists m', h'. split_and!; try done; [|by rewrite L].
  exists szs. split_and!; try done. by rewrite L.
Qed.

Lemma nodes_apart m h l1 a d l2 others :
  al_rep m h -> owns h (l1 ++ (a, d) :: l2) others ->
  Forall (fun y => y.1 + 16 <= a \/ a + 16 <= y.1) (l1 ++ l2).
Proof.
  intros Hr Ho. destruct (owns_split _ _ _ _ _ _ Ho) as (s & k1 & k2 & szs & Hs & Hk & H1 & H2 & H3).
  apply list.Forall_forall. intros y Hy. apply list_elem_of_lookup in Hy as [i Hi].
  assert (i < length szs)%nat as Hlt by (rewrite H1; by eapply lookup_lt_Some).
  destruct (lookup_lt_is_Some_2 szs i Hlt) as [sy Hsi].
  assert (16 <= sy) by (rewrite list.Forall_forall in H2; apply H2; by eapply list_elem_of_lookup_2).
  assert ((y.1, sy) ∈ k1 ++ k2) as Hin.
  { rewrite H3. apply elem_of_app. left. apply list_elem_of_lookup. exists i.
    rewrite lookup_zip_with, list_lookup_fmap, Hi. simpl. by rewrite Hsi. }
  destruct (al_apart m h Hr k1 (a, s) k2 Hk (y.1, sy) Hin); simpl in *; lia.
Qed.

Lemma owns_nodes h l others m : al_rep m h -> owns h l others -> Forall (fun x => 0 < x.1) l.
Proof.
  intros Hr Ho. apply list.Forall_forall. intros x Hx.
  destruct (live_elem h l others x Ho Hx) as (s & Hs & Hin). by destruct (al_pos m h _ Hr Hin).
Qed.

Lemma free_list_spec fuel m h head l others :
  al_rep m h -> owns h l others -> lseg m head l 0 -> (length l <= fuel)%nat ->
  exists m' h', free_list fuel m head = Some m' /\ al_rep m' h' /\ al_live h' ≡ₚ others /\
    (forall x b, x ∈ others -> x.1 <= b < x.1 + x.2 -> mread m' b = mread m b).
Proof.
  revert fuel m h head. induction l as [|[a d] l IH]; intros fuel m h head Hr Ho Hl Hf.
  - simpl in Hl. subst head. exists m, h. split_and!; try done; [by destruct fuel|].
    destruct Ho as (szs & _ & _ & Hp). done.
  - simpl in Hl, Hf. destruct Hl as (-> & Ha & Hd & Hl). destruct fuel as [|fuel]; [lia|]. cbn [free_list].
    destruct (Z.eqb_spec a 0); [done|].
    destruct (free_node_spec m h [] a d l others Hr Ho) as (m1 & h1 & E & R & O1 & K1). simpl in O1.
    rewrite E. cbn [mbind option_bind].
    destruct (IH fuel m1 h1 (ld64 m (a + o_node_next))) as (m2 & h2 & E2 & R2 & L2 & K2);
      try done; try lia.
    { by eapply lseg_keep. }
    exists m2, h2. split_and!; try done. intros x b Hx Hb. rewrite (K2 x) by done.
    apply (K1 x); [|done]. destruct O1 as (szs & _ & _ & ->). apply elem_of_app. by right.
Qed.

(** ** remove_node *)

(** The list without its first node whose data compares equal. *)
Fixpoint remove_first (f : Z -> bool) (l : list (Z * Z)) : list (Z * Z) :=
  match l with
  | [] => []
  | (a, d) :: l => if f d then l else (a, d) :: remove_first f l
  end.

Lemma remove_first_split f l1 a d l2 :
  Forall (fun x => f x.2 = false) l1 -> f d = true -> remove_first f (l1 ++ (a, d) :: l2) = l1 ++ l2.
Proof.
  intros H1 H2. induction H1 as [|[b e] l1 Hb _ IH]; simpl; [by rewrite H2|].
  simpl in Hb. by rewrite Hb, IH.
Qed.

Lemma remove_first_none f l : Forall (fun x => f x.2 = false) l -> remove_first f l = l.
Proof. induction 1 as [|[b e] l Hb _ IH]; simpl; [done|]. simpl in Hb. by rewrite Hb, IH. Qed.

(** Pointing the last node of a segment elsewhere. *)
Lemma lseg_redirect m head l x d n n' :
  Forall (fun y => y.1 + 16 <= x \/ x + 16 <= y.1) l -> 0 <= n' < 18446744073709551616 ->
  lseg m head (l ++ [(x, d)]) n -> lseg (st64 m (x + o_node_next) n') head (l ++ [(x, d)]) n'.
Proof.
  intros Hap Hn. rewrite !lseg_app. intros (k & H1 & H2). exists k. split.
  - eapply lseg_ext; [|exact H1]. intros y b Hy Hb. rewrite list.Forall_forall in Hap.
    specialize (Hap y Hy). cbv beta in Hap. unfold o_node_next. apply mread_store_out. simpl. lia.
  - simpl in *. destruct H2 as (-> & Hx & Hd & _). unfold o_node_data, o_node_next in *. mem_simp.
    rewrite u64_small by lia. done.
Qed.

(** A store into a node leaves the allocator alone. *)
Lemma node_store m h l others x d v :
  al_rep m h -> owns h l others -> (x, d) ∈ l -> al_rep (st64 m (x + o_node_next) v) h.
Proof.
  intros Hr Ho Hx. destruct (live_elem h l others (x, d) Ho Hx) as (s & Hs & Hin).
  apply (al_write m); [done|]. intros b Hb. specialize (Hb _ Hin). simpl in Hb, Hin, Hs.
  unfold o_node_next. apply mread_store_out. simpl. lia.
Qed.

(** The other blocks do not see a store into a node. *)
Lemma node_store_others m h l1 x d l2 others v y b :
  al_rep m h -> owns h (l1 ++ (x, d) :: l2) others -> y ∈ others -> y.1 <= b < y.1 + y.2 ->
  mread (st64 m (x + o_node_next) v) b = mread m b.
Proof.
  intros Hr Ho Hy Hb. destruct (owns_split _ _ _ _ _ _ Ho) as (s & k1 & k2 & szs & Hs & Hk & _ & _ & H3).
  assert (y ∈ k1 ++ k2) as Hin by (rewrite H3; apply elem_of_app; by right).
  unfold o_node_next. apply mread_store_out.
  destruct (al_apart m h Hr k1 (x, s) k2 Hk y Hin); simpl in *; lia.
Qed.

Lemma owns_others h l others x : owns h l others -> x ∈ others -> x ∈ al_live h.
Proof. intros (szs & _ & _ & Hp) Hx. rewrite Hp. apply elem_of_app. by right. Qed.

Lemma remove_loop_spec fuel m h head l1 l2 others data cmp :
  al_rep m h -> owns h (l1 ++ l2) others -> lseg m head (l1 ++ l2) 0 ->
  Forall (fun x => (cmp m x.2 data =? 0) = false) l1 -> (length l2 <= fuel)%nat ->
  exists m' head' h', remove_loop fuel m head (last_or 0 l1) (head_or 0 l2) data cmp = Some (m', head') /\
    let l' := remove_first (fun d => cmp m d data =? 0) (l1 ++ l2) in
    al_rep m' h' /\ owns h' l' others /\ lseg m' head' l' 0 /\
    (forall x b, x ∈ others -> x.1 <= b < x.1 + x.2 -> mread m' b = mread m b).
Proof.
  intros Hr. revert fuel l1. induction l2 as [|[a d] l2 IH]; intros fuel l1 Ho Hl Hf1 Hlen.
  { exists m, head, h. split; [by destruct fuel|]. rewrite app_nil_r in *. cbv zeta.
    rewrite remove_first_none by done. done. }
  pose proof Hl as Hl'. apply lseg_app in Hl' as (k & Hk1 & -> & Ha & Hd & Hk2).
  simpl head_or. destruct fuel as [|fuel]; [simpl in Hlen; lia|]. cbn [remove_loop].
  destruct (Z.eqb_spec a 0); [done|]. rewrite Hd.
  destruct (cmp m d data =? 0) eqn:Hc.
  2: { assert (head_or 0 l2 = ld64 m (a + o_node_next)) as <-.
       { destruct l2 as [|[? ?] ?]; simpl in Hk2; [done|]. by destruct Hk2 as [-> _]. }
       destruct (IH fuel (l1 ++ [(a, d)])) as (m' & head' & h' & E & P); rewrite <- ?app_assoc; try done.
       - apply Forall_app. split; [done|]. by constructor.
       - simpl in Hlen. lia.
       - rewrite last_or_snoc in E. rewrite <- app_assoc in P. by exists m', head', h'. }
  cbv zeta. rewrite (remove_first_split _ l1 a d l2) by done.
  set (nx := ld64 m (a + o_node_next)) in *.
  destruct l1 as [|[q e] l1 _] using rev_ind.
  - simpl last_or. rewrite Z.eqb_refl. cbv iota beta.
    destruct (free_node_spec m h [] a d l2 others Hr Ho) as (m' & h' & E & R & O & Kp).
    rewrite E. cbn [mbind option_bind]. exists m', nx, h'. split_and!; try done.
    + by eapply lseg_keep.
    + intros x b Hx. apply (Kp x). by eapply owns_others.
  - rewrite last_or_snoc. simpl fst. rewrite <- (app_assoc l1) in Ho. simpl in Ho.
    assert (0 < q) as Hq.
    { pose proof (owns_nodes _ _ _ _ Hr Ho) as Hn. apply Forall_app in Hn as [_ Hn].
      apply list.Forall_cons in Hn as [Hn _]. done. }
    destruct (Z.eqb_spec q 0); [lia|]. cbv iota beta.
    pose proof (nodes_apart m h l1 q e ((a, d) :: l2) others Hr Ho) as Hap.
    apply Forall_app in Hap as [Hap1 Hap2]. apply list.Forall_cons in Hap2 as [_ Hap2].
    pose proof (node_store m h _ others q e nx Hr Ho ltac:(apply elem_of_app; right; by left)) as Hr1.
    replace (l1 ++ (q, e) :: (a, d) :: l2) with ((l1 ++ [(q, e)]) ++ (a, d) :: l2) in Ho by (by rewrite <- app_assoc).
    destruct (free_node_spec _ h (l1 ++ [(q, e)]) a d l2 others Hr1 Ho) as (m' & h' & E & R & O & Kp).
    rewrite E. cbn [mbind option_bind]. exists m', head, h'. split_and!; try done.
    + eapply lseg_keep; [exact O|exact Kp|]. apply lseg_app. exists nx. split.
      * apply (lseg_redirect m head l1 q e a nx); [done|apply ld64_range|done].
      * eapply lseg_ext; [|exact Hk2]. intros x b Hx Hb. rewrite list.Forall_forall in Hap2.
        specialize (Hap2 x Hx). cbv beta in Hap2. unfold o_node_next. apply mread_store_out. simpl. lia.
    + intros x b Hx Hb. rewrite (Kp x); [|by eapply owns_others|done].
      rewrite <- app_assoc in Ho. by apply (node_store_others m h l1 q e ((a, d) :: l2) others nx x).
Qed.
End List.

(** ** The chunk heap as an allocator *)

Section HeapInstance.
Context (base : Z) (fuel : nat).

Definition data_area (x : block) : Z * Z := (x.1 + 32, x.2 - 32).

Definition hrep (m : mem) (h : heap_abs) : Prop := heap_rep base m h /\ (abs_size h <= fuel)%nat.

Definition hready (h : heap_abs) (size : Z) : Prop :=
  request_ok (ab_end h) size /\ fit_at_head size (ab_free h) /\ (S (abs_size h) <= fuel)%nat.

Definition hlive (h : heap_abs) : list (Z * Z) := data_area <$> ab_alloc h.

Lemma hlive_elem h x : x ∈ hlive h -> exists y, y ∈ ab_alloc h /\ x = data_area y.
Proof. unfold hlive. intros (y & -> & Hy)%list_elem_of_fmap. by exists y. Qed.

Lemma heap_malloc_law m h size : hrep m h -> hready h size ->
  exists m' p sz h', malloc fuel base m size = Some (m', p) /\ hrep m' h' /\
    hlive h' = (p, sz) :: hlive h /\ size <= sz /\ 0 < p /\ p + sz <= 18446744073709551616 /\
    (forall x b, x ∈ hlive h -> x.1 <= b < x.1 + x.2 -> mread m' b = mread m b).
Proof.
  intros [Hr Hsz] (Hq & Hh & Hf). destruct h as [al fr he]. unfold heap_rep, heap_rep_st in Hr. simpl in *.
  pose proof (abs_step_size (HeapAbs al fr he) (OMalloc size)) as Hstep. simpl in Hstep.
  unfold abs_size in *. simpl in *.
  pose proof (malloc_refines_abs fuel base m al fr he size Hr Hq Hh ltac:(lia)) as Hm.
  pose proof (ho_base _ _ _ _ _ _ Hr) as Hb. pose proof (ho_end _ _ _ _ _ _ Hr) as He.
  destruct (request_need he size) as [Hn1 Hn2]; [heap_unfold; lia|done|].
  unfold abs_malloc, abs_heap in *. cbn [ab_alloc ab_free ab_end] in *.
  assert (forall m' x b, (forall x b, x ∈ al -> x.1 + 32 <= b < x.1 + x.2 -> mread m' b = mread m b) ->
    x ∈ hlive (HeapAbs al fr he) -> x.1 <= b < x.1 + x.2 -> mread m' b = mread m b) as Hkeep.
  { intros m' x b Hk Hx Hxb. apply hlive_elem in Hx as (y & Hy & ->). unfold data_area in Hxb. simpl in *.
    apply (Hk y); [done|lia]. }
  destruct (first_such _ fr) as [[[l1 [a sz]] l2]|] eqn:Hff; destruct Hm as (m' & E & P1 & P2 & P3 & _);
    cbn [ab_alloc ab_free ab_end fst] in *; unfold sizeof_malloc_chunk in *.
  - apply first_such_Some in Hff as [-> Hfit]. unfold fits in Hfit. apply Z.leb_le in Hfit. simpl in Hfit.
    pose proof (ho_in _ _ _ _ _ _ P1) as Hin. apply list.Forall_cons in Hin as [Hin _].
    exists m', (a + 32), (sz - 32), (HeapAbs ((a, sz) :: al) (l1 ++ l2) he). 
    split_and!; try done; try (heap_unfold; lia); [split; [done|unfold abs_size; simpl; rewrite !length_app in *; simpl in *; lia]|].
    intros x b. by apply Hkeep.
  - set (sz := Z.max _ _) in *. pose proof (ho_in _ _ _ _ _ _ P1) as Hin. apply list.Forall_cons in Hin as [Hin _].
    pose proof (ho_end _ _ _ _ _ _ P1) as He'.
    exists m', (he + 32), (sz - 32),
      (HeapAbs ((he, sz) :: al) fr (he + aalign sz HEAP_CHUNK_MIN_SIZE_BYTES)). split_and!; [done| |reflexivity|unfold sz; lia| | |].
    + split; [exact P1|]. unfold abs_size. simpl. lia.
    + heap_unfold. lia.
    + heap_unfold. lia.
    + intros x b. by apply Hkeep.
Qed.

Lemma first_such_at f k1 x k2 :
  Forall (fun y => f y = false) k1 -> f x = true -> first_such f (k1 ++ x :: k2) = Some (k1, x, k2).
Proof.
  intros H1 H2. induction H1 as [|y k1 Hy _ IH]; simpl; [by rewrite H2|]. by rewrite Hy, IH.
Qed.

Lemma heap_free_law m h l1 p sz l2 : hrep m h -> hlive h = l1 ++ (p, sz) :: l2 ->
  exists m' h', free fuel base m p = Some m' /\ hrep m' h' /\ hlive h' = l1 ++ l2 /\
    (forall x b, x ∈ l1 ++ l2 -> x.1 <= b < x.1 + x.2 -> mread m' b = mread m b).
Proof.
  intros [Hr Hsz] Hl. destruct h as [al fr he]. unfold heap_rep, heap_rep_st, hlive in *. simpl in *.
  apply fmap_app_inv in Hl as (k1 & k2' & -> & Hl2 & ->).
  symmetry in Hl2. apply fmap_cons_inv in Hl2 as ([a s] & k2 & [= -> ->] & -> & ->).
  pose proof (ho_apart _ _ _ _ _ _ Hr) as Hap. pose proof (ho_in _ _ _ _ _ _ Hr) as Hin.
  rewrite <- app_assoc in Hap, Hin. simpl in Hap, Hin.
  assert (forall y, y ∈ k1 ++ k2 -> apart2 (a, s) y /\ 64 <= y.2) as Hother.
  { intros y Hy. split.
    - apply (apart_middle (a, s) k1 k2 fr); [done|]. rewrite app_assoc. apply elem_of_app. by left.
    - rewrite list.Forall_forall in Hin. 
      assert (in_heap base he y) as Hy'; [|heap_unfold; lia]. apply Hin.
      apply elem_of_app in Hy as [Hy|Hy]; apply elem_of_app; [by left|right; right].
      apply elem_of_app. by left. }
  assert (64 <= s) as Hs.
  { apply Forall_app in Hin as [_ Hin]. apply list.Forall_cons in Hin as [Hin _]. heap_unfold. lia. }
  unfold abs_size in Hsz. simpl in Hsz.
  destruct (free_refines_abs fuel base m (k1 ++ (a, s) :: k2) fr he (a + 32) Hr) as (m' & E & P); [lia|].
  rewrite first_such_at in P.
  2: { apply list.Forall_forall. intros y Hy. apply Z.eqb_neq.
       destruct (Hother y) as [Hy1 Hy2]; [apply elem_of_app; by left|]. heap_unfold. lia. }
  2: { apply Z.eqb_eq. done. }
  destruct P as (P1 & P2 & P3 & _). unfold abs_free, abs_heap in P1. cbn [ab_alloc] in P1.
  rewrite first_such_at in P1.
  2: { apply list.Forall_forall. intros y Hy. apply Z.eqb_neq.
       destruct (Hother y) as [Hy1 Hy2]; [apply elem_of_app; by left|]. heap_unfold. lia. }
  2: { apply Z.eqb_eq. done. }
  exists m', (HeapAbs (k1 ++ k2) ((a, s) :: fr) he). split_and!; [done| |unfold hlive; cbn [ab_alloc]; by rewrite fmap_app|].
  - split; [exact P1|]. unfold abs_size. simpl. rewrite length_app in *. simpl in *. lia.
  - intros x b Hx Hb. rewrite <- fmap_app in Hx. apply list_elem_of_fmap in Hx as (y & -> & Hy).
    unfold data_area in Hb. simpl in Hb. destruct (Hother y Hy) as [Ho1 Ho2].
    apply (P3 y); [|intros ->; heap_unfold; lia|lia].
    apply elem_of_app in Hy as [Hy|Hy]; apply elem_of_app; [by left|right; by right].
Qed.

Lemma heap_live_apart m h : hrep m h -> forall l1 x l2, hlive h = l1 ++ x :: l2 ->
  forall y, y ∈ l1 ++ l2 -> x.1 + x.2 <= y.1 \/ y.1 + y.2 <= x.1.
Proof.
  intros [Hr _] l1 x l2 Hl y Hy. destruct h as [al fr he]. unfold heap_rep, heap_rep_st, hlive in *. simpl in *.
  apply fmap_app_inv in Hl as (k1 & k2' & -> & Hl2 & ->).
  symmetry in Hl2. apply fmap_cons_inv in Hl2 as ([a s] & k2 & -> & -> & ->).
  pose proof (ho_apart _ _ _ _ _ _ Hr) as Hap. rewrite <- app_assoc in Hap. simpl in Hap.
  rewrite <- fmap_app in Hy. apply list_elem_of_fmap in Hy as (z & -> & Hz).
  assert (apart2 (a, s) z) as Hp.
  { apply (apart_middle (a, s) k1 k2 fr); [done|]. rewrite app_assoc. apply elem_of_app. by left. }
  unfold data_area. heap_unfold. lia.
Qed.

Lemma heap_live_pos m h x : hrep m h -> x ∈ hlive h -> 0 < x.1 /\ x.1 + x.2 <= 18446744073709551616.
Proof.
  intros [Hr _] Hx. apply hlive_elem in Hx as (y & Hy & ->). unfold heap_rep, heap_rep_st in Hr.
  pose proof (ho_in _ _ _ _ _ _ Hr) as Hin. rewrite list.Forall_forall in Hin.
  specialize (Hin y ltac:(apply elem_of_app; by left)).
  pose proof (ho_base _ _ _ _ _ _ Hr). pose proof (ho_end _ _ _ _ _ _ Hr).
  unfold data_area. heap_unfold. lia.
Qed.

(** The heap's own bytes are no client's data. *)
Lemma heap_client_write m m' h : hrep m h ->
  (forall b, (forall x, x ∈ hlive h -> b < x.1 \/ x.1 + x.2 <= b) -> mread m' b = mread m b) -> hrep m' h.
Proof.
  intros [Hr Hsz] Hm. split; [|done]. unfold heap_rep, heap_rep_st in *. destruct h as [al fr he]. simpl in *.
  pose proof Hr as [Hb He Hbrk Hmch Hbin Hal Hfr Hin Hap].
  assert (forall b, base <= b < base + 64 -> mread m' b = mread m b) as Hst.
  { intros b Hbb. apply Hm. intros x Hx. apply hlive_elem in Hx as (y & Hy & ->). simpl in Hy.
    rewrite list.Forall_forall in Hin. specialize (Hin y ltac:(apply elem_of_app; by left)).
    unfold data_area. heap_unfold. lia. }
  assert (forall x b, x ∈ al ++ fr -> x.1 <= b < x.1 + 32 -> mread m' b = mread m b) as Hhd.
  { intros x b Hx Hbx. apply Hm. intros w Hw. apply hlive_elem in Hw as (y & Hy & ->). simpl in Hy.
    destruct (decide (x = y)) as [->|Hne]; [unfold data_area; simpl; lia|].
    apply elem_of_Permutation in Hx as [k Hk].
    assert (apart (x :: k)) as [Hf _] by (by apply (apart_perm (al ++ fr))).
    assert (y ∈ x :: k) as Hyk by (rewrite <- Hk; apply elem_of_app; by left).
    apply elem_of_cons in Hyk as [?|Hyk]; [congruence|].
    rewrite list.Forall_forall in Hf, Hin. specialize (Hf y Hyk).
    pose proof (Hin y ltac:(apply elem_of_app; by left)).
    pose proof (Hin x ltac:(rewrite Hk; by left)).
    unfold data_area. heap_unfold. lia. }
  split; try done.
  - rewrite <- Hbrk. apply load_ext. intros b Hb'. simpl in Hb'. apply Hst. heap_unfold. lia.
  - rewrite <- Hmch. apply load_ext. intros b Hb'. simpl in Hb'. apply Hst. heap_unfold. lia.
  - rewrite <- Hbin. apply load_ext. intros b Hb'. simpl in Hb'. apply Hst. heap_unfold. lia.
  - eapply seg_frame; [|exact Hal]. intros x Hx b. apply Hhd. apply elem_of_app. by left.
  - eapply seg_frame; [|exact Hfr]. intros x Hx b. apply Hhd. apply elem_of_app. by right.
Qed.

#[export] Instance heap_allocator : Allocator := {|
  ast := heap_abs; al_rep := hrep; al_live := hlive; al_ready := hready;
  al_malloc := malloc fuel base; al_free := free fuel base;
  al_malloc_law := heap_malloc_law; al_free_law := heap_free_law;
  al_apart := heap_live_apart; al_pos := heap_live_pos; al_write := heap_client_write |}.
End HeapInstance.

(** ** Theorems *)

(** Fact: against the allocator interface alone, append_node puts the new node at
    the front of the list (its comment says the end): it returns, the memory
    holds the list with the new node first, the node is a live block of the
    allocator, and no byte of any block that was live before changes. *)
Theorem append_node_prepends `{Allocator} m h head data l others :
  al_rep m h -> owns h l others -> lseg m head l 0 -> al_ready h 16 ->
  0 <= data < 18446744073709551616 ->
  exists m' n h', append_node m head data = Some (m', n) /\ al_rep m' h' /\
    owns h' ((n, data) :: l) others /\ lseg m' n ((n, data) :: l) 0 /\
    (forall x b, x ∈ al_live h -> x.1 <= b < x.1 + x.2 -> mread m' b = mread m b).
Proof. apply append_node_spec. Qed.

(** Fact: remove_node unlinks and frees exactly the first node whose data the
    comparison accepts, and leaves the list as it is when there is none: the
    memory then holds the shortened list, the allocator's live blocks are its
    nodes and the others, and the data of the others is untouched.  The walk
    ends within as many steps as there are nodes. *)
Theorem remove_node_removes `{Allocator} fuel m h head l others data cmp :
  al_rep m h -> owns h l others -> lseg m head l 0 -> (length l <= fuel)%nat ->
  exists m' head' h', remove_node fuel m head data cmp = Some (m', head') /\
    let l' := remove_first (fun d => cmp m d data =? 0) l in
    al_rep m' h' /\ owns h' l' others /\ lseg m' head' l' 0 /\
    (forall x b, x ∈ others -> x.1 <= b < x.1 + x.2 -> mread m' b = mread m b).
Proof.
  intros Hr Ho Hl Hf. unfold remove_node.
  assert (head_or 0 l = head) as Hh.
  { destruct l as [|[a d] l]; simpl in Hl; [done|]. by destruct Hl as [-> _]. }
  destruct (remove_loop_spec fuel m h head [] l others data cmp) as (m' & head' & h' & E & P); try done.
  simpl in E. rewrite Hh in E. by exists m', head', h'.
Qed.

(** Fact: free_list gives every node of the list back to the allocator, whose
    live blocks are then exactly the others, with their data untouched. *)
Theorem free_list_frees `{Allocator} fuel m h head l others :
  al_rep m h -> owns h l others -> lseg m head l 0 -> (length l <= fuel)%nat ->
  exists m' h', free_list fuel m head = Some m' /\ al_rep m' h' /\ al_live h' ≡ₚ others /\
    (forall x b, x ∈ others -> x.1 <= b < x.1 + x.2 -> mread m' b = mread m b).
Proof. apply free_list_spec. Qed.

(** ** Witnesses: on the kernel's heap *)

Definition kmem : mem := (init_heap ∅ 0 kbase 4194304).1.

Lemma kheap_rep : hrep kbase 8 kmem (empty_heap kbase).
Proof. split; [exact kernel_heap_ok|vm_compute; lia]. Qed.

Lemma kheap_owns : owns (H := heap_allocator kbase 8) (empty_heap kbase) [] [].
Proof. exists []. split_and!; [done|constructor|done]. Qed.

Lemma append_node_prepends_witness :
  exists m' n h', append_node (H := heap_allocator kbase 8) kmem 0 77 = Some (m', n) /\
    hrep kbase 8 m' h' /\ lseg m' n [(n, 77)] 0.
Proof.
  destruct (append_node_prepends (H := heap_allocator kbase 8) kmem (empty_heap kbase) 0 77 [] []
              kheap_rep kheap_owns eq_refl) as (m' & n & h' & H1 & H2 & _ & H4 & _);
    [split_and!; [trace_side|reflexivity|vm_compute; lia]|lia|].
  exists m', n, h'. exact (conj H1 (conj H2 H4)).
Defined.

(** The kernel heap with one node. *)
Lemma kheap_one : exists m n h, hrep kbase 8 m h /\ owns (H := heap_allocator kbase 8) h [(n, 77)] [] /\
  lseg m n [(n, 77)] 0.
Proof.
  destruct (append_node_spec (H := heap_allocator kbase 8) kmem (empty_heap kbase) 0 77 [] []
              kheap_rep kheap_owns eq_refl) as (m' & n & h' & H1 & H2 & H3 & H4 & _);
    [split_and!; [trace_side|reflexivity|vm_compute; lia]|lia|].
  exists m', n, h'. exact (conj H2 (conj H3 H4)).
Qed.

Lemma remove_node_removes_witness :
  exists m n m' head' h', remove_node (H := heap_allocator kbase 8) 1 m n 77 (fun _ a b => a - b) = Some (m', head') /\
    lseg m' head' [] 0 /\ hrep kbase 8 m' h'.
Proof.
  destruct kheap_one as (m & n & h & H1 & H2 & H3).
  destruct (remove_node_removes (H := heap_allocator kbase 8) 1 m h n [(n, 77)] [] 77 (fun _ a b => a - b)
              H1 H2 H3 ltac:(simpl; lia)) as (m' & head' & h' & E & P1 & _ & P3 & _).
  exists m, n, m', head', h'. exact (conj E (conj P3 P1)).
Defined.

Lemma free_list_frees_witness :
  exists m n m' h', free_list (H := heap_allocator kbase 8) 1 m n = Some m' /\
    hrep kbase 8 m' h' /\ hlive h' ≡ₚ [].
Proof.
  destruct kheap_one as (m & n & h & H1 & H2 & H3).
  destruct (free_list_frees (H := heap_allocator kbase 8) 1 m h n [(n, 77)] [] H1 H2 H3 ltac:(simpl; lia))
    as (m' & h' & E & P1 & P2 & _).
  exists m, n, m', h'. exact (conj E (conj P1 P2)).
Defined.
