(* ===== verification/Paging.v ===== *)
(** * Paging: the four-level page tables and the page frame allocator

    kernel/arch/x86_64/mmu/page.c, pframe.c, hardwareMem.c with the constants of
    mmu.h and mlayout.h.  The code reaches the tables through virtual addresses
    of the recursive PML4 slot, so every access of the model goes through the
    processor's page walk; a missing translation is [None], a page fault.  The
    walk reads the tables of physical memory each time: the TLB, which the code
    invalidates with invlpg before it uses a new translation, is not a state.
    The allocator's bitmap is a byte array of its own. *)

From S2P Require Import Prelude Mem CStdlib.

(** ** mlayout.h, mmu.h *)

Definition PAGE_SIZE : Z := 4096.
Definition MB : Z := 1024 * 1024.
Definition MEMORY_SIZE_PAGES : Z := 0x40000 * 4.
Definition KERNEL_LOAD_ADDR : Z := 0x10000.
Definition KERNEL_VBASE : Z := 0x810000.
Definition KERNEL_END : Z := 10 * MB.
Definition PAGE_FRAME_ALLOCATOR_START : Z := KERNEL_END.
Definition PAGE_FRAME_ALLOCATOR_BITMAP_SIZE : Z := MEMORY_SIZE_PAGES.
Definition PAGE_FRAME_ALLOCATOR_END : Z :=
  PAGE_FRAME_ALLOCATOR_START + PAGE_FRAME_ALLOCATOR_BITMAP_SIZE - 1.
Definition PML4_BOOT : Z := 0x80000.
Definition PML4_KERNEL : Z := 0xd00000.
Definition KERNEL_HEAP_START : Z := 0x20 * MB.
Definition KERNEL_HEAP_SIZE_PAGES : Z := 0x400.
Definition HARDWARE_MEM_START : Z := KERNEL_HEAP_START + KERNEL_HEAP_SIZE_PAGES * PAGE_SIZE.

Definition PML4_RECURSIVE_ENTRY_NUM : Z := 511.
Definition PAGE_PRESENT : Z := 1.
Definition PAGE_WRITE : Z := 2.
Definition PAGE_UNCACHEABLE : Z := 8.
Definition PAGE_USER : Z := 4.
Definition PAGE_MAP_FLAGS : Z := Z.lor (Z.lor PAGE_PRESENT PAGE_WRITE) PAGE_USER.

(** ** The machine state the code works on *)

Record PageFrameAllocator := Allocator {
  bitmap : mem;
  num_pages : Z;
  initialized : Z;
}.

Record mach := Mach {
  pm : mem;                  (* physical memory *)
  cr3 : Z;
  allocator : PageFrameAllocator;
  hardware_alloc_size : Z;
  interrupts_ready : bool;
  intr_flag : bool;          (* RFLAGS.IF *)
}.

Definition set_pm (s : mach) (m : mem) : mach :=
  Mach m (cr3 s) (allocator s) (hardware_alloc_size s) (interrupts_ready s) (intr_flag s).
Definition set_bitmap (s : mach) (b : mem) : mach :=
  Mach (pm s) (cr3 s) (Allocator b (num_pages (allocator s)) (initialized (allocator s)))
    (hardware_alloc_size s) (interrupts_ready s) (intr_flag s).
Definition set_ready (s : mach) (b : bool) : mach :=
  Mach (pm s) (cr3 s) (allocator s) (hardware_alloc_size s) b (intr_flag s).
Definition cli (s : mach) : mach :=
  Mach (pm s) (cr3 s) (allocator s) (hardware_alloc_size s) (interrupts_ready s) false.
(** The flag is set only once the kernel is ready for interrupts. *)
Definition sti (s : mach) : mach :=
  Mach (pm s) (cr3 s) (allocator s) (hardware_alloc_size s) (interrupts_ready s)
    (if interrupts_ready s then true else intr_flag s).
Definition set_pml4_address (s : mach) (pml4 : Z) : mach :=
  Mach (pm s) pml4 (allocator s) (hardware_alloc_size s) (interrupts_ready s) (intr_flag s).
Definition get_pml4_address (s : mach) : Z := cr3 s.
Definition flush_tlb (s : mach) : mach := set_pml4_address s (get_pml4_address s).

(** ** The processor's walk *)

Definition present (e : Z) : bool := negb (Z.land e PAGE_PRESENT =? 0).
(** Bit 7 of an entry of a PDPT or of a page directory: a page of 1 GiB or 2 MiB. *)
Definition large (e : Z) : bool := present e && Z.testbit e 7.
(** Bits 12 to 51 of an entry. *)
Definition frame (e : Z) : Z := Z.land e 0xFFFFFFFFFF000.
Definition index_at (va sh : Z) : Z := Z.land (Z.shiftr va sh) 0x1FF.
Definition canonical (va : Z) : bool := (va <? 2 ^ 47) || (2 ^ 64 - 2 ^ 47 <=? va).

(** Follow a path of table indices from the table at [t]. *)
Fixpoint tbl (m : mem) (t : Z) (path : list Z) : option Z :=
  match path with
  | [] => Some t
  | i :: path =>
      let e := ld64 m (t + 8 * i) in
      if present e then tbl m (frame e) path else None
  end.

Definition va_path (va : Z) : list Z :=
  [index_at va 39; index_at va 30; index_at va 21; index_at va 12].

Definition translate (m : mem) (root va : Z) : option Z :=
  if canonical va then
    pdpt ← tbl m (frame root) [index_at va 39];
    let e := ld64 m (pdpt + 8 * index_at va 30) in
    if large e then Some (Z.land e 0xFFFFFC0000000 + Z.land va 0x3FFFFFFF) else
    pd ← tbl m pdpt [index_at va 30];
    let e := ld64 m (pd + 8 * index_at va 21) in
    if large e then Some (Z.land e 0xFFFFFFFE00000 + Z.land va 0x1FFFFF) else
    page ← tbl m pd [index_at va 21; index_at va 12];
    Some (page + Z.land va 0xFFF)
  else None.

(** Accesses through virtual addresses; the pointers of this code are aligned,
    so an access stays in its page. *)
Definition vld64 (s : mach) (va : Z) : option Z :=
  pa ← translate (pm s) (cr3 s) va; Some (ld64 (pm s) pa).
Definition vst64 (s : mach) (va v : Z) : option mach :=
  pa ← translate (pm s) (cr3 s) va; Some (set_pm s (st64 (pm s) pa v)).
(** memset(va, 0, PAGE_SIZE) for a page-aligned [va] *)
Definition vzero_page (s : mach) (va : Z) : option mach :=
  pa ← translate (pm s) (cr3 s) va; Some (set_pm s (memset (pm s) pa 0 PAGE_SIZE)).

(** ** pframe.c *)

Definition init_page_frame_allocator (s : mach) (memory_size_pages : Z) : mach :=
  let s := cli s in
  if negb (initialized (allocator s) =? 0) then s
  else
    let b := memset (bitmap (allocator s)) 0 0 memory_size_pages in
    let b := memset b 0 1 ((PAGE_FRAME_ALLOCATOR_END + PAGE_SIZE) / PAGE_SIZE) in
    sti (Mach (pm s) (cr3 s) (Allocator b memory_size_pages 1) (hardware_alloc_size s)
           (interrupts_ready s) (intr_flag s)).

(** The first free page from [i]; [k] pages are left. *)
Fixpoint allocate_loop (k : nat) (b : mem) (pid i : Z) : mem * Z :=
  match k with
  | O => (b, 0)
  | S k => if mread b i =? 0 then (mwrite b i pid, i * PAGE_SIZE) else allocate_loop k b pid (i + 1)
  end.

Definition allocate_page (s : mach) (pid : Z) : mach * Z :=
  let '(b, p) := allocate_loop (Z.to_nat (num_pages (allocator s))) (bitmap (allocator s)) pid 0 in
  (set_bitmap s b, p).

(** The page is zeroed through its physical address as a virtual one. *)
Definition allocate_and_zero_page (s : mach) (pid : Z) : option (mach * Z) :=
  let '(s, page) := allocate_page s pid in
  if negb (page =? 0) then s ← vzero_page s page; Some (s, page) else Some (s, page).

(** The complement of [1ULL << k] masks a byte. *)
Definition deallocate_page (b : mem) (page : Z) : mem :=
  let page_index := page / PAGE_SIZE in
  mwrite b (page_index / 64)
    (Z.land (mread b (page_index / 64)) (2 ^ 64 - 1 - Z.shiftl 1 (page_index mod 64))).

(** ** page.c *)

Definition get_addr_from_table_indexes (pml4_index pdpt_index pd_index pt_index : Z) : Z :=
  let virtual_address := Z.shiftl (Z.land pml4_index 511) 39 in
  let virtual_address := Z.lor virtual_address (Z.shiftl (Z.land pdpt_index 511) 30) in
  let virtual_address := Z.lor virtual_address (Z.shiftl (Z.land pd_index 511) 21) in
  let virtual_address := Z.lor virtual_address (Z.shiftl (Z.land pt_index 511) 12) in
  if negb (Z.land virtual_address (Z.shiftl 1 47) =? 0)
  then Z.lor virtual_address 0xFFFF000000000000 else virtual_address.

Definition init_recursive_paging (s : mach) (pml4 : Z) : option mach :=
  vst64 s (pml4 + 8 * PML4_RECURSIVE_ENTRY_NUM) (Z.lor pml4 PAGE_MAP_FLAGS).

(** One of the three blocks of map_page: make the entry [index] of the table at
    [parent] present, with a fresh zeroed table seen at [child]; [false] when
    the allocator has no page and map_page returns. *)
Definition ensure_table (s : mach) (pid parent index child : Z) : option (mach * bool) :=
  e ← vld64 s (parent + 8 * index);
  if Z.land e PAGE_PRESENT =? 0 then
    let '(s, page) := allocate_page s pid in
    if page =? 0 then Some (s, false)
    else
      s ← vst64 s (parent + 8 * index) (Z.lor page PAGE_MAP_FLAGS);
      s ← vzero_page s child;
      Some (s, true)
  else Some (s, true).

Definition map_page (s : mach) (pid virtual_address physical_address flags : Z) : option mach :=
  let s := cli (set_ready s false) in
  let pml4_index := index_at virtual_address 39 in
  let pdpt_index := index_at virtual_address 30 in
  let pd_index := index_at virtual_address 21 in
  let pt_index := index_at virtual_address 12 in
  let R := PML4_RECURSIVE_ENTRY_NUM in
  let pml4_recursive := get_addr_from_table_indexes R R R R in
  let pdpt_recursive := get_addr_from_table_indexes R R R pml4_index in
  '(s, ok) ← ensure_table s pid pml4_recursive pml4_index pdpt_recursive;
  if negb ok then Some s else
  let pd_recursive := get_addr_from_table_indexes R R pml4_index pdpt_index in
  '(s, ok) ← ensure_table s pid pdpt_recursive pdpt_index pd_recursive;
  if negb ok then Some s else
  let pt_recursive := get_addr_from_table_indexes R pml4_index pdpt_index pd_index in
  '(s, ok) ← ensure_table s pid pd_recursive pd_index pt_recursive;
  if negb ok then Some s else
  s ← vst64 s (pt_recursive + 8 * pt_index) (Z.lor physical_address flags);
  Some (sti (set_ready s true)).

Definition unmap_page (s : mach) (virtual_address : Z) : option mach :=
  let s := cli (set_ready s false) in
  let pml4_index := index_at virtual_address 39 in
  let pdpt_index := index_at virtual_address 30 in
  let pd_index := index_at virtual_address 21 in
  let pt_index := index_at virtual_address 12 in
  let R := PML4_RECURSIVE_ENTRY_NUM in
  let pml4_recursive := get_addr_from_table_indexes R R R R in
  let pdpt_recursive := get_addr_from_table_indexes R R R pml4_index in
  let pd_recursive := get_addr_from_table_indexes R R pml4_index pdpt_index in
  let pt_recursive := get_addr_from_table_indexes R pml4_index pdpt_index pd_index in
  e4 ← vld64 s (pml4_recursive + 8 * pml4_index);
  if Z.land e4 PAGE_PRESENT =? 0 then Some s else
  e3 ← vld64 s (pdpt_recursive + 8 * pdpt_index);
  if Z.land e3 PAGE_PRESENT =? 0 then Some s else
  e2 ← vld64 s (pd_recursive + 8 * pd_index);
  if Z.land e2 PAGE_PRESENT =? 0 then Some s else
  e1 ← vld64 s (pt_recursive + 8 * pt_index);
  if Z.land e1 PAGE_PRESENT =? 0 then Some s else
  s ← vst64 s (pt_recursive + 8 * pt_index) 0;
  Some (sti (set_ready s true)).

(** [~0xFFF] is an int, sign-extended to 64 bits. *)
Definition table_of (e : Z) : Z := Z.land e 0xFFFFFFFFFFFFF000.

Definition is_page_mapped (s : mach) (pml4 virtual_address : Z) : option Z :=
  let minus_one := 2 ^ 64 - 1 in
  e4 ← vld64 s (pml4 + 8 * index_at virtual_address 39);
  if Z.land e4 PAGE_PRESENT =? 0 then Some minus_one else
  e3 ← vld64 s (table_of e4 + 8 * index_at virtual_address 30);
  if Z.land e3 PAGE_PRESENT =? 0 then Some minus_one else
  e2 ← vld64 s (table_of e3 + 8 * index_at virtual_address 21);
  if Z.land e2 PAGE_PRESENT =? 0 then Some minus_one else
  e1 ← vld64 s (table_of e2 + 8 * index_at virtual_address 12);
  if Z.land e1 PAGE_PRESENT =? 0 then Some minus_one else Some e1.

(** ** Ranges *)

(** [bitmap[addr / PAGE_SIZE] = v], with nothing in the code that keeps the index
    within the array: [None] past its end, where the byte would go to whatever
    lies behind the allocator (pframe.c, lines 35 and 51). *)
Definition mark_page (s : mach) (addr v : Z) : option mach :=
  if addr / PAGE_SIZE <? PAGE_FRAME_ALLOCATOR_BITMAP_SIZE
  then Some (set_bitmap s (mwrite (bitmap (allocator s)) (addr / PAGE_SIZE) v)) else None.

(** [k] pages from [addr]. *)
Fixpoint map_range_loop (k : nat) (s : mach) (pid addr physical_addr flags set_in_allocator : Z)
    : option mach :=
  match k with
  | O => Some s
  | S k =>
      s ← map_page s pid addr physical_addr flags;
      s ← (if negb (set_in_allocator =? 0) then mark_page s addr pid else Some s);
      map_range_loop k s pid (addr + PAGE_SIZE) (physical_addr + PAGE_SIZE) flags set_in_allocator
  end.

Definition map_memory_range_with_flags (s : mach) (pid start_addr end_addr physical_addr flags
    set_in_allocator : Z) : option mach :=
  let start := aalign_down start_addr PAGE_SIZE in
  let e := aalign end_addr PAGE_SIZE in
  let physical_addr := aalign_down physical_addr PAGE_SIZE in
  map_range_loop (Z.to_nat ((e - start) / PAGE_SIZE)) s pid start physical_addr flags set_in_allocator.

Definition map_memory_range (s : mach) (pid start_addr end_addr physical_addr : Z) : option mach :=
  map_memory_range_with_flags s pid start_addr end_addr physical_addr PAGE_MAP_FLAGS 1.

Fixpoint unmap_range_loop (k : nat) (s : mach) (addr set_in_allocator : Z) : option mach :=
  match k with
  | O => Some s
  | S k =>
      s ← unmap_page s addr;
      s ← (if negb (set_in_allocator =? 0) then mark_page s addr 0 else Some s);
      unmap_range_loop k s (addr + PAGE_SIZE) set_in_allocator
  end.

Definition unmap_memory_range (s : mach) (start_addr end_addr set_in_allocator : Z) : option mach :=
  let start := aalign_down start_addr PAGE_SIZE in
  let e := aalign end_addr PAGE_SIZE in
  unmap_range_loop (Z.to_nat ((e - start) / PAGE_SIZE)) s start set_in_allocator.

(** ** hardwareMem.c *)

Definition hardware_allocate_mem (s : mach) (kpid size alignment : Z) : option (mach * Z) :=
  let addr := aalign (HARDWARE_MEM_START + hardware_alloc_size s) alignment in
  let s := Mach (pm s) (cr3 s) (allocator s) (u64 (addr + size - HARDWARE_MEM_START + 1))
             (interrupts_ready s) (intr_flag s) in
  s ← map_memory_range_with_flags s kpid addr (u64 (addr + size - 1)) addr
        (Z.lor (Z.lor PAGE_WRITE PAGE_PRESENT) PAGE_UNCACHEABLE) 1;
  Some (flush_tlb s, addr).

(** ** The kernel's tables *)

Definition switch_context (s : mach) (pid pml4 : Z) : option mach :=
  let s := cli s in
  let s := set_bitmap s (memset (bitmap (allocator s)) 0 1 (UPPER_DIVIDE PAGE_FRAME_ALLOCATOR_END PAGE_SIZE)) in
  s ← map_memory_range s pid 0 (0 + 3 * MB - 1) 0;
  s ← map_memory_range s pid (KERNEL_VBASE - KERNEL_LOAD_ADDR) (PAGE_FRAME_ALLOCATOR_END - 1)
        (KERNEL_VBASE - KERNEL_LOAD_ADDR);
  (* pcb->ctx.pml4 + PAGE_SIZE - 1 is arithmetic on a uint64_t pointer *)
  s ← map_memory_range s pid pml4 (pml4 + 8 * (PAGE_SIZE - 1)) pml4;
  let s := cli s in
  let s := set_pml4_address s pml4 in
  Some (sti s).

Definition init_kernel_paging (s : mach) (kpid memory_size_pages : Z) : option mach :=
  let s := init_page_frame_allocator s memory_size_pages in
  let s := cli s in
  let s := set_bitmap s (mwrite (bitmap (allocator s)) (PML4_BOOT / PAGE_SIZE) 1) in
  let s := set_bitmap s (mwrite (bitmap (allocator s)) ((PML4_BOOT + 8 * PAGE_SIZE) / PAGE_SIZE) 1) in
  s ← vzero_page s PML4_KERNEL;
  s ← vst64 s (PML4_BOOT + 8 * PML4_RECURSIVE_ENTRY_NUM) (Z.lor PML4_KERNEL PAGE_MAP_FLAGS);
  s ← init_recursive_paging s PML4_KERNEL;
  s ← switch_context s kpid PML4_KERNEL;
  let s := cli s in
  let s := set_bitmap s (mwrite (bitmap (allocator s)) (PML4_BOOT / PAGE_SIZE) 0) in
  let s := set_bitmap s (mwrite (bitmap (allocator s)) ((PML4_BOOT + 8 * PAGE_SIZE) / PAGE_SIZE) 0) in
  Some s.

(** ** Entries and addresses as numbers *)

Lemma frame_spec e : frame e = e / 4096 mod 2 ^ 40 * 4096.
Proof.
  unfold frame. change 0xFFFFFFFFFF000 with (Z.shiftl (Z.ones 40) 12).
  change 4096 with (2 ^ 12). rewrite <- Z.shiftr_div_pow2, <- Z.land_ones, <- Z.shiftl_mul_pow2 by lia.
  apply Z.bits_inj'. intros i Hi. rewrite Z.land_spec. destruct (Z.lt_ge_cases i 12).
  - rewrite !Z.shiftl_spec_low by lia. apply andb_false_r.
  - rewrite !Z.shiftl_spec_high, Z.land_spec, Z.shiftr_spec by lia. do 2 f_equal. lia.
Qed.

Lemma frame_aligned e : 0 <= frame e < 2 ^ 52 /\ frame e mod 4096 = 0.
Proof.
  rewrite frame_spec. pose proof (Z.mod_pos_bound (e / 4096) (2 ^ 40) ltac:(lia)). split; [lia|].
  by rewrite Z.mod_mul.
Qed.

Lemma page_entry p f :
  0 <= p < 2 ^ 52 -> p mod 4096 = 0 -> 0 <= f < 4096 -> Z.lor p f = p + f /\ frame (Z.lor p f) = p.
Proof.
  intros Hp Ha Hf. assert (p = p / 4096 * 4096) as E by zlia.
  assert (Z.lor p f = p + f) as HL.
  { rewrite E at 1. change 4096 with (2 ^ 12). rewrite <- Z.shiftl_mul_pow2, lor_high by lia. change (2 ^ 12) with 4096. lia. }
  split; [done|]. rewrite HL, frame_spec.
  replace ((p + f) / 4096) with (p / 4096) by zlia. rewrite Z.mod_small; [lia|].
  split; [apply Z.div_pos; lia|]. apply Z.div_lt_upper_bound; lia.
Qed.

Lemma present_odd e : present e = Z.odd e.
Proof.
  unfold present, PAGE_PRESENT. change 1 with (Z.ones 1). rewrite Z.land_ones by lia.
  change (2 ^ 1) with 2. rewrite Zmod_odd. by destruct (Z.odd e).
Qed.

Lemma index_at_spec va sh : 0 <= sh -> index_at va sh = va / 2 ^ sh mod 512.
Proof.
  intros. unfold index_at. change 0x1FF with (Z.ones 9). rewrite Z.land_ones, Z.shiftr_div_pow2 by lia. done.
Qed.

Lemma index_at_range va sh : 0 <= sh -> 0 <= index_at va sh < 512.
Proof. intros. rewrite index_at_spec by done. apply Z.mod_pos_bound. lia. Qed.

Lemma offset_spec va : Z.land va 0xFFF = va mod 4096.
Proof. change 0xFFF with (Z.ones 12). by rewrite Z.land_ones. Qed.

Lemma large_small p f : 0 <= f < 128 -> large (p * 4096 + f) = false.
Proof.
  intros Hf. unfold large. rewrite Z.testbit_odd, Z.shiftr_div_pow2 by lia.
  replace ((p * 4096 + f) / 2 ^ 7) with (2 * (p * 16)) by zlia. rewrite Z.odd_mul. apply andb_false_r.
Qed.

Definition idx (i : Z) : Prop := 0 <= i < 512.

(** The address of an index tuple: its bits, sign-extended. *)
Lemma get_addr_spec a b c d : idx a -> idx b -> idx c -> idx d ->
  get_addr_from_table_indexes a b c d =
  a * 2 ^ 39 + b * 2 ^ 30 + c * 2 ^ 21 + d * 2 ^ 12 + (if 256 <=? a then 0xFFFF000000000000 else 0).
Proof.
  unfold idx. intros Ha Hb Hc Hd. unfold get_addr_from_table_indexes.
  change 511 with (Z.ones 9). rewrite !Z.land_ones, !Z.mod_small by (simpl; lia).
  rewrite (Z.shiftl_mul_pow2 b), (Z.shiftl_mul_pow2 c), (Z.shiftl_mul_pow2 d) by lia.
  rewrite (lor_high a) by lia.
  replace (a * 2 ^ 39 + b * 2 ^ 30) with (Z.shiftl (a * 512 + b) 30) by (rewrite Z.shiftl_mul_pow2; lia).
  rewrite (lor_high (a * 512 + b)) by lia.
  replace ((a * 512 + b) * 2 ^ 30 + c * 2 ^ 21) with (Z.shiftl ((a * 512 + b) * 512 + c) 21)
    by (rewrite Z.shiftl_mul_pow2; lia).
  rewrite (lor_high _ (d * 2 ^ 12)) by lia.
  set (v := ((a * 512 + b) * 512 + c) * 2 ^ 21 + d * 2 ^ 12).
  assert (v = a * 2 ^ 39 + b * 2 ^ 30 + c * 2 ^ 21 + d * 2 ^ 12) as Hv by (unfold v; lia).
  transitivity (v + (if 256 <=? a then 0xFFFF000000000000 else 0)); [|rewrite Z.shiftl_mul_pow2 by lia; lia].
  assert (Z.testbit v 47 = (256 <=? a)) as Hbit.
  { rewrite Z.testbit_odd, Z.shiftr_div_pow2 by lia. destruct (Z.leb_spec 256 a).
    - replace (v / 2 ^ 47) with 1; [done|]. zlia.
    - replace (v / 2 ^ 47) with 0; [done|]. zlia. }
  assert ((Z.land v (Z.shiftl 1 47) =? 0) = negb (256 <=? a)) as ->.
  { rewrite <- Hbit. rewrite Z.shiftl_1_l. destruct (Z.testbit v 47) eqn:E; simpl.
    - apply Z.eqb_neq. intros H. assert (Z.testbit (Z.land v (2 ^ 47)) 47 = false) as H' by (by rewrite H).
      rewrite Z.land_spec, E, Z.pow2_bits_true in H' by lia. done.
    - apply Z.eqb_eq, Z.bits_inj'. intros i Hi. rewrite Z.land_spec, Z.pow2_bits_eqb, Z.bits_0 by lia.
      destruct (Z.eqb_spec 47 i) as [<-|]; [by rewrite E|apply andb_false_r]. }
  rewrite negb_involutive. destruct (256 <=? a); [|lia].
  change 0xFFFF000000000000 with (Z.shiftl 0xFFFF 48). apply lor_add_disjoint; [lia|]. lia.
Qed.

(** Reading the tuple back from an address inside the page it names. *)
Lemma get_addr_path a b c d o : idx a -> idx b -> idx c -> idx d -> 0 <= o < 4096 ->
  let va := get_addr_from_table_indexes a b c d + o in
  va_path va = [a; b; c; d] /\ Z.land va 0xFFF = o /\ canonical va = true.
Proof.
  intros Ha Hb Hc Hd Ho. cbv zeta. rewrite get_addr_spec by done. unfold idx in *.
  unfold va_path. rewrite !index_at_spec, offset_spec by lia. unfold canonical.
  destruct (Z.leb_spec 256 a); (split_and!; [repeat f_equal; zlia|zlia|]).
  - apply orb_true_iff. right. apply Z.leb_le. lia.
  - apply orb_true_iff. left. apply Z.ltb_lt. lia.
Qed.

(** ** The recursive slot *)

(** The entry 511 of the running root and of the tables being edited both lead
    to the PML4 at [K]. *)
Definition rec_ok (m : mem) (root K : Z) : Prop :=
  let e := ld64 m (frame root + 8 * 511) in let e' := ld64 m (K + 8 * 511) in
  present e = true /\ frame e = K /\ present e' = true /\ frame e' = K /\ large e' = false.

(** The virtual address through which the code sees the table at path [p]. *)
Definition rec_va (p : list Z) : Z :=
  match p with
  | [] => get_addr_from_table_indexes 511 511 511 511
  | [a] => get_addr_from_table_indexes 511 511 511 a
  | [a; b] => get_addr_from_table_indexes 511 511 a b
  | a :: b :: c :: _ => get_addr_from_table_indexes 511 a b c
  end.

Lemma tbl_app m t p q : tbl m t (p ++ q) = (t' ← tbl m t p; tbl m t' q).
Proof.
  revert t. induction p as [|i p IH]; intros t; simpl; [done|]. by destruct (present _).
Qed.

Definition valid (p : list Z) : Prop :=
  Forall idx p /\ (length p <= 4)%nat /\ match p with i :: _ => i <> 511 | [] => True end.

Definition tpath (p : list Z) : Prop := valid p /\ (length p <= 3)%nat.

(** No entry of a PML4, PDPT or page directory of the tree maps a large page. *)
Definition small (m : mem) (K : Z) : Prop := forall q i t,
  valid (q ++ [i]) -> (length q <= 2)%nat -> tbl m K q = Some t -> large (ld64 m (t + 8 * i)) = false.

(** Where no large page is met, the walk follows the four indices. *)
Lemma translate_small m root va : canonical va = true ->
  (forall t, tbl m (frame root) [index_at va 39] = Some t -> large (ld64 m (t + 8 * index_at va 30)) = false) ->
  (forall t, tbl m (frame root) [index_at va 39; index_at va 30] = Some t ->
    large (ld64 m (t + 8 * index_at va 21)) = false) ->
  translate m root va = (page ← tbl m (frame root) (va_path va); Some (page + Z.land va 0xFFF)).
Proof.
  intros Hc H1 H2. unfold translate, va_path. rewrite Hc. set (a := index_at va 39) in *. set (b := index_at va 30) in *.
  set (c := index_at va 21) in *. set (d := index_at va 12).
  change [a; b; c; d] with ([a] ++ [b] ++ [c; d]). rewrite tbl_app.
  change [a; b] with ([a] ++ [b]) in H2. rewrite tbl_app in H2.
  destruct (tbl m (frame root) [a]) as [t|]; [|done]. change (Some t ≫= ?f) with (f t) in *. cbv beta zeta in *.
  rewrite (H1 t eq_refl), tbl_app. destruct (tbl m t [b]) as [u|]; [|done]. change (Some u ≫= ?f) with (f u). cbv beta.
  by rewrite (H2 u eq_refl).
Qed.

(** The entries that the walk through the slot reads above the last table. *)
Definition plain_path (m : mem) (K : Z) (p : list Z) : Prop := forall q k t,
  (q ++ [k]) `prefix_of` p -> (length q <= 1)%nat -> tbl m K q = Some t -> large (ld64 m (t + 8 * k)) = false.

Section Recursive.
Context (m : mem) (root K : Z) (Hrec : rec_ok m root K).

Lemma root_slot q : tbl m (frame root) (511 :: q) = tbl m K q.
Proof. destruct Hrec as (H1 & H2 & _). cbn [tbl]. by rewrite H1, H2. Qed.

Lemma own_slot q : tbl m K (511 :: q) = tbl m K q.
Proof. destruct Hrec as (_ & _ & H3 & H4 & _). cbn [tbl]. by rewrite H3, H4. Qed.

Lemma rec_walk p o : plain_path m K p -> Forall idx p -> (length p <= 3)%nat -> 0 <= o < 4096 ->
  translate m root (rec_va p + o) = (t ← tbl m K p; Some (t + o)).
Proof.
  intros Hplain Hp Hl Ho. assert (idx 511) as H511 by (unfold idx; lia).
  assert (large (ld64 m (K + 8 * 511)) = false) as Hown by apply Hrec.
  destruct p as [|a [|b [|c [|? ?]]]]; [| | | |simpl in Hl; lia]; unfold rec_va;
    repeat (apply list.Forall_cons in Hp as [? Hp]);
    (match goal with |- context [get_addr_from_table_indexes ?x ?y ?z ?w] =>
      destruct (get_addr_path x y z w o) as (HP & HO & HC); try done end);
    pose proof HP as HP'; unfold va_path in HP'; injection HP' as Q1 Q2 Q3 Q4;
    (rewrite translate_small; [rewrite HP, HO, root_slot, ?own_slot; done|done|..]);
    rewrite Q1, Q2, ?Q3; intros t; rewrite root_slot, ?own_slot.
  1,2,3,4,5: by intros [= <-].
  - intros [= <-]. apply (Hplain [] a K); [by exists [b]|simpl; lia|done].
  - intros [= <-]. apply (Hplain [] a K); [by exists [b; c]|simpl; lia|done].
  - apply (Hplain [a] b t); [by exists [c]|simpl; lia].
Qed.

Context (Hsmall : small m K).

Lemma plain_root a : idx a -> large (ld64 m (K + 8 * a)) = false.
Proof.
  intros Ha. destruct (decide (a = 511)) as [->|]; [apply Hrec|]. apply (Hsmall [] a K); [|simpl; lia|done].
  split; [by apply list.Forall_singleton|]. split; [simpl; lia|done].
Qed.

Lemma plain_next a b t : idx a -> idx b -> tbl m K [a] = Some t -> large (ld64 m (t + 8 * b)) = false.
Proof.
  intros Ha Hb Ht. destruct (decide (a = 511)) as [->|].
  - rewrite own_slot in Ht. injection Ht as <-. by apply plain_root.
  - apply (Hsmall [a] b t); [|simpl; lia|done].
    split; [by apply Forall_app; rewrite !list.Forall_singleton|]. split; [simpl; lia|done].
Qed.

Lemma small_plain p : Forall idx p -> plain_path m K p.
Proof.
  intros Hp q k t [r ->] Hl Ht. apply Forall_app in Hp as [Hp _]. apply Forall_app in Hp as [Hq [Hk _]%list.Forall_cons].
  destruct q as [|a [|? ?]]; [| |simpl in Hl; lia]; [injection Ht as <-; by apply plain_root|].
  apply list.Forall_cons in Hq as [Hq _]. by apply (plain_next a k).
Qed.

Lemma rec_translate p o : Forall idx p -> (length p <= 3)%nat -> 0 <= o < 4096 ->
  translate m root (rec_va p + o) = (t ← tbl m K p; Some (t + o)).
Proof. intros Hp. apply rec_walk; [|done]. by apply small_plain. Qed.
End Recursive.

(** ** The table tree *)

(** The invariant of the allocator and of the tables rooted at [K]: no two paths
    share a table, and the frames of the tables and of the running root are
    taken in the bitmap. *)
Record paging_ok (s : mach) (K : Z) : Prop := PagingOk {
  po_rec : rec_ok (pm s) (cr3 s) K;
  po_K : 0 <= K < 2 ^ 52 /\ K mod 4096 = 0;
  po_pages : 0 <= num_pages (allocator s) <= 2 ^ 40;
  po_zero : mread (bitmap (allocator s)) 0 <> 0;
  po_used : forall p t, tpath p -> tbl (pm s) K p = Some t ->
    mread (bitmap (allocator s)) (t / 4096) <> 0;
  po_inj : forall p q t, tpath p -> tpath q ->
    tbl (pm s) K p = Some t -> tbl (pm s) K q = Some t -> p = q;
  po_root : mread (bitmap (allocator s)) (frame (cr3 s) / 4096) <> 0 /\
    forall p, tpath p -> tbl (pm s) K p = Some (frame (cr3 s)) -> p = [];
  po_small : small (pm s) K;
}.

Lemma tbl_aligned m K p t :
  0 <= K < 2 ^ 52 /\ K mod 4096 = 0 -> tbl m K p = Some t -> 0 <= t < 2 ^ 52 /\ t mod 4096 = 0.
Proof.
  intros HK. destruct p as [|i p _] using rev_ind; [by intros [= <-]|].
  rewrite tbl_app. destruct (tbl m K p) as [t'|]; simpl; [|done].
  destruct (present _); [|done]. intros [= <-]. apply frame_aligned.
Qed.

Lemma valid_snoc p i : valid (p ++ [i]) -> tpath p /\ idx i.
Proof.
  intros (H1 & H2 & H3). apply Forall_app in H1 as [H1 [Hi _]%list.Forall_cons].
  rewrite length_app in H2. simpl in H2. split; [|done]. split; [|lia].
  split_and!; [done|lia|]. destruct p; [done|]. by simpl in H3.
Qed.

Lemma valid_prefix p q : valid (p ++ q) -> valid p.
Proof.
  intros (H1 & H2 & H3). apply Forall_app in H1 as [H1 _]. rewrite length_app in H2.
  split_and!; [done|lia|]. by destruct p.
Qed.

Lemma tbl_snoc m K q j : tbl m K (q ++ [j]) =
  (t ← tbl m K q; let e := ld64 m (t + 8 * j) in if present e then Some (frame e) else None).
Proof. by rewrite tbl_app. Qed.

(** Two entries of aligned tables are the same or apart. *)
Lemma entries_apart t i u j :
  t mod 4096 = 0 -> u mod 4096 = 0 -> idx i -> idx j -> (t, i) <> (u, j) ->
  u + 8 * j + 8 <= t + 8 * i \/ t + 8 * i + 8 <= u + 8 * j.
Proof.
  unfold idx. intros Ht Hu Hi Hj Hne. destruct (Z.eq_dec t u) as [->|]; [|zlia].
  assert (i <> j) by congruence. lia.
Qed.

Section Edit.
Context (s : mach) (K : Z) (H : paging_ok s K).

Let m := pm s.

(** Any table entry read at a path other than the written one. *)
Lemma other_entry p t i q tq j v :
  tpath p -> idx i -> tbl m K p = Some t -> tpath q -> idx j -> tbl m K q = Some tq ->
  (q, j) <> (p, i) -> ld64 (st64 m (t + 8 * i) v) (tq + 8 * j) = ld64 m (tq + 8 * j).
Proof.
  intros Hp Hi Ht Hq Hj Htq Hne.
  destruct (tbl_aligned m K p t (po_K s K H) Ht). destruct (tbl_aligned m K q tq (po_K s K H) Htq).
  apply load_store_out.
  destruct (entries_apart t i tq j) as [|]; try done; [|simpl; lia..].
  intros [= <- <-]. apply Hne. f_equal. by apply (po_inj s K H q p t).
Qed.

(** Writing an entry changes what lies at its path, and nothing that is not
    below it. *)
Lemma store_tbl p t i v q :
  valid (p ++ [i]) -> tbl m K p = Some t -> 0 <= v < 2 ^ 64 -> valid q ->
  q = p ++ [i] \/ ~ (p ++ [i]) `prefix_of` q ->
  tbl (st64 m (t + 8 * i) v) K q =
  if decide (q = p ++ [i]) then (if present v then Some (frame v) else None) else tbl m K q.
Proof.
  intros Hpi Ht Hv. destruct (valid_snoc _ _ Hpi) as [Hp Hi].
  induction q as [|j q IH] using rev_ind; intros Hq Hx.
  { rewrite decide_False; [done|]. by destruct p. }
  destruct (valid_snoc _ _ Hq) as [Hq' Hj].
  assert (~ (p ++ [i]) `prefix_of` q) as Hpre.
  { intros Hpre. destruct Hx as [Heq|Hx].
    - apply prefix_length in Hpre. rewrite <- Heq, length_app in Hpre. simpl in Hpre. lia.
    - apply Hx. by apply prefix_app_r. }
  rewrite !tbl_snoc, IH by (apply Hq' || by right).
  rewrite (decide_False (P := q = p ++ [i])) by (intros ->; by apply Hpre).
  destruct (decide (q ++ [j] = p ++ [i])) as [Heq|Hneq].
  - apply app_inj_2 in Heq as [-> [= ->]]; [|done]. rewrite Ht. cbn [mbind option_bind].
    rewrite ld64_st64, u64_small by lia. done.
  - destruct (tbl m K q) as [tq|] eqn:Htq; [|done]. cbn [mbind option_bind].
    rewrite (other_entry p t i q tq j) by (done || congruence). done.
Qed.

(** The entries above a new table map no large page once its entry is written. *)
Lemma store_plain p t i v : valid (p ++ [i]) -> (length p <= 2)%nat -> tbl m K p = Some t -> 0 <= v < 2 ^ 64 ->
  large v = false -> plain_path (st64 m (t + 8 * i) v) K (p ++ [i]).
Proof.
  intros Hpi Hlen Ht Hv Hlg q k u Hpre Hl Hu. destruct (valid_snoc _ _ Hpi) as [Hp Hi].
  assert (valid (q ++ [k])) as Hqk by (destruct Hpre as [r Er]; rewrite Er in Hpi; by apply (valid_prefix _ r)).
  destruct (valid_snoc _ _ Hqk) as [Hq Hk].
  assert (tbl m K q = Some u) as Hu'.
  { rewrite (store_tbl p t i v q) in Hu; [|done|done|done|apply Hq|].
    - rewrite decide_False in Hu; [done|]. intros ->. apply prefix_length in Hpre. rewrite !length_app in Hpre. simpl in Hpre. lia.
    - right. intros Hx. apply prefix_length in Hx, Hpre.
      rewrite length_app in Hx, Hpre. rewrite length_app in Hpre. simpl in Hx, Hpre. lia. }
  destruct (decide ((q, k) = (p, i))) as [[= -> ->]|Hne].
  - rewrite Ht in Hu'. injection Hu' as <-. by rewrite ld64_st64, u64_small by lia.
  - rewrite (other_entry p t i q u k) by done. apply (po_small s K H q); [done|lia|done].
Qed.

(** Writing a leaf entry changes that translation only. *)
Lemma set_leaf_tbl p t i v q :
  valid (p ++ [i]) -> length p = 3%nat -> tbl m K p = Some t -> 0 <= v < 2 ^ 64 -> valid q ->
  tbl (st64 m (t + 8 * i) v) K q =
  if decide (q = p ++ [i]) then (if present v then Some (frame v) else None) else tbl m K q.
Proof.
  intros Hpi Hlen Ht Hv Hq. apply store_tbl; try done.
  destruct (decide (q = p ++ [i])) as [|Hne]; [by left|right]. intros [k ->].
  destruct k as [|x k]; [by rewrite app_nil_r in Hne|].
  destruct Hq as (_ & Hl & _). rewrite !length_app in Hl. simpl in Hl. lia.
Qed.

(** Adding a zeroed table in a frame no table uses. *)
Lemma add_table_tbl p t i g v q :
  valid (p ++ [i]) -> (length p <= 2)%nat -> tbl m K p = Some t ->
  0 <= g < 2 ^ 52 -> g mod 4096 = 0 -> mread (bitmap (allocator s)) (g / 4096) = 0 ->
  0 <= v < 2 ^ 64 -> present v = true -> frame v = g -> valid q ->
  tbl (memset (st64 m (t + 8 * i) v) g 0 4096) K q =
  if decide ((p ++ [i]) `prefix_of` q) then (if decide (q = p ++ [i]) then Some g else None)
  else tbl m K q.
Proof.
  intros Hpi Hlen Ht Hg Hga Hgb Hv Hpv Hfv. destruct (valid_snoc _ _ Hpi) as [Hp Hi].
  assert (forall q tq j, tpath q -> idx j -> tbl m K q = Some tq ->
    ld64 (memset (st64 m (t + 8 * i) v) g 0 4096) (tq + 8 * j) = ld64 (st64 m (t + 8 * i) v) (tq + 8 * j)) as Hmem.
  { intros q0 tq j Hq0 Hj Htq. apply load_memset_out.
    destruct (tbl_aligned m K q0 tq (po_K s K H) Htq).
    assert (tq <> g) by (intros ->; by apply (po_used s K H q0 g Hq0 Htq)).
    unfold idx in Hj. simpl. zlia. }
  induction q as [|j q IH] using rev_ind; intros Hq.
  { rewrite decide_False; [done|]. intros Hpre. apply prefix_nil_inv in Hpre. by destruct p. }
  destruct (valid_snoc _ _ Hq) as [Hq' Hj]. rewrite !tbl_snoc, IH by apply Hq'.
  destruct (decide ((p ++ [i]) `prefix_of` q)) as [Hpre|Hpre].
  - rewrite (decide_True (P := (p ++ [i]) `prefix_of` (q ++ [j]))) by (by apply prefix_app_r).
    rewrite (decide_False (P := q ++ [j] = p ++ [i])).
    2: { intros Heq. apply prefix_length in Hpre. rewrite <- Heq, length_app in Hpre. simpl in Hpre. lia. }
    destruct (decide (q = p ++ [i])) as [->|]; [|done]. cbn [mbind option_bind].
    rewrite load_memset_zero by (unfold idx in Hj; simpl; lia). done.
  - destruct (decide (q ++ [j] = p ++ [i])) as [Heq|Hne].
    + apply app_inj_tail in Heq as [-> ->]. rewrite decide_True by done. rewrite Ht. cbn [mbind option_bind].
      rewrite (Hmem p) by done. rewrite ld64_st64, u64_small by lia. by rewrite Hpv, Hfv.
    + rewrite decide_False.
      * destruct (tbl m K q) as [tq|] eqn:Htq; [|done]. cbn [mbind option_bind].
        rewrite (Hmem q), (other_entry p t i q tq j) by (done || congruence). done.
      * intros [k Hk]. destruct k as [|x k _] using rev_ind; [rewrite app_nil_r in Hk; done|].
        rewrite app_assoc in Hk. apply app_inj_tail in Hk as [-> _]. apply Hpre. by eexists.
Qed.
End Edit.

(** ** The edits keep the invariant *)

Lemma tpath_nil : tpath [].
Proof. split; [|simpl; lia]. split_and!; [constructor|simpl; lia|done]. Qed.

Section Keep.
Context (s : mach) (K : Z) (H : paging_ok s K).
Context (p : list Z) (t i v : Z) (Hpi : valid (p ++ [i])) (Ht : tbl (pm s) K p = Some t).

(** The recursive entries survive a store at another entry. *)
Lemma rec_ok_store m' :
  (forall a, a = frame (cr3 s) \/ a = K ->
    ld64 m' (a + 8 * 511) = ld64 (st64 (pm s) (t + 8 * i) v) (a + 8 * 511)) ->
  rec_ok m' (cr3 s) K.
Proof.
  intros Hm'. destruct (valid_snoc _ _ Hpi) as [Hp Hi]. destruct (po_root s K H) as [Hr1 Hr2].
  pose proof (po_K s K H) as HK. destruct (tbl_aligned _ _ _ _ HK Ht).
  assert (([] : list Z, 511) <> (p, i)) as Hne.
  { intros [= <- <-]. destruct Hpi as (_ & _ & Hpi'). by apply Hpi'. }
  assert (ld64 m' (K + 8 * 511) = ld64 (pm s) (K + 8 * 511)) as HKe.
  { rewrite Hm' by (by right). apply (other_entry s K H p t i [] K 511);
      try done. apply tpath_nil. }
  assert (ld64 m' (frame (cr3 s) + 8 * 511) = ld64 (pm s) (frame (cr3 s) + 8 * 511)) as Hre.
  { destruct (Z.eq_dec (frame (cr3 s)) K) as [->|HneK]; [done|].
    rewrite Hm' by (by left). apply load_store_out.
    destruct (frame_aligned (cr3 s)). unfold idx in Hi.
    assert (frame (cr3 s) <> t).
    { intros E. apply HneK. rewrite <- E in Ht. pose proof (Hr2 p Hp Ht) as ->. by injection Ht. }
    simpl. zlia. }
  unfold rec_ok. rewrite HKe, Hre. apply H.
Qed.

Lemma paging_ok_leaf : length p = 3%nat -> 0 <= v < 2 ^ 64 ->
  paging_ok (set_pm s (st64 (pm s) (t + 8 * i) v)) K.
Proof.
  intros Hlen Hv.
  assert (forall q, tpath q -> tbl (st64 (pm s) (t + 8 * i) v) K q = tbl (pm s) K q) as Htbl.
  { intros q [Hq Hlq]. rewrite (set_leaf_tbl s K H p t i v q Hpi) by done.
    rewrite decide_False; [done|]. intros ->. rewrite length_app in Hlq. simpl in Hlq. lia. }
  split; cbn [pm cr3 allocator set_pm]; try apply H.
  - by apply rec_ok_store.
  - intros q u Hq. rewrite Htbl by done. by apply H.
  - intros q q' u Hq Hq'. rewrite !Htbl by done. by apply H.
  - destruct (po_root s K H) as [H1 H2]. split; [done|]. intros q Hq. rewrite Htbl by done. by apply H2.
  - intros q j u Hqj Hlq. destruct (valid_snoc _ _ Hqj) as [Hq Hj]. destruct (valid_snoc _ _ Hpi) as [Hp Hi].
    rewrite Htbl by done. intros Hu. rewrite (other_entry s K H p t i q u j) by (done || (intros [= -> _]; lia)).
    by apply (po_small s K H q).
Qed.

Lemma paging_ok_add j pid : (length p <= 2)%nat -> 0 <= j < 2 ^ 40 ->
  mread (bitmap (allocator s)) j = 0 -> 0 < pid < 256 -> v = Z.lor (j * 4096) PAGE_MAP_FLAGS ->
  tbl (pm s) K (p ++ [i]) = None ->
  let s' := set_pm (set_bitmap s (mwrite (bitmap (allocator s)) j pid))
              (memset (st64 (pm s) (t + 8 * i) v) (j * 4096) 0 4096) in
  paging_ok s' K /\ tbl (pm s') K (p ++ [i]) = Some (j * 4096) /\
  (forall q, valid q -> q <> p ++ [i] -> tbl (pm s') K q = tbl (pm s) K q).
Proof.
  intros Hlen Hj Hfree Hpid Hv Hnone s'. destruct (valid_snoc _ _ Hpi) as [Hp Hi].
  assert (0 <= j * 4096 < 2 ^ 52 /\ j * 4096 mod 4096 = 0) as [Hg1 Hg2]
    by (split; [lia|by rewrite Z.mod_mul]).
  destruct (page_entry (j * 4096) PAGE_MAP_FLAGS) as [HL HF]; [done|done|vm_compute; intuition discriminate|].
  assert (v = j * 4096 + 7) as Hv7 by (rewrite Hv, HL; done).
  assert (present v = true) as Hpr.
  { rewrite present_odd, Hv7, Z.odd_add, Z.odd_mul. by rewrite andb_false_r. }
  assert (j * 4096 / 4096 = j) as Hdiv by (by rewrite Z.div_mul).
  assert (forall q, valid q -> tbl (pm s') K q =
    if decide ((p ++ [i]) `prefix_of` q) then (if decide (q = p ++ [i]) then Some (j * 4096) else None)
    else tbl (pm s) K q) as Htbl.
  { intros q Hq. apply (add_table_tbl s K H p t i (j * 4096) v q); try done; [by rewrite Hdiv|lia|].
    by rewrite Hv. }
  assert (forall q, valid q -> q <> p ++ [i] -> tbl (pm s') K q = tbl (pm s) K q) as Hkeep.
  { intros q Hq Hne. rewrite Htbl by done. case_decide as Hpre; [|done].
    rewrite decide_False by done. destruct Hpre as [k ->]. by rewrite tbl_app, Hnone. }
  assert (tbl (pm s') K (p ++ [i]) = Some (j * 4096)) as Hnew.
  { rewrite Htbl by done. rewrite decide_True by done. by rewrite decide_True by done. }
  assert (forall x, mread (bitmap (allocator s)) x <> 0 ->
    mread (mwrite (bitmap (allocator s)) j pid) x <> 0) as Hbit.
  { intros x Hx. rewrite mread_mwrite. case_decide; [rewrite u8_small; lia|done]. }
  assert (forall q u, tpath q -> tbl (pm s') K q = Some u ->
    (q = p ++ [i] /\ u = j * 4096) \/ (tbl (pm s) K q = Some u /\ u <> j * 4096)) as Hcases.
  { intros q u Hq Hu. destruct (decide (q = p ++ [i])) as [->|Hne]; [left; rewrite Hnew in Hu; by injection Hu|].
    right. rewrite Hkeep in Hu by (done || apply Hq). split; [done|]. intros ->.
    apply (po_used s K H q _ Hq Hu). by rewrite Hdiv. }
  assert (large v = false) as Hlg by (rewrite Hv7; by apply large_small).
  split_and!; [|done|done].
  split; cbn [pm cr3 allocator set_pm set_bitmap bitmap num_pages s']; try apply H.
  - apply rec_ok_store. intros a Ha. apply load_memset_out.
    assert (a mod 4096 = 0 /\ a <> j * 4096) as [Ha1 Ha2].
    { destruct Ha as [->| ->].
      - split; [apply frame_aligned|]. intros E. apply (proj1 (po_root s K H)). by rewrite E, Hdiv.
      - split; [apply (po_K s K H)|]. intros E.
        apply (po_used s K H [] K tpath_nil eq_refl). by rewrite E, Hdiv. }
    simpl. zlia.
  - apply Hbit, H.
  - intros q u Hq Hu. destruct (Hcases q u Hq Hu) as [[-> ->]|[Hu' _]].
    + rewrite Hdiv, mread_mwrite_eq, u8_small; lia.
    + apply Hbit. by apply (po_used s K H q).
  - intros q q' u Hq Hq' Hu Hu'.
    destruct (Hcases q u Hq Hu) as [[E1 E2]|[Ho Hn]], (Hcases q' u Hq' Hu') as [[E3 E4]|[Ho' Hn']];
      [congruence|done|done|]. by apply (po_inj s K H q q' u).
  - destruct (po_root s K H) as [H1 H2]. split; [by apply Hbit|]. intros q Hq Hu.
    destruct (Hcases q _ Hq Hu) as [[-> E]|[Ho _]]; [|by apply H2].
    exfalso. apply H1. by rewrite E, Hdiv.
  - intros q k u Hqk Hlq Hu. destruct (valid_snoc _ _ Hqk) as [Hq Hk]. cbn [pm set_pm set_bitmap s'] in *.
    destruct (Hcases q u Hq Hu) as [[-> ->]|[Ho Hn]].
    + rewrite load_memset_zero by (unfold idx in Hk; simpl; lia). done.
    + destruct (tbl_aligned _ _ _ _ (po_K s K H) Ho) as [_ Hal].
      rewrite load_memset_out by (unfold idx in Hk; simpl; zlia).
      destruct (decide ((q, k) = (p, i))) as [[= -> ->]|Hne].
      * rewrite Ht in Ho. injection Ho as <-. rewrite ld64_st64, u64_small by lia. done.
      * rewrite (other_entry s K H p t i q u k) by done. by apply (po_small s K H q).
Qed.
End Keep.

(** ** The page frame allocator *)

(** Free pages among the [k] from [i]. *)
Fixpoint nfree (k : nat) (b : mem) (i : Z) : Z :=
  match k with O => 0 | S k => (if mread b i =? 0 then 1 else 0) + nfree k b (i + 1) end.

Definition free_pages (s : mach) : Z :=
  nfree (Z.to_nat (num_pages (allocator s))) (bitmap (allocator s)) 0.

Lemma nfree_nonneg k b i : 0 <= nfree k b i.
Proof.
  revert i. induction k as [|k IH]; intros i; simpl; [lia|].
  specialize (IH (i + 1)). destruct (mread b i =? 0); lia.
Qed.

Lemma nfree_write_out k b i j v : j < i -> nfree k (mwrite b j v) i = nfree k b i.
Proof.
  revert i. induction k as [|k IH]; intros i Hj; simpl; [done|].
  rewrite IH, mread_mwrite_ne by lia. done.
Qed.

Lemma nfree_write k b i j v : nfree k b i - 1 <= nfree k (mwrite b j v) i.
Proof.
  revert i. induction k as [|k IH]; intros i; simpl; [lia|].
  destruct (Z.lt_ge_cases j i).
  - rewrite nfree_write_out, mread_mwrite_ne by lia. lia.
  - rewrite mread_mwrite. case_decide as E; [|specialize (IH (i + 1)); lia].
    subst. rewrite nfree_write_out by lia. destruct (mread b i =? 0), (u8 v =? 0); lia.
Qed.

(** First fit, or nothing and no free page. *)
Lemma allocate_loop_spec k b pid i :
  (exists j, i <= j < i + Z.of_nat k /\ mread b j = 0 /\ (forall x, i <= x < j -> mread b x <> 0) /\
    allocate_loop k b pid i = (mwrite b j pid, j * PAGE_SIZE)) \/
  (nfree k b i = 0 /\ allocate_loop k b pid i = (b, 0)).
Proof.
  revert i. induction k as [|k IH]; intros i; [by right|]. cbn [allocate_loop nfree].
  destruct (Z.eqb_spec (mread b i) 0) as [E|E].
  - left. exists i. split_and!; try done; try lia.
  - destruct (IH (i + 1)) as [(j & H1 & H2 & H3 & H4)|[H1 H2]]; [left|right].
    + exists j. split_and!; try done; try lia. intros x Hx.
      destruct (Z.eq_dec x i) as [->|]; [done|]. apply H3. lia.
    + split; [lia|done].
Qed.

Lemma allocate_page_spec s pid K :
  paging_ok s K ->
  (exists j, 0 < j < num_pages (allocator s) /\ mread (bitmap (allocator s)) j = 0 /\
    (forall x, 0 <= x < j -> mread (bitmap (allocator s)) x <> 0) /\
    allocate_page s pid = (set_bitmap s (mwrite (bitmap (allocator s)) j pid), j * 4096)) \/
  (free_pages s = 0 /\ allocate_page s pid = (s, 0)).
Proof.
  intros H. unfold allocate_page, free_pages. pose proof (po_pages s K H) as Hn.
  destruct (allocate_loop_spec (Z.to_nat (num_pages (allocator s))) (bitmap (allocator s)) pid 0)
    as [(j & H1 & H2 & H3 & ->)|[H1 ->]]; [left|right].
  - exists j. split_and!; try done; [|lia]. destruct (Z.eq_dec j 0) as [->|]; [|lia].
    by apply (po_zero s K H) in H2.
  - split; [done|]. unfold set_bitmap. by destruct s as [? ? [] ? ? ?].
Qed.

(** ** map_page *)

(** [s'] has the tables of [s] but for the paths in [P]. *)
Definition same_regs (s s' : mach) : Prop :=
  cr3 s' = cr3 s /\ num_pages (allocator s') = num_pages (allocator s) /\
  hardware_alloc_size s' = hardware_alloc_size s /\
  interrupts_ready s' = interrupts_ready s /\ intr_flag s' = intr_flag s.

(** What one of the blocks does: nothing when the entry is present or no frame
    is left, and otherwise a zeroed table in the lowest free frame. *)
Lemma ensure_table_shape s K pid p i t :
  paging_ok s K -> valid (p ++ [i]) -> (length p <= 2)%nat -> tbl (pm s) K p = Some t ->
  let ensured := ensure_table s pid (rec_va p) i (rec_va (p ++ [i])) in
  match tbl (pm s) K (p ++ [i]) with
  | Some _ => ensured = Some (s, true)
  | None =>
      (free_pages s = 0 /\ ensured = Some (s, false)) \/
      exists j, 0 < j < num_pages (allocator s) /\ mread (bitmap (allocator s)) j = 0 /\
        (forall x, 0 <= x < j -> mread (bitmap (allocator s)) x <> 0) /\
        ensured = Some (set_pm (set_bitmap s (mwrite (bitmap (allocator s)) j pid))
          (memset (st64 (pm s) (t + 8 * i) (Z.lor (j * 4096) PAGE_MAP_FLAGS)) (j * 4096) 0 4096), true)
  end.
Proof.
  intros H Hpi Hlen Ht. destruct (valid_snoc _ _ Hpi) as [[Hp Hlp] Hi].
  assert (Forall idx (p ++ [i])) as Hidx by apply Hpi. assert (Forall idx p) as Hidp by apply Hp.
  assert (0 <= 8 * i < 4096) as Ho by (unfold idx in Hi; lia).
  unfold ensure_table, vld64. rewrite (rec_translate _ _ K) by (done || apply H).
  rewrite Ht. cbn [mbind option_bind].
  rewrite (tbl_snoc (pm s) K p i), Ht. cbn [mbind option_bind]. cbv zeta. unfold present.
  destruct (Z.land (ld64 (pm s) (t + 8 * i)) PAGE_PRESENT =? 0); cbn [negb]; [|done].
  destruct (allocate_page_spec s pid K H) as [(j & Hj & Hfree & Hmin & ->)|[Hz ->]]; [right|by left].
  exists j. split_and!; try done; try lia. destruct (Z.eqb_spec (j * 4096) 0); [lia|]. pose proof (po_pages s K H) as Hnp.
  unfold vst64. cbn [pm cr3 set_bitmap]. rewrite (rec_translate _ _ K) by (done || apply H).
  rewrite Ht. cbn [mbind option_bind]. unfold vzero_page.
  set (v := Z.lor (j * 4096) PAGE_MAP_FLAGS) in *.
  destruct (page_entry (j * 4096) PAGE_MAP_FLAGS) as [HL HF];
    [lia|by rewrite Z.mod_mul|vm_compute; intuition discriminate|]. fold v in HL, HF.
  change PAGE_MAP_FLAGS with 7 in HL. assert (large v = false) as Hlg by (rewrite HL; by apply large_small).
  rewrite <- (Z.add_0_r (rec_va (p ++ [i]))).
  rewrite (rec_walk _ _ K); cbn [pm cr3 set_bitmap set_pm];
    [|by apply (rec_ok_store s K H p t i v Hpi Ht)|apply (store_plain s K H p t i v); (done || lia)|done|rewrite length_app; simpl; lia|lia].
  rewrite (store_tbl s K H p t i v (p ++ [i])) by (done || lia || by left).
  rewrite decide_True by done. rewrite present_odd, HL, Z.odd_add, Z.odd_mul, andb_false_r.
  cbn [Z.odd xorb mbind option_bind]. by rewrite <- HL, HF, Z.add_0_r.
Qed.

Lemma ensure_table_spec s K pid p i t :
  paging_ok s K -> 0 < pid < 256 -> valid (p ++ [i]) -> (length p <= 2)%nat ->
  tbl (pm s) K p = Some t ->
  exists s' ok, ensure_table s pid (rec_va p) i (rec_va (p ++ [i])) = Some (s', ok) /\
    paging_ok s' K /\ same_regs s s' /\
    (forall q, valid q -> q <> p ++ [i] -> tbl (pm s') K q = tbl (pm s) K q) /\
    free_pages s - 1 <= free_pages s' /\
    if ok then exists t', tbl (pm s') K (p ++ [i]) = Some t' else free_pages s' = 0.
Proof.
  intros H Hpid Hpi Hlen Ht. pose proof (ensure_table_shape s K pid p i t H Hpi Hlen Ht) as Hsh. cbv zeta in Hsh.
  destruct (tbl (pm s) K (p ++ [i])) as [u|] eqn:Hu.
  { exists s, true. split_and!; try done; [lia|by exists u]. }
  destruct Hsh as [[Hz E]|(j & Hj & Hfree & _ & E)]; [by exists s, false; split_and!; try done; lia|].
  pose proof (po_pages s K H) as Hnp.
  destruct (paging_ok_add s K H p t i (Z.lor (j * 4096) PAGE_MAP_FLAGS) Hpi Ht j pid)
    as (H1 & H2 & H3); try done; try lia.
  rewrite E. do 2 eexists. split; [reflexivity|]. split_and!; [done|done|done| |by eexists].
  unfold free_pages. cbn [allocator num_pages bitmap set_pm set_bitmap]. apply nfree_write.
Qed.

Lemma same_regs_trans a b c : same_regs a b -> same_regs b c -> same_regs a c.
Proof. unfold same_regs. intuition congruence. Qed.

(** A store of the leaf entry through the recursive slot. *)
Lemma set_leaf_spec s K p i t v :
  paging_ok s K -> valid (p ++ [i]) -> length p = 3%nat -> tbl (pm s) K p = Some t ->
  0 <= v < 2 ^ 64 ->
  exists s', vst64 s (rec_va p + 8 * i) v = Some s' /\ paging_ok s' K /\ same_regs s s' /\
    allocator s' = allocator s /\
    (forall q, valid q -> q <> p ++ [i] -> tbl (pm s') K q = tbl (pm s) K q) /\
    tbl (pm s') K (p ++ [i]) = if present v then Some (frame v) else None.
Proof.
  intros H Hpi Hlen Ht Hv. destruct (valid_snoc _ _ Hpi) as [[Hp Hlp] Hi].
  unfold vst64. rewrite (rec_translate _ _ K); [|apply H|apply H|apply Hp|lia|unfold idx in Hi; lia].
  rewrite Ht. cbn [mbind option_bind]. eexists. split; [reflexivity|]. split_and!; try done.
  - by apply (paging_ok_leaf s K H p t i v Hpi Ht).
  - intros q Hq Hne. cbn [pm set_pm]. rewrite (set_leaf_tbl s K H p t i v q) by done.
    by rewrite decide_False.
  - cbn [pm set_pm]. rewrite (set_leaf_tbl s K H p t i v) by done. by rewrite decide_True.
Qed.

Lemma va_path_valid va : index_at va 39 <> 511 -> valid (va_path va).
Proof.
  intros H. split_and!; [|simpl; lia|done].
  repeat constructor; apply index_at_range; lia.
Qed.

(** [s'] keeps every translation and every last-level table of [s] but those on
    [path]. *)
Definition keeps_others (s s' : mach) (K : Z) (path : list Z) : Prop :=
  forall q, valid q -> (3 <= length q)%nat -> ~ q `prefix_of` path -> tbl (pm s') K q = tbl (pm s) K q.

(** The three blocks of map_page in sequence. *)
Definition ensure_tables (s : mach) (pid a b c : Z) : option (mach * bool) :=
  '(s, ok) ← ensure_table s pid (rec_va []) a (rec_va [a]);
  if negb ok then Some (s, false) else
  '(s, ok) ← ensure_table s pid (rec_va [a]) b (rec_va [a; b]);
  if negb ok then Some (s, false) else
  ensure_table s pid (rec_va [a; b]) c (rec_va [a; b; c]).

(** The three tables of a path exist after the three blocks, or the allocator
    is out of pages. *)
Lemma ensure_path s K pid a b c d :
  paging_ok s K -> 0 < pid < 256 -> valid [a; b; c; d] ->
  exists s' ok,
    ensure_tables s pid a b c = Some (s', ok) /\
    paging_ok s' K /\ same_regs s s' /\ free_pages s - 3 <= free_pages s' /\
    (forall q, valid q -> (3 <= length q)%nat -> q <> [a; b; c] -> tbl (pm s') K q = tbl (pm s) K q) /\
    if ok then exists t', tbl (pm s') K [a; b; c] = Some t' else free_pages s' = 0.
Proof.
  intros H Hpid Hv. unfold ensure_tables.
  pose proof (valid_prefix [a; b; c] [d] Hv) as Hv3. pose proof (valid_prefix [a; b] [c] Hv3) as Hv2.
  pose proof (valid_prefix [a] [b] Hv2) as Hv1.
  assert (forall q (p : list Z), valid q -> (3 <= length q)%nat -> (length p <= 2)%nat -> q <> p) as Hne
    by (intros q p _ Hq Hp ->; lia).
  destruct (ensure_table_spec s K pid [] a K H Hpid Hv1) as (s1 & ok1 & E1 & P1 & R1 & T1 & F1 & O1);
    [simpl; lia|done|]. simpl app in *. rewrite E1. cbn [mbind option_bind].
  destruct ok1; cbn [negb].
  2: { exists s1, false. split_and!; try done; [lia|]. intros q Hq Hl _. apply T1; [done|].
       apply Hne; [done|done|simpl; lia]. }
  destruct O1 as [t1 O1].
  destruct (ensure_table_spec s1 K pid [a] b t1 P1 Hpid Hv2) as (s2 & ok2 & E2 & P2 & R2 & T2 & F2 & O2);
    [simpl; lia|done|]. simpl app in *. rewrite E2. cbn [mbind option_bind].
  pose proof (same_regs_trans _ _ _ R1 R2) as R12.
  destruct ok2; cbn [negb].
  2: { exists s2, false. split_and!; try done; [lia|]. intros q Hq Hl _.
       rewrite T2, T1; try done; apply Hne; (done || simpl; lia). }
  destruct O2 as [t2 O2].
  destruct (ensure_table_spec s2 K pid [a; b] c t2 P2 Hpid Hv3) as (s3 & ok3 & E3 & P3 & R3 & T3 & F3 & O3);
    [simpl; lia|done|]. simpl app in *. rewrite E3.
  exists s3, ok3. split_and!; try done; [by eapply same_regs_trans|lia|].
  intros q Hq Hl Hx. rewrite T3, T2, T1; try done; apply Hne; (done || simpl; lia).
Qed.

Lemma map_page_spec s K pid va pa flags :
  paging_ok s K -> 0 < pid < 256 -> index_at va 39 <> 511 ->
  0 <= pa < 2 ^ 52 -> pa mod 4096 = 0 -> 0 <= flags < 4096 ->
  exists s', map_page s pid va pa flags = Some s' /\ paging_ok s' K /\
    cr3 s' = cr3 s /\ num_pages (allocator s') = num_pages (allocator s) /\
    free_pages s - 3 <= free_pages s' /\ keeps_others s s' K (va_path va) /\
    ((interrupts_ready s' = true /\ intr_flag s' = true /\
      tbl (pm s') K (va_path va) = if Z.odd flags then Some pa else None) \/
     (interrupts_ready s' = false /\ intr_flag s' = false /\ free_pages s' = 0 /\
      tbl (pm s') K (va_path va) = tbl (pm s) K (va_path va))).
Proof.
  intros H Hpid H511 Hpa Hal Hfl. pose proof (va_path_valid va H511) as Hv. unfold map_page.
  unfold va_path in *.
  set (a := index_at va 39) in *. set (b := index_at va 30) in *.
  set (c := index_at va 21) in *. set (d := index_at va 12) in *.
  set (s0 := cli (set_ready s false)).
  assert (paging_ok s0 K) as H0 by (destruct H; by split).
  destruct (ensure_path s0 K pid a b c d H0 Hpid Hv) as (s1 & ok & E & P & R & F & T & O).
  unfold ensure_tables, rec_va in E. unfold PML4_RECURSIVE_ENTRY_NUM. cbv zeta.
  destruct (ensure_table s0 pid _ a _) as [[s2 ok2]|] eqn:E2; [|done]. cbn [mbind option_bind] in *.
  assert (forall s' : mach, same_regs s0 s' ->
    cr3 s' = cr3 s /\ num_pages (allocator s') = num_pages (allocator s) /\
    interrupts_ready s' = false /\ intr_flag s' = false) as Hregs.
  { intros s' (-> & -> & _ & -> & ->). done. }
  assert (keeps_others s s1 K [a; b; c; d]) as KT.
  { intros q Hq Hl Hp. apply T; [done|done|]. intros ->. apply Hp. by exists [d]. }
  destruct ok2; cbn [negb] in *.
  2: { injection E as -> <-. destruct (Hregs s1 R) as (? & ? & ? & ?).
       exists s1. split_and!; try done.
       right. split_and!; try done. apply T; [done|simpl; lia|done]. }
  destruct (ensure_table s2 pid _ b _) as [[s3 ok3]|] eqn:E3; [|done]. cbn [mbind option_bind] in *.
  destruct ok3; cbn [negb] in *.
  2: { injection E as -> <-. destruct (Hregs s1 R) as (? & ? & ? & ?).
       exists s1. split_and!; try done.
       right. split_and!; try done. apply T; [done|simpl; lia|done]. }
  rewrite E. cbn [mbind option_bind]. destruct (Hregs s1 R) as (G1 & G2 & G3 & G4).
  destruct ok; cbn [negb].
  2: { exists s1. split_and!; try done.
       right. split_and!; try done. apply T; [done|simpl; lia|done]. }
  destruct O as [t' O]. destruct (page_entry pa flags Hpa Hal Hfl) as [HL HF].
  destruct (set_leaf_spec s1 K [a; b; c] d t' (Z.lor pa flags) P Hv) as (s4 & S1 & S2 & S3 & S4 & S5 & S6);
    [done|done|lia|].
  unfold rec_va in S1. rewrite S1. cbn [mbind option_bind].
  exists (sti (set_ready s4 true)). split_and!; try done; cbn [cr3 allocator sti set_ready].
  - destruct S2. by split.
  - destruct S3 as (-> & _). done.
  - rewrite S4. done.
  - unfold free_pages in *. cbn [cr3 allocator sti set_ready]. rewrite S4. done.
  - intros q Hq Hl Hne. cbn [pm sti set_ready]. rewrite S5; [by apply KT|done|]. intros ->. by apply Hne.
  - left. split_and!; try done. cbn [pm sti set_ready]. simpl app in S6. rewrite S6.
    rewrite present_odd, HF, HL, Z.odd_add. assert (Z.odd pa = false) as ->.
    { rewrite <- Z.negb_even. apply negb_false_iff, Z.even_spec. exists (pa / 2). zlia. }
    by rewrite xorb_false_l.
Qed.

(** ** Ranges *)

Lemma paging_ok_mark s K x pid : paging_ok s K -> 0 < pid < 256 ->
  paging_ok (set_bitmap s (mwrite (bitmap (allocator s)) x pid)) K.
Proof.
  intros H Hpid.
  assert (forall y, mread (bitmap (allocator s)) y <> 0 ->
    mread (mwrite (bitmap (allocator s)) x pid) y <> 0) as Hb.
  { intros y Hy. rewrite mread_mwrite. case_decide; [rewrite u8_small; lia|done]. }
  destruct H as [H1 H2 H3 H4 H5 H6 [H7 H8]]. split; cbn [pm cr3 allocator set_bitmap bitmap num_pages]; auto.
  intros p t Hp Ht. apply Hb. by apply (H5 p).
Qed.

Definition low (va : Z) : Prop := 0 <= va < 2 ^ 47.

Lemma low_index va : low va -> index_at va 39 <> 511.
Proof. unfold low. intros H. rewrite index_at_spec by lia. zlia. Qed.

Lemma low_canonical va : low va -> canonical va = true.
Proof. unfold low, canonical. intros H. apply orb_true_iff. left. apply Z.ltb_lt. lia. Qed.

Lemma frame_root R : 0 <= R < 2 ^ 52 /\ R mod 4096 = 0 -> frame R = R.
Proof.
  intros [H1 H2]. rewrite frame_spec, Z.mod_small; [zlia|]. split; [apply Z.div_pos; lia|]. apply Z.div_lt_upper_bound; lia.
Qed.

(** The processor on a tree without large pages. *)
Lemma small_translate m R va : 0 <= R < 2 ^ 52 /\ R mod 4096 = 0 -> small m R -> low va ->
  translate m R va = (page ← tbl m R (va_path va); Some (page + Z.land va 0xFFF)).
Proof.
  intros HR Hs Hl. pose proof (va_path_valid va (low_index va Hl)) as Hv. unfold va_path in Hv.
  pose proof (valid_prefix [index_at va 39; index_at va 30; index_at va 21] [index_at va 12] Hv) as H3.
  pose proof (valid_prefix [index_at va 39; index_at va 30] [index_at va 21] H3) as H2.
  rewrite translate_small; rewrite ?(frame_root R HR); [done|by apply low_canonical|..]; intros t Ht.
  - by apply (Hs [index_at va 39] _ t H2); [simpl; lia|].
  - by apply (Hs [index_at va 39; index_at va 30] _ t H3); [simpl; lia|].
Qed.

Lemma paging_translate s K va : paging_ok s K -> low va ->
  translate (pm s) K va = (page ← tbl (pm s) K (va_path va); Some (page + Z.land va 0xFFF)).
Proof. intros H. apply small_translate; apply H. Qed.

(** The path determines the page. *)
Lemma va_path_page va : low va ->
  va / 4096 = ((index_at va 39 * 512 + index_at va 30) * 512 + index_at va 21) * 512 + index_at va 12.
Proof. unfold low. intros H. rewrite !index_at_spec by lia. zlia. Qed.

Lemma va_path_inj va vb : low va -> low vb -> va_path va = va_path vb -> va / 4096 = vb / 4096.
Proof.
  intros Ha Hb E. rewrite (va_path_page va Ha), (va_path_page vb Hb). unfold va_path in E.
  injection E as -> -> -> ->. done.
Qed.

Lemma va_path_round va : va_path (va / 4096 * 4096) = va_path va.
Proof.
  unfold va_path. rewrite !index_at_spec by lia.
  change (2 ^ 39) with (4096 * 2 ^ 27). change (2 ^ 30) with (4096 * 2 ^ 18).
  change (2 ^ 21) with (4096 * 2 ^ 9). change (2 ^ 12) with (4096 * 2 ^ 0).
  by rewrite <- !Z.div_div, Z.div_mul by lia.
Qed.

Lemma keeps_page s s' K va vb : keeps_others s s' K (va_path va) -> low va -> low vb -> vb / 4096 <> va / 4096 ->
  tbl (pm s') K (va_path vb) = tbl (pm s) K (va_path vb).
Proof.
  intros H Ha Hb N. apply H; [by apply va_path_valid, low_index|simpl; lia|]. intros Hp. apply N, va_path_inj; [done|done|].
  by apply prefix_length_eq; [|done].
Qed.

(** The mark of a page behind its mapping, when the index is in the array. *)
Definition set_in (s : mach) (sa a pid : Z) : mach :=
  if negb (sa =? 0) then set_bitmap s (mwrite (bitmap (allocator s)) (a / PAGE_SIZE) pid) else s.

Lemma mark_page_some s sa a v s' :
  (if negb (sa =? 0) then mark_page s a v else Some s) = Some s' -> s' = set_in s sa a v.
Proof. unfold set_in, mark_page. destruct (negb (sa =? 0)); [|congruence]. destruct (_ <? _); congruence. Qed.

Lemma mark_page_ok s sa a v : sa = 0 \/ a < 2 ^ 32 ->
  (if negb (sa =? 0) then mark_page s a v else Some s) = Some (set_in s sa a v).
Proof.
  unfold set_in, mark_page. intros [->|Ha]; [done|]. destruct (negb (sa =? 0)); [|done].
  destruct (Z.ltb_spec (a / PAGE_SIZE) PAGE_FRAME_ALLOCATOR_BITMAP_SIZE) as [|Hge]; [done|].
  unfold PAGE_SIZE in *. change PAGE_FRAME_ALLOCATOR_BITMAP_SIZE with (2 ^ 20) in Hge. zlia.
Qed.

Lemma map_range_spec k s K pid addr pa flags sa :
  paging_ok s K -> 0 < pid < 256 -> 0 <= addr -> addr mod 4096 = 0 ->
  addr + 4096 * Z.of_nat k <= 2 ^ 47 -> sa = 0 \/ addr + 4096 * Z.of_nat k <= 2 ^ 32 ->
  0 <= pa -> pa mod 4096 = 0 -> pa + 4096 * Z.of_nat k <= 2 ^ 52 ->
  0 <= flags < 4096 -> Z.odd flags = true -> 4 * Z.of_nat k <= free_pages s ->
  exists s', map_range_loop k s pid addr pa flags sa = Some s' /\ paging_ok s' K /\ cr3 s' = cr3 s /\
    free_pages s - 4 * Z.of_nat k <= free_pages s' /\
    (forall n, 0 <= n < Z.of_nat k -> tbl (pm s') K (va_path (addr + 4096 * n)) = Some (pa + 4096 * n)) /\
    (forall va, low va -> va / 4096 < addr / 4096 \/ addr / 4096 + Z.of_nat k <= va / 4096 ->
      tbl (pm s') K (va_path va) = tbl (pm s) K (va_path va)).
Proof.
  intros H Hpid Ha Haa. revert s addr pa H Ha Haa.
  induction k as [|k IH]; intros s addr pa H Ha Haa Hb Hsa Hp Hpa Hpb Hf Hodd Hfree; cbn [map_range_loop].
  { exists s. split_and!; try done; lia. }
  destruct (map_page_spec s K pid addr pa flags) as (s1 & E & P1 & R1 & R2 & F1 & KO & Hres);
    try done; [apply low_index; unfold low; lia|lia|].
  rewrite E. cbn [mbind option_bind].
  destruct Hres as [(_ & _ & Hmap)|(_ & _ & Hz & _)]; [|lia]. rewrite Hodd in Hmap.
  rewrite mark_page_ok by lia. cbn [mbind option_bind]. set (s2 := set_in s1 sa addr pid).
  assert (paging_ok s2 K /\ cr3 s2 = cr3 s1 /\ pm s2 = pm s1 /\ free_pages s1 - 1 <= free_pages s2)
    as (P2 & C2 & M2 & F2).
  { unfold s2, set_in. destruct (negb (sa =? 0)); [|split_and!; (done || lia)].
    split_and!; [by apply paging_ok_mark|done|done|]. unfold free_pages. apply nfree_write. }
  clearbody s2. pose proof (Zmod_divides addr 4096 ltac:(lia)) as [Hd _]. destruct (Hd Haa) as [q Hq].
  destruct (IH s2 (addr + PAGE_SIZE) (pa + PAGE_SIZE)) as (s3 & E3 & P3 & C3 & F3 & T3 & O3);
    unfold PAGE_SIZE in *; try done; try lia; try zlia.
  rewrite E3. exists s3. split_and!; try done; [congruence|lia| |].
  - intros n Hn. destruct (Z.eq_dec n 0) as [->|Hn0].
    + rewrite !Z.mul_0_r, !Z.add_0_r. rewrite O3, M2; [done|unfold low; lia|zlia].
    + replace (addr + 4096 * n) with (addr + 4096 + 4096 * (n - 1)) by lia.
      rewrite T3 by lia. f_equal. lia.
  - intros va Hlow Hout. rewrite O3, M2 by (done || zlia). apply (keeps_page _ _ _ addr); [done|unfold low; lia|done|lia].
Qed.

(** ** unmap_page *)

Lemma rec_va_read s K p i t :
  paging_ok s K -> valid (p ++ [i]) -> tbl (pm s) K p = Some t -> 
  vld64 s (rec_va p + 8 * i) = Some (ld64 (pm s) (t + 8 * i)) /\
  tbl (pm s) K (p ++ [i]) =
    if Z.land (ld64 (pm s) (t + 8 * i)) PAGE_PRESENT =? 0 then None
    else Some (frame (ld64 (pm s) (t + 8 * i))).
Proof.
  intros H Hpi Ht. destruct (valid_snoc _ _ Hpi) as [[Hp Hl] Hi]. unfold vld64.
  rewrite (rec_translate _ _ K); [|apply H|apply H|apply Hp|lia|unfold idx in Hi; lia].
  rewrite tbl_snoc, Ht. cbn [mbind option_bind]. unfold present.
  by destruct (Z.land _ PAGE_PRESENT =? 0).
Qed.

Lemma unmap_page_spec s K va :
  paging_ok s K -> index_at va 39 <> 511 ->
  exists s', unmap_page s va = Some s' /\ paging_ok s' K /\ allocator s' = allocator s /\
    keeps_others s s' K (va_path va) /\ tbl (pm s') K (va_path va) = None /\
    interrupts_ready s' = match tbl (pm s) K (va_path va) with Some _ => true | None => false end /\
    intr_flag s' = match tbl (pm s) K (va_path va) with Some _ => true | None => false end.
Proof.
  intros H H511. pose proof (va_path_valid va H511) as Hv. unfold unmap_page. unfold va_path in *.
  set (a := index_at va 39) in *. set (b := index_at va 30) in *.
  set (c := index_at va 21) in *. set (d := index_at va 12) in *.
  set (s0 := cli (set_ready s false)).
  assert (paging_ok s0 K) as H0 by (destruct H; by split).
  pose proof (valid_prefix [a; b; c] [d] Hv) as Hv3. pose proof (valid_prefix [a; b] [c] Hv3) as Hv2.
  pose proof (valid_prefix [a] [b] Hv2) as Hv1.
  unfold PML4_RECURSIVE_ENTRY_NUM. cbv zeta. change (pm s) with (pm s0).
  assert (forall t, tbl (pm s0) K t = None -> forall k, tbl (pm s0) K (t ++ k) = None) as Hnone.
  { intros t Ht k. by rewrite tbl_app, Ht. }
  destruct (rec_va_read s0 K [] a K H0 Hv1 eq_refl) as [E1 N1]. unfold rec_va in E1. rewrite E1.
  cbn [mbind option_bind]. simpl app in N1.
  destruct (Z.land (ld64 (pm s0) (K + 8 * a)) PAGE_PRESENT =? 0).
  { exists s0. pose proof (Hnone _ N1 [b; c; d]) as N. simpl app in N. rewrite N. split_and!; done. }
  destruct (rec_va_read s0 K [a] b _ H0 Hv2 N1) as [E2 N2]. unfold rec_va in E2. rewrite E2.
  cbn [mbind option_bind]. simpl app in N2.
  destruct (Z.land (ld64 (pm s0) (frame _ + 8 * b)) PAGE_PRESENT =? 0).
  { exists s0. pose proof (Hnone _ N2 [c; d]) as N. simpl app in N. rewrite N. split_and!; done. }
  destruct (rec_va_read s0 K [a; b] c _ H0 Hv3 N2) as [E3 N3]. unfold rec_va in E3. rewrite E3.
  cbn [mbind option_bind]. simpl app in N3.
  destruct (Z.land (ld64 (pm s0) (frame _ + 8 * c)) PAGE_PRESENT =? 0).
  { exists s0. pose proof (Hnone _ N3 [d]) as N. simpl app in N. rewrite N. split_and!; done. }
  destruct (rec_va_read s0 K [a; b; c] d _ H0 Hv N3) as [E4 N4]. unfold rec_va in E4. rewrite E4.
  cbn [mbind option_bind]. simpl app in N4. rewrite N4.
  destruct (Z.land (ld64 (pm s0) (frame _ + 8 * d)) PAGE_PRESENT =? 0).
  { exists s0. split_and!; try done. }
  destruct (set_leaf_spec s0 K [a; b; c] d _ 0 H0 Hv eq_refl N3) as (s4 & S1 & S2 & S3 & S4 & S5 & S6); [lia|].
  unfold rec_va in S1. rewrite S1. cbn [mbind option_bind].
  exists (sti (set_ready s4 true)). split_and!; try done.
  - destruct S2. by split.
  - intros q Hq Hl Hne. apply S5; [done|]. intros ->. by apply Hne.
Qed.

(** ** Theorems *)

(** Fact: get_addr_from_table_indexes builds the canonical virtual address of an
    index tuple: the processor splits any address of its page back into exactly
    those four indices and the offset. *)
Theorem table_indexes_roundtrip a b c d o : idx a -> idx b -> idx c -> idx d -> 0 <= o < 4096 ->
  let va := get_addr_from_table_indexes a b c d + o in
  va_path va = [a; b; c; d] /\ Z.land va 0xFFF = o /\ canonical va = true.
Proof. apply get_addr_path. Qed.

(** C27: the recursive-slot trick: with the slot 511 of the running root leading
    to the PML4 at [K] and [K]'s slot to itself, and no large page in the tree at
    [K], the virtual addresses map_page
    computes reach, through the processor's walk, entry [i] of the PML4 and, for
    each present table of the path, entry [i] of that PDPT, PD or PT. *)
Theorem recursive_slot_reaches_tables m root K a b c i :
  rec_ok m root K -> small m K -> idx a -> idx b -> idx c -> idx i ->
  translate m root (get_addr_from_table_indexes 511 511 511 511 + 8 * i) = Some (K + 8 * i) /\
  translate m root (get_addr_from_table_indexes 511 511 511 a + 8 * i) =
    (t ← tbl m K [a]; Some (t + 8 * i)) /\
  translate m root (get_addr_from_table_indexes 511 511 a b + 8 * i) =
    (t ← tbl m K [a; b]; Some (t + 8 * i)) /\
  translate m root (get_addr_from_table_indexes 511 a b c + 8 * i) =
    (t ← tbl m K [a; b; c]; Some (t + 8 * i)).
Proof.
  intros H Hs Ha Hb Hc Hi. assert (0 <= 8 * i < 4096) as Ho by (unfold idx in Hi; lia).
  split_and!.
  - apply (rec_translate m root K H Hs []); [constructor|simpl; lia|done].
  - apply (rec_translate m root K H Hs [a]); [by rewrite !list.Forall_cons|simpl; lia|done].
  - apply (rec_translate m root K H Hs [a; b]); [by rewrite !list.Forall_cons|simpl; lia|done].
  - apply (rec_translate m root K H Hs [a; b; c]); [by rewrite !list.Forall_cons|simpl; lia|done].
Qed.

(** C19: map_page never faults, keeps the table invariant and every other
    translation, takes at most three frames, and either maps the page with the
    given flags and re-enables interrupts, or, when the allocator ran out of
    frames, leaves the page's translation alone and returns with interrupts off
    and [interrupts_ready] false. *)
Theorem map_page_total s K pid va pa flags :
  paging_ok s K -> 0 < pid < 256 -> index_at va 39 <> 511 ->
  0 <= pa < 2 ^ 52 -> pa mod 4096 = 0 -> 0 <= flags < 4096 ->
  exists s', map_page s pid va pa flags = Some s' /\ paging_ok s' K /\
    cr3 s' = cr3 s /\ num_pages (allocator s') = num_pages (allocator s) /\
    free_pages s - 3 <= free_pages s' /\ keeps_others s s' K (va_path va) /\
    ((interrupts_ready s' = true /\ intr_flag s' = true /\
      tbl (pm s') K (va_path va) = if Z.odd flags then Some pa else None) \/
     (interrupts_ready s' = false /\ intr_flag s' = false /\ free_pages s' = 0 /\
      tbl (pm s') K (va_path va) = tbl (pm s) K (va_path va))).
Proof. apply map_page_spec. Qed.

Lemma range_count start e : 0 <= start -> start <= e -> e + 4096 < 2 ^ 64 ->
  let st := aalign_down start PAGE_SIZE in let en := aalign e PAGE_SIZE in
  0 <= st <= start /\ start < st + 4096 /\ st mod 4096 = 0 /\ e <= en < e + 4096 /\ en mod 4096 = 0 /\
  Z.of_nat (Z.to_nat ((en - st) / PAGE_SIZE)) = (en - st) / 4096.
Proof.
  intros Hs He Hr. cbv zeta. unfold PAGE_SIZE.
  pose proof (aalign_down_spec start 4096 ltac:(lia) ltac:(lia)) as [[H1 H2] H3].
  pose proof (aalign_spec e 4096 ltac:(lia) ltac:(lia) ltac:(lia)) as [[H4 H5] H6].
  assert (aalign_down start 4096 mod 4096 = 0) by (apply Z.mod_divide; [lia|done]).
  assert (aalign e 4096 mod 4096 = 0) by (apply Z.mod_divide; [lia|done]).
  destruct H3 as [q Hq]. split_and!; try lia. apply Z2Nat.id. apply Z.div_pos; lia.
Qed.

Lemma map_memory_range_spec s K pid start e pa flags sa :
  paging_ok s K -> 0 < pid < 256 -> 0 <= start <= e -> e + 8192 <= 2 ^ 47 ->
  0 <= pa -> pa + (e - start) + 8192 <= 2 ^ 52 -> 0 <= flags < 4096 -> Z.odd flags = true ->
  let st := aalign_down start PAGE_SIZE in let en := aalign e PAGE_SIZE in
  4 * ((en - st) / PAGE_SIZE) <= free_pages s -> sa = 0 \/ en <= 2 ^ 32 ->
  exists s', map_memory_range_with_flags s pid start e pa flags sa = Some s' /\ paging_ok s' K /\
    cr3 s' = cr3 s /\ free_pages s - 4 * ((en - st) / PAGE_SIZE) <= free_pages s' /\
    (forall va, low va -> st <= va < en ->
       translate (pm s') K va = Some (aalign_down pa PAGE_SIZE + (va - st))) /\
    (forall va, low va -> va < st \/ en <= va -> translate (pm s') K va = translate (pm s) K va).
Proof.
  intros H Hpid Hs Hcan Hpa Hpb Hf Hodd st en Hfree Hsa.
  destruct (range_count start e) as (C1 & C2 & C3 & C4 & C5 & C6); [lia|lia|lia|].
  pose proof (aalign_down_spec pa 4096 ltac:(lia) ltac:(lia)) as [[D1 D2] [q D3]].
  unfold map_memory_range_with_flags. fold st en in C1, C2, C3, C4, C5, C6 |- *.
  unfold PAGE_SIZE in *. set (pd := aalign_down pa 4096) in *.
  set (k := Z.to_nat ((en - st) / 4096)) in *.
  assert (4096 * Z.of_nat k = en - st) as Hk by zlia.
  assert (pd mod 4096 = 0) as Hpd by (rewrite D3; apply Z.mod_mul; lia).
  destruct (map_range_spec k s K pid st pd flags sa) as (s' & E & P & C & F & T & O); try done; try lia.
  exists s'. split_and!; try done; [lia| |]; intros va Hlow Hva;
    rewrite ?(paging_translate s), (paging_translate s') by done.
  - assert (va_path va = va_path (st + 4096 * ((va - st) / 4096))) as ->.
    { replace (st + 4096 * ((va - st) / 4096)) with (va / 4096 * 4096) by zlia. by rewrite va_path_round. }
    rewrite T by zlia. cbn [mbind option_bind]. rewrite offset_spec. f_equal. zlia.
  - rewrite O; [done|done|]. zlia.
Qed.

(** C26: map_memory_range_with_flags maps a whole range: for virtual addresses
    below 2^47 and flags with the present bit, with a frame for every table it
    may need, and below 4 GiB when it also marks the allocator's array (which
    has an entry for each page below 4 GiB only), each page from the rounded-
    down start to the rounded-up end is translated to the physical page at the
    same distance, every page outside the range keeps its translation, and the
    invariant holds. *)
Theorem map_memory_range_maps s K pid start e pa flags sa :
  paging_ok s K -> 0 < pid < 256 -> 0 <= start <= e -> e + 8192 <= 2 ^ 47 ->
  0 <= pa -> pa + (e - start) + 8192 <= 2 ^ 52 -> 0 <= flags < 4096 -> Z.odd flags = true ->
  let st := aalign_down start PAGE_SIZE in let en := aalign e PAGE_SIZE in
  4 * ((en - st) / PAGE_SIZE) <= free_pages s -> sa = 0 \/ en <= 2 ^ 32 ->
  exists s', map_memory_range_with_flags s pid start e pa flags sa = Some s' /\ paging_ok s' K /\
    cr3 s' = cr3 s /\
    (forall va, low va -> st <= va < en ->
       translate (pm s') K va = Some (aalign_down pa PAGE_SIZE + (va - st))) /\
    (forall va, low va -> va < st \/ en <= va -> translate (pm s') K va = translate (pm s) K va).
Proof.
  intros H Hpid Hs Hcan Hpa Hpb Hf Hodd st en Hfree Hsa.
  destruct (map_memory_range_spec s K pid start e pa flags sa) as (s' & E & P & C & _ & T); try done. by exists s'.
Qed.

(** C29: unmap_page never faults; the page is not mapped afterwards and every
    other translation is as before, but interrupts are re-enabled only when the
    page was mapped: on each early return they stay off. *)
Theorem unmap_page_unmaps s K va :
  paging_ok s K -> index_at va 39 <> 511 ->
  exists s', unmap_page s va = Some s' /\ paging_ok s' K /\ allocator s' = allocator s /\
    keeps_others s s' K (va_path va) /\ tbl (pm s') K (va_path va) = None /\
    interrupts_ready s' = match tbl (pm s) K (va_path va) with Some _ => true | None => false end /\
    intr_flag s' = match tbl (pm s) K (va_path va) with Some _ => true | None => false end.
Proof. apply unmap_page_spec. Qed.

(** Fact: deallocate_page indexes the byte-per-page bitmap as if it held bits: no
    page but page 0 is ever freed by it, and the entry it does change is that of
    the page numbered page/64. *)
Theorem deallocate_page_frees_nothing b page :
  4096 <= page ->
  mread (deallocate_page b page) (page / 4096) = mread b (page / 4096) /\
  (forall x, x <> page / 4096 / 64 -> mread (deallocate_page b page) x = mread b x).
Proof.
  intros Hp. unfold deallocate_page, PAGE_SIZE. split.
  - apply mread_mwrite_ne. zlia.
  - intros x Hx. apply mread_mwrite_ne. congruence.
Qed.

(** Fact: freeing page 64 hands out page 1 a second time: the frame that belongs
    to process 1 is free in the bitmap, and the next allocate_page returns it. *)
Theorem deallocate_page_double_allocation :
  let b := mputs ∅ 0 (replicate 65 1) in
  mread b 1 = 1 /\ mread (deallocate_page b (64 * 4096)) 1 = 0 /\
  mread (deallocate_page b (64 * 4096)) 64 = 1 /\
  allocate_loop 65 (deallocate_page b (64 * 4096)) 2 0 =
    (mwrite (deallocate_page b (64 * 4096)) 1 2, 1 * PAGE_SIZE).
Proof. vm_compute. repeat split. Qed.

(** ** Witnesses *)

(** An empty PML4 at 0xd00000 with its recursive entry, as init_kernel_paging
    leaves it, and an allocator of sixteen pages with the first taken. *)
Definition demo_state : mach :=
  Mach (st64 ∅ (PML4_KERNEL + 8 * 511) (Z.lor PML4_KERNEL PAGE_MAP_FLAGS)) PML4_KERNEL
    (Allocator (mwrite (mwrite ∅ 0 1) (PML4_KERNEL / 4096) 1) 16 1) 0 true true.

Lemma demo_entry i : idx i -> i <> 511 -> ld64 (pm demo_state) (PML4_KERNEL + 8 * i) = 0.
Proof.
  intros Hi Hne. unfold idx in Hi. unfold demo_state. cbn [pm]. rewrite load_store_out by (simpl; lia).
  generalize (PML4_KERNEL + 8 * i). intros a.
  assert (forall n b, load n ∅ b = 0) as E; [|apply E].
  intros n. induction n as [|n IH]; intros b; [done|].
  change (load (S n) ∅ b) with (mread ∅ b + 256 * load n ∅ (b + 1)). rewrite IH.
  unfold mread. rewrite lookup_empty. done.
Qed.

Lemma demo_tbl i p : idx i -> i <> 511 -> tbl (pm demo_state) PML4_KERNEL (i :: p) = None.
Proof. intros Hi Hne. cbn [tbl]. by rewrite demo_entry. Qed.

Lemma demo_path p t : tpath p -> tbl (pm demo_state) PML4_KERNEL p = Some t -> p = [] /\ t = PML4_KERNEL.
Proof.
  intros [(H1 & _ & H3) _]. destruct p as [|i p]; [by intros [= <-]|].
  apply list.Forall_cons in H1 as [Hi _]. by rewrite demo_tbl.
Qed.

Lemma demo_ok : paging_ok demo_state PML4_KERNEL.
Proof.
  split.
  - vm_compute. repeat split.
  - vm_compute. intuition discriminate.
  - vm_compute. intuition discriminate.
  - vm_compute. discriminate.
  - intros p t Hp Ht. destruct (demo_path p t Hp Ht) as [_ ->]. vm_compute. discriminate.
  - intros p q t Hp Hq Htp Htq. destruct (demo_path p t Hp Htp) as [-> _].
    by destruct (demo_path q t Hq Htq) as [-> _].
  - split; [vm_compute; discriminate|]. intros p Hp Ht. by destruct (demo_path p _ Hp Ht).
  - intros q i t Hqi _ Ht. destruct (valid_snoc _ _ Hqi) as [Hq Hi]. destruct (demo_path q t Hq Ht) as [-> ->].
    rewrite demo_entry; [done|done|]. by destruct Hqi as (_ & _ & Hne).
Qed.

Lemma table_indexes_roundtrip_witness :
  va_path (get_addr_from_table_indexes 511 3 0 7 + 8) = [511; 3; 0; 7].
Proof.
  assert (idx 511 /\ idx 3 /\ idx 0 /\ idx 7) as (H1 & H2 & H3 & H4) by (unfold idx; lia).
  exact (proj1 (table_indexes_roundtrip 511 3 0 7 8 H1 H2 H3 H4 ltac:(lia))).
Defined.

Lemma recursive_slot_reaches_tables_witness :
  translate (pm demo_state) PML4_KERNEL (get_addr_from_table_indexes 511 511 511 511 + 8 * 5) =
  Some (PML4_KERNEL + 8 * 5).
Proof.
  assert (idx 1 /\ idx 5) as [H1 H5] by (unfold idx; lia).
  exact (proj1 (recursive_slot_reaches_tables (pm demo_state) PML4_KERNEL PML4_KERNEL 1 1 1 5
    (po_rec _ _ demo_ok) (po_small _ _ demo_ok) H1 H1 H1 H5)).
Defined.

Lemma map_page_total_witness :
  exists s', map_page demo_state 1 0x2000000 0x5000 PAGE_MAP_FLAGS = Some s' /\
    paging_ok s' PML4_KERNEL.
Proof.
  destruct (map_page_total demo_state PML4_KERNEL 1 0x2000000 0x5000 PAGE_MAP_FLAGS demo_ok)
    as (s' & H1 & H2 & _);
    [lia|vm_compute; discriminate|lia|reflexivity|vm_compute; intuition discriminate|].
  exists s'. exact (conj H1 H2).
Defined.

Lemma map_memory_range_maps_witness :
  exists s', map_memory_range_with_flags demo_state 1 0x2000010 0x2001001 0x2000000 PAGE_MAP_FLAGS 1 = Some s' /\
    translate (pm s') PML4_KERNEL 0x2001234 = Some 0x2001234.
Proof.
  destruct (map_memory_range_maps demo_state PML4_KERNEL 1 0x2000010 0x2001001 0x2000000
              PAGE_MAP_FLAGS 1 demo_ok) as (s' & H1 & _ & _ & H2 & _);
    [lia|lia|lia|lia|lia|vm_compute; intuition discriminate|reflexivity|vm_compute; discriminate|right; vm_compute; discriminate|].
  exists s'. split; [exact H1|]. refine (H2 0x2001234 _ _); [unfold low; lia|vm_compute; intuition discriminate].
Defined.

Lemma unmap_page_unmaps_witness :
  exists s', unmap_page demo_state 0x2000000 = Some s' /\ interrupts_ready s' = false.
Proof.
  destruct (unmap_page_unmaps demo_state PML4_KERNEL 0x2000000 demo_ok)
    as (s' & H1 & _ & _ & _ & _ & H2 & _); [vm_compute; discriminate|].
  exists s'. split; [exact H1|]. rewrite H2. vm_compute. reflexivity.
Defined.

Lemma deallocate_page_frees_nothing_witness :
  mread (deallocate_page (mwrite ∅ 100 2) (100 * 4096)) 100 = 2.
Proof. exact (proj1 (deallocate_page_frees_nothing (mwrite ∅ 100 2) (100 * 4096) ltac:(lia))). Defined.
