(* ===== verification/Frames.v ===== *)
(** * Frames: what editing page tables leaves alone

    map_page, unmap_page and their ranges write table frames and the allocator's
    array, and nothing else: other memory in use keeps its bytes, so the tables
    of another root keep their translations, and new tables come from the lowest
    free frames.  Exec composes these facts for two roots and the memory of a
    process. *)

From S2P Require Import Prelude Mem Paging.

(** A frame the allocator holds as taken, and the free ones below a limit. *)
Definition used (s : mach) (x : Z) : Prop := mread (bitmap (allocator s)) x <> 0.

Definition free_below (L : Z) (s : mach) : Z := nfree (Z.to_nat L) (bitmap (allocator s)) 0.

(** The frame [f] holds a table of the tree rooted at [K]. *)
Definition is_table (s : mach) (K f : Z) : Prop :=
  exists p t, tpath p /\ tbl (pm s) K p = Some t /\ t / 4096 = f.

(** Entries that exist have changed, and nothing else. *)
Record leaf_edits (K : Z) (s s' : mach) : Prop := LeafEdits {
  le_cr3 : cr3 s' = cr3 s;
  le_alloc : allocator s' = allocator s;
  le_tables : forall p, tpath p -> tbl (pm s') K p = tbl (pm s) K p;
  le_frame : forall b, ~ is_table s K (b / 4096) -> mread (pm s') b = mread (pm s) b;
}.

(** At most [n] frames below [L] were taken, for tables or by marks. *)
Record edits (K L n : Z) (s s' : mach) : Prop := Edits {
  ed_cr3 : cr3 s' = cr3 s;
  ed_num : num_pages (allocator s') = num_pages (allocator s);
  ed_mono : forall x, used s x -> used s' x;
  ed_below : free_below L s - n <= free_below L s';
  ed_kept : forall p t, tpath p -> tbl (pm s) K p = Some t -> tbl (pm s') K p = Some t;
  ed_new : forall f, is_table s' K f -> is_table s K f \/ ~ used s f;
  ed_low : n <= free_below L s -> forall f, is_table s' K f -> is_table s K f \/ f < L;
  ed_lowest : forall f, is_table s' K f -> is_table s K f \/ forall x, 0 <= x < f -> used s' x;
  ed_same : forall b, ~ is_table s' K (b / 4096) -> mread (pm s') b = mread (pm s) b;
}.

(** ** Composition *)

Lemma is_table_kept s s' K f : (forall p t, tpath p -> tbl (pm s) K p = Some t -> tbl (pm s') K p = Some t) ->
  is_table s K f -> is_table s' K f.
Proof. intros H (p & t & Hp & Ht & E). exists p, t. split_and!; [done|by apply H|done]. Qed.

(** Memory in use that is no table keeps its bytes. *)
Lemma ed_frame K L n s s' : edits K L n s s' ->
  forall b, used s (b / 4096) -> ~ is_table s K (b / 4096) -> mread (pm s') b = mread (pm s) b.
Proof. intros A b Hu Hn. apply (ed_same _ _ _ _ _ A). intros Ht. by destruct (ed_new _ _ _ _ _ A _ Ht). Qed.

Lemma edits_refl K L n s : 0 <= n -> edits K L n s s.
Proof. intros Hn. split; try done; [lia|by left|by left|by left]. Qed.

Lemma edits_weaken K L n n' s s' : n <= n' -> edits K L n s s' -> edits K L n' s s'.
Proof. intros Hn []. split; try done; [lia|]. intros Hf. apply ed_low0. lia. Qed.

Lemma edits_trans K L n1 n2 s1 s2 s3 : 0 <= n2 -> edits K L n1 s1 s2 -> edits K L n2 s2 s3 -> edits K L (n1 + n2) s1 s3.
Proof.
  intros Hn A B. split.
  - by rewrite (ed_cr3 _ _ _ _ _ B), (ed_cr3 _ _ _ _ _ A).
  - by rewrite (ed_num _ _ _ _ _ B), (ed_num _ _ _ _ _ A).
  - intros x Hx. by apply (ed_mono _ _ _ _ _ B), (ed_mono _ _ _ _ _ A).
  - pose proof (ed_below _ _ _ _ _ A). pose proof (ed_below _ _ _ _ _ B). lia.
  - intros p t Hp Ht. by apply (ed_kept _ _ _ _ _ B), (ed_kept _ _ _ _ _ A).
  - intros f Hf. destruct (ed_new _ _ _ _ _ B f Hf) as [H2|H2]; [by apply (ed_new _ _ _ _ _ A)|].
    right. intros Hu. by apply H2, (ed_mono _ _ _ _ _ A).
  - intros Hfb f Hf. pose proof (ed_below _ _ _ _ _ A). destruct (ed_low _ _ _ _ _ B ltac:(lia) f Hf) as [H2|]; [|by right].
    apply (ed_low _ _ _ _ _ A); [lia|done].
  - intros f Hf. destruct (ed_lowest _ _ _ _ _ B f Hf) as [H2|]; [|by right].
    destruct (ed_lowest _ _ _ _ _ A f H2) as [|H1]; [by left|right]. intros x Hx. by apply (ed_mono _ _ _ _ _ B), H1.
  - intros b Ht. rewrite (ed_same _ _ _ _ _ B), (ed_same _ _ _ _ _ A); try done.
    intros H2. by apply Ht, (is_table_kept s2), H2; apply B.
Qed.

Lemma leaf_is_table K s s' f : leaf_edits K s s' -> is_table s' K f <-> is_table s K f.
Proof.
  intros A. split; intros (p & t & Hp & Ht & E); exists p, t; split_and!; try done.
  - by rewrite <- (le_tables _ _ _ A).
  - by rewrite (le_tables _ _ _ A).
Qed.

Lemma leaf_edits_refl K s : leaf_edits K s s.
Proof. by split. Qed.

Lemma leaf_edits_trans K s1 s2 s3 : leaf_edits K s1 s2 -> leaf_edits K s2 s3 -> leaf_edits K s1 s3.
Proof.
  intros A B. split.
  - by rewrite (le_cr3 _ _ _ B), (le_cr3 _ _ _ A).
  - by rewrite (le_alloc _ _ _ B), (le_alloc _ _ _ A).
  - intros p Hp. by rewrite (le_tables _ _ _ B), (le_tables _ _ _ A).
  - intros b Hb. rewrite (le_frame _ _ _ B), (le_frame _ _ _ A); try done. by rewrite leaf_is_table.
Qed.

Lemma leaf_edits_edits K L s s' : leaf_edits K s s' -> edits K L 0 s s'.
Proof.
  intros A. destruct A as [A1 A2 A3 A4] eqn:E. clear E. split; try done.
  - by rewrite A2.
  - unfold used. by rewrite A2.
  - unfold free_below. rewrite A2. lia.
  - intros p t Hp Ht. by rewrite A3.
  - intros f Hf. left. by apply (leaf_is_table _ _ _ _ A) in Hf.
  - intros _ f Hf. left. by apply (leaf_is_table _ _ _ _ A) in Hf.
  - intros f Hf. left. by apply (leaf_is_table _ _ _ _ A) in Hf.
  - intros b Hb. apply A4. by rewrite <- (leaf_is_table _ _ _ _ A).
Qed.

(** ** Trees that are not edited *)

(** The entries of the tree, the recursive one apart. *)
Definition same_tree (m m' : mem) (K : Z) : Prop := forall q t j, tpath q -> idx j -> (q = [] -> j <> 511) ->
  tbl m K q = Some t -> ld64 m' (t + 8 * j) = ld64 m (t + 8 * j).

Lemma same_tbl m m' K : same_tree m m' K -> forall q, valid q -> tbl m' K q = tbl m K q.
Proof.
  intros H q. induction q as [|j q IH] using rev_ind; intros Hq; [done|]. destruct (valid_snoc _ _ Hq) as [Hp Hj].
  rewrite !tbl_snoc, IH by apply Hp. destruct (tbl m K q) as [t|] eqn:Ht; [|done]. cbn [mbind option_bind].
  rewrite (H q t j) by (done || (intros ->; by destruct Hq as (_ & _ & ?))). done.
Qed.

Lemma same_tree_refl m K : same_tree m m K.
Proof. done. Qed.

Lemma same_tree_trans m1 m2 m3 K : same_tree m1 m2 K -> same_tree m2 m3 K -> same_tree m1 m3 K.
Proof.
  intros A B q t j Hq Hj H0 Ht. rewrite <- (A q t j) by done. apply (B q t j); try done.
  rewrite (same_tbl _ _ _ A); [done|apply Hq].
Qed.

Lemma same_small m m' K : same_tree m m' K -> small m K -> small m' K.
Proof.
  intros A H q i t Hqi Hl Ht. destruct (valid_snoc _ _ Hqi) as [Hq Hi]. rewrite (same_tbl _ _ _ A) in Ht by apply Hq.
  rewrite (A q t i) by (done || (intros ->; by destruct Hqi as (_ & _ & ?))). by apply (H q).
Qed.

Lemma translate_same m m' R va : 0 <= R < 2 ^ 52 /\ R mod 4096 = 0 -> low va -> small m R ->
  same_tree m m' R -> translate m' R va = translate m R va.
Proof.
  intros HR Hl Hs A. rewrite !small_translate by (done || by apply (same_small m)).
  by rewrite (same_tbl _ _ _ A) by by apply va_path_valid, low_index.
Qed.

Lemma entry_frame t j b : t mod 4096 = 0 -> idx j -> t + 8 * j <= b < t + 8 * j + 8 -> b / 4096 = t / 4096.
Proof. unfold idx. intros. zlia. Qed.

Lemma tree_bytes m m' K : 0 <= K < 2 ^ 52 /\ K mod 4096 = 0 ->
  (forall q t b, tpath q -> tbl m K q = Some t -> b / 4096 = t / 4096 -> mread m' b = mread m b) -> same_tree m m' K.
Proof.
  intros HK H q t j Hq Hj _ Ht. apply load_ext. intros b Hb. apply (H q t b Hq Ht).
  destruct (tbl_aligned _ _ _ _ HK Ht). apply (entry_frame t j); [done|done|lia].
Qed.

Lemma edits_other K L n s s' R : edits K L n s s' -> 0 <= R < 2 ^ 52 /\ R mod 4096 = 0 ->
  (forall f, is_table s R f -> used s f /\ ~ is_table s K f) -> same_tree (pm s) (pm s') R.
Proof.
  intros A HR H. apply tree_bytes; [done|]. intros q t b Hq Ht Eb. destruct (H (t / 4096)) as [Hu Hn]; [by exists q, t|].
  apply (ed_frame _ _ _ _ _ A); by rewrite Eb.
Qed.

Lemma leaf_edits_other K s s' R : leaf_edits K s s' -> 0 <= R < 2 ^ 52 /\ R mod 4096 = 0 ->
  (forall f, is_table s R f -> ~ is_table s K f) -> same_tree (pm s) (pm s') R.
Proof.
  intros A HR H. apply tree_bytes; [done|]. intros q t b Hq Ht Eb. apply (le_frame _ _ _ A). rewrite Eb. apply H. by exists q, t.
Qed.

Lemma is_table_same s s' R f : same_tree (pm s) (pm s') R -> is_table s' R f <-> is_table s R f.
Proof.
  intros H. pose proof (same_tbl _ _ _ H) as E.
  split; intros (p & t & Hp & Ht & Ef); exists p, t; (split; [done|]); (split; [|done]); [rewrite <- E|rewrite E]; apply Hp || done.
Qed.

(** The invariant of a root whose tables did not change. *)
Lemma paging_ok_same s s' K : paging_ok s K -> rec_ok (pm s') (cr3 s') K -> cr3 s' = cr3 s ->
  num_pages (allocator s') = num_pages (allocator s) -> (forall x, used s x -> used s' x) ->
  same_tree (pm s) (pm s') K -> paging_ok s' K.
Proof.
  intros H Hr Hc Hn Hu A. assert (Ht' : forall q, tpath q -> tbl (pm s') K q = tbl (pm s) K q) by (intros q [Hq _]; by apply (same_tbl _ _ _ A)).
  split; [done|apply H|rewrite Hn; apply H|apply Hu, H| | | |].
  - intros p t Hp. rewrite Ht' by done. intros Hpt. by apply Hu, (po_used s K H p).
  - intros p q t Hp Hq. rewrite !Ht' by done. by apply H.
  - rewrite Hc. destruct (po_root s K H) as [H1 H2]. split; [by apply Hu|]. intros p Hp. rewrite Ht' by done. by apply H2.
  - by apply (same_small (pm s)), H.
Qed.

(** ** Leaf entries *)

(** A store of a leaf entry through the recursive slot. *)
Lemma leaf_store s K p i v s' : paging_ok s K -> valid (p ++ [i]) -> length p = 3%nat -> 0 <= v < 2 ^ 64 ->
  vst64 s (rec_va p + 8 * i) v = Some s' -> leaf_edits K s s' /\ paging_ok s' K.
Proof.
  intros H Hpi Hl Hv E. destruct (valid_snoc _ _ Hpi) as [Hp Hi]. pose proof Hp as [[Hf _] _].
  unfold vst64 in E. rewrite (rec_translate _ _ K) in E by (done || apply H || lia || (unfold idx in Hi; lia)).
  destruct (tbl (pm s) K p) as [t|] eqn:Ht; [|done]. injection E as <-. split; [|by apply (paging_ok_leaf s K H p t i v)].
  destruct (tbl_aligned _ _ _ _ (po_K s K H) Ht) as [_ Hal]. split; try done.
  - intros q [Hq Hlq]. cbn [pm set_pm]. rewrite (set_leaf_tbl s K H p t i v q) by done.
    rewrite decide_False; [done|]. intros ->. rewrite length_app in Hlq. cbn in Hlq. lia.
  - intros b Hb. apply mread_store_out. destruct (decide (t + 8 * i <= b < t + 8 * i + 8)) as [Hin|]; [|simpl; lia].
    exfalso. apply Hb. exists p, t. split_and!; [done|done|]. symmetry. by apply (entry_frame t i).
Qed.

Definition table_path (va : Z) : list Z := [index_at va 39; index_at va 30; index_at va 21].

Lemma table_path_valid va : index_at va 39 <> 511 -> tpath (table_path va).
Proof. intros H. apply (valid_snoc (table_path va) (index_at va 12)). by apply va_path_valid. Qed.

Lemma unmap_page_leaf s K va s' : paging_ok s K -> index_at va 39 <> 511 -> unmap_page s va = Some s' -> leaf_edits K s s'.
Proof.
  intros H H511. pose proof (va_path_valid va H511) as Hv. unfold unmap_page. set (s0 := cli (set_ready s false)).
  assert (paging_ok s0 K) as H0 by (destruct H; by split). assert (leaf_edits K s s0) as A0 by by split.
  intros E. apply bind_Some in E as (e4 & _ & E). destruct (Z.land e4 _ =? 0); [by injection E as <-|].
  apply bind_Some in E as (e3 & _ & E). destruct (Z.land e3 _ =? 0); [by injection E as <-|].
  apply bind_Some in E as (e2 & _ & E). destruct (Z.land e2 _ =? 0); [by injection E as <-|].
  apply bind_Some in E as (e1 & _ & E). destruct (Z.land e1 _ =? 0); [by injection E as <-|].
  apply bind_Some in E as (s4 & E4 & E). injection E as <-.
  destruct (leaf_store s0 K (table_path va) (index_at va 12) 0 s4) as [A4 _]; [done|done|done|lia|exact E4|].
  apply (leaf_edits_trans _ _ _ _ A0). by destruct A4.
Qed.

(** ** Tables *)

Lemma nfree_pos k b i : 1 <= nfree k b i -> exists x, i <= x < i + Z.of_nat k /\ mread b x = 0.
Proof.
  revert i. induction k as [|k IH]; intros i; cbn [nfree]; [lia|]. destruct (Z.eqb_spec (mread b i) 0) as [E|]; [exists i; split; [lia|done]|].
  intros Hn. destruct (IH (i + 1)) as (x & Hx & Ex); [lia|]. exists x. split; [lia|done].
Qed.

Lemma nfree_none k b i x : nfree k b i = 0 -> i <= x < i + Z.of_nat k -> mread b x <> 0.
Proof.
  revert i. induction k as [|k IH]; intros i; cbn [nfree]; [lia|]. pose proof (nfree_nonneg k b (i + 1)).
  destruct (Z.eqb_spec (mread b i) 0) as [|N]; [lia|]. intros Hz Hx. destruct (Z.eq_dec x i) as [->|]; [done|]. apply (IH (i + 1)); lia.
Qed.

Lemma nfree_write_above k b i j v : i + Z.of_nat k <= j -> nfree k (mwrite b j v) i = nfree k b i.
Proof. revert i. induction k as [|k IH]; intros i Hj; cbn [nfree]; [done|]. rewrite IH, mread_mwrite_ne by lia. done. Qed.

Lemma used_mark (b : mem) x y pid : 0 < pid < 256 -> mread b y <> 0 -> mread (mwrite b x pid) y <> 0.
Proof. intros Hp Hy. rewrite mread_mwrite. case_decide; [rewrite u8_small; lia|done]. Qed.

Lemma nfree_write_used k b i j v : mread b j <> 0 -> u8 v <> 0 -> nfree k (mwrite b j v) i = nfree k b i.
Proof.
  intros Hj Hv. revert i. induction k as [|k IH]; intros i; cbn [nfree]; [done|]. rewrite IH, mread_mwrite. case_decide as E; [|done].
  subst. by destruct (Z.eqb_spec (u8 v) 0), (Z.eqb_spec (mread b i) 0).
Qed.

(** A mark in the allocator's array. *)
Lemma mark_edits s K L x pid n : 0 < pid < 256 -> 0 <= L -> n = 1 \/ n = 0 /\ (L <= x \/ used s x) ->
  edits K L n s (set_bitmap s (mwrite (bitmap (allocator s)) x pid)).
Proof.
  intros Hp HL Hn. split; try done; [intros y; by apply used_mark| |by left|by left|by left].
  unfold free_below. cbn [allocator set_bitmap bitmap]. destruct Hn as [->|[-> [Hx|Hx]]]; [apply nfree_write| |].
  - rewrite nfree_write_above by lia. lia.
  - rewrite nfree_write_used; [lia|done|rewrite u8_small; lia].
Qed.

(** One block of map_page: the entry is there, or takes one frame. *)
Lemma ensure_table_edits s K L pid p i t s' ok : paging_ok s K -> 0 < pid < 256 -> valid (p ++ [i]) -> (length p <= 2)%nat ->
  tbl (pm s) K p = Some t -> 0 <= L -> ensure_table s pid (rec_va p) i (rec_va (p ++ [i])) = Some (s', ok) ->
  edits K L 1 s s' /\ paging_ok s' K /\ (tbl (pm s) K (p ++ [i]) <> None -> s' = s /\ ok = true) /\
  (ok = true -> tbl (pm s') K (p ++ [i]) <> None).
Proof.
  intros H Hpid Hpi Hlen Ht HL E. pose proof (ensure_table_shape s K pid p i t H Hpi Hlen Ht) as Hsh. cbv zeta in Hsh. rewrite E in Hsh.
  destruct (tbl (pm s) K (p ++ [i])) as [u|] eqn:Hu.
  { injection Hsh as -> ->. split_and!; try done; [apply edits_refl; lia|by rewrite Hu]. }
  destruct Hsh as [[_ Es]|(j & Hj & Hfree & Hmin & Es)]; injection Es as -> ->; [by split_and!; try done; apply edits_refl|].
  pose proof (po_pages s K H). destruct (paging_ok_add s K H p t i (Z.lor (j * 4096) PAGE_MAP_FLAGS) Hpi Ht j pid) as (H1 & H2 & H3); try done; try lia.
  split; [|split; [done|split; [done|intros _; by rewrite H2]]].
  destruct (valid_snoc _ _ Hpi) as [Hp Hi]. destruct (tbl_aligned _ _ _ _ (po_K s K H) Ht) as [_ Hal].
  set (s1 := set_pm _ _) in *. assert (Hnew : forall f, is_table s1 K f -> is_table s K f \/ f = j).
  { intros f (q & u & Hq & Hqu & Ef). destruct (decide (q = p ++ [i])) as [->|N].
    - right. rewrite H2 in Hqu. injection Hqu as <-. by rewrite <- Ef, Z.div_mul.
    - left. rewrite H3 in Hqu by (done || apply Hq). by exists q, u. }
  split; try done.
  - intros x Hx. by apply used_mark.
  - unfold free_below. apply nfree_write.
  - intros q u Hq Hqu. rewrite H3; [done|apply Hq|]. intros ->. by rewrite Hu in Hqu.
  - intros f Hf. destruct (Hnew f Hf) as [| ->]; [by left|]. right. by intros ?.
  - intros Hfb f Hf. destruct (Hnew f Hf) as [| ->]; [by left|]. right. destruct (nfree_pos _ _ _ Hfb) as (x & Hx & Ex).
    destruct (Z.lt_ge_cases x j) as [Hlt|]; [exfalso; apply (Hmin x); [lia|done]|lia].
  - intros f Hf. destruct (Hnew f Hf) as [| ->]; [by left|]. right. intros x Hx. apply used_mark; [done|by apply Hmin].
  - intros b Hnt. cbn [s1 pm set_pm]. rewrite memset_out, mread_store_out; [done| |].
    + destruct (decide (t + 8 * i <= b < t + 8 * i + 8)) as [Hin|]; [|simpl; lia].
      exfalso. apply Hnt. exists p, t. split_and!; [done| |symmetry; by apply (entry_frame t i)].
      rewrite H3; [done|apply Hp|]. intros E2. by rewrite <- E2, Ht in Hu.
    + assert (b / 4096 <> j); [|zlia]. intros Eb. apply Hnt. exists (p ++ [i]), (j * 4096).
      split_and!; [|done|by rewrite Z.div_mul]. split; [done|]. rewrite length_app. simpl. lia.
Qed.

(** ** Pages *)

(** map_page takes at most three frames, and none when the tables are there. *)
Lemma map_page_edits s K L pid va pa flags s' : paging_ok s K -> 0 < pid < 256 -> index_at va 39 <> 511 ->
  0 <= pa < 2 ^ 52 -> pa mod 4096 = 0 -> 0 <= flags < 4096 -> 0 <= L -> map_page s pid va pa flags = Some s' ->
  edits K L 3 s s' /\ (tbl (pm s) K (table_path va) <> None -> leaf_edits K s s').
Proof.
  intros H Hpid H511 Hpa Hal Hfl HL. pose proof (va_path_valid va H511) as Hv. unfold map_page. unfold va_path in Hv.
  set (a := index_at va 39) in *. set (b := index_at va 30) in *. set (c := index_at va 21) in *. set (d := index_at va 12) in *.
  pose proof (valid_prefix [a; b; c] [d] Hv) as Hv3. pose proof (valid_prefix [a; b] [c] Hv3) as Hv2. pose proof (valid_prefix [a] [b] Hv2) as Hv1.
  set (s0 := cli (set_ready s false)). assert (paging_ok s0 K) as H0 by (destruct H; by split).
  assert (leaf_edits K s s0) as A0 by by split. pose proof (leaf_edits_edits K L _ _ A0) as B0. change (pm s) with (pm s0).
  assert (Hpre : forall q r, tbl (pm s0) K (q ++ r) <> None -> tbl (pm s0) K q <> None) by (intros q r; rewrite tbl_app; by destruct (tbl _ _ q)).
  unfold table_path. fold a b c. change PML4_RECURSIVE_ENTRY_NUM with 511. cbv zeta.
  change (get_addr_from_table_indexes 511 511 511 511) with (rec_va []). change (get_addr_from_table_indexes 511 511 511 a) with (rec_va ([] ++ [a])).
  change (get_addr_from_table_indexes 511 511 a b) with (rec_va ([a] ++ [b])). change (get_addr_from_table_indexes 511 a b c) with (rec_va ([a; b] ++ [c])).
  intros E. apply bind_Some in E as ([s1 ok1] & E1 & E).
  destruct (ensure_table_edits s0 K L pid [] a K s1 ok1 H0 Hpid Hv1) as (D1 & P1 & N1 & T1); [cbn; lia|done|done|done|].
  pose proof (edits_trans K L 0 1 _ _ _ ltac:(lia) B0 D1) as D1'.
  destruct ok1; cbn [negb] in E; [|injection E as <-; split; [by apply (edits_weaken K L 1); [lia|]|]; intros Q; by destruct (N1 (Hpre [a] [b; c] Q))].
  destruct (tbl (pm s1) K ([] ++ [a])) as [t1|] eqn:Et1; [|by destruct (T1 eq_refl)].
  apply bind_Some in E as ([s2 ok2] & E2 & E).
  destruct (ensure_table_edits s1 K L pid [a] b t1 s2 ok2 P1 Hpid Hv2) as (D2 & P2 & N2 & T2); [cbn; lia|done|done|done|].
  pose proof (edits_trans K L 1 1 _ _ _ ltac:(lia) D1' D2) as D2'.
  destruct ok2; cbn [negb] in E; [|injection E as <-; split; [by apply (edits_weaken K L 2); [lia|]|]; intros Q;
    destruct (N1 (Hpre [a] [b; c] Q)) as [-> _]; by destruct (N2 (Hpre [a; b] [c] Q))].
  destruct (tbl (pm s2) K ([a] ++ [b])) as [t2|] eqn:Et2; [|by destruct (T2 eq_refl)].
  apply bind_Some in E as ([s3 ok3] & E3 & E).
  destruct (ensure_table_edits s2 K L pid [a; b] c t2 s3 ok3 P2 Hpid Hv3) as (D3 & P3 & N3 & _); [cbn; lia|done|done|done|].
  pose proof (edits_trans K L 2 1 _ _ _ ltac:(lia) D2' D3) as D3'.
  assert (Q3 : tbl (pm s0) K [a; b; c] <> None -> s3 = s0 /\ ok3 = true).
  { intros Q. destruct (N1 (Hpre [a] [b; c] Q)) as [-> _]. destruct (N2 (Hpre [a; b] [c] Q)) as [-> _]. by apply N3. }
  destruct ok3; cbn [negb] in E; [|injection E as <-; split; [done|]; intros Q; by destruct (Q3 Q)].
  apply bind_Some in E as (s4 & E4 & E). injection E as <-. destruct (page_entry pa flags Hpa Hal Hfl) as [HL' _].
  destruct (leaf_store s3 K [a; b; c] d (Z.lor pa flags) s4) as [A4 _]; [done|done|done|lia|exact E4|].
  split.
  - pose proof (edits_trans K L 3 0 _ _ _ ltac:(lia) D3' (leaf_edits_edits K L _ _ A4)) as D. by destruct D.
  - intros Q. destruct (Q3 Q) as [-> _]. pose proof (leaf_edits_trans _ _ _ _ A0 A4) as D. by destruct D.
Qed.

(** ** Ranges *)

Lemma table_path_next addr : 0 <= addr -> addr mod 4096 = 0 -> (addr + 4096) mod 2 ^ 21 <> 0 -> table_path (addr + 4096) = table_path addr.
Proof.
  intros H0 Ha Hm. assert (E : (addr + 4096) / 2 ^ 21 = addr / 2 ^ 21) by zlia. unfold table_path. rewrite !index_at_spec by lia.
  change (2 ^ 39) with (2 ^ 21 * 2 ^ 18). change (2 ^ 30) with (2 ^ 21 * 2 ^ 9). by rewrite <- !Z.div_div, E by lia.
Qed.

Lemma mapped_table s K va pa : tbl (pm s) K (va_path va) = Some pa -> tbl (pm s) K (table_path va) <> None.
Proof. change (va_path va) with (table_path va ++ [index_at va 12]). rewrite tbl_app. by destruct (tbl _ _ (table_path va)). Qed.

(** No frame below [L] is taken by the marks of a range. *)
Definition marks_free (s : mach) (L sa st en : Z) : Prop :=
  sa = 0 \/ L <= st / 4096 \/ forall f, st / 4096 <= f < en / 4096 -> used s f.

(** A range takes three frames at its start and at each boundary of 2 MiB; [mk]
    says whether its marks count, [b] that the first tables are there. *)
Lemma map_range_edits k s K L pid addr pa flags sa mk (b : bool) s' :
  paging_ok s K -> 0 < pid < 256 -> 0 <= addr -> addr mod 4096 = 0 -> addr + 4096 * Z.of_nat k <= 2 ^ 47 ->
  0 <= pa -> pa mod 4096 = 0 -> pa + 4096 * Z.of_nat k <= 2 ^ 52 -> 0 <= flags < 4096 -> Z.odd flags = true ->
  4 * Z.of_nat k <= free_pages s -> 0 <= L -> mk = 1 \/ mk = 0 /\ marks_free s L sa addr (addr + 4096 * Z.of_nat k) ->
  (b = true -> tbl (pm s) K (table_path addr) <> None) -> map_range_loop k s pid addr pa flags sa = Some s' ->
  edits K L (mk * Z.of_nat k + 3 * ((addr + 4096 * Z.of_nat k) / 2 ^ 21 - addr / 2 ^ 21 + (if b then 0 else 1))) s s'.
Proof.
  intros H Hpid H0 Ha Hb Hp Hpa Hpb Hf Hodd Hfree HL. revert s addr pa b H H0 Ha Hb Hp Hpa Hpb Hfree.
  induction k as [|k IH]; intros s addr pa b H H0 Ha Hb Hp Hpa Hpb Hfree Hmk Hpres E; cbn [map_range_loop] in E.
  { injection E as <-. apply edits_refl. rewrite Z.mul_0_r, Z.add_0_r. destruct b; lia. }
  apply bind_Some in E as (s1 & E1 & E). assert (L1 : index_at addr 39 <> 511) by (apply low_index; unfold low; lia).
  destruct (map_page_edits s K L pid addr pa flags s1) as [D1 A1]; try done; try lia.
  destruct (map_page_spec s K pid addr pa flags) as (s1' & E1' & P1 & _ & _ & F1 & _ & Hres); try done; try lia.
  rewrite E1 in E1'. injection E1' as <-. destruct Hres as [(_ & _ & Hm)|(_ & _ & Hz & _)]; [|lia]. rewrite Hodd in Hm.
  assert (D1' : edits K L (if b then 0 else 3) s s1) by (destruct b; [by apply leaf_edits_edits, A1, Hpres|done]).
  apply bind_Some in E as (s2 & Es2 & E). apply mark_page_some in Es2.
  assert (paging_ok s2 K /\ pm s2 = pm s1 /\ free_pages s1 - 1 <= free_pages s2 /\ edits K L mk s1 s2) as (P2 & M2 & F2 & D2).
  { rewrite Es2. unfold set_in. destruct (Z.eqb_spec sa 0) as [->|Nsa]; cbn [negb].
    - split_and!; [done|done|lia|apply edits_refl; lia].
    - split_and!; [by apply paging_ok_mark|done|unfold free_pages; apply nfree_write|apply mark_edits; [done|done|]].
      unfold PAGE_SIZE. destruct Hmk as [|(? & [|[|Hu]])]; [by left|done|right; split; [done|by left]|].
      right. split; [done|]. right. apply (ed_mono _ _ _ _ _ D1'), Hu. zlia. }
  clear Es2. unfold PAGE_SIZE in *.
  pose proof (edits_trans K L (if b then 0 else 3) mk _ _ _ ltac:(lia) D1' D2) as D12.
  assert (Hmk' : mk = 1 \/ mk = 0 /\ marks_free s2 L sa (addr + 4096) (addr + 4096 + 4096 * Z.of_nat k)).
  { destruct Hmk as [|(? & [|[|Hu]])]; [by left|right; split; [done|by left]|right; split; [done|right; left; zlia]|].
    right. split; [done|]. right. right. intros f Hff. apply (ed_mono _ _ _ _ _ D12), Hu. zlia. }
  set (b' := negb ((addr + 4096) mod 2 ^ 21 =? 0)).
  assert (D3 := IH s2 (addr + 4096) (pa + 4096) b' P2 ltac:(lia) ltac:(zlia) ltac:(lia) ltac:(lia) ltac:(zlia) ltac:(lia) ltac:(lia)
    Hmk').
  set (n3 := mk * Z.of_nat k + _) in D3.
  assert (Hb3 : (addr + 4096) / 2 ^ 21 <= (addr + 4096 + 4096 * Z.of_nat k) / 2 ^ 21) by (apply Z.div_le_mono; lia).
  assert (Hn3 : 0 <= n3) by (unfold n3; destruct b', Hmk as [-> | [-> _] ]; lia).
  apply (edits_weaken K L ((if b then 0 else 3) + mk + n3)); [|apply (edits_trans K L _ _ s s2); [done|done|apply D3; [|done]]].
  - unfold n3, b'. replace (addr + 4096 * Z.of_nat (S k)) with (addr + 4096 + 4096 * Z.of_nat k) by lia.
    destruct (Z.eqb_spec ((addr + 4096) mod 2 ^ 21) 0) as [Ez|Nz]; cbn [negb].
    + assert ((addr + 4096) / 2 ^ 21 = addr / 2 ^ 21 + 1) by zlia. destruct b; lia.
    + assert ((addr + 4096) / 2 ^ 21 = addr / 2 ^ 21) by zlia. destruct b; lia.
  - unfold b'. intros Hb'. destruct (Z.eqb_spec ((addr + 4096) mod 2 ^ 21) 0) as [|Nz]; [done|].
    rewrite table_path_next, M2 by done. by apply (mapped_table s1 K addr pa).
Qed.

(** A range whose tables are all there only changes entries. *)
Lemma map_range_leaf k s K pid addr pa flags s' :
  paging_ok s K -> 0 < pid < 256 -> 0 <= addr -> addr mod 4096 = 0 -> addr + 4096 * Z.of_nat k <= 2 ^ 47 ->
  0 <= pa -> pa mod 4096 = 0 -> pa + 4096 * Z.of_nat k <= 2 ^ 52 -> 0 <= flags < 4096 ->
  (forall n, 0 <= n < Z.of_nat k -> tbl (pm s) K (table_path (addr + 4096 * n)) <> None) ->
  map_range_loop k s pid addr pa flags 0 = Some s' -> leaf_edits K s s'.
Proof.
  intros H Hpid H0 Ha Hb Hp Hpa Hpb Hf. revert s addr pa H H0 Ha Hb Hp Hpa Hpb.
  induction k as [|k IH]; intros s addr pa H H0 Ha Hb Hp Hpa Hpb Hpres E; cbn [map_range_loop] in E; [injection E as <-; apply leaf_edits_refl|].
  apply bind_Some in E as (s1 & E1 & E). change (negb (0 =? 0)) with false in E. cbn [mbind option_bind] in E.
  assert (L1 : index_at addr 39 <> 511) by (apply low_index; unfold low; lia).
  destruct (map_page_edits s K 0 pid addr pa flags s1) as [_ A1]; try done; try lia.
  destruct (map_page_spec s K pid addr pa flags) as (s1' & E1' & P1 & _); try done; try lia. rewrite E1 in E1'. injection E1' as <-.
  assert (A : leaf_edits K s s1) by (apply A1; specialize (Hpres 0 ltac:(lia)); by rewrite Z.mul_0_r, Z.add_0_r in Hpres).
  apply (leaf_edits_trans _ _ _ _ A). unfold PAGE_SIZE in E. apply (IH s1 (addr + 4096) (pa + 4096)); try done; try lia; try zlia.
  intros n Hn. replace (addr + 4096 + 4096 * n) with (addr + 4096 * (n + 1)) by lia.
  rewrite (le_tables _ _ _ A) by (apply table_path_valid, low_index; unfold low; lia). apply Hpres. lia.
Qed.

(** A range whose tables are all there and whose pages are marked takes nothing. *)
Lemma map_range_mapped k s K L pid addr pa flags sa s' :
  paging_ok s K -> 0 < pid < 256 -> 0 <= addr -> addr mod 4096 = 0 -> addr + 4096 * Z.of_nat k <= 2 ^ 47 ->
  0 <= pa -> pa mod 4096 = 0 -> pa + 4096 * Z.of_nat k <= 2 ^ 52 -> 0 <= flags < 4096 -> 0 <= L ->
  (forall n, 0 <= n < Z.of_nat k -> tbl (pm s) K (table_path (addr + 4096 * n)) <> None /\ used s (addr / 4096 + n)) ->
  map_range_loop k s pid addr pa flags sa = Some s' -> edits K L 0 s s'.
Proof.
  intros H Hpid H0 Ha Hb Hp Hpa Hpb Hf HL. revert s addr pa H H0 Ha Hb Hp Hpa Hpb.
  induction k as [|k IH]; intros s addr pa H H0 Ha Hb Hp Hpa Hpb Hpres E; cbn [map_range_loop] in E; [injection E as <-; by apply edits_refl|].
  apply bind_Some in E as (s1 & E1 & E). assert (L1 : index_at addr 39 <> 511) by (apply low_index; unfold low; lia).
  destruct (map_page_edits s K L pid addr pa flags s1) as [_ A1]; try done; try lia.
  destruct (map_page_spec s K pid addr pa flags) as (s1' & E1' & P1 & _); try done; try lia. rewrite E1 in E1'. injection E1' as <-.
  destruct (Hpres 0 ltac:(lia)) as [T0 U0]. rewrite Z.mul_0_r, Z.add_0_r in T0. rewrite Z.add_0_r in U0.
  pose proof (leaf_edits_edits K L _ _ (A1 T0)) as D1.
  apply bind_Some in E as (s2 & Es2 & E). apply mark_page_some in Es2.
  assert (paging_ok s2 K /\ edits K L 0 s1 s2) as [P2 D2].
  { rewrite Es2. unfold set_in. destruct (Z.eqb_spec sa 0) as [->|Nsa]; cbn [negb]; [by split; [|apply edits_refl]|].
    split; [by apply paging_ok_mark|]. apply mark_edits; [done|done|]. right. split; [done|right].
    apply (ed_mono _ _ _ _ _ D1). by unfold PAGE_SIZE. }
  clear Es2. unfold PAGE_SIZE in E. pose proof (edits_trans K L 0 0 _ _ _ ltac:(lia) D1 D2) as D12.
  apply (edits_trans K L 0 0 s s2); [lia|exact D12|]. apply (IH s2 (addr + 4096) (pa + 4096)); try done; try lia; try zlia.
  intros n Hn. destruct (Hpres (n + 1) ltac:(lia)) as [T U].
  replace (addr + 4096 + 4096 * n) with (addr + 4096 * (n + 1)) by lia.
  replace ((addr + 4096) / 4096 + n) with (addr / 4096 + (n + 1)) by zlia. split; [|by apply (ed_mono _ _ _ _ _ D12)].
  destruct (tbl (pm s) K (table_path (addr + 4096 * (n + 1)))) as [t|] eqn:Et; [|done].
  rewrite (ed_kept _ _ _ _ _ D12 _ t); [done|apply table_path_valid, low_index; unfold low; lia|exact Et].
Qed.

Lemma unmap_range_spec k s K addr : paging_ok s K -> 0 <= addr -> addr mod 4096 = 0 -> addr + 4096 * Z.of_nat k <= 2 ^ 47 ->
  exists s', unmap_range_loop k s addr 0 = Some s' /\ paging_ok s' K /\ leaf_edits K s s' /\
    (forall n, 0 <= n < Z.of_nat k -> tbl (pm s') K (va_path (addr + 4096 * n)) = None) /\
    (forall va, low va -> va / 4096 < addr / 4096 \/ addr / 4096 + Z.of_nat k <= va / 4096 ->
      tbl (pm s') K (va_path va) = tbl (pm s) K (va_path va)).
Proof.
  intros H H0 Ha. revert s addr H H0 Ha. induction k as [|k IH]; intros s addr H H0 Ha Hb; cbn [unmap_range_loop].
  { exists s. split_and!; try done. intros; lia. }
  assert (L1 : low addr) by (unfold low; lia). pose proof (low_index addr L1) as L2.
  destruct (unmap_page_spec s K addr H L2) as (s1 & E1 & P1 & _ & KO & N1 & _). rewrite E1. cbn [mbind option_bind].
  change (negb (0 =? 0)) with false. cbn [mbind option_bind]. pose proof (unmap_page_leaf s K addr s1 H L2 E1) as A1. unfold PAGE_SIZE.
  destruct (IH s1 (addr + 4096)) as (s2 & E2 & P2 & A2 & N2 & O2); [done|lia|zlia|lia|]. rewrite E2. exists s2.
  split_and!; [done|done|by eapply leaf_edits_trans| |].
  - intros n Hn. destruct (Z.eq_dec n 0) as [->|].
    + rewrite Z.mul_0_r, Z.add_0_r, O2; [done|done|zlia].
    + replace (addr + 4096 * n) with (addr + 4096 + 4096 * (n - 1)) by lia. apply N2. lia.
  - intros va Hlow Hout. rewrite O2 by (done || zlia). apply (keeps_page _ _ _ addr); [done|done|done|lia].
Qed.

Lemma PAGE_MAP_FLAGS_ok : 0 <= PAGE_MAP_FLAGS < 4096 /\ Z.odd PAGE_MAP_FLAGS = true.
Proof. split; [|done]. vm_compute. split; congruence. Qed.

Lemma aligned_down a : 0 <= a -> a mod 4096 = 0 -> aalign_down a PAGE_SIZE = a.
Proof. intros H0 Ha. unfold PAGE_SIZE. destruct (aalign_down_spec a 4096 ltac:(lia) ltac:(lia)) as [[H1 H2] [q Hq]]. zlia. Qed.

Lemma page_end p : 0 <= p < 2 ^ 52 -> p mod 4096 = 0 -> aalign (p + PAGE_SIZE - 1) PAGE_SIZE = p + 4096.
Proof.
  intros Hp Ha. unfold PAGE_SIZE. destruct (aalign_spec (p + 4096 - 1) 4096 ltac:(lia) ltac:(lia) ltac:(lia)) as [[H1 H2] [q Hq]]. zlia.
Qed.

(** The ranges as the code calls them. *)
Lemma map_memory_range_edits s K L pid start e pa flags sa mk s' :
  paging_ok s K -> 0 < pid < 256 -> 0 <= start <= e -> e + 8192 <= 2 ^ 47 ->
  0 <= pa -> pa + (e - start) + 8192 <= 2 ^ 52 -> 0 <= flags < 4096 -> Z.odd flags = true ->
  let st := aalign_down start PAGE_SIZE in let en := aalign e PAGE_SIZE in
  4 * ((en - st) / PAGE_SIZE) <= free_pages s -> 0 <= L -> mk = 1 \/ mk = 0 /\ marks_free s L sa st en ->
  map_memory_range_with_flags s pid start e pa flags sa = Some s' ->
  edits K L (mk * ((en - st) / 4096) + 3 * (en / 2 ^ 21 - st / 2 ^ 21 + 1)) s s'.
Proof.
  intros H Hpid Hs Hcan Hpa Hpb Hf Hodd st en Hfree HL Hmk E.
  destruct (range_count start e) as (C1 & C2 & C3 & C4 & C5 & C6); [lia|lia|lia|].
  pose proof (aalign_down_spec pa 4096 ltac:(lia) ltac:(lia)) as [[D1 D2] [q D3]].
  unfold map_memory_range_with_flags in E. fold st en in C1, C2, C3, C4, C5, C6, E.
  unfold PAGE_SIZE in *. set (pd := aalign_down pa 4096) in *. set (k := Z.to_nat ((en - st) / 4096)) in *.
  assert (4096 * Z.of_nat k = en - st) as Hk by zlia. assert (pd mod 4096 = 0) as Hpd by (rewrite D3; apply Z.mod_mul; lia).
  pose proof (map_range_edits k s K L pid st pd flags sa mk false s') as D. rewrite C6 in D.
  replace (st + 4096 * ((en - st) / 4096)) with en in D by lia. apply D; try done; lia.
Qed.

(** ** Theorems *)

(** C33: A page that is mapped is still handed out: map_memory_range marks the
    frame with the number of the virtual page, not the frame that is mapped.
    When the frame is the lowest free one, the allocator's next answer is this
    very frame, which the tables then map a second time or use as a table; the
    memory of processes is mapped this way.  (For virtual pages below 4 GiB,
    which have an entry in the allocator's array, and a page whose three upper
    tables are there.) *)
Theorem mapped_frame_handed_out s K pid pid' va pa :
  paging_ok s K -> 0 < pid < 256 -> 0 <= va < 2 ^ 32 -> va mod 4096 = 0 -> 0 <= pa < 2 ^ 51 -> pa mod 4096 = 0 ->
  4 <= free_pages s -> tbl (pm s) K (table_path va) <> None -> va <> pa -> ~ used s (pa / 4096) ->
  (forall x, 0 <= x < pa / 4096 -> used s x) -> pa / 4096 < num_pages (allocator s) ->
  exists s', map_memory_range s pid va (va + PAGE_SIZE - 1) pa = Some s' /\ translate (pm s') K va = Some pa /\
    (allocate_page s' pid').2 = pa.
Proof.
  intros H Hpid Hva Hal Hpa Hpal Hfree Ht Hne Hnu Hlow Hnum. destruct PAGE_MAP_FLAGS_ok as [F1 F2].
  pose proof (aligned_down va ltac:(lia) Hal) as Est. pose proof (page_end va ltac:(lia) Hal) as Een.
  assert (Q : (va + 4096 - va) / PAGE_SIZE = 1) by (unfold PAGE_SIZE; replace (va + 4096 - va) with 4096 by lia; done).
  destruct (map_memory_range_spec s K pid va (va + PAGE_SIZE - 1) pa PAGE_MAP_FLAGS 1) as (s' & E & _ & _ & _ & T & _);
    rewrite ?Est, ?Een, ?Q in *; try done; try (unfold PAGE_SIZE; lia); [right; zlia|].
  exists s'. split; [done|]. split.
  { rewrite T by (unfold low; lia). rewrite (aligned_down pa) by lia. f_equal. lia. }
  unfold map_memory_range_with_flags in E. rewrite Est, Een, Q, (aligned_down pa) in E by lia. cbn [Z.to_nat Pos.to_nat Pos.iter_op map_range_loop] in E.
  apply bind_Some in E as (s1 & E1 & E). apply bind_Some in E as (s2 & Es2 & E). apply mark_page_some in Es2.
  injection E as <-. subst s2. unfold set_in. cbn [Z.eqb negb].
  destruct (map_page_edits s K 0 pid va pa PAGE_MAP_FLAGS s1) as [_ A]; try done; [apply low_index; unfold low; lia|lia|].
  pose proof (le_alloc _ _ _ (A Ht)) as Ea. unfold allocate_page. cbn [allocator set_bitmap bitmap num_pages]. rewrite Ea.
  assert (Hz : mread (mwrite (bitmap (allocator s)) (va / PAGE_SIZE) pid) (pa / 4096) = 0).
  { unfold PAGE_SIZE. rewrite mread_mwrite_ne by zlia. unfold used in Hnu. destruct (Z.eq_dec (mread (bitmap (allocator s)) (pa / 4096)) 0); done. }
  destruct (allocate_loop_spec (Z.to_nat (num_pages (allocator s))) (mwrite (bitmap (allocator s)) (va / PAGE_SIZE) pid) pid' 0)
    as [(j & Hj & Hf & Hm & ->)|[Hn _]]; [|exfalso; apply (nfree_none _ _ _ (pa / 4096) Hn); [zlia|done]].
  cbn [snd]. unfold PAGE_SIZE in *. assert (j = pa / 4096) as ->; [|zlia]. destruct (Z.lt_trichotomy j (pa / 4096)) as [Hlt|[?|Hgt]]; [|done|].
  - exfalso. by apply (used_mark _ (va / 4096) j pid Hpid (Hlow j ltac:(lia))).
  - exfalso. apply (Hm (pa / 4096)); [zlia|done].
Qed.

(** ** Witnesses *)

(** One page mapped, which took the frames 1 to 3 for its tables. *)
Definition mapped_state : mach := from_option id demo_state (map_page demo_state 1 0x2000000 0x5000 PAGE_MAP_FLAGS).

Lemma mapped_state_ok : paging_ok mapped_state PML4_KERNEL.
Proof.
  destruct PAGE_MAP_FLAGS_ok as [F1 F2].
  destruct (map_page_spec demo_state PML4_KERNEL 1 0x2000000 0x5000 PAGE_MAP_FLAGS demo_ok) as (s & E & P & _);
    [lia|vm_compute; discriminate|lia|reflexivity|exact F1|].
  unfold mapped_state. rewrite E. exact P.
Qed.

Lemma mapped_frame_handed_out_witness : exists s',
  map_memory_range mapped_state 1 0x2001000 (0x2001000 + PAGE_SIZE - 1) 0x4000 = Some s' /\
  translate (pm s') PML4_KERNEL 0x2001000 = Some 0x4000 /\ (allocate_page s' 2).2 = 0x4000.
Proof.
  apply (mapped_frame_handed_out mapped_state PML4_KERNEL 1 2 0x2001000 0x4000);
    [exact mapped_state_ok|lia|lia|done|lia|done|by vm_compute|by vm_compute|done|by vm_compute| |by vm_compute].
  intros x Hx. change (0x4000 / 4096) with 4 in Hx. assert (x = 0 \/ x = 1 \/ x = 2 \/ x = 3) as [->|[->|[->| ->]]] by lia; by vm_compute.
Defined.
