(* ===== verification/Process.v ===== *)
(** * Process: process control blocks and the scheduler

    kernel/process/process.c and sched.c.  PCBs and list nodes are typed objects
    in stores keyed by their address; dereferencing an address that holds none
    is [None].  The addresses malloc returns are arguments of alloc_proc.  Shift
    counts of 32 and more on an int follow the processor, which takes them
    modulo 32. *)

From S2P Require Import Prelude Mem CStdlib Paging.

(** ** process.h, mlayout.h *)

Definition MAX_NUM_OF_PROCESS : Z := 256.
Definition KERNEL_PID : Z := 1.
Definition PROC_BIN_ADDR : Z := 0x4000000.
Definition USER_LOAD_ADDR : Z := 0x4000000.
Definition KERNEL_STACK_TOP : Z := KERNEL_VBASE - 0x10.
Definition PROC_SLOT_SIZE : Z := PAGE_SIZE * 0x20.

(** [BITMASK(n)] is an int, converted to uint64_t where it meets the bitmap. *)
Definition BITMASK (n : Z) : Z := u64 (s32 (Z.shiftl 1 (n mod 32))).

(** Unparenthesised macros: [PROC_MEM_SIZE] is [PAGE_SIZE * 0x1000],
    [PROC_ALLOC_START] is a sum, [PROC_STACK_SIZE] is [0x10 * PAGE_SIZE]. *)
Definition PROC_WINDOW_START : Z := PROC_BIN_ADDR - 0x10 * PAGE_SIZE.
Definition PROC_WINDOW_END : Z := PROC_BIN_ADDR - 0x10 * PAGE_SIZE + PAGE_SIZE * 0x1000 - 1.
Definition PROC_KERNEL_ADDR : Z := PAGE_SIZE * 0x1000 / 2.

(** ** pids and process memory *)

(** The loop of allocate_pid from [i], [k] candidates left. *)
Fixpoint allocate_pid_loop (k : nat) (process_pid_bitmap i : Z) : Z * Z :=
  match k with
  | O => (process_pid_bitmap, 0)
  | S k =>
      if (Z.land process_pid_bitmap (BITMASK i) =? 0) && negb (i =? 0) && negb (i =? KERNEL_PID)
      then (Z.lor process_pid_bitmap (BITMASK i), i)
      else allocate_pid_loop k process_pid_bitmap (i + 1)
  end.

Definition allocate_pid (process_pid_bitmap : Z) : Z * Z :=
  allocate_pid_loop (Z.to_nat MAX_NUM_OF_PROCESS) process_pid_bitmap 0.

(** [~] on the int, then the conversion. *)
Definition deallocate_pid (process_pid_bitmap pid : Z) : Z :=
  Z.land process_pid_bitmap (2 ^ 64 - 1 - BITMASK pid).

Fixpoint allocate_proc_mem_loop (k : nat) (process_mem_bitmap i : Z) : Z * Z :=
  match k with
  | O => (process_mem_bitmap, 0)
  | S k =>
      if Z.land process_mem_bitmap (BITMASK i) =? 0
      then (Z.lor process_mem_bitmap (BITMASK i),
            HARDWARE_MEM_START + KERNEL_HEAP_SIZE_PAGES * PAGE_SIZE + i * PAGE_SIZE * 0x1000)
      else allocate_proc_mem_loop k process_mem_bitmap (i + 1)
  end.

Definition allocate_proc_mem (process_mem_bitmap : Z) : Z * Z :=
  allocate_proc_mem_loop (Z.to_nat MAX_NUM_OF_PROCESS) process_mem_bitmap 0.

(** The macros expand to [(addr - H + K * PAGE_SIZE) / PAGE_SIZE * 0x1000]. *)
Definition deallocate_proc_mem (process_mem_bitmap addr : Z) : Z :=
  let n := u64 (u64 (addr - HARDWARE_MEM_START + KERNEL_HEAP_SIZE_PAGES * PAGE_SIZE) / PAGE_SIZE * 0x1000) in
  Z.land process_mem_bitmap (2 ^ 64 - 1 - BITMASK n).

(** ** Control blocks *)

Inductive proc_state := READY | WAITING | ZOMBIE.

#[export] Instance proc_state_eq_dec : EqDecision proc_state.
Proof. solve_decision. Defined.

(** The pushed registers of isr.h. *)
Record registers := Registers {
  r_cr2 : Z; r_r15 : Z; r_r14 : Z; r_r13 : Z; r_r12 : Z; r_rbp : Z; r_rbx : Z;
  r_r11 : Z; r_r10 : Z; r_r9 : Z; r_r8 : Z; r_rax : Z; r_rcx : Z; r_rdx : Z; r_rsi : Z; r_rdi : Z;
  r_irq_number : Z; r_error_code : Z;
  r_rip : Z; r_cs : Z; r_eflags : Z; r_rsp : Z; r_ss : Z;
}.

Record cpu_state := CpuState {
  c_r15 : Z; c_r14 : Z; c_r13 : Z; c_r12 : Z; c_rbp : Z; c_rbx : Z;
  c_r11 : Z; c_r10 : Z; c_r9 : Z; c_r8 : Z; c_rax : Z; c_rcx : Z; c_rdx : Z; c_rsi : Z; c_rdi : Z;
  c_eflags : Z; c_rip : Z; c_rsp : Z;
}.

Definition zero_cpu_state : cpu_state := CpuState 0 0 0 0 0 0 0 0 0 0 0 0 0 0 0 0 0 0.

Record PCB := Pcb {
  ppid : Z;
  pid : Z;
  state : proc_state;
  real_mem_addr : Z;
  pml4 : Z;               (* ctx.pml4 *)
  old_pml4 : Z;           (* ctx.old_pml4 *)
  stack : Z;
  heap : Z;
  priority : Z;
  cpu_context : cpu_state;
  list_node : Z;
}.

Definition set_cpu_context (p : PCB) (c : cpu_state) : PCB :=
  Pcb (ppid p) (pid p) (state p) (real_mem_addr p) (pml4 p) (old_pml4 p) (stack p) (heap p)
    (priority p) c (list_node p).

(** A linked list node, data and next. *)
Record lnode := LNode { ndata : Z; nnext : Z }.

Record kstate := KState {
  km : mach;
  process_pid_bitmap : Z;
  process_mem_bitmap : Z;
  pcbs : gmap Z PCB;
  nodes : gmap Z lnode;
  pcb_list : Z;
  current_pcb : Z;
  pcb_to_run : Z;
  last_context_switch_time : Z;
  skipped : bool;
  sched_triggered : bool;
}.

Definition set_km (k : kstate) (s : mach) : kstate :=
  KState s (process_pid_bitmap k) (process_mem_bitmap k) (pcbs k) (nodes k) (pcb_list k)
    (current_pcb k) (pcb_to_run k) (last_context_switch_time k) (skipped k) (sched_triggered k).

Definition set_current (k : kstate) (p : Z) : kstate :=
  KState (km k) (process_pid_bitmap k) (process_mem_bitmap k) (pcbs k) (nodes k) (pcb_list k)
    p (pcb_to_run k) (last_context_switch_time k) (skipped k) (sched_triggered k).

(** kpcb's pid and PML4. *)
Definition kpml4 : Z := PML4_KERNEL.

(** The find_pcb_by_pid walk of page.c. *)
Fixpoint find_pcb_loop (fuel : nat) (k : kstate) (curr pidv : Z) : option Z :=
  if curr =? 0 then Some 0
  else
    n ← nodes k !! curr;
    p ← pcbs k !! ndata n;
    if pid p =? pidv then Some (ndata n)
    else match fuel with O => None | S fuel => find_pcb_loop fuel k (nnext n) pidv end.

Definition find_pcb_by_pid (fuel : nat) (k : kstate) (pidv : Z) : option Z :=
  find_pcb_loop fuel k (pcb_list k) pidv.

(** ** alloc_proc *)

(** [pcb_ptr] and [node_ptr] are the addresses malloc returns. *)
Definition alloc_proc (k : kstate) (pcb_ptr node_ptr : Z) : option (kstate * Z) :=
  let s := set_ready (cli (km k)) false in
  let '(pidbm, newpid) := allocate_pid (process_pid_bitmap k) in
  let '(membm, mem_addr) := allocate_proc_mem (process_mem_bitmap k) in
  let '(s, p4) := allocate_page s newpid in
  s ← map_memory_range s KERNEL_PID p4 (p4 + PAGE_SIZE - 1) p4;
  s ← map_memory_range s KERNEL_PID PROC_WINDOW_START PROC_WINDOW_END mem_addr;
  s ← init_recursive_paging s p4;
  s ← vst64 s (kpml4 + 8 * PML4_RECURSIVE_ENTRY_NUM) (Z.lor p4 PAGE_MAP_FLAGS);
  let s := flush_tlb s in
  s ← map_memory_range s newpid p4 (p4 + PAGE_SIZE - 1) p4;
  s ← map_memory_range s newpid PROC_WINDOW_START PROC_WINDOW_END mem_addr;
  s ← map_memory_range s newpid PROC_KERNEL_ADDR PAGE_FRAME_ALLOCATOR_END (KERNEL_VBASE - KERNEL_LOAD_ADDR);
  s ← map_memory_range s newpid (PAGE_FRAME_ALLOCATOR_END + 1) (PAGE_FRAME_ALLOCATOR_END + PROC_SLOT_SIZE) 0;
  s ← map_memory_range s newpid KERNEL_HEAP_START (KERNEL_HEAP_START + KERNEL_HEAP_SIZE_PAGES * 512 - 1)
        KERNEL_HEAP_START;
  s ← vst64 s (kpml4 + 8 * PML4_RECURSIVE_ENTRY_NUM) (Z.lor kpml4 PAGE_MAP_FLAGS);
  let s := flush_tlb s in
  s ← unmap_memory_range s PROC_WINDOW_START PROC_WINDOW_END 0;
  (* append_node puts the new node in front; list_node is the new head *)
  let ctx := CpuState 0 0 0 0 0 0 0 0 0 0 0 0 0 0 0 0 USER_LOAD_ADDR (USER_LOAD_ADDR - 0x16) in
  let pcb := Pcb 0 newpid WAITING mem_addr p4 kpml4 (USER_LOAD_ADDR - 0x16) KERNEL_HEAP_START 0 ctx node_ptr in
  let s := sti (set_ready s true) in
  Some (KState s pidbm membm (<[pcb_ptr := pcb]> (pcbs k))
          (<[node_ptr := LNode pcb_ptr (pcb_list k)]> (nodes k)) node_ptr
          (current_pcb k) (pcb_to_run k) (last_context_switch_time k) (skipped k) (sched_triggered k),
        pcb_ptr).

(** run_proc up to the jump to user mode, which restores the returned context. *)
Definition run_proc (k : kstate) (pcb : Z) : option (kstate * cpu_state) :=
  p ← pcbs k !! pcb;
  let k := set_current k pcb in
  s ← map_memory_range_with_flags (km k) KERNEL_PID PROC_WINDOW_START PROC_WINDOW_END (real_mem_addr p)
        PAGE_MAP_FLAGS 0;
  let s := set_pml4_address (flush_tlb s) (pml4 p) in
  Some (set_km k s, cpu_context p).

(** ** sched.c *)

Definition PROCESS_RUN_TIME : Z := 50.
Definition KERNEL_CS_SELECTOR_OFFSET_GDT : Z := 0x08.

Definition to_cpu_state_from_syscall (r : registers) : cpu_state :=
  CpuState (r_r15 r) (r_r14 r) (r_r13 r) (r_r12 r) (r_rbp r) (r_rbx r)
    (r_r11 r) (r_r10 r) (r_r9 r) (r_r8 r) (r_rax r) (r_rcx r) (r_rdx r) (r_rsi r) (r_rdi r)
    (r_eflags r) (r_rip r) (r_rsp r).

Definition run_next_proc (k : kstate) : option (kstate * cpu_state) :=
  let k := set_km k (cli (km k)) in run_proc k (pcb_to_run k).

(** The redirected return frame; [run_next] is the address of run_next_proc and
    [kstack] is kpcb.stack. *)
Definition redirect (r : registers) (run_next kstack : Z) : registers :=
  Registers (r_cr2 r) (r_r15 r) (r_r14 r) (r_r13 r) (r_r12 r) (r_rbp r) (r_rbx r)
    (r_r11 r) (r_r10 r) (r_r9 r) (r_r8 r) (r_rax r) (r_rcx r) (r_rdx r) (r_rsi r) (r_rdi r)
    (r_irq_number r) (r_error_code r)
    run_next KERNEL_CS_SELECTOR_OFFSET_GDT (Z.land (r_eflags r) (2 ^ 64 - 1 - Z.shiftl 1 9)) kstack 0x10.

(** Dereferencing [current_pcb->list_node->next] where the code does. *)
Definition next_pcb (k : kstate) : option Z :=
  let first := (n ← nodes k !! pcb_list k; Some (ndata n)) in
  if current_pcb k =? 0 then first
  else
    c ← pcbs k !! current_pcb k;
    if list_node c =? 0 then first
    else
      n ← nodes k !! list_node c;
      if nnext n =? 0 then first
      else n' ← nodes k !! nnext n; Some (ndata n').

Definition handle_sched_on_pit_tick (k : kstate) (regs : registers) (pit_time_ms run_next kstack : Z)
    : option (kstate * registers) :=
  if Z.land (r_cs regs) 0x3 =? 0 then Some (k, regs)
  else if (pcb_list k =? 0) ||
          ((u64 (pit_time_ms - last_context_switch_time k) <? PROCESS_RUN_TIME) && negb (skipped k))
  then Some (k, regs)
  else
    store ← (if negb (current_pcb k =? 0)
             then c ← pcbs k !! current_pcb k;
                  Some (<[current_pcb k := set_cpu_context c (to_cpu_state_from_syscall regs)]> (pcbs k))
             else Some (pcbs k));
    let k := KState (km k) (process_pid_bitmap k) (process_mem_bitmap k) store (nodes k) (pcb_list k)
               (current_pcb k) 0 pit_time_ms (skipped k) (sched_triggered k) in
    nx ← next_pcb k;
    p ← pcbs k !! nx;
    let go := negb (pid p =? 0) && negb (pid p =? KERNEL_PID) && bool_decide (state p = READY) in
    let k' := KState (km k) (process_pid_bitmap k) (process_mem_bitmap k) (pcbs k) (nodes k) (pcb_list k)
               (current_pcb k) nx pit_time_ms (negb go) go in
    Some (k', if go then redirect regs run_next kstack else regs).

(** ** The pid bitmap *)

(** Pids share a slot of the bitmap modulo 32. *)
Definition slot_used (bm n : Z) : bool := Z.testbit bm (n mod 32).

(** What the code keeps: 64 bits, the top 33 of them equal, since the mask of
    slot 31 is sign-extended. *)
Definition pid_wf (bm : Z) : Prop :=
  0 <= bm < 2 ^ 64 /\ forall j, 31 <= j < 64 -> Z.testbit bm j = Z.testbit bm 31.

Lemma BITMASK_spec n : BITMASK n = if n mod 32 =? 31 then 2 ^ 64 - 2 ^ 31 else 2 ^ (n mod 32).
Proof.
  unfold BITMASK. pose proof (Z.mod_pos_bound n 32 ltac:(lia)) as Hr. rewrite Z.shiftl_1_l.
  destruct (Z.eqb_spec (n mod 32) 31) as [->|Hne]; [reflexivity|].
  assert (0 < 2 ^ (n mod 32) <= 2 ^ 30) by (split; [apply Z.pow_pos_nonneg; lia|apply Z.pow_le_mono_r; lia]).
  rewrite s32_small, u64_small; lia.
Qed.

Lemma BITMASK_bits n j : 0 <= j < 64 ->
  Z.testbit (BITMASK n) j = if n mod 32 =? 31 then 31 <=? j else j =? n mod 32.
Proof.
  intros Hj. rewrite BITMASK_spec. pose proof (Z.mod_pos_bound n 32 ltac:(lia)).
  destruct (n mod 32 =? 31).
  - change (2 ^ 64 - 2 ^ 31) with (Z.shiftl (Z.ones 33) 31). destruct (Z.leb_spec 31 j).
    + rewrite Z.shiftl_spec_high, Z.ones_spec_low by lia. done.
    + by rewrite Z.shiftl_spec_low by lia.
  - rewrite Z.pow2_bits_eqb by lia. apply Z.eqb_sym.
Qed.

Lemma BITMASK_range n : 0 <= BITMASK n < 2 ^ 64.
Proof. unfold BITMASK. apply u64_range. Qed.

(** The mask meets the bitmap exactly when the slot is used. *)
Lemma slot_test bm n : pid_wf bm -> (Z.land bm (BITMASK n) =? 0) = negb (slot_used bm n).
Proof.
  intros [Hr Hw]. unfold slot_used. pose proof (Z.mod_pos_bound n 32 ltac:(lia)) as Hm.
  assert (Z.testbit (BITMASK n) (n mod 32) = true) as Hb.
  { rewrite BITMASK_bits by lia. destruct (Z.eqb_spec (n mod 32) 31) as [->|]; [done|apply Z.eqb_refl]. }
  destruct (Z.testbit bm (n mod 32)) eqn:E; simpl.
  - apply Z.eqb_neq. intros H0. assert (Z.testbit (Z.land bm (BITMASK n)) (n mod 32) = false) as H1 by (by rewrite H0, Z.bits_0).
    rewrite Z.land_spec, E, Hb in H1. done.
  - apply Z.eqb_eq, Z.bits_inj'. intros j Hj. rewrite Z.land_spec, Z.bits_0.
    destruct (Z.lt_ge_cases j 64) as [Hlt|Hge]; [|by rewrite (testbit_high 64)].
    rewrite BITMASK_bits by lia. destruct (Z.eqb_spec (n mod 32) 31) as [E31|].
    + destruct (Z.leb_spec 31 j); [|apply andb_false_r]. rewrite Hw by lia. by rewrite <- E31, E.
    + destruct (Z.eqb_spec j (n mod 32)) as [->|]; [by rewrite E|apply andb_false_r].
Qed.

Lemma slot_bit n k : Z.testbit (BITMASK n) (k mod 32) = (k mod 32 =? n mod 32).
Proof.
  pose proof (Z.mod_pos_bound n 32 ltac:(lia)). pose proof (Z.mod_pos_bound k 32 ltac:(lia)).
  rewrite BITMASK_bits by lia. destruct (Z.eqb_spec (n mod 32) 31) as [->|]; [|done].
  destruct (Z.leb_spec 31 (k mod 32)), (Z.eqb_spec (k mod 32) 31); lia || done.
Qed.

Lemma pid_wf_lor bm n : pid_wf bm -> pid_wf (Z.lor bm (BITMASK n)).
Proof.
  intros [Hr Hw]. split; [apply lor_below; [lia|done|apply BITMASK_range]|].
  intros j Hj. rewrite !Z.lor_spec, Hw, !BITMASK_bits by lia.
  destruct (Z.eqb_spec (n mod 32) 31); [destruct (Z.leb_spec 31 j); [done|lia]|].
  pose proof (Z.mod_pos_bound n 32 ltac:(lia)).
  destruct (Z.eqb_spec j (n mod 32)), (Z.eqb_spec 31 (n mod 32)); lia || done.
Qed.

Lemma lnot64_bits x j : 0 <= x < 2 ^ 64 -> 0 <= j < 64 -> Z.testbit (2 ^ 64 - 1 - x) j = negb (Z.testbit x j).
Proof.
  intros Hx Hj. replace (2 ^ 64 - 1 - x) with (Z.lnot x mod 2 ^ 64).
  - rewrite Z.mod_pow2_bits_low by lia. apply Z.lnot_spec; lia.
  - unfold Z.lnot. symmetry. apply Z.mod_unique with (-1); lia.
Qed.

Lemma pid_wf_dealloc bm n : pid_wf bm -> pid_wf (deallocate_pid bm n).
Proof.
  intros [Hr Hw]. pose proof (BITMASK_range n). unfold deallocate_pid.
  split; [apply land_below; lia|]. intros j Hj.
  rewrite !Z.land_spec, Hw, !lnot64_bits, !BITMASK_bits by lia.
  destruct (Z.eqb_spec (n mod 32) 31); [destruct (Z.leb_spec 31 j); [done|lia]|].
  pose proof (Z.mod_pos_bound n 32 ltac:(lia)).
  destruct (Z.eqb_spec j (n mod 32)), (Z.eqb_spec 31 (n mod 32)); lia || done.
Qed.

Lemma slot_used_lor bm n k : slot_used (Z.lor bm (BITMASK n)) k = slot_used bm k || (k mod 32 =? n mod 32).
Proof. unfold slot_used. by rewrite Z.lor_spec, slot_bit. Qed.

Lemma slot_used_dealloc bm n k :
  slot_used (deallocate_pid bm n) k = slot_used bm k && negb (k mod 32 =? n mod 32).
Proof.
  unfold slot_used, deallocate_pid. pose proof (Z.mod_pos_bound k 32 ltac:(lia)).
  by rewrite Z.land_spec, lnot64_bits, slot_bit by (apply BITMASK_range || lia).
Qed.

(** The loop finds the first pid whose slot is free. *)
Lemma allocate_pid_loop_spec k bm i : pid_wf bm -> 0 <= i ->
  (exists p, i <= p < i + Z.of_nat k /\ p <> 0 /\ p <> 1 /\ slot_used bm p = false /\
    (forall q, i <= q < p -> q = 0 \/ q = 1 \/ slot_used bm q = true) /\
    allocate_pid_loop k bm i = (Z.lor bm (BITMASK p), p)) \/
  ((forall q, i <= q < i + Z.of_nat k -> q = 0 \/ q = 1 \/ slot_used bm q = true) /\
   allocate_pid_loop k bm i = (bm, 0)).
Proof.
  intros Hw. revert i. induction k as [|k IH]; intros i Hi; cbn [allocate_pid_loop].
  - right. split; [lia|done].
  - rewrite slot_test by done. unfold KERNEL_PID.
    destruct (negb (slot_used bm i) && negb (i =? 0) && negb (i =? 1)) eqn:E.
    + rewrite !andb_true_iff, !negb_true_iff, !Z.eqb_neq in E. destruct E as [[E1 E2] E3].
      left. exists i. split_and!; try done; lia.
    + assert (i = 0 \/ i = 1 \/ slot_used bm i = true) as Hc.
      { rewrite !andb_false_iff, !negb_false_iff, !Z.eqb_eq in E. tauto. }
      destruct (IH (i + 1)) as [(p & H1 & H2 & H3 & H4 & H5 & H6)|[H1 H2]]; [lia| |].
      * left. exists p. split_and!; try done; try lia. intros q Hq.
        destruct (Z.eq_dec q i) as [->|]; [done|]. apply H5. lia.
      * right. split; [|done]. intros q Hq. destruct (Z.eq_dec q i) as [->|]; [done|]. apply H1. lia.
Qed.

(** Every slot belongs to a pid from 2 to 33. *)
Lemma allocate_pid_spec bm : pid_wf bm ->
  (exists p, 2 <= p <= 33 /\ slot_used bm p = false /\ (forall q, 2 <= q < p -> slot_used bm q = true) /\
    allocate_pid bm = (Z.lor bm (BITMASK p), p)) \/
  ((forall q, 2 <= q <= 33 -> slot_used bm q = true) /\ allocate_pid bm = (bm, 0)).
Proof.
  intros Hw. unfold allocate_pid.
  destruct (allocate_pid_loop_spec (Z.to_nat MAX_NUM_OF_PROCESS) bm 0 Hw ltac:(lia))
    as [(p & H1 & H2 & H3 & H4 & H5 & H6)|[H1 H2]].
  - left. exists p. split_and!; try done; try lia; [|intros q Hq; destruct (H5 q) as [?|[?|?]]; lia || done].
    destruct (Z.le_gt_cases p 33); [done|exfalso].
    assert (exists q, 2 <= q <= 33 /\ q mod 32 = p mod 32) as (q & Hq & E).
    { exists (if p mod 32 <? 2 then p mod 32 + 32 else p mod 32).
      destruct (Z.ltb_spec (p mod 32) 2); zlia. }
    assert (slot_used bm q = true) as Hu by (destruct (H5 q) as [?|[?|?]]; try lia; done).
    unfold slot_used in *. rewrite E, H4 in Hu. done.
  - right. split; [|done]. intros q Hq.
    destruct (H1 q) as [?|[?|?]]; try lia; try done. change (Z.of_nat _) with 256. lia.
Qed.

(** The states of the pid allocator: the bitmap and the pids handed out and not
    yet given back. *)
Inductive pids_reach : Z -> list Z -> Prop :=
  | pr_init : pids_reach 0 []
  | pr_alloc bm live bm' p :
      pids_reach bm live -> allocate_pid bm = (bm', p) -> p <> 0 -> pids_reach bm' (p :: live)
  | pr_free bm live p :
      pids_reach bm live -> p ∈ live -> pids_reach (deallocate_pid bm p) (filter (fun q => q <> p) live).

Record pids_ok (bm : Z) (live : list Z) : Prop := PidsOk {
  pk_wf : pid_wf bm;
  pk_range : Forall (fun p => 2 <= p <= 33) live;
  pk_nodup : NoDup live;
  pk_used : forall q, 2 <= q <= 33 -> slot_used bm q = true <-> q ∈ live;
}.

Lemma slot_inj p q : 2 <= p <= 33 -> 2 <= q <= 33 -> p mod 32 = q mod 32 -> p = q.
Proof. intros. zlia. Qed.

Lemma pids_inv bm live : pids_reach bm live -> pids_ok bm live.
Proof.
  induction 1 as [|bm live bm' p _ [Hw Hr Hn Hu] Ha Hp|bm live p _ [Hw Hr Hn Hu] Hin].
  - split; [|constructor|constructor|].
    + split; [lia|]. intros j Hj. by rewrite !Z.bits_0.
    + intros q Hq. unfold slot_used. rewrite Z.bits_0. split; [done|by intros []%elem_of_nil].
  - destruct (allocate_pid_spec bm Hw) as [(p' & H1 & H2 & H3 & H4)|[_ H4]]; rewrite H4 in Ha;
      injection Ha as <- <-; [|done].
    split; [by apply pid_wf_lor|by constructor| |].
    + constructor; [|done]. rewrite <- Hu by done. by rewrite H2.
    + intros q Hq. rewrite slot_used_lor, orb_true_iff, Hu, elem_of_cons, Z.eqb_eq by done.
      split; [intros [?|E]; [by right|left; by apply slot_inj]|intros [->|?]; auto].
  - split; [by apply pid_wf_dealloc| | |].
    + apply list.Forall_forall. intros q Hq. apply list_elem_of_filter in Hq as [_ Hq].
      rewrite list.Forall_forall in Hr. by apply Hr.
    + by apply list.NoDup_filter.
    + intros q Hq. rewrite slot_used_dealloc, andb_true_iff, Hu, negb_true_iff, Z.eqb_neq, list_elem_of_filter by done.
      rewrite list.Forall_forall in Hr. specialize (Hr p Hin).
      split; intros [A B]; split; try done; [intros ->|intros E; apply A]; [done|by apply slot_inj].
Qed.

(** C36: in every state the pid allocator can reach, the live pids are pairwise
    distinct and lie between 2 and 33, so never the kernel's pid 1 nor 0; and
    allocation fails (returns 0) exactly when 32 of them are live, although
    MAX_NUM_OF_PROCESS is 256. *)
Theorem pids_distinct bm live :
  pids_reach bm live ->
  NoDup live /\ Forall (fun p => 2 <= p <= 33) live /\
  ((allocate_pid bm).2 = 0 <-> length live = 32%nat).
Proof.
  intros H. destruct (pids_inv bm live H) as [Hw Hr Hn Hu]. split_and!; [done|done|].
  assert (live ⊆+ seqZ 2 32) as Hsub.
  { apply NoDup_submseteq; [done|]. intros q Hq. rewrite list.Forall_forall in Hr. specialize (Hr q Hq).
    apply elem_of_seqZ. lia. }
  destruct (allocate_pid_spec bm Hw) as [(p & H1 & H2 & H3 & ->)|[Hall ->]]; simpl; split; try done; try lia.
  - intros Hlen. exfalso. assert (live ≡ₚ seqZ 2 32) as Hperm.
    { apply submseteq_length_Permutation; [done|]. rewrite length_seqZ. lia. }
    assert (p ∈ live) as Hin by (rewrite Hperm; apply elem_of_seqZ; lia).
    apply Hu in Hin; [|done]. congruence.
  - intros _. assert (seqZ 2 32 ⊆+ live) as Hsup.
    { apply NoDup_submseteq; [apply NoDup_seqZ|]. intros q Hq. apply elem_of_seqZ in Hq.
      apply Hu; [lia|]. apply Hall. lia. }
    apply submseteq_length in Hsub, Hsup. rewrite length_seqZ in *. lia.
Qed.

(** Fact: deallocate_proc_mem frees slot 0 whatever block it is given: the
    unparenthesised macros multiply where they mean to divide, so the shift
    count is a multiple of 4096. *)
Theorem deallocate_proc_mem_slot0 bm addr :
  deallocate_proc_mem bm addr = Z.land bm (2 ^ 64 - 2).
Proof.
  unfold deallocate_proc_mem. f_equal. rewrite BITMASK_spec.
  set (a := u64 (addr - HARDWARE_MEM_START + KERNEL_HEAP_SIZE_PAGES * PAGE_SIZE) / PAGE_SIZE).
  assert (u64 (a * 0x1000) mod 32 = 0) as ->; [unfold u64; zlia|]. reflexivity.
Qed.

(** ** The scheduler *)

(** The run queue in the stores: nodes and the PCBs they hold, from the head. *)
Fixpoint chain (ns : gmap Z lnode) (head : Z) (l : list (Z * Z)) : Prop :=
  match l with
  | [] => head = 0
  | (n, p) :: l => head = n /\ n <> 0 /\ exists nx, ns !! n = Some (LNode p nx) /\ chain ns nx l
  end.

Record sched_ok (k : kstate) (l : list (Z * Z)) : Prop := SchedOk {
  so_chain : chain (nodes k) (pcb_list k) l;
  so_pcbs : forall n p, (n, p) ∈ l -> p <> 0 /\ exists c, pcbs k !! p = Some c /\ list_node c = n;
}.

(** A process the scheduler may switch to. *)
Definition runnable (k : kstate) (p : Z) : Prop :=
  exists c, pcbs k !! p = Some c /\ pid c <> 0 /\ pid c <> KERNEL_PID /\ state c = READY.

Lemma chain_lookup ns head l i n p :
  chain ns head l -> l !! i = Some (n, p) ->
  n <> 0 /\ exists nx, ns !! n = Some (LNode p nx) /\
    match l !! S i with Some (n', _) => nx = n' | None => nx = 0 end.
Proof.
  revert head i. induction l as [|[m q] l IH]; intros head [|i] Hc Hi; simplify_eq/=.
  - destruct Hc as (-> & Hn & nx & Hns & Hc). split; [done|]. exists nx. split; [done|].
    destruct l as [|[m q] l]; simpl in *; [done|]. by destruct Hc as [-> _].
  - destruct Hc as (-> & Hn & nx & Hns & Hc). by apply (IH nx).
Qed.

(** The cyclic successor. *)
Lemma next_pcb_cyclic k l i n p :
  sched_ok k l -> l !! i = Some (n, p) -> current_pcb k = p ->
  exists n' p', l !! (S i mod length l)%nat = Some (n', p') /\ next_pcb k = Some p'.
Proof.
  intros [Hc Hp] Hi Hcur. pose proof (lookup_lt_Some _ _ _ Hi) as Hlt.
  destruct (Hp n p) as [Hp0 (c & Hcp & Hcn)]; [by eapply list_elem_of_lookup_2|].
  destruct (chain_lookup _ _ _ _ _ _ Hc Hi) as (Hn & nx & Hns & Hnx).
  assert (exists n0 p0, l !! 0%nat = Some (n0, p0) /\
    (n ← nodes k !! pcb_list k; Some (ndata n)) = Some p0) as (n0 & p0 & H0 & Hfirst).
  { destruct l as [|[n0 p0] l]; [simpl in Hlt; lia|]. exists n0, p0. split; [done|].
    simpl in Hc. destruct Hc as (-> & _ & nx0 & -> & _). done. }
  unfold next_pcb. rewrite Hcur. destruct (Z.eqb_spec p 0); [done|].
  rewrite Hcp. cbn [mbind option_bind]. rewrite Hcn. destruct (Z.eqb_spec n 0); [done|].
  rewrite Hns. cbn [mbind option_bind nnext].
  destruct (l !! S i) as [[n' p']|] eqn:HS; subst nx.
  - destruct (chain_lookup _ _ _ _ _ _ Hc HS) as (Hn' & nx' & Hns' & _).
    destruct (Z.eqb_spec n' 0); [done|]. rewrite Hns'. exists n', p'. split; [|done].
    rewrite Nat.mod_small; [done|]. by eapply lookup_lt_Some.
  - rewrite Z.eqb_refl. exists n0, p0. split; [|done].
    apply lookup_ge_None in HS. replace (S i) with (length l) by lia. by rewrite Nat.Div0.mod_same.
Qed.

Definition user_mode (r : registers) : Prop := Z.land (r_cs r) 0x3 <> 0.

(** The state with which a due tick looks for the next process. *)
Definition saved (k : kstate) (r : registers) (c : PCB) (t : Z) : kstate :=
  KState (km k) (process_pid_bitmap k) (process_mem_bitmap k)
    (<[current_pcb k := set_cpu_context c (to_cpu_state_from_syscall r)]> (pcbs k)) (nodes k) (pcb_list k)
    (current_pcb k) 0 t (skipped k) (sched_triggered k).

Lemma sched_ok_store k l r c t :
  sched_ok k l -> pcbs k !! current_pcb k = Some c -> sched_ok (saved k r c t) l.
Proof.
  intros [Hc Hp] Hcur. split; [done|]. intros n p Hin. destruct (Hp n p Hin) as [H0 (d & Hd & Hn)].
  split; [done|]. cbn [pcbs saved]. destruct (decide (p = current_pcb k)) as [->|Hne].
  - rewrite lookup_insert_eq. assert (c = d) as -> by congruence. by eexists.
  - rewrite lookup_insert_ne by done. by exists d.
Qed.

(** A due tick in user mode saves the interrupted context, and then switches to
    the cyclic successor if it can run. *)
Lemma tick_spec k l i n p c r t rn ks :
  sched_ok k l -> l !! i = Some (n, p) -> current_pcb k = p -> pcbs k !! p = Some c -> user_mode r ->
  (PROCESS_RUN_TIME <= u64 (t - last_context_switch_time k) \/ skipped k = true) ->
  exists n' p' c', l !! (S i mod length l)%nat = Some (n', p') /\ pcbs (saved k r c t) !! p' = Some c' /\
    let go := negb (pid c' =? 0) && negb (pid c' =? KERNEL_PID) && bool_decide (state c' = READY) in
    handle_sched_on_pit_tick k r t rn ks =
    Some (KState (km k) (process_pid_bitmap k) (process_mem_bitmap k) (pcbs (saved k r c t)) (nodes k)
            (pcb_list k) p p' t (negb go) go,
          if go then redirect r rn ks else r).
Proof.
  intros Hok Hi Hcur Hcp Hum Hdue. unfold user_mode in Hum. unfold handle_sched_on_pit_tick.
  destruct (Z.eqb_spec (Z.land (r_cs r) 3) 0); [done|].
  destruct (so_pcbs k l Hok n p ltac:(by eapply list_elem_of_lookup_2)) as [Hp0 _].
  assert ((pcb_list k =? 0) = false) as ->.
  { apply Z.eqb_neq. destruct Hok as [Hc _]. destruct l as [|[m q] l']; [by rewrite lookup_nil in Hi|].
    simpl in Hc. by destruct Hc as (-> & ? & _). }
  assert ((u64 (t - last_context_switch_time k) <? PROCESS_RUN_TIME) && negb (skipped k) = false) as ->.
  { destruct Hdue as [Hd|Hd]; [|rewrite Hd; apply andb_false_r].
    by destruct (Z.ltb_spec (u64 (t - last_context_switch_time k)) PROCESS_RUN_TIME); [lia|]. }
  cbn [orb]. rewrite Hcur. destruct (Z.eqb_spec p 0); [done|]. cbn [negb].
  rewrite Hcp. cbn [mbind option_bind].
  assert (pcbs k !! current_pcb k = Some c) as Hcp' by (by rewrite Hcur).
  pose proof (sched_ok_store k l r c t Hok Hcp') as Hok'.
  destruct (next_pcb_cyclic (saved k r c t) l i n p Hok' Hi) as (n' & p' & Hl & Hnx); [done|].
  unfold saved in Hnx |- *. rewrite Hcur in *. rewrite Hnx. cbn [mbind option_bind pcbs].
  destruct (so_pcbs _ l Hok' n' p' ltac:(by eapply list_elem_of_lookup_2)) as [_ (c' & Hc' & _)].
  cbn [pcbs saved] in Hc'. rewrite Hcur in Hc'. rewrite Hc'. cbn [mbind option_bind].
  by exists n', p', c'.
Qed.

(** isr_handler clears the flag on entry. *)
Definition clear_triggered (k : kstate) : kstate :=
  KState (km k) (process_pid_bitmap k) (process_mem_bitmap k) (pcbs k) (nodes k) (pcb_list k)
    (current_pcb k) (pcb_to_run k) (last_context_switch_time k) (skipped k) false.

(** The scheduler's part of a PIT interrupt: the tick, and when it redirected the
    return frame, run_next_proc with the process it chose. *)
Definition sched_round (k : kstate) (r : registers) (t rn ks : Z) : option kstate :=
  '(k, _) ← handle_sched_on_pit_tick (clear_triggered k) r t rn ks;
  Some (if sched_triggered k then set_current k (pcb_to_run k) else k).

Fixpoint sched_rounds (k : kstate) (ticks : list (registers * Z)) (rn ks : Z) : option kstate :=
  match ticks with
  | [] => Some k
  | (r, t) :: ticks => k ← sched_round k r t rn ks; sched_rounds k ticks rn ks
  end.

(** Ticks that each find user mode and the time slice spent. *)
Fixpoint due (last : Z) (ticks : list (registers * Z)) : Prop :=
  match ticks with
  | [] => True
  | (r, t) :: ticks => user_mode r /\ PROCESS_RUN_TIME <= u64 (t - last) /\ due t ticks
  end.

(** Saving a context changes no process's state. *)
Lemma runnable_saved k r c t p :
  pcbs k !! current_pcb k = Some c -> runnable k p -> runnable (saved k r c t) p.
Proof.
  intros Hc (d & Hd & H1 & H2 & H3). unfold runnable. cbn [pcbs saved].
  destruct (decide (p = current_pcb k)) as [->|].
  - rewrite lookup_insert_eq. assert (c = d) as -> by congruence. eexists. split; [reflexivity|]. done.
  - rewrite lookup_insert_ne by done. by exists d.
Qed.

Lemma round_switches k l i n p r t rn ks :
  sched_ok k l -> (forall x, x ∈ l -> runnable k x.2) -> l !! i = Some (n, p) -> current_pcb k = p ->
  user_mode r -> PROCESS_RUN_TIME <= u64 (t - last_context_switch_time k) ->
  exists k' n' p', sched_round k r t rn ks = Some k' /\ sched_ok k' l /\
    (forall x, x ∈ l -> runnable k' x.2) /\ last_context_switch_time k' = t /\
    l !! (S i mod length l)%nat = Some (n', p') /\ current_pcb k' = p'.
Proof.
  intros Hok Hrun Hi Hcur Hum Hdue.
  destruct (so_pcbs k l Hok n p ltac:(by eapply list_elem_of_lookup_2)) as [_ (c & Hc & _)].
  assert (pcbs k !! current_pcb k = Some c) as Hc' by (by rewrite Hcur).
  assert (sched_ok (clear_triggered k) l) as Hok0 by (destruct Hok; by split).
  destruct (tick_spec (clear_triggered k) l i n p c r t rn ks Hok0 Hi Hcur Hc Hum (or_introl Hdue))
    as (n' & p' & c' & Hl & Hp' & E).
  unfold sched_round. rewrite E. cbn [mbind option_bind].
  destruct (runnable_saved k r c t p' Hc') as (d & Hd & H1 & H2 & H3).
  { apply (Hrun (n', p')). by eapply list_elem_of_lookup_2. }
  assert (c' = d) as -> by (cbn in Hp', Hd; congruence).
  assert (negb (pid d =? 0) && negb (pid d =? KERNEL_PID) && bool_decide (state d = READY) = true) as ->.
  { apply Z.eqb_neq in H1, H2. rewrite H1, H2. by rewrite bool_decide_eq_true_2. }
  cbn [negb sched_triggered pcb_to_run]. pose proof (sched_ok_store k l r c t Hok Hc') as [S1 S2].
  eexists _, n', p'. split; [reflexivity|]. split_and!; try done.
  intros x Hx. destruct (runnable_saved k r c t x.2 Hc' (Hrun x Hx)) as (e & He). by exists e.
Qed.

(** C30: round robin: when every process of the queue can run, each due tick
    switches to the next one of the list and wraps around, so after [m] due
    ticks process [(i + m) mod n] runs: every process gets the processor once in
    any [n] consecutive time slices. *)
Theorem sched_round_robin k l i n p ticks rn ks :
  sched_ok k l -> (forall x, x ∈ l -> runnable k x.2) -> l !! i = Some (n, p) -> current_pcb k = p ->
  due (last_context_switch_time k) ticks ->
  exists k' n' p', sched_rounds k ticks rn ks = Some k' /\ sched_ok k' l /\
    l !! ((i + length ticks) mod length l)%nat = Some (n', p') /\ current_pcb k' = p'.
Proof.
  revert k i n p. induction ticks as [|[r t] ticks IH]; intros k i n p Hok Hrun Hi Hcur Hdue.
  - exists k, n, p. split_and!; try done. simpl length. rewrite Nat.add_0_r, Nat.mod_small; [done|].
    by eapply lookup_lt_Some.
  - destruct Hdue as (Hum & Hd & Hdue).
    destruct (round_switches k l i n p r t rn ks) as (k1 & n1 & p1 & E & Hok1 & Hrun1 & Hlast & Hl1 & Hc1); try done.
    cbn [sched_rounds]. rewrite E. cbn [mbind option_bind]. rewrite <- Hlast in Hdue.
    destruct (IH k1 _ n1 p1 Hok1 Hrun1 Hl1 Hc1 Hdue) as (k' & n' & p' & E' & Hok' & Hl' & Hc').
    exists k', n', p'. split_and!; try done. rewrite <- Hl'. f_equal. simpl length.
    rewrite Nat.Div0.add_mod_idemp_l. f_equal. lia.
Qed.

(** The successor of the running process cannot run. *)
Definition blocked (k : kstate) (l : list (Z * Z)) (i : nat) (q : Z) : Prop :=
  (exists n', l !! (S i mod length l)%nat = Some (n', q)) /\
  exists c, pcbs k !! q = Some c /\ state c <> READY.

Lemma blocked_tick k l i n p q r t rn ks :
  sched_ok k l -> l !! i = Some (n, p) -> current_pcb k = p -> p <> q -> blocked k l i q ->
  exists k', sched_round k r t rn ks = Some k' /\ sched_ok k' l /\ current_pcb k' = p /\
    blocked k' l i q /\ sched_triggered k' = false.
Proof.
  intros Hok Hi Hcur Hpq Hbl.
  destruct (so_pcbs k l Hok n p ltac:(by eapply list_elem_of_lookup_2)) as [Hp0 (c & Hc & _)].
  assert (pcbs k !! current_pcb k = Some c) as Hcc by (by rewrite Hcur).
  assert (sched_ok (clear_triggered k) l) as Hok0 by (destruct Hok; by split).
  assert (exists k', Some k' = Some (clear_triggered k) /\ sched_ok k' l /\ current_pcb k' = p /\
    blocked k' l i q /\ sched_triggered k' = false) as Hstay.
  { exists (clear_triggered k). split_and!; try done. }
  assert (sched_round k r t rn ks = Some (clear_triggered k) \/
    (user_mode r /\ (PROCESS_RUN_TIME <= u64 (t - last_context_switch_time k) \/ skipped k = true))) as [E|[Hum Hdue]].
  { unfold sched_round, handle_sched_on_pit_tick, user_mode.
    destruct (Z.eqb_spec (Z.land (r_cs r) 3) 0); [by left|].
    destruct (pcb_list (clear_triggered k) =? 0); [by left|]. cbn [orb].
    destruct (Z.ltb_spec (u64 (t - last_context_switch_time (clear_triggered k))) PROCESS_RUN_TIME); [|by right; auto].
    destruct (skipped (clear_triggered k)) eqn:Hsk; [by right; auto|by left]. }
  { rewrite E. destruct Hstay as (k' & <- & H). by exists k'. }
  destruct (tick_spec (clear_triggered k) l i n p c r t rn ks Hok0 Hi Hcur Hc Hum Hdue)
    as (n' & p' & c' & Hl & Hp' & E).
  destruct Hbl as [[m Hm] (d & Hd & Hs)]. assert (p' = q) as -> by congruence.
  cbn [pcbs saved clear_triggered current_pcb] in Hp'. rewrite Hcur in Hp'.
  rewrite lookup_insert_ne in Hp' by done. assert (c' = d) as -> by congruence.
  unfold sched_round. rewrite E. cbn [mbind option_bind].
  rewrite (bool_decide_eq_false_2 (state d = READY)) by done. rewrite andb_false_r.
  cbn [negb sched_triggered]. pose proof (sched_ok_store k l r c t Hok Hcc) as [S1 S2].
  eexists. split; [reflexivity|]. split_and!; try done. split; [by exists m|].
  exists d. split; [|done]. cbn [pcbs saved clear_triggered current_pcb]. rewrite Hcur.
  by rewrite lookup_insert_ne.
Qed.

(** Fact: a process that is not READY blocks the whole queue: while the successor
    of the running process waits, no sequence of ticks of any length ever
    switches away from the running process, so the processes behind it never
    run, although they may be READY. *)
Theorem sched_starves_behind_waiting k l i n p q ticks rn ks :
  sched_ok k l -> l !! i = Some (n, p) -> current_pcb k = p -> p <> q -> blocked k l i q ->
  exists k', sched_rounds k ticks rn ks = Some k' /\ current_pcb k' = p.
Proof.
  revert k. induction ticks as [|[r t] ticks IH]; intros k Hok Hi Hcur Hpq Hbl; [by exists k|].
  destruct (blocked_tick k l i n p q r t rn ks) as (k1 & E & Hok1 & Hc1 & Hb1 & _); try done.
  cbn [sched_rounds]. rewrite E. cbn [mbind option_bind]. by apply IH.
Qed.

(** ** Witnesses *)

Definition demo_pcb (pidv : Z) (st : proc_state) (node : Z) : PCB :=
  Pcb 0 pidv st 0 0 0 0 0 0 zero_cpu_state node.

(** Three processes 300, 200, 100 behind nodes 31, 21, 11; process 200 waits in
    the second queue. *)
Definition demo_queue (st2 : proc_state) : kstate :=
  KState demo_state 0 0
    (<[300 := demo_pcb 4 READY 31]> (<[200 := demo_pcb 3 st2 21]> (<[100 := demo_pcb 2 READY 11]> ∅)))
    (<[31 := LNode 300 21]> (<[21 := LNode 200 11]> (<[11 := LNode 100 0]> ∅))) 31 300 0 0 false false.

Definition demo_list : list (Z * Z) := [(31, 300); (21, 200); (11, 100)].

Definition user_regs : registers :=
  Registers 0 0 0 0 0 0 0 0 0 0 0 0 0 0 0 0 0 0 0x4000000 0x23 0x202 0x3ff0000 0x1b.

Lemma demo_queue_ok st2 : sched_ok (demo_queue st2) demo_list.
Proof.
  split.
  - simpl. split_and!; try done. eexists. split; [reflexivity|]. split_and!; try done.
    eexists. split; [reflexivity|]. split_and!; try done. by eexists.
  - intros n p. unfold demo_list. rewrite !elem_of_cons, elem_of_nil.
    intros [[= -> ->]|[[= -> ->]|[[= -> ->]|[]]]]; (split; [done|]); eexists; (split; [reflexivity|done]).
Qed.

Lemma pids_distinct_witness :
  NoDup [2] /\ ((allocate_pid (BITMASK 2)).2 = 0 <-> length [2] = 32%nat).
Proof.
  destruct (pids_distinct (BITMASK 2) [2]) as (H1 & _ & H2).
  - apply (pr_alloc 0 [] (BITMASK 2) 2 pr_init); [vm_compute; reflexivity|lia].
  - exact (conj H1 H2).
Defined.

Lemma sched_round_robin_witness :
  exists k' n' p', sched_rounds (demo_queue READY) [(user_regs, 100); (user_regs, 150)] 0 0 = Some k' /\
    [(31, 300); (21, 200); (11, 100)] !! 2%nat = Some (n', p') /\ current_pcb k' = p'.
Proof.
  destruct (sched_round_robin (demo_queue READY) demo_list 0 31 300
              [(user_regs, 100); (user_regs, 150)] 0 0 (demo_queue_ok READY))
    as (k' & n' & p' & H1 & _ & H2 & H3).
  - intros x. unfold demo_list. rewrite !elem_of_cons, elem_of_nil.
    intros [->|[->|[->|[]]]]; eexists; (split; [reflexivity|done]).
  - reflexivity.
  - reflexivity.
  - repeat split; vm_compute; discriminate.
  - exists k', n', p'. exact (conj H1 (conj H2 H3)).
Defined.

Lemma sched_starves_behind_waiting_witness :
  exists k', sched_rounds (demo_queue WAITING) [(user_regs, 100); (user_regs, 150)] 0 0 = Some k' /\
    current_pcb k' = 300.
Proof.
  apply (sched_starves_behind_waiting (demo_queue WAITING) demo_list 0 31 300 200);
    [apply demo_queue_ok|reflexivity|reflexivity|done|].
  split; [by exists 21|]. eexists. split; [reflexivity|done].
Defined.
