(* ===== verification/Path.v ===== *)
(** * Path: preprocess_path of kernel/arch/x86_64/vfs.c

    Path strings, as the list of their characters.  The routine collapses runs
    of separators, stops at the first white space and drops trailing
    separators; it does so character by character with one flag, and the
    theorem equates it with splitting the path into its non-empty segments and
    printing them with single separators. *)

From S2P Require Import Prelude Mem CString.

Definition PATH_SEPERATOR : Z := 47.

(** The copying loop; [cur] is what has been written, last character first. *)
Fixpoint preprocess_loop (original_string : list Z) (last_was_slash : bool) (cur : list Z) : list Z :=
  match original_string with
  | [] => cur
  | c :: rest =>
      if isspace c then cur
      else if c =? PATH_SEPERATOR then
        preprocess_loop rest true (if last_was_slash then cur else PATH_SEPERATOR :: cur)
      else preprocess_loop rest false (c :: cur)
  end.

(** Drops separators at the end while more than one character is left. *)
Fixpoint strip_trailing (cur : list Z) : list Z :=
  match cur with
  | c :: ((_ :: _) as before) => if c =? PATH_SEPERATOR then strip_trailing before else cur
  | _ => cur
  end.

(** NULL for the empty string. *)
Definition preprocess_path (original_string : list Z) : option (list Z) :=
  match original_string with
  | [] => None
  | _ => Some (reverse (strip_trailing (preprocess_loop original_string false [])))
  end.

(** strchr for the separator, or else for the terminator: the segment before
    it and the string from it on. *)
Fixpoint next_separator (p : list Z) : list Z * list Z :=
  match p with
  | [] => ([], [])
  | c :: rest =>
      if c =? PATH_SEPERATOR then ([], p)
      else let '(seg, q) := next_separator rest in (c :: seg, q)
  end.

(** ** Reference: segments and the canonical string *)

Fixpoint segments (acc s : list Z) : list (list Z) :=
  match s with
  | [] => match acc with [] => [] | _ => [acc] end
  | c :: s =>
      if c =? PATH_SEPERATOR then match acc with [] => segments [] s | _ => acc :: segments [] s end
      else segments (acc ++ [c]) s
  end.

Definition lead (s : list Z) : list Z :=
  match s with c :: _ => if c =? PATH_SEPERATOR then [PATH_SEPERATOR] else [] | [] => [] end.

Definition canonical (absolute : list Z) (segs : list (list Z)) : list Z :=
  absolute ++ join [PATH_SEPERATOR] segs.

(** The part of the string before white space. *)
Fixpoint word (s : list Z) : list Z :=
  match s with [] => [] | c :: s => if isspace c then [] else c :: word s end.

(** A segment: not empty, no separator, no white space. *)
Definition segment_ok (seg : list Z) : Prop :=
  seg <> [] /\ Forall (fun c => c <> PATH_SEPERATOR /\ isspace c = false) seg.

(** ** Lemmas *)

Lemma preprocess_loop_word s b cur : preprocess_loop s b cur = preprocess_loop (word s) b cur.
Proof.
  revert b cur. induction s as [|c s IH]; intros b cur; simpl; [done|].
  destruct (isspace c) eqn:E; simpl; [done|]. rewrite E. destruct (c =? PATH_SEPERATOR); apply IH.
Qed.

Lemma word_no_space s : Forall (fun c => isspace c = false) (word s).
Proof.
  induction s as [|c s IH]; simpl; [constructor|]. destruct (isspace c) eqn:E; by constructor.
Qed.

Lemma word_id s : Forall (fun c => isspace c = false) s -> word s = s.
Proof. induction 1 as [|c s Hc Hs IH]; simpl; [done|]. by rewrite Hc, IH. Qed.

(** Closed segments, each followed by a separator. *)
Definition closed (segs : list (list Z)) : list Z := concat (map (fun s => s ++ [PATH_SEPERATOR]) segs).

Lemma closed_app a b : closed (a ++ b) = closed a ++ closed b.
Proof. unfold closed. by rewrite map_app, concat_app. Qed.

Lemma closed_join segs last : closed segs ++ last = join [PATH_SEPERATOR] (segs ++ [last]).
Proof.
  induction segs as [|s segs IH]; [done|].
  assert (join [PATH_SEPERATOR] ((s :: segs) ++ [last]) = s ++ [PATH_SEPERATOR] ++ join [PATH_SEPERATOR] (segs ++ [last]))
    as -> by (by destruct segs).
  rewrite <- IH. unfold closed. simpl. by rewrite <- !app_assoc.
Qed.

Lemma strip_keep l c : c <> PATH_SEPERATOR -> strip_trailing (reverse (l ++ [c])) = reverse (l ++ [c]).
Proof.
  intros Hc. rewrite reverse_snoc. simpl. destruct (reverse l); [done|].
  by destruct (Z.eqb_spec c PATH_SEPERATOR).
Qed.

Lemma strip_one l c : c <> PATH_SEPERATOR ->
  strip_trailing (reverse (l ++ [c] ++ [PATH_SEPERATOR])) = reverse (l ++ [c]).
Proof.
  intros Hc. rewrite app_assoc, reverse_snoc. rewrite <- (strip_keep l c Hc) at 2.
  rewrite reverse_snoc. reflexivity.
Qed.

(** The last character of a segment. *)
Lemma segment_last seg : segment_ok seg -> exists l c, seg = l ++ [c] /\ c <> PATH_SEPERATOR.
Proof.
  intros [Hne Hok]. destruct seg as [|c l _] using rev_ind; [done|].
  exists l, c. split; [done|]. apply Forall_app in Hok as [_ Hok]. by apply Forall_inv in Hok as [? _].
Qed.

Lemma strip_done ld segs acc :
  ld = [] \/ ld = [PATH_SEPERATOR] -> Forall segment_ok segs -> acc = [] \/ segment_ok acc ->
  strip_trailing (reverse (ld ++ closed segs ++ acc)) =
  reverse (canonical ld (segs ++ match acc with [] => [] | _ => [acc] end)).
Proof.
  intros Hld Hsegs [->|Hacc].
  - rewrite !app_nil_r. destruct segs as [|s segs _] using rev_ind.
    + unfold canonical. simpl. rewrite !app_nil_r. by destruct Hld as [->| ->].
    + apply Forall_app in Hsegs as [_ Hs]. apply Forall_inv in Hs.
      destruct (segment_last s Hs) as (l & c & -> & Hc).
      rewrite closed_app. unfold canonical. rewrite <- closed_join. unfold closed at 2.
      cbn [map concat]. rewrite app_nil_r.
      replace (ld ++ closed segs ++ (l ++ [c]) ++ [PATH_SEPERATOR])
        with ((ld ++ closed segs ++ l) ++ [c] ++ [PATH_SEPERATOR]) by (by rewrite <- !app_assoc).
      rewrite strip_one by done. by rewrite <- !app_assoc.
  - destruct (segment_last acc Hacc) as (l & c & -> & Hc).
    replace (match l ++ [c] with [] => [] | _ => [l ++ [c]] end) with [l ++ [c]] by (by destruct l).
    unfold canonical. rewrite <- closed_join, !app_assoc. by apply strip_keep.
Qed.

Lemma preprocess_loop_spec s ld segs acc :
  Forall (fun c => isspace c = false) s ->
  ld = [] \/ ld = [PATH_SEPERATOR] -> Forall segment_ok segs -> acc = [] \/ segment_ok acc ->
  ld ++ closed segs ++ acc <> [] ->
  strip_trailing (preprocess_loop s (bool_decide (acc = [])) (reverse (ld ++ closed segs ++ acc))) =
  reverse (canonical ld (segs ++ segments acc s)).
Proof.
  intros Hs. revert segs acc. induction Hs as [|c s Hc Hs IH]; intros segs acc Hld Hsegs Hacc Hne; simpl.
  { by apply strip_done. }
  rewrite Hc. destruct (Z.eqb_spec c PATH_SEPERATOR) as [->|Hne'].
  - destruct acc as [|a acc].
    + rewrite bool_decide_eq_true_2 by done. by rewrite <- IH.
    + rewrite bool_decide_eq_false_2 by done. destruct Hacc as [?|Hacc]; [done|].
      specialize (IH (segs ++ [a :: acc]) []). rewrite bool_decide_eq_true_2 in IH by done.
      rewrite <- (app_assoc segs) in IH. simpl in IH. rewrite <- IH.
      * rewrite closed_app. unfold closed at 3. cbn [map concat]. rewrite !app_nil_r.
        f_equal. f_equal. rewrite <- reverse_snoc. f_equal. by rewrite <- !app_assoc.
      * done.
      * apply Forall_app. split; [done|]. by constructor.
      * by left.
      * rewrite closed_app. unfold closed at 2. simpl. destruct ld, (closed segs); done.
  - specialize (IH segs (acc ++ [c])). rewrite bool_decide_eq_false_2 in IH by (by destruct acc).
    rewrite <- IH; try done.
    + by rewrite !app_assoc, reverse_snoc.
    + right. split; [by destruct acc|]. apply Forall_app. split; [|by constructor].
      destruct Hacc as [->|[_ ?]]; [constructor|done].
    + destruct ld, (closed segs), acc; done.
Qed.

Lemma preprocess_spec s :
  s <> [] -> preprocess_path s = Some (canonical (lead (word s)) (segments [] (word s))).
Proof.
  intros Hne. unfold preprocess_path. destruct s as [|c0 s0]; [done|]. f_equal.
  rewrite preprocess_loop_word. pose proof (word_no_space (c0 :: s0)) as Hw.
  destruct (word (c0 :: s0)) as [|c s]; [done|]. apply list.Forall_cons in Hw as [Hc Hs].
  simpl. rewrite Hc. destruct (Z.eqb_spec c PATH_SEPERATOR) as [->|Hn].
  - pose proof (preprocess_loop_spec s [PATH_SEPERATOR] [] [] Hs) as H. simpl in H.
    change (reverse [PATH_SEPERATOR]) with [PATH_SEPERATOR] in H.
    rewrite H by (auto; try done; by constructor). by rewrite reverse_involutive.
  - pose proof (preprocess_loop_spec s [] [] [c] Hs) as H. simpl in H.
    change (reverse [c]) with [c] in H.
    rewrite H, reverse_involutive; [done|by left|constructor| |done].
    right. split; [done|]. by constructor.
Qed.

(** The segments of a string are well formed. *)
Lemma segments_ok s acc :
  Forall (fun c => isspace c = false) s -> acc = [] \/ segment_ok acc -> Forall segment_ok (segments acc s).
Proof.
  intros Hs. revert acc. induction Hs as [|c s Hc Hs IH]; intros acc Hacc; simpl.
  - destruct acc; [constructor|]. destruct Hacc; [done|]. by constructor.
  - destruct (Z.eqb_spec c PATH_SEPERATOR).
    + destruct acc; [apply IH; by left|]. destruct Hacc; [done|]. constructor; [done|]. apply IH. by left.
    + apply IH. right. split; [by destruct acc|]. apply Forall_app. split; [|by constructor].
      destruct Hacc as [->|[_ ?]]; [constructor|done].
Qed.

Lemma segments_app acc seg rest :
  Forall (fun c => c <> PATH_SEPERATOR) seg -> segments acc (seg ++ rest) = segments (acc ++ seg) rest.
Proof.
  intros H. revert acc. induction H as [|c seg Hc H IH]; intros acc; simpl; [by rewrite app_nil_r|].
  destruct (Z.eqb_spec c PATH_SEPERATOR); [done|]. by rewrite IH, <- app_assoc.
Qed.

Lemma segment_seps seg : segment_ok seg -> Forall (fun c => c <> PATH_SEPERATOR) seg.
Proof. intros [_ H]. eapply list.Forall_impl; [exact H|]. by intros x []. Qed.

(** A separator, or the end, closes the segment before it. *)
Lemma segments_close seg rest :
  segment_ok seg -> segments [] (seg ++ PATH_SEPERATOR :: rest) = seg :: segments [] rest.
Proof.
  intros H. rewrite segments_app by (by apply segment_seps). simpl. destruct H as [H _]. by destruct seg.
Qed.

Lemma segments_join segs : Forall segment_ok segs -> segments [] (join [PATH_SEPERATOR] segs) = segs.
Proof.
  induction 1 as [|s segs Hs Hsegs IH]; [done|]. destruct segs as [|s' segs].
  - simpl. rewrite <- (app_nil_r s) at 1. rewrite segments_app by (by apply segment_seps).
    destruct Hs as [Hs _]. by destruct s.
  - change (join [PATH_SEPERATOR] (s :: s' :: segs))
      with (s ++ PATH_SEPERATOR :: join [PATH_SEPERATOR] (s' :: segs)).
    rewrite segments_close by done. by rewrite IH.
Qed.

Lemma join_no_space segs : Forall segment_ok segs -> Forall (fun c => isspace c = false) (join [PATH_SEPERATOR] segs).
Proof.
  induction 1 as [|s segs [_ Hs] Hsegs IH]; [constructor|].
  assert (Forall (fun c => isspace c = false) s) by (eapply list.Forall_impl; [exact Hs|]; by intros x []).
  destruct segs; [done|]. apply Forall_app. split; [done|]. by constructor.
Qed.

Lemma lead_join segs : Forall segment_ok segs -> lead (join [PATH_SEPERATOR] segs) = [].
Proof.
  destruct 1 as [|s segs [Hne Hs] Hsegs]; [done|]. destruct s as [|c s]; [done|].
  apply list.Forall_cons in Hs as [[Hc _] _].
  assert (join [PATH_SEPERATOR] ((c :: s) :: segs) = c :: match segs with [] => s | _ => s ++ [PATH_SEPERATOR] ++ join [PATH_SEPERATOR] segs end)
    as -> by (by destruct segs).
  simpl. by destruct (Z.eqb_spec c PATH_SEPERATOR).
Qed.

(** The canonical string of segments is its own canonical form. *)
Lemma canonical_fix ld segs :
  ld = [] \/ ld = [PATH_SEPERATOR] -> Forall segment_ok segs -> canonical ld segs <> [] ->
  preprocess_path (canonical ld segs) = Some (canonical ld segs).
Proof.
  intros Hld Hsegs Hne. rewrite preprocess_spec by done.
  rewrite word_id by (unfold canonical; apply Forall_app; split;
    [destruct Hld as [->| ->]; by repeat constructor|by apply join_no_space]).
  unfold canonical. destruct Hld as [->| ->]; simpl; rewrite segments_join by done; [|done].
  by rewrite lead_join.
Qed.

(** ** Theorems *)

(** Fact: preprocess_path turns every non-empty string into the canonical form of
    the part before its first white space: its non-empty segments, in order,
    with one separator between them and a leading one when the string starts
    with one; and it does not change a path that is already in that form. *)
Theorem preprocess_path_canonical s :
  s <> [] ->
  exists p, preprocess_path s = Some p /\
    p = canonical (lead (word s)) (segments [] (word s)) /\
    Forall segment_ok (segments [] (word s)) /\
    (p <> [] -> preprocess_path p = Some p).
Proof.
  intros Hne. eexists. split; [by apply preprocess_spec|]. split; [done|].
  assert (Forall segment_ok (segments [] (word s))) as Hok
    by (apply segments_ok; [apply word_no_space|by left]).
  split; [done|]. intros Hp. apply canonical_fix; [|done|done].
  unfold lead. destruct (word s) as [|c w]; [by left|]. destruct (c =? PATH_SEPERATOR); [by right|by left].
Qed.

(** "//a//b/ c" becomes "/a/b". *)
Lemma preprocess_path_canonical_witness :
  exists p, preprocess_path [47; 47; 97; 47; 47; 98; 47; 32; 99] = Some p /\ p = [47; 97; 47; 98].
Proof.
  destruct (preprocess_path_canonical [47; 47; 97; 47; 47; 98; 47; 32; 99] ltac:(discriminate)) as (p & H1 & H2 & _).
  exists p. exact (conj H1 H2).
Defined.
