(* ===== verification/Disk.v ===== *)
(** * Disk: kernel/driver/disk.c

    Drives with a byte-addressed medium; read_disk and write_disk go through a
    temporary buffer of whole sectors.  What lies in memory behind that buffer
    is the argument [slack]; the transfer itself (read_ahci, write_ahci) moves
    whole sectors between the medium and the buffer. *)

From S2P Require Import Prelude Mem CStdlib.

Definition SECTOR_SIZE : Z := 512.

Inductive diskType := AHCI_SATA.

Record disk := Disk {
  disk_id : Z;
  disk_type : diskType;
  disk_size : Z;
  medium : mem;
}.

(** The walk keeps the device it looked at last and returns it when no id
    matches; with no drive at all the returned pointer is indeterminate, [None]. *)
Fixpoint find_disk_loop (head : list disk) (id : Z) (device : option disk) : option disk :=
  match head with
  | [] => device
  | d :: head => if disk_id d =? id then Some d else find_disk_loop head id (Some d)
  end.

Definition find_disk (list_drives : list disk) (id : Z) : option disk :=
  find_disk_loop list_drives id None.

(** Byte [i] of the temporary buffer, or of what follows it. *)
Definition temp_byte (d : disk) (slack : Z -> Z) (offset_sectors size_sectors i : Z) : Z :=
  if i <? size_sectors * SECTOR_SIZE then mread (medium d) (offset_sectors * SECTOR_SIZE + i)
  else slack (i - size_sectors * SECTOR_SIZE).

Definition indices (n : Z) : list Z := map Z.of_nat (seq 0 (Z.to_nat n)).

(** The bytes copied to the caller's buffer. *)
Definition read_disk (list_drives : list disk) (slack : Z -> Z) (id offset size : Z) : option (list Z) :=
  d ← find_disk list_drives id;
  match disk_type d with
  | AHCI_SATA =>
      let offset_sectors := offset / SECTOR_SIZE in
      let size_sectors := UPPER_DIVIDE size SECTOR_SIZE in
      Some (map (fun i => temp_byte d slack offset_sectors size_sectors (offset mod SECTOR_SIZE + i))
              (indices size))
  end.

(** The buffer after the copy at [buffer_temp + (offset_sectors * 512 - offset)]:
    bytes that would land before the buffer are lost to it. *)
Definition write_temp (d : disk) (offset_sectors offset : Z) (buffer : list Z) (i : Z) : Z :=
  let j := i - (offset_sectors * 512 - offset) in
  if (0 <=? j) && (j <? zlen buffer) then nthZ buffer j
  else mread (medium d) (offset_sectors * SECTOR_SIZE + i).

Definition write_disk (list_drives : list disk) (id offset : Z) (buffer : list Z) : option disk :=
  d ← find_disk list_drives id;
  match disk_type d with
  | AHCI_SATA =>
      let offset_sectors := offset / SECTOR_SIZE in
      let size_sectors := UPPER_DIVIDE (zlen buffer) SECTOR_SIZE in
      let temp := map (write_temp d offset_sectors offset buffer) (indices (size_sectors * SECTOR_SIZE)) in
      Some (Disk (disk_id d) (disk_type d) (disk_size d)
              (mputs (medium d) (offset_sectors * SECTOR_SIZE) temp))
  end.

(** ** What the medium holds *)

Definition disk_bytes (d : disk) (offset size : Z) : list Z :=
  map (fun i => mread (medium d) (offset + i)) (indices size).

Lemma indices_length n : 0 <= n -> zlen (indices n) = n.
Proof. intros. unfold zlen, indices. rewrite length_map, length_seq. lia. Qed.

Lemma indices_lookup n i : (i < Z.to_nat n)%nat -> indices n !! i = Some (Z.of_nat i).
Proof. intros H. unfold indices. rewrite list_lookup_fmap, lookup_seq_lt by lia. done. Qed.

Lemma indices_elem n i : i ∈ indices n -> 0 <= i < n.
Proof.
  unfold indices. intros (k & -> & Hk)%list_elem_of_fmap. apply elem_of_seq in Hk. lia.
Qed.

Lemma map_indices_ext {A} (f g : Z -> A) n :
  (forall i, 0 <= i < n -> f i = g i) -> map f (indices n) = map g (indices n).
Proof. intros H. apply map_ext_in. intros i Hi. apply H, indices_elem. by apply list_elem_of_In. Qed.

Lemma upper_divide_bound n d : 0 < d -> 0 <= n -> n <= UPPER_DIVIDE n d * d < n + d.
Proof.
  intros Hd Hn. unfold UPPER_DIVIDE. pose proof (Z.div_mod (n + d - 1) d ltac:(lia)).
  pose proof (Z.mod_pos_bound (n + d - 1) d Hd). lia.
Qed.

(** A drive is found by its id. *)
Lemma find_disk_loop_hit l id dev d :
  NoDup (map disk_id l) -> d ∈ l -> disk_id d = id -> find_disk_loop l id dev = Some d.
Proof.
  revert dev. induction l as [|e l IH]; intros dev Hn Hd Hid; [by apply elem_of_nil in Hd|].
  simpl in *. apply list.NoDup_cons in Hn as [Hn Hl]. apply elem_of_cons in Hd as [->|Hd].
  - by rewrite Hid, Z.eqb_refl.
  - destruct (Z.eqb_spec (disk_id e) id) as [E|]; [|by apply IH].
    exfalso. apply Hn. rewrite E, <- Hid. apply list_elem_of_fmap. by exists d.
Qed.

(** The read, for a drive that is there. *)
Lemma read_disk_eq l slack id offset size d :
  find_disk l id = Some d -> 0 <= offset -> 0 <= size ->
  offset mod 512 + size <= UPPER_DIVIDE size 512 * 512 ->
  read_disk l slack id offset size = Some (disk_bytes d offset size).
Proof.
  intros Hd Ho Hs Hfit. unfold read_disk. rewrite Hd. cbn [mbind option_bind].
  destruct (disk_type d). f_equal. apply map_indices_ext. intros i Hi. unfold temp_byte, SECTOR_SIZE.
  destruct (Z.ltb_spec (offset mod 512 + i) (UPPER_DIVIDE size 512 * 512)); [|lia].
  f_equal. zlia.
Qed.

(** ** Theorems *)

(** Fact: read_disk returns exactly the bytes of the medium when the request,
    counted from the start of its first sector, fits in the sectors computed
    from its size alone; in particular for every request at the start of a
    sector. *)
Theorem read_disk_exact l slack id offset size d :
  find_disk l id = Some d -> 0 <= offset -> 0 <= size ->
  offset mod 512 + size <= UPPER_DIVIDE size 512 * 512 ->
  read_disk l slack id offset size = Some (disk_bytes d offset size).
Proof. apply read_disk_eq. Qed.

(** Fact: otherwise the tail of the result is not from the disk: the sector count
    ignores the offset inside the first sector, and every byte past the last
    sector transferred comes from the memory behind the temporary buffer. *)
Theorem read_disk_overrun l slack id offset size d i bs :
  find_disk l id = Some d -> 0 <= offset ->
  UPPER_DIVIDE size 512 * 512 <= offset mod 512 + i -> 0 <= i < size ->
  read_disk l slack id offset size = Some bs ->
  bs !! Z.to_nat i = Some (slack (offset mod 512 + i - UPPER_DIVIDE size 512 * 512)).
Proof.
  intros Hd Ho Hover Hi. unfold read_disk. rewrite Hd. cbn [mbind option_bind].
  destruct (disk_type d). intros [= <-]. rewrite list_lookup_fmap, indices_lookup by lia.
  simpl. f_equal. unfold temp_byte, SECTOR_SIZE.
  replace (Z.of_nat (Z.to_nat i)) with i by lia.
  by destruct (Z.ltb_spec (offset mod 512 + i) (UPPER_DIVIDE size 512 * 512)); [lia|].
Qed.

(** Fact: a write at the start of a sector stores exactly the buffer and keeps the
    rest of the disk; reading it back gives the buffer. *)
Theorem write_read_disk l slack id offset (buffer : list Z) d :
  find_disk l id = Some d -> 0 <= offset -> offset mod 512 = 0 ->
  Forall (fun b => 0 <= b < 256) buffer ->
  exists d', write_disk l id offset buffer = Some d' /\
    disk_id d' = disk_id d /\
    (forall a, a < offset \/ offset + zlen buffer <= a -> mread (medium d') a = mread (medium d) a) /\
    read_disk [d'] slack (disk_id d) offset (zlen buffer) = Some buffer.
Proof.
  intros Hd Ho Hal Hb. unfold write_disk. rewrite Hd. cbn [mbind option_bind].
  destruct (disk_type d) eqn:Ht. eexists. split; [reflexivity|]. split; [done|].
  unfold SECTOR_SIZE. set (n := UPPER_DIVIDE (zlen buffer) 512 * 512).
  pose proof (upper_divide_bound (zlen buffer) 512 ltac:(lia) ltac:(auto)) as Hn. fold n in Hn.
  pose proof (zlen_nonneg buffer) as Hl0.
  assert (offset / 512 * 512 = offset) as Hos by zlia.
  set (m' := mputs (medium d) (offset / 512 * 512) _).
  assert (forall i, 0 <= i < n -> mread m' (offset + i) =
    if i <? zlen buffer then nthZ buffer i else mread (medium d) (offset + i)) as Hin.
  { intros i Hi. unfold m'. rewrite Hos.
    assert (exists x, map (write_temp d (offset / 512) offset buffer) (indices n) !! Z.to_nat i = Some x /\
      x = (if i <? zlen buffer then nthZ buffer i else mread (medium d) (offset + i))) as (x & Hx & ->).
    { eexists. rewrite list_lookup_fmap, indices_lookup by lia. split; [reflexivity|].
      unfold write_temp, SECTOR_SIZE. replace (Z.of_nat (Z.to_nat i) - (offset / 512 * 512 - offset)) with i by lia.
      destruct (Z.leb_spec 0 i); [|lia]. simpl. destruct (i <? zlen buffer); [done|]. f_equal. lia. }
    replace (offset + i) with (offset + Z.of_nat (Z.to_nat i)) by lia.
    rewrite (mread_mputs_in _ _ _ _ _ Hx). replace (offset + Z.of_nat (Z.to_nat i)) with (offset + i) by lia.
    apply u8_small. destruct (Z.ltb_spec i (zlen buffer)); [|apply mread_range].
    unfold zlen in *. destruct (lookup_lt_is_Some_2 buffer (Z.to_nat i)) as [y Hy]; [lia|].
    rewrite (nthZ_lookup buffer i y) by (done || lia). rewrite list.Forall_forall in Hb.
    apply Hb. by eapply list_elem_of_lookup_2. }
  assert (forall a, a < offset \/ offset + n <= a -> mread m' a = mread (medium d) a) as Hout.
  { intros a Ha. unfold m'. apply mread_mputs_out. rewrite Hos.
    unfold zlen. rewrite length_map. fold (zlen (indices n)). rewrite indices_length by lia. done. }
  split.
  - intros a Ha. cbn [medium]. destruct (Z.lt_ge_cases a offset); [by apply Hout; left|].
    destruct (Z.lt_ge_cases a (offset + n)); [|by apply Hout; right].
    replace a with (offset + (a - offset)) by lia. rewrite Hin by lia.
    by destruct (Z.ltb_spec (a - offset) (zlen buffer)); [lia|].
  - rewrite (read_disk_eq _ _ _ _ _ (Disk (disk_id d) AHCI_SATA (disk_size d) m')); try done; try lia.
    2: { unfold find_disk. simpl. by rewrite Z.eqb_refl. }
    f_equal. unfold disk_bytes. cbn [medium].
    rewrite (map_indices_ext _ (nthZ buffer)).
      * apply list_eq. intros i. destruct (decide (i < length buffer)%nat) as [Hi|Hi].
        -- rewrite list_lookup_fmap, indices_lookup by (unfold zlen; lia). simpl.
           destruct (lookup_lt_is_Some_2 buffer i) as [y Hy]; [lia|]. rewrite Hy. f_equal.
           apply nthZ_lookup; [lia|]. by rewrite Nat2Z.id.
        -- rewrite !lookup_ge_None_2; [done|lia|]. rewrite length_map.
           pose proof (indices_length (zlen buffer) Hl0). unfold zlen in *. lia.
      * intros i Hi. rewrite Hin by lia. by destruct (Z.ltb_spec i (zlen buffer)); [|lia].
Qed.

(** ** Witnesses *)

Definition demo_disk : disk := Disk 0 AHCI_SATA 1024 (mputs ∅ 508 [1; 2; 3; 4; 5; 6]).

Lemma read_disk_exact_witness :
  read_disk [demo_disk] (fun _ => 99) 0 508 4 = Some [1; 2; 3; 4].
Proof.
  exact (read_disk_exact [demo_disk] (fun _ => 99) 0 508 4 demo_disk eq_refl ltac:(lia) ltac:(lia)
    ltac:(vm_compute; discriminate)).
Defined.

(** Six bytes across the sector boundary: the last two are not the disk's. *)
Lemma read_disk_overrun_witness :
  Some [1; 2; 3; 4; 99; 99] = read_disk [demo_disk] (fun _ => 99) 0 508 6 /\
  [1; 2; 3; 4; 99; 99] !! 4%nat = Some 99.
Proof.
  split; [reflexivity|].
  exact (read_disk_overrun [demo_disk] (fun _ => 99) 0 508 6 demo_disk 4 [1; 2; 3; 4; 99; 99] eq_refl
    ltac:(lia) ltac:(vm_compute; discriminate) ltac:(lia) eq_refl).
Defined.

Lemma write_read_disk_witness :
  exists d', write_disk [demo_disk] 0 512 [7; 8] = Some d' /\ read_disk [d'] (fun _ => 0) 0 512 2 = Some [7; 8].
Proof.
  destruct (write_read_disk [demo_disk] (fun _ => 0) 0 512 [7; 8] demo_disk eq_refl ltac:(lia) eq_refl)
    as (d' & H1 & _ & _ & H2); [repeat constructor; lia|].
  exists d'. exact (conj H1 H2).
Defined.
