(* ===== verification/Ext2.v ===== *)
(** * Ext2: kernel/driver/ext2.c and ext2.h

    The read-only ext2 driver over the disk.  Structures are read field by field
    from their packed offsets; loops take fuel and return [None] when it runs
    out.  A read of the disk that fails (no drive) is [None] as well.  The heap
    buffers the driver allocates are values here (allocation succeeds); what lies
    in memory behind them is the argument [slack] for read_disk's temporary
    buffer and [behind] for a directory's data. *)

From S2P Require Import Prelude Mem CStdlib CString Path Disk.

(** Little-endian fields of a byte string. *)
Definition field (bs : list Z) (off n : nat) : Z := le_list (take n (drop off bs)).

Definition EXT2_ROOT_INODE : Z := 2.

Inductive ext2_type_indicator :=
  | EXT2_FT_UNKNOWN | EXT2_FT_REG_FILE | EXT2_FT_DIR | EXT2_FT_CHRDEV | EXT2_FT_BLKDEV
  | EXT2_FT_FIFO | EXT2_FT_SOCK | EXT2_FT_SYMLINK.

Definition type_value (t : ext2_type_indicator) : Z :=
  match t with
  | EXT2_FT_UNKNOWN => 0 | EXT2_FT_REG_FILE => 1 | EXT2_FT_DIR => 2 | EXT2_FT_CHRDEV => 3
  | EXT2_FT_BLKDEV => 4 | EXT2_FT_FIFO => 5 | EXT2_FT_SOCK => 6 | EXT2_FT_SYMLINK => 7
  end.

(** ** Structures *)

Record ext2_super_block := SuperBlock {
  inodecount : Z; blockcount : Z; r_blockcount : Z; free_blockcount : Z; free_inodecount : Z;
  first_data_block : Z; log_block_size : Z; log_frag_size : Z; blockper_group : Z;
  fragper_group : Z; number_of_inodes_per_group : Z; mtime : Z; wtime : Z;
  mnt_count : Z; max_mnt_count : Z; magic : Z; fs_state : Z; errors : Z; minor_rev_level : Z;
  lastcheck : Z; checkinterval : Z; creator_os : Z; rev_level : Z; def_resuid : Z; def_resgid : Z;
  first_inode : Z; inode_size : Z; block_group_nr : Z;
  feature_compat : Z; feature_incompat : Z; feature_ro_compat : Z;
}.

Definition sizeof_ext2_super_block : Z := 1024.

Definition parse_super_block (bs : list Z) : ext2_super_block :=
  SuperBlock (field bs 0 4) (field bs 4 4) (field bs 8 4) (field bs 12 4) (field bs 16 4)
    (field bs 20 4) (field bs 24 4) (field bs 28 4) (field bs 32 4)
    (field bs 36 4) (field bs 40 4) (field bs 44 4) (field bs 48 4)
    (field bs 52 2) (field bs 54 2) (field bs 56 2) (field bs 58 2) (field bs 60 2) (field bs 62 2)
    (field bs 64 4) (field bs 68 4) (field bs 72 4) (field bs 76 4) (field bs 80 2) (field bs 82 2)
    (field bs 84 4) (field bs 88 2) (field bs 90 2)
    (field bs 92 4) (field bs 96 4) (field bs 100 4).

Definition zero_super_block : ext2_super_block := parse_super_block [].

Record ext2_block_group_descriptor := BlockGroup {
  addr_block_usage_bitmap : Z; addr_inode_usage_bitmap : Z; start_block_inode_table : Z;
  number_of_unallocated_blocks : Z; number_of_unallocated_inodes : Z; number_of_dirs_in_group : Z;
}.

(** The packed struct has no padding to the 32 bytes of the table's entries. *)
Definition sizeof_ext2_block_group_descriptor : Z := 18.

Definition parse_block_group (bs : list Z) : ext2_block_group_descriptor :=
  BlockGroup (field bs 0 4) (field bs 4 4) (field bs 8 4) (field bs 12 2) (field bs 14 2) (field bs 16 2).

Record ext2_inode := Inode {
  i_mode : Z; i_uid : Z; i_size : Z; i_atime : Z; i_ctime : Z; i_mtime : Z; i_dtime : Z;
  i_gid : Z; i_links_count : Z; i_blocks : Z; i_flags : Z; i_osd1 : Z;
  i_block : list Z;
  i_generation : Z; i_file_acl : Z; i_dir_acl : Z; i_faddr : Z;
}.

Definition parse_inode (bs : list Z) : ext2_inode :=
  Inode (field bs 0 2) (field bs 2 2) (field bs 4 4) (field bs 8 4) (field bs 12 4) (field bs 16 4)
    (field bs 20 4) (field bs 24 2) (field bs 26 2) (field bs 28 4) (field bs 32 4) (field bs 36 4)
    (map (fun k => field bs (40 + 4 * k) 4) (seq 0 15))
    (field bs 100 4) (field bs 104 4) (field bs 108 4) (field bs 112 4).

Record ext2_dir_entry := DirEntry {
  de_inode : Z; size_of_entry : Z; name_length : Z; type_indicator : Z;
}.

(** The fixed part at an offset of the directory's data, and the name behind it. *)
Definition parse_dir_entry (bs : list Z) (off : nat) : ext2_dir_entry :=
  DirEntry (field bs off 4) (field bs (off + 4) 2) (field bs (off + 6) 1) (field bs (off + 7) 1).

Definition zero_dir_entry : ext2_dir_entry := DirEntry 0 0 0 0.

Definition dir_entry_name (bs : list Z) (off n : nat) : list Z := take n (drop (off + 8) bs).

(** [1024 << log_block_size] on an int; the shift count is a uint32_t. *)
Definition s_block_get_block_size (s_block : ext2_super_block) : Z :=
  u64 (s32 (Z.shiftl 1024 (log_block_size s_block mod 32))).

Definition get_number_of_block_groups (superblock : ext2_super_block) : Z :=
  UPPER_DIVIDE (inodecount superblock) (number_of_inodes_per_group superblock).

(** Of filesystem_data, what the driver reads. *)
Record filesystem_data := FsData { disk_number : Z; start_offset : Z; fs_type : Z }.

Section Driver.
Context (list_drives : list disk) (slack : Z -> Z) (behind : list Z).

Abbreviation rd := (read_disk list_drives slack).

Definition ext2_read_super_block (fs_data : filesystem_data) : option ext2_super_block :=
  bs ← rd (disk_number fs_data) (start_offset fs_data) sizeof_ext2_super_block;
  let super_block := parse_super_block bs in
  Some (if negb (magic super_block =? 0xEF53) then zero_super_block else super_block).

Definition ext2_read_block_group_descriptor (fs_data : filesystem_data) (s_block : ext2_super_block)
    (group_num : Z) : option ext2_block_group_descriptor :=
  let block_size := s_block_get_block_size s_block in
  let bgdt_offset := start_offset fs_data + (if 1024 <? block_size then block_size else 1024) in
  bs ← rd (disk_number fs_data) (u64 (bgdt_offset + sizeof_ext2_block_group_descriptor * group_num))
         sizeof_ext2_block_group_descriptor;
  Some (parse_block_group bs).

(** Division by zero (an unreadable superblock) traps: [None]. *)
Definition ext2_read_inode_metadata (fs_data : filesystem_data) (super_block : ext2_super_block)
    (inode_num : Z) : option ext2_inode :=
  let per := number_of_inodes_per_group super_block in
  if per =? 0 then None
  else
    let block_group_num := u64 (inode_num - 1) / per in
    block_group_descriptor ← ext2_read_block_group_descriptor fs_data super_block block_group_num;
    let inode_table_index := u64 (inode_num - 1) mod per in
    let addr := u64 (u32 (start_block_inode_table block_group_descriptor - 1) *
                     s_block_get_block_size super_block) + inode_table_index * inode_size super_block in
    bs ← rd (disk_number fs_data) (u64 (start_offset fs_data + addr)) (inode_size super_block);
    Some (parse_inode bs).

Definition ext2_get_inode_size (fs_data : filesystem_data) (s_block : ext2_super_block) (inode_num : Z)
    : option Z :=
  inode_meta ← ext2_read_inode_metadata fs_data s_block inode_num;
  Some (Z.lor (Z.shiftl (i_dir_acl inode_meta) 32) (i_size inode_meta)).

(** ** Block pointers *)

(** [None] inside is the failure return (-1) for block 0. *)
Definition read_full_block (fs_data : filesystem_data) (block_num block_size : Z) : option (option (list Z)) :=
  if block_num =? 0 then Some None
  else
    bs ← rd (disk_number fs_data) (u64 ((block_num - 1) * block_size + start_offset fs_data)) block_size;
    Some (Some bs).

Definition get_indirect_block_entry (fs_data : filesystem_data) (indirect_block_num block_size index : Z)
    : option Z :=
  if indirect_block_num =? 0 then Some 0
  else
    r ← read_full_block fs_data indirect_block_num block_size;
    match r with
    | None => Some 0
    | Some block_table =>
        let entries_per_block := u32 (block_size / 4) in
        Some (if index <? entries_per_block then field block_table (Z.to_nat (4 * index)) 4 else 0)
    end.

(** The offset a block number stands for, 0 for none. *)
Definition block_offset (fs_data : filesystem_data) (block_num block_size : Z) : Z :=
  if block_num =? 0 then 0 else u64 ((block_num - 1) * block_size + start_offset fs_data).

Definition ext2_get_nth_block_offset_of_inode (fs_data : filesystem_data) (super_block : ext2_super_block)
    (inode_num block_index : Z) : option Z :=
  let block_size := s_block_get_block_size super_block in
  let addresses_per_block := block_size / 4 in
  inode ← ext2_read_inode_metadata fs_data super_block inode_num;
  let i_blk k := nthZ (i_block inode) k in
  if block_index <? 12 then Some (block_offset fs_data (i_blk block_index) block_size)
  else
  let block_index := block_index - 12 in
  if block_index <? addresses_per_block then
    let single_indirect_num := i_blk 12 in
    if single_indirect_num =? 0 then Some 0
    else
      block_num ← get_indirect_block_entry fs_data single_indirect_num block_size (u32 block_index);
      Some (block_offset fs_data block_num block_size)
  else
  let block_index := block_index - addresses_per_block in
  let double_capacity := u64 (addresses_per_block * addresses_per_block) in
  if block_index <? double_capacity then
    let double_indirect_num := i_blk 13 in
    if double_indirect_num =? 0 then Some 0
    else
      let outer_index := u32 (block_index / addresses_per_block) in
      let inner_index := u32 (block_index mod addresses_per_block) in
      single_block_num ← get_indirect_block_entry fs_data double_indirect_num block_size outer_index;
      if single_block_num =? 0 then Some 0
      else
        block_num ← get_indirect_block_entry fs_data single_block_num block_size inner_index;
        Some (block_offset fs_data block_num block_size)
  else
  let block_index := block_index - double_capacity in
  let triple_capacity := u64 (double_capacity * addresses_per_block) in
  if block_index <? triple_capacity then
    let triple_indirect_num := i_blk 14 in
    if triple_indirect_num =? 0 then Some 0
    else
      let outer_index := u32 (block_index / double_capacity) in
      let remainder := u32 (block_index mod double_capacity) in
      double_block_num ← get_indirect_block_entry fs_data triple_indirect_num block_size outer_index;
      if double_block_num =? 0 then Some 0
      else
        let outer_index2 := remainder / u32 addresses_per_block in
        let inner_index2 := remainder mod u32 addresses_per_block in
        single_block_num ← get_indirect_block_entry fs_data double_block_num block_size outer_index2;
        if single_block_num =? 0 then Some 0
        else
          block_num ← get_indirect_block_entry fs_data single_block_num block_size inner_index2;
          Some (block_offset fs_data block_num block_size)
  else Some 0.

(** ** Reading a file *)

(** The loop collects what it copies to the output buffer, which it fills from
    the front without gaps; the result is the bytes and the final offset. *)
Fixpoint read_inode_loop (fuel : nat) (fs_data : filesystem_data) (s_block : ext2_super_block)
    (inode_num curr_read_offset end_offset : Z) (out : list Z) : option (list Z * Z) :=
  let block_size := s_block_get_block_size s_block in
  if end_offset <? curr_read_offset then Some (out, curr_read_offset)
  else match fuel with
       | O => None
       | S fuel =>
           base ← ext2_get_nth_block_offset_of_inode fs_data s_block inode_num (curr_read_offset / block_size);
           let read_start := u64 (base + curr_read_offset mod block_size) in
           let read_size := MIN block_size (end_offset - curr_read_offset + 1) in
           bs ← rd (disk_number fs_data) read_start read_size;
           read_inode_loop fuel fs_data s_block inode_num (u64 (curr_read_offset + read_size)) end_offset (out ++ bs)
       end.

(** Returns the bytes written to the buffer and the count. *)
Definition ext2_read_inode (fuel : nat) (fs_data : filesystem_data) (s_block : ext2_super_block)
    (inode_num offset_bytes count_bytes : Z) : option (list Z * Z) :=
  max_read_size ← ext2_get_inode_size fs_data s_block inode_num;
  let end_offset := u64 (MIN max_read_size (u64 (offset_bytes + count_bytes)) - 1) in
  '(out, last) ← read_inode_loop fuel fs_data s_block inode_num offset_bytes end_offset [];
  Some (out, u64 (last - offset_bytes)).

(** ** Directories *)

(** strncmp of two byte strings up to [n] characters; the name in the entry is
    not NUL-terminated, [inode_name] ends where the path does. *)
Fixpoint strn_eq (n : nat) (a b : list Z) : bool :=
  match n with
  | O => true
  | S n =>
      let x := default 0 (head a) in let y := default 0 (head b) in
      if (x =? 0) && (y =? 0) then true
      else if x =? y then strn_eq n (tail a) (tail b) else false
  end.

Fixpoint find_in_dir (fuel : nat) (data : list Z) (size_read : Z) (off : nat) (inode_name : list Z)
    (name_size : Z) : option ext2_dir_entry :=
  if Z.of_nat off + 1 <? size_read then
    match fuel with
    | O => None
    | S fuel =>
        let curr_entry := parse_dir_entry data off in
        let n := Z.to_nat (MIN (name_length curr_entry) name_size) in
        if strn_eq n inode_name (drop (off + 8) data) then Some curr_entry
        else find_in_dir fuel data size_read (off + Z.to_nat (size_of_entry curr_entry)) inode_name name_size
    end
  else Some zero_dir_entry.

(** The directory's inode number is an int parameter. *)
Definition ext2_find_inode_in_dir_by_name (fuel : nat) (fs_data : filesystem_data)
    (s_block : ext2_super_block) (dir_inode_num : Z) (inode_name : list Z) (name_size : Z)
    : option ext2_dir_entry :=
  let dir_inode_num := u64 (s32 dir_inode_num) in
  size ← ext2_get_inode_size fs_data s_block dir_inode_num;
  '(data, size_read) ← ext2_read_inode fuel fs_data s_block dir_inode_num 0 size;
  find_in_dir fuel (data ++ behind) size_read 0 inode_name name_size.

(** The names in list order; append_node puts each new one in front. *)
Fixpoint list_entries (fuel : nat) (data : list Z) (size_read : Z) (off : nat) (ret : list (list Z))
    : option (list (list Z)) :=
  if Z.of_nat off + 1 <? size_read then
    match fuel with
    | O => None
    | S fuel =>
        let curr_entry := parse_dir_entry data off in
        let str := dir_entry_name data off (Z.to_nat (name_length curr_entry)) in
        list_entries fuel data size_read (off + Z.to_nat (size_of_entry curr_entry)) (str :: ret)
    end
  else Some ret.

(** The walk over the path's segments; each iteration consumes at least a
    separator, so the length of the path bounds it. *)
Fixpoint path_loop (k : nat) (fuel : nat) (fs_data : filesystem_data) (s_block : ext2_super_block)
    (current_inode : Z) (current_path_position : list Z) : option Z :=
  match current_path_position with
  | [] => Some 0
  | _ =>
      match k with
      | O => None
      | S k =>
          let '(seg, next_separator_position) := next_separator current_path_position in
          found_inode ← ext2_find_inode_in_dir_by_name fuel fs_data s_block current_inode
                          current_path_position (zlen seg);
          match next_separator_position with
          | [] => Some (de_inode found_inode)
          | _ :: rest =>
              if negb (type_indicator found_inode =? type_value EXT2_FT_DIR) then Some 0
              else path_loop k fuel fs_data s_block (de_inode found_inode) rest
          end
      end
  end.

Definition ext2_get_inode_number_at_path (fuel : nat) (fs_data : filesystem_data)
    (s_block : ext2_super_block) (path : list Z) : option Z :=
  match preprocess_path path with
  | None => Some 0
  | Some [] => Some 0
  | Some path_preproccesed =>
      if bool_decide (path_preproccesed = [PATH_SEPERATOR]) then Some EXT2_ROOT_INODE
      else
        let current_path_position :=
          match path_preproccesed with
          | c :: rest => if c =? PATH_SEPERATOR then rest else path_preproccesed
          | [] => []
          end in
        path_loop (S (length path_preproccesed)) fuel fs_data s_block EXT2_ROOT_INODE current_path_position
  end.

Definition ext2_list_dir (fuel : nat) (fs_data : filesystem_data) (path : list Z) : option (list (list Z)) :=
  s_block ← ext2_read_super_block fs_data;
  dir_inode_num ← ext2_get_inode_number_at_path fuel fs_data s_block path;
  if dir_inode_num =? 0 then Some []
  else
    size ← ext2_get_inode_size fs_data s_block dir_inode_num;
    '(data, size_read) ← ext2_read_inode fuel fs_data s_block dir_inode_num 0 size;
    list_entries fuel (data ++ behind) size_read 0 [].
End Driver.

(** ** The volume: the reference

    An ext2 volume starts 1024 bytes before its superblock, which is what
    [start_offset] gives, and is divided into blocks numbered from that start:
    block [b] holds the bytes from [volume + b * block_size] on.  A pointer block
    is an array of little-endian 32-bit block numbers.  Block [n] of a file hangs
    in a tree of pointer blocks: level 0 is the data block itself, a node of
    level [l+1] has [a] children of level [l].  None of this mentions the
    driver. *)

Section Volume.
Context (fs_data : filesystem_data) (d : disk) (block_size : Z).

Abbreviation a := (block_size / 4).

Definition volume : Z := start_offset fs_data - 1024.

Definition block_addr (b : Z) : Z := volume + b * block_size.

(** Entry [i] of the pointer block [b]. *)
Definition pointer (b i : Z) : Z := ld32 (medium d) (block_addr b + 4 * i).

(** The number of the data block below node [num]; 0 is a hole. *)
Fixpoint tree_block (level : nat) (num idx : Z) : Z :=
  match level with
  | O => num
  | S l => if num =? 0 then 0 else tree_block l (pointer num (idx / a ^ Z.of_nat l)) (idx mod a ^ Z.of_nat l)
  end.

(** The block numbers of a file: twelve direct ones, then a tree of each level. *)
Definition file_block (blocks : list Z) (n : Z) : Z :=
  if n <? 12 then nthZ blocks n
  else if n - 12 <? a then tree_block 1 (nthZ blocks 12) (n - 12)
  else if n - 12 - a <? a ^ 2 then tree_block 2 (nthZ blocks 13) (n - 12 - a)
  else if n - 12 - a - a ^ 2 <? a ^ 3 then tree_block 3 (nthZ blocks 14) (n - 12 - a - a ^ 2)
  else 0.
End Volume.

(** Block sizes of ext2: 1 KiB to 64 KiB. *)
Definition block_size_ok (s_block : ext2_super_block) : Prop := 0 <= log_block_size s_block <= 6.

Lemma block_size_value s_block :
  block_size_ok s_block ->
  exists k, 0 <= k <= 6 /\ s_block_get_block_size s_block = 1024 * 2 ^ k /\
    s_block_get_block_size s_block / 4 = 256 * 2 ^ k.
Proof.
  intros H. exists (log_block_size s_block). split; [done|]. unfold block_size_ok in H.
  unfold s_block_get_block_size.
  assert (log_block_size s_block ∈ [0; 1; 2; 3; 4; 5; 6]) as Hin
    by (rewrite !elem_of_cons; lia).
  repeat (apply elem_of_cons in Hin as [->|Hin]; [split; reflexivity|]). by apply elem_of_nil in Hin.
Qed.

Lemma block_size_range s_block :
  block_size_ok s_block -> 1024 <= s_block_get_block_size s_block <= 65536 /\
  s_block_get_block_size s_block mod 512 = 0 /\
  256 <= s_block_get_block_size s_block / 4 <= 16384.
Proof.
  intros H. unfold block_size_ok in H. unfold s_block_get_block_size.
  assert (log_block_size s_block ∈ [0; 1; 2; 3; 4; 5; 6]) as Hin
    by (rewrite !elem_of_cons; lia).
  repeat (apply elem_of_cons in Hin as [->|Hin]; [split_and!; (discriminate || reflexivity)|]).
  by apply elem_of_nil in Hin.
Qed.

(** ** The driver against the reference

    The driver places block [b] at [(b - 1) * block_size] after the superblock,
    which is the block's place for blocks of 1 KiB only. *)

Lemma field_disk_bytes d off n k : 0 <= k -> k + 4 <= n -> field (disk_bytes d off n) (Z.to_nat k) 4 = ld32 (medium d) (off + k).
Proof.
  intros H0 Hk. unfold field, disk_bytes.
  assert (take 4 (drop (Z.to_nat k) (map (fun i => mread (medium d) (off + i)) (indices n))) = mbytes (medium d) (off + k) 4) as ->.
  { apply list_eq. intros i. destruct (decide (i < 4)%nat) as [Hi|Hi].
    - rewrite lookup_take_lt, lookup_drop, list_lookup_fmap, indices_lookup, lookup_mbytes by lia. cbn. do 2 f_equal. lia.
    - rewrite !lookup_ge_None_2; [done|rewrite length_mbytes; lia|rewrite length_take; lia]. }
  cbn [mbytes le_list load]. reflexivity.
Qed.

Section Blocks.
Context (l : list disk) (slack : Z -> Z) (fs_data : filesystem_data) (d : disk).
Hypothesis Hd : find_disk l (disk_number fs_data) = Some d.
Hypothesis Hstart : 0 <= start_offset fs_data < 2 ^ 62.
Hypothesis Hsector : start_offset fs_data mod 512 = 0.

Abbreviation entry num i := (get_indirect_block_entry l slack fs_data num 1024 i).
Abbreviation tree := (tree_block fs_data d 1024).

Lemma pointer_range num i : 0 <= pointer fs_data d 1024 num i < 2 ^ 32.
Proof. apply ld32_range. Qed.

(** An entry of an indirect block. *)
Lemma entry_spec num i : 0 <= num < 2 ^ 32 -> 0 <= i < 256 ->
  entry num i = Some (if num =? 0 then 0 else pointer fs_data d 1024 num i).
Proof.
  intros Hn Hi. unfold get_indirect_block_entry, read_full_block. destruct (Z.eqb_spec num 0) as [|N]; [done|].
  rewrite u64_small by lia. rewrite (read_disk_eq l slack _ _ 1024 d Hd) by (try lia; change (UPPER_DIVIDE 1024 512 * 512) with 1024; zlia).
  cbn [mbind option_bind]. change (u32 (1024 / 4)) with 256. destruct (Z.ltb_spec i 256); [|lia].
  rewrite field_disk_bytes by lia. unfold pointer, block_addr, volume. do 2 f_equal. lia.
Qed.

Lemma tree_range lv num i : 0 <= num < 2 ^ 32 -> 0 <= tree lv num i < 2 ^ 32.
Proof.
  revert num i. induction lv as [|lv IH]; intros num i Hn; cbn [tree_block]; [done|].
  destruct (num =? 0); [lia|]. apply IH, pointer_range.
Qed.

Lemma tree1 num i : 0 <= num < 2 ^ 32 -> 0 <= i < 256 -> num <> 0 -> entry num (u32 i) = Some (tree 1 num i).
Proof.
  intros Hn Hi N. rewrite u32_small, entry_spec by lia. cbn [tree_block]. destruct (Z.eqb_spec num 0); [done|].
  change (256 ^ Z.of_nat 0) with 1. by rewrite Z.div_1_r.
Qed.

Lemma tree2 num i : 0 <= num < 2 ^ 32 -> 0 <= i < 65536 -> num <> 0 ->
  (single ← entry num (u32 (i / 256)); if single =? 0 then Some 0 else entry single (u32 (i mod 256))) = Some (tree 2 num i).
Proof.
  intros Hn Hi N. rewrite (u32_small (i / 256)), entry_spec by zlia. cbn [tree_block mbind option_bind]. destruct (Z.eqb_spec num 0); [done|].
  change ((1024 / 4) ^ Z.of_nat 1) with 256. change ((1024 / 4) ^ Z.of_nat 0) with 1. rewrite Z.div_1_r.
  pose proof (pointer_range num (i / 256)) as R. set (c := pointer _ _ _ num (i / 256)) in *.
  destruct (Z.eqb_spec c 0) as [->|]; [done|]. rewrite tree1 by (done || zlia). cbn [tree_block].
  destruct (Z.eqb_spec c 0); [done|]. change ((1024 / 4) ^ Z.of_nat 0) with 1. by rewrite Z.div_1_r.
Qed.
End Blocks.

(** Blocks of 1 KiB, on a drive the driver finds. *)
Record volume_ok (l : list disk) (fs_data : filesystem_data) (s_block : ext2_super_block) (d : disk) : Prop := VolumeOk {
  vo_bs : log_block_size s_block = 0;
  vo_disk : find_disk l (disk_number fs_data) = Some d;
  vo_start : 0 <= start_offset fs_data < 2 ^ 62;
  vo_sector : start_offset fs_data mod 512 = 0;
}.

Lemma vo_size l fs_data s_block d : volume_ok l fs_data s_block d -> s_block_get_block_size s_block = 1024.
Proof. intros H. unfold s_block_get_block_size. by rewrite (vo_bs _ _ _ _ H). Qed.

Lemma vo_ok l fs_data s_block d : volume_ok l fs_data s_block d -> block_size_ok s_block.
Proof. intros H. unfold block_size_ok. rewrite (vo_bs _ _ _ _ H). lia. Qed.

Lemma file_block_range fs_data d bl n : (forall k, 0 <= nthZ bl k < 2 ^ 32) -> 0 <= file_block fs_data d 1024 bl n < 2 ^ 32.
Proof.
  intros Hb. unfold file_block. repeat (destruct (_ <? _)); try apply tree_range; try apply Hb. lia.
Qed.

Lemma block_offset_addr fs_data b : 0 <= start_offset fs_data < 2 ^ 62 -> 0 <= b < 2 ^ 32 ->
  block_offset fs_data b 1024 = if b =? 0 then 0 else block_addr fs_data 1024 b.
Proof.
  intros Hs Hb. unfold block_offset, block_addr, volume. destruct (Z.eqb_spec b 0); [done|].
  rewrite u64_small by lia. lia.
Qed.

Lemma nth_block_spec l slack fs_data s_block d ino inode n :
  volume_ok l fs_data s_block d -> 0 <= n ->
  ext2_read_inode_metadata l slack fs_data s_block ino = Some inode ->
  (forall k, 0 <= nthZ (i_block inode) k < 2 ^ 32) ->
  ext2_get_nth_block_offset_of_inode l slack fs_data s_block ino n =
  let b := file_block fs_data d 1024 (i_block inode) n in
  Some (if b =? 0 then 0 else block_addr fs_data 1024 b).
Proof.
  intros Hv Hn Hino Hb. cbv zeta. rewrite <- block_offset_addr by (apply Hv || by apply file_block_range).
  pose proof (vo_disk _ _ _ _ Hv) as Hd. pose proof (vo_start _ _ _ _ Hv) as Hs. pose proof (vo_sector _ _ _ _ Hv) as Hsec.
  unfold ext2_get_nth_block_offset_of_inode, file_block. rewrite Hino, (vo_size _ _ _ _ Hv). cbn [mbind option_bind].
  change (u64 (1024 / 4 * (1024 / 4))) with 65536. change (u64 (65536 * (1024 / 4))) with (256 ^ 3).
  change (u32 (1024 / 4)) with 256. change (1024 / 4) with 256. change (256 ^ 2) with 65536.
  destruct (Z.ltb_spec n 12); [done|].
  destruct (Z.ltb_spec (n - 12) 256).
  { destruct (Z.eqb_spec (nthZ (i_block inode) 12) 0) as [E|E]; [by rewrite E|].
    by rewrite (tree1 l slack fs_data d) by (done || lia). }
  destruct (Z.ltb_spec (n - 12 - 256) 65536).
  { destruct (Z.eqb_spec (nthZ (i_block inode) 13) 0) as [E|E]; [by rewrite E|].
    pose proof (tree2 l slack fs_data d Hd Hs Hsec (nthZ (i_block inode) 13) (n - 12 - 256) (Hb 13) ltac:(lia) E) as T.
    destruct (get_indirect_block_entry _ _ _ _ _ (u32 ((n - 12 - 256) / 256))) as [single|]; [|done].
    cbn [mbind option_bind] in *. destruct (single =? 0); [|by rewrite T].
    by assert (tree_block fs_data d 1024 2 (nthZ (i_block inode) 13) (n - 12 - 256) = 0) as -> by congruence. }
  destruct (Z.ltb_spec (n - 12 - 256 - 65536) (256 ^ 3)); [|done].
  destruct (Z.eqb_spec (nthZ (i_block inode) 14) 0) as [E|E]; [by rewrite E|].
  set (i := n - 12 - 256 - 65536) in *. rewrite (u32_small (i / 65536)) by zlia.
  rewrite (entry_spec l slack fs_data d) by (done || zlia). rewrite (proj2 (Z.eqb_neq _ _) E). cbn [mbind option_bind].
  change (tree_block fs_data d 1024 3 (nthZ (i_block inode) 14) i) with
    (if nthZ (i_block inode) 14 =? 0 then 0 else
     tree_block fs_data d 1024 2 (pointer fs_data d 1024 (nthZ (i_block inode) 14) (i / 65536)) (i mod 65536)).
  rewrite (proj2 (Z.eqb_neq _ _) E). pose proof (pointer_range fs_data d (nthZ (i_block inode) 14) (i / 65536)) as R.
  set (c := pointer _ _ _ _ (i / 65536)) in *. destruct (Z.eqb_spec c 0) as [->|Nc]; [done|].
  rewrite (u32_small (i mod 65536)) by zlia.
  pose proof (tree2 l slack fs_data d Hd Hs Hsec c (i mod 65536) R ltac:(zlia) Nc) as T.
  rewrite (u32_small (_ / 256)), (u32_small (_ mod 256)) in T by zlia.
  destruct (get_indirect_block_entry _ _ _ _ _ (_ / 256)) as [single|]; [|done].
  cbn [mbind option_bind] in *. destruct (single =? 0); [|by rewrite T].
  by assert (tree_block fs_data d 1024 2 c (i mod 65536) = 0) as -> by congruence.
Qed.

(** ** File contents *)

Lemma indices_split n k : 0 <= n -> 0 <= k -> indices (n + k) = indices n ++ map (Z.add n) (indices k).
Proof.
  intros Hn Hk. unfold indices. rewrite Z2Nat.inj_add, seq_app, map_app by lia. f_equal.
  rewrite map_map. apply list_eq. intros i.
  destruct (decide (i < Z.to_nat k)%nat).
  - rewrite !list_lookup_fmap, !lookup_seq_lt by lia. simpl. f_equal. lia.
  - rewrite !lookup_ge_None_2; [done|rewrite length_map, length_seq; lia..].
Qed.

(** A file's data on a drive: the numbers of its blocks [0 .. last] are
    [blocks], none of them a hole. *)
Record on_disk (l : list disk) (fs_data : filesystem_data) (s_block : ext2_super_block)
    (d : disk) (inode : ext2_inode) (blocks : Z -> Z) (last : Z) : Prop := {
  od_volume : volume_ok l fs_data s_block d;
  od_words : forall k, 0 <= nthZ (i_block inode) k < 2 ^ 32;
  od_blocks : forall n, 0 <= n <= last -> file_block fs_data d 1024 (i_block inode) n = blocks n /\ 0 < blocks n;
}.

(** Where block [n] of the file starts on the drive, and byte [i] of the file. *)
Definition block_start (fs_data : filesystem_data) (s_block : ext2_super_block) (blocks : Z -> Z) (n : Z) : Z :=
  block_addr fs_data (s_block_get_block_size s_block) (blocks n).

Definition file_byte (fs_data : filesystem_data) (s_block : ext2_super_block) (d : disk) (blocks : Z -> Z)
    (i : Z) : Z :=
  let bs := s_block_get_block_size s_block in
  mread (medium d) (block_start fs_data s_block blocks (i / bs) + i mod bs).

(** The byte that a read starting at [offset] delivers at position [j]: the
    block is chosen once per [block_size] bytes counted from [offset]. *)
Definition chunk_byte (fs_data : filesystem_data) (s_block : ext2_super_block) (d : disk) (blocks : Z -> Z)
    (offset j : Z) : Z :=
  let bs := s_block_get_block_size s_block in
  mread (medium d) (block_start fs_data s_block blocks (offset / bs + j / bs) + offset mod bs + j mod bs).

Section Content.
Context (l : list disk) (slack : Z -> Z) (fs_data : filesystem_data) (s_block : ext2_super_block).
Context (d : disk) (ino : Z) (inode : ext2_inode) (blocks : Z -> Z) (last : Z).
Hypothesis Hod : on_disk l fs_data s_block d inode blocks last.
Hypothesis Hino : ext2_read_inode_metadata l slack fs_data s_block ino = Some inode.

Abbreviation bs := (s_block_get_block_size s_block).
Abbreviation start := (block_start fs_data s_block blocks).

Lemma block_start_range n : 0 <= n <= last -> 0 <= start n < 2 ^ 63 /\ start n mod 512 = 0.
Proof.
  intros Hn. destruct Hod as [Hv Hw H4]. destruct (H4 n Hn) as [Hb Hb0].
  pose proof (file_block_range fs_data d (i_block inode) n Hw) as Hr. rewrite Hb in Hr.
  pose proof (vo_start _ _ _ _ Hv). pose proof (vo_sector _ _ _ _ Hv).
  unfold block_start, block_addr, volume. rewrite (vo_size _ _ _ _ Hv). split; [lia|zlia].
Qed.

Lemma nth_block_on_disk n : 0 <= n <= last ->
  ext2_get_nth_block_offset_of_inode l slack fs_data s_block ino n = Some (start n).
Proof.
  intros Hn. destruct Hod as [Hv Hw H4]. destruct (H4 n Hn) as [Hb Hb0].
  rewrite (nth_block_spec l slack fs_data s_block d ino inode n) by (done || lia). cbv zeta. rewrite Hb.
  destruct (Z.eqb_spec (blocks n) 0); [lia|]. unfold block_start. by rewrite (vo_size _ _ _ _ Hv).
Qed.

(** One transfer of the loop. *)
Lemma read_chunk cur size :
  0 <= cur -> cur / bs <= last -> cur mod 512 = 0 -> 0 <= size ->
  read_disk l slack (disk_number fs_data) (u64 (start (cur / bs) + cur mod bs)) size =
  Some (disk_bytes d (start (cur / bs) + cur mod bs) size).
Proof.
  intros Hc Hl Hal Hs. destruct (block_size_range _ (vo_ok _ _ _ _ (od_volume _ _ _ _ _ _ _ Hod))) as (Hr & Hm & _).
  pose proof (Z.mod_pos_bound cur bs ltac:(lia)).
  destruct (block_start_range (cur / bs)) as [Hst Hst2]; [split; [apply Z.div_pos; lia|done]|].
  assert ((start (cur / bs) + cur mod bs) mod 512 = 0) as Hmod.
  { rewrite Z.add_mod, Hst2 by lia. rewrite Z.add_0_l, Z.mod_mod by lia.
    apply Z.mod_divide; [lia|]. rewrite Z.mod_eq by lia. apply Z.divide_sub_r.
    - by apply Z.mod_divide.
    - apply Z.divide_mul_l. by apply Z.mod_divide. }
  rewrite u64_small by lia. apply read_disk_eq; [apply Hod.(od_volume _ _ _ _ _ _ _)|lia|done|].
  rewrite Hmod. pose proof (upper_divide_bound size 512). lia.
Qed.

Lemma read_inode_loop_spec fuel cur fin out :
  0 <= cur <= fin + 1 -> fin / bs <= last -> fin < 2 ^ 62 -> cur mod 512 = 0 ->
  fin + 1 - cur <= Z.of_nat fuel * bs ->
  read_inode_loop l slack fuel fs_data s_block ino cur fin out =
  Some (out ++ map (chunk_byte fs_data s_block d blocks cur) (indices (fin + 1 - cur)), fin + 1).
Proof.
  destruct (block_size_range _ (vo_ok _ _ _ _ (od_volume _ _ _ _ _ _ _ Hod))) as (Hr & Hm & _).
  revert cur out. induction fuel as [|fuel IH]; intros cur out Hc Hl Hfin Hal Hfuel;
    cbn [read_inode_loop]; (destruct (Z.ltb_spec fin cur) as [Hlt|Hlt];
    [replace (fin + 1 - cur) with 0 by lia; simpl; rewrite app_nil_r; do 2 f_equal; lia|]); [lia|].
  assert (cur / bs <= last) by (transitivity (fin / bs); [apply Z.div_le_mono; lia|done]).
  rewrite nth_block_on_disk by (split; [apply Z.div_pos; lia|done]). cbn [mbind option_bind].
  assert (forall n, 0 <= n <= bs -> disk_bytes d (start (cur / bs) + cur mod bs) n =
    map (chunk_byte fs_data s_block d blocks cur) (indices n)) as Hchunk.
  { intros n Hn. unfold disk_bytes. apply map_indices_ext. intros i Hi. unfold chunk_byte.
    rewrite (Z.div_small i bs), (Z.mod_small i bs), Z.add_0_r by lia. f_equal. }
  unfold MIN. destruct (Z.ltb_spec bs (fin - cur + 1)).
  - rewrite read_chunk by lia. cbn [mbind option_bind]. rewrite u64_small by lia.
    rewrite IH; [|lia|done|done|rewrite Z.add_mod, Hal, Hm by lia; reflexivity|lia].
    rewrite Hchunk by lia. replace (fin + 1 - cur) with (bs + (fin + 1 - (cur + bs))) by lia.
    rewrite (indices_split bs), map_app, app_assoc by lia. do 3 f_equal.
    rewrite map_map. apply map_indices_ext. intros j Hj. unfold chunk_byte.
    assert (cur + bs = cur + 1 * bs) as -> by lia. rewrite Z.div_add, Z.mod_add by lia.
    assert (bs + j = j + 1 * bs) as -> by lia. rewrite Z.div_add, Z.mod_add by lia.
    do 4 f_equal. lia.
  - rewrite read_chunk by lia. cbn [mbind option_bind]. rewrite u64_small by lia.
    replace (cur + (fin - cur + 1)) with (fin + 1) by lia.
    replace (fin - cur + 1) with (fin + 1 - cur) by lia. rewrite Hchunk by lia.
    destruct fuel; cbn [read_inode_loop]; (destruct (Z.ltb_spec fin (fin + 1)); [done|lia]).
Qed.

(** An aligned chunk is the file's own. *)
Lemma chunk_byte_aligned offset j :
  offset mod bs = 0 -> chunk_byte fs_data s_block d blocks offset j = file_byte fs_data s_block d blocks (offset + j).
Proof.
  intros Ho. destruct (block_size_range _ (vo_ok _ _ _ _ (od_volume _ _ _ _ _ _ _ Hod))) as (Hr & _).
  unfold chunk_byte, file_byte. assert (offset = offset / bs * bs) as E by (pose proof (Z.div_mod offset bs); lia).
  rewrite Ho, Z.add_0_r. rewrite E at 2 3. rewrite (Z.add_comm _ j), Z.div_add, Z.mod_add by lia.
  do 3 f_equal. lia.
Qed.

(** A read inside one sector is one transfer. *)
Lemma read_inode_loop_small fuel cur fin :
  0 <= cur <= fin -> fin / bs <= last -> fin < 2 ^ 62 -> cur mod 512 + (fin + 1 - cur) <= 512 -> (1 <= fuel)%nat ->
  read_inode_loop l slack fuel fs_data s_block ino cur fin [] =
  Some (map (fun j => file_byte fs_data s_block d blocks (cur + j)) (indices (fin + 1 - cur)), fin + 1).
Proof.
  intros Hc Hl Hfin Hn Hf. destruct (block_size_range _ (vo_ok _ _ _ _ (od_volume _ _ _ _ _ _ _ Hod))) as (Hr & Hm & _).
  destruct fuel as [|fuel]; [lia|]. cbn [read_inode_loop]. destruct (Z.ltb_spec fin cur); [lia|].
  assert (Hcl : cur / bs <= last) by (transitivity (fin / bs); [apply Z.div_le_mono; lia|done]).
  assert (Hmod : (cur mod bs) mod 512 = cur mod 512).
  { apply Z.mod_divide in Hm as [k Hk]; [|lia]. rewrite Hk. rewrite (Z.mul_comm k). rewrite Z.rem_mul_r by lia.
    rewrite (Z.mul_comm 512), Z.mod_add, Z.mod_mod by lia. done. }
  assert (Hin : cur mod bs + (fin + 1 - cur) <= bs).
  { pose proof (Z.div_mod (cur mod bs) 512 ltac:(lia)). pose proof (Z.mod_pos_bound cur bs ltac:(lia)).
    apply Z.mod_divide in Hm as [k Hk]; [|lia]. assert (cur mod bs / 512 < k) by (apply Z.div_lt_upper_bound; lia). nia. }
  rewrite nth_block_on_disk by (split; [apply Z.div_pos; lia|done]). cbn [mbind option_bind].
  destruct (block_start_range (cur / bs)) as [Hst Hst2]; [split; [apply Z.div_pos; lia|done]|].
  pose proof (Z.mod_pos_bound cur bs ltac:(lia)). rewrite (u64_small (start (cur / bs) + cur mod bs)) by lia.
  unfold MIN. destruct (Z.ltb_spec bs (fin - cur + 1)); [lia|].
  rewrite (read_disk_eq _ _ _ _ _ d); [|apply Hod.(od_volume _ _ _ _ _ _ _)|lia|lia|].
  2: { rewrite Z.add_mod, Hst2, Hmod, Z.add_0_l, Z.mod_mod by lia. pose proof (upper_divide_bound (fin - cur + 1) 512).
       unfold UPPER_DIVIDE in *. assert (1 <= (fin - cur + 1 + 512 - 1) / 512) by (apply Z.div_le_lower_bound; lia). lia. }
  cbn [mbind option_bind app]. rewrite (u64_small (cur + (fin - cur + 1))) by lia.
  replace (cur + (fin - cur + 1)) with (fin + 1) by lia. replace (fin - cur + 1) with (fin + 1 - cur) by lia.
  assert (Hb : disk_bytes d (start (cur / bs) + cur mod bs) (fin + 1 - cur) =
    map (fun j => file_byte fs_data s_block d blocks (cur + j)) (indices (fin + 1 - cur))).
  { unfold disk_bytes. apply map_indices_ext. intros j Hj. unfold file_byte.
    assert ((cur + j) / bs = cur / bs /\ (cur + j) mod bs = cur mod bs + j) as [-> ->].
    { pose proof (Z.div_mod cur bs ltac:(lia)). split; [symmetry; apply (Z.div_unique _ _ _ (cur mod bs + j)); lia|].
      symmetry; apply (Z.mod_unique _ _ (cur / bs)); lia. }
    by rewrite Z.add_assoc. }
  rewrite Hb. destruct fuel; cbn [read_inode_loop]; (destruct (Z.ltb_spec fin (fin + 1)); [done|lia]).
Qed.
End Content.

Definition inode_file_size (inode : ext2_inode) : Z := Z.lor (Z.shiftl (i_dir_acl inode) 32) (i_size inode).

Lemma read_inode_spec l slack fs_data s_block d ino inode blocks size fuel offset count :
  ext2_read_inode_metadata l slack fs_data s_block ino = Some inode ->
  inode_file_size inode = size -> size < 2 ^ 62 ->
  on_disk l fs_data s_block d inode blocks ((size - 1) / s_block_get_block_size s_block) ->
  0 <= offset < size -> offset mod 512 = 0 -> 0 < count < 2 ^ 62 ->
  size <= Z.of_nat fuel * s_block_get_block_size s_block ->
  ext2_read_inode l slack fuel fs_data s_block ino offset count =
  Some (map (chunk_byte fs_data s_block d blocks offset) (indices (Z.min size (offset + count) - offset)),
        Z.min size (offset + count) - offset).
Proof.
  intros Hino Hsz Hszb Hod Ho Hal Hc Hf. set (n := _ - offset).
  unfold ext2_read_inode, ext2_get_inode_size. rewrite Hino.
  cbn [mbind option_bind]. fold (inode_file_size inode). rewrite Hsz.
  destruct (block_size_range _ (vo_ok _ _ _ _ (od_volume _ _ _ _ _ _ _ Hod))) as (Hr & Hm & _).
  assert (u64 (MIN size (u64 (offset + count)) - 1) = offset + n - 1) as ->.
  { rewrite (u64_small (offset + count)) by lia. unfold MIN, n.
    destruct (Z.ltb_spec size (offset + count)); rewrite u64_small; lia. }
  rewrite (read_inode_loop_spec l slack fs_data s_block d ino inode blocks ((size - 1) / s_block_get_block_size s_block));
    [|done|done|lia|apply Z.div_le_mono; lia|lia|done|lia].
  cbn [mbind option_bind]. rewrite u64_small by lia.
  by replace (offset + n - 1 + 1 - offset) with n by lia.
Qed.

Lemma read_inode_small l slack fs_data s_block d ino inode blocks size fuel offset count :
  ext2_read_inode_metadata l slack fs_data s_block ino = Some inode ->
  inode_file_size inode = size -> size < 2 ^ 62 ->
  on_disk l fs_data s_block d inode blocks ((size - 1) / s_block_get_block_size s_block) ->
  0 <= offset < size -> 0 < count < 2 ^ 62 -> (1 <= fuel)%nat ->
  let n := Z.min size (offset + count) - offset in offset mod 512 + n <= 512 ->
  ext2_read_inode l slack fuel fs_data s_block ino offset count =
  Some (map (fun j => file_byte fs_data s_block d blocks (offset + j)) (indices n), n).
Proof.
  intros Hino Hsz Hszb Hod Ho Hc Hf n Hn. unfold ext2_read_inode, ext2_get_inode_size. rewrite Hino.
  cbn [mbind option_bind]. fold (inode_file_size inode). rewrite Hsz.
  destruct (block_size_range _ (vo_ok _ _ _ _ (od_volume _ _ _ _ _ _ _ Hod))) as (Hr & Hm & _).
  assert (u64 (MIN size (u64 (offset + count)) - 1) = offset + n - 1) as ->.
  { rewrite (u64_small (offset + count)) by lia. unfold MIN, n.
    destruct (Z.ltb_spec size (offset + count)); rewrite u64_small; lia. }
  rewrite (read_inode_loop_small l slack fs_data s_block d ino inode blocks ((size - 1) / s_block_get_block_size s_block));
    [|done|done|lia|apply Z.div_le_mono; lia|lia|lia|done].
  cbn [mbind option_bind]. replace (offset + n - 1 + 1 - offset) with n by lia. by rewrite u64_small by lia.
Qed.

Lemma sector_of_block bs offset :
  1024 <= bs <= 65536 -> bs mod 512 = 0 -> offset mod bs = 0 -> offset mod 512 = 0.
Proof.
  intros Hr Hm Hal. apply Z.mod_divide in Hal; [|lia]. apply Z.mod_divide in Hm; [|lia].
  apply Z.mod_divide; [lia|]. by apply Z.divide_trans with bs.
Qed.

(** ** Directories as lists of entries *)

Record dirent := Dirent { d_inode : Z; d_type : Z; d_name : list Z; d_pad : list Z }.

(** The record of ext2: inode, record length, name length, type, name, padding. *)
Definition encode_dirent (e : dirent) : list Z :=
  le_bytes 4 (d_inode e) ++ le_bytes 2 (8 + zlen (d_name e) + zlen (d_pad e)) ++
  [zlen (d_name e); d_type e] ++ d_name e ++ d_pad e.

Definition encode_dir (es : list dirent) : list Z := concat (map encode_dirent es).

Definition dirent_ok (e : dirent) : Prop :=
  0 <= d_inode e < 2 ^ 32 /\ 0 <= d_type e < 256 /\ zlen (d_name e) < 256 /\
  8 + zlen (d_name e) + zlen (d_pad e) < 65536 /\ Forall (fun c => 0 < c < 256) (d_name e).

(** What the driver's fixed part of such an entry is. *)
Definition header_of (e : dirent) : ext2_dir_entry :=
  DirEntry (d_inode e) (8 + zlen (d_name e) + zlen (d_pad e)) (zlen (d_name e)) (d_type e).

(** The comparison of the lookup: equal as far as the shorter of the two goes. *)
Definition compatible (name e_name : list Z) : bool :=
  let n := Nat.min (length e_name) (length name) in bool_decide (take n name = take n e_name).

Lemma field_app pre n v rest : 0 <= v < 256 ^ Z.of_nat n ->
  field (pre ++ le_bytes n v ++ rest) (length pre) n = v.
Proof. intros Hv. unfold field. rewrite drop_app_length. by apply le_list_le_bytes. Qed.

Lemma field_byte pre x rest : field (pre ++ x :: rest) (length pre) 1 = x.
Proof. unfold field. rewrite drop_app_length. simpl. lia. Qed.

Lemma length_encode e : length (encode_dirent e) = Z.to_nat (8 + zlen (d_name e) + zlen (d_pad e)).
Proof.
  unfold encode_dirent. rewrite !length_app, !length_le_bytes. simpl. unfold zlen. lia.
Qed.

Lemma parse_encoded pre e rest :
  dirent_ok e -> parse_dir_entry (pre ++ encode_dirent e ++ rest) (length pre) = header_of e.
Proof.
  intros (Hi & Ht & Hn & Hs & _). pose proof (zlen_nonneg (d_name e)). pose proof (zlen_nonneg (d_pad e)).
  unfold parse_dir_entry, header_of, encode_dirent. rewrite <- !app_assoc.
  set (b4 := le_bytes 4 (d_inode e)). set (b2 := le_bytes 2 _).
  f_equal.
  - apply field_app. simpl; lia.
  - replace (length pre + 4)%nat with (length (pre ++ b4)) by (rewrite length_app; unfold b4; by rewrite length_le_bytes).
    rewrite app_assoc. apply field_app. simpl; lia.
  - replace (length pre + 6)%nat with (length (pre ++ b4 ++ b2))
      by (rewrite !length_app; unfold b4, b2; by rewrite !length_le_bytes).
    replace (pre ++ b4 ++ b2 ++ [zlen (d_name e); d_type e] ++ d_name e ++ d_pad e ++ rest)
      with ((pre ++ b4 ++ b2) ++ zlen (d_name e) :: d_type e :: d_name e ++ d_pad e ++ rest)
      by (by rewrite <- !app_assoc). apply field_byte.
  - replace (length pre + 7)%nat with (length (pre ++ b4 ++ b2 ++ [zlen (d_name e)]))
      by (rewrite !length_app; unfold b4, b2; rewrite !length_le_bytes; simpl; lia).
    replace (pre ++ b4 ++ b2 ++ [zlen (d_name e); d_type e] ++ d_name e ++ d_pad e ++ rest)
      with ((pre ++ b4 ++ b2 ++ [zlen (d_name e)]) ++ d_type e :: d_name e ++ d_pad e ++ rest)
      by (by rewrite <- !app_assoc). apply field_byte.
Qed.

Lemma drop_encoded pre e rest :
  drop (length pre + 8) (pre ++ encode_dirent e ++ rest) = d_name e ++ d_pad e ++ rest.
Proof.
  unfold encode_dirent. rewrite <- drop_drop, drop_app_length.
  change 8%nat with (length (le_bytes 4 (d_inode e) ++ le_bytes 2 (8 + zlen (d_name e) + zlen (d_pad e)) ++
    [zlen (d_name e); d_type e])).
  rewrite <- !app_assoc. simpl. done.
Qed.

Lemma strn_eq_take n x y :
  (n <= length x)%nat -> (n <= length y)%nat -> Forall (fun c => 0 < c) (take n y) ->
  strn_eq n x y = bool_decide (take n x = take n y).
Proof.
  revert x y. induction n as [|n IH]; intros x y Hx Hy Hp; [done|].
  destruct x as [|a x], y as [|b y]; simpl in *; try lia. apply list.Forall_cons in Hp as [Hb Hp].
  destruct (Z.eqb_spec a 0), (Z.eqb_spec b 0); simpl; try lia;
    (destruct (Z.eqb_spec a b) as [->|Hne];
     [rewrite IH by (done || lia); apply bool_decide_ext; split; congruence|
      symmetry; apply bool_decide_eq_false_2; congruence]).
Qed.

(** The comparison against an entry in place. *)
Lemma strn_eq_entry e rest (p seg : list Z) k :
  dirent_ok e -> p = seg ++ k ->
  strn_eq (Z.to_nat (MIN (zlen (d_name e)) (zlen seg))) p (d_name e ++ d_pad e ++ rest) = compatible seg (d_name e).
Proof.
  intros (_ & _ & _ & _ & Hn) ->. unfold MIN, compatible, zlen.
  assert (Z.to_nat (if Z.of_nat (length (d_name e)) <? Z.of_nat (length seg)
    then Z.of_nat (length (d_name e)) else Z.of_nat (length seg)) = Nat.min (length (d_name e)) (length seg)) as ->.
  { destruct (Z.ltb_spec (Z.of_nat (length (d_name e))) (Z.of_nat (length seg))); lia. }
  set (n := Nat.min _ _). assert (n <= length (d_name e) /\ n <= length seg)%nat as [H1 H2] by lia.
  rewrite strn_eq_take.
  - by rewrite !take_app_le by done.
  - rewrite length_app. lia.
  - rewrite length_app. lia.
  - rewrite take_app_le by done. apply Forall_take. eapply list.Forall_impl; [exact Hn|]. simpl. lia.
Qed.

(** The scan finds the first entry whose name is compatible. *)
Lemma find_in_dir_spec fuel pre es behind p seg k :
  Forall dirent_ok es -> p = seg ++ k -> (length es <= fuel)%nat ->
  find_in_dir fuel (pre ++ encode_dir es ++ behind) (Z.of_nat (length (pre ++ encode_dir es))) (length pre) p (zlen seg) =
  Some (match list_find (fun e => compatible seg (d_name e)) es with
        | Some (_, e) => header_of e | None => zero_dir_entry end).
Proof.
  intros Hok Hp. revert pre fuel. induction Hok as [|e es He Hok IH]; intros pre fuel Hf.
  - destruct fuel; cbn [find_in_dir]; rewrite length_app; simpl;
      (destruct (Z.ltb_spec (Z.of_nat (length pre) + 1) (Z.of_nat (length pre + 0))); [lia|done]).
  - destruct fuel as [|fuel]; [simpl in Hf; lia|]. cbn [find_in_dir].
    assert (encode_dir (e :: es) = encode_dirent e ++ encode_dir es) as -> by done.
    pose proof (zlen_nonneg (d_name e)). pose proof (zlen_nonneg (d_pad e)).
    pose proof (length_encode e) as Hlen.
    destruct (Z.ltb_spec (Z.of_nat (length pre) + 1)
      (Z.of_nat (length (pre ++ encode_dirent e ++ encode_dir es)))) as [_|Hbad];
      [|rewrite !length_app in Hbad; lia].
    rewrite <- (app_assoc (encode_dirent e)). rewrite parse_encoded, drop_encoded by done.
    cbn [name_length header_of size_of_entry]. rewrite (strn_eq_entry e _ p seg k) by done.
    cbn [list_find]. destruct (compatible seg (d_name e)) eqn:E.
    + done.
    + rewrite <- Hlen.
      specialize (IH (pre ++ encode_dirent e) fuel ltac:(simpl in Hf; lia)).
      rewrite !length_app, <- !app_assoc in IH. rewrite !length_app, Nat.add_assoc. rewrite IH.
      by destruct (list_find _ es) as [[? ?]|].
Qed.

Lemma list_entries_spec fuel pre es behind ret :
  Forall dirent_ok es -> (length es <= fuel)%nat ->
  list_entries fuel (pre ++ encode_dir es ++ behind) (Z.of_nat (length (pre ++ encode_dir es))) (length pre) ret =
  Some (reverse (map d_name es) ++ ret).
Proof.
  intros Hok. revert pre fuel ret. induction Hok as [|e es He Hok IH]; intros pre fuel ret Hf.
  - destruct fuel; cbn [list_entries]; rewrite length_app; simpl;
      (destruct (Z.ltb_spec (Z.of_nat (length pre) + 1) (Z.of_nat (length pre + 0))); [lia|done]).
  - destruct fuel as [|fuel]; [simpl in Hf; lia|]. cbn [list_entries].
    assert (encode_dir (e :: es) = encode_dirent e ++ encode_dir es) as -> by done.
    pose proof (zlen_nonneg (d_name e)). pose proof (zlen_nonneg (d_pad e)).
    pose proof (length_encode e) as Hlen.
    destruct (Z.ltb_spec (Z.of_nat (length pre) + 1)
      (Z.of_nat (length (pre ++ encode_dirent e ++ encode_dir es)))) as [_|Hbad];
      [|rewrite !length_app in Hbad; lia].
    rewrite <- (app_assoc (encode_dirent e)). rewrite parse_encoded by done.
    unfold dir_entry_name. rewrite drop_encoded. cbn [name_length header_of size_of_entry].
    replace (Z.to_nat (zlen (d_name e))) with (length (d_name e)) by (unfold zlen; lia).
    rewrite take_app_length, <- Hlen.
    specialize (IH (pre ++ encode_dirent e) fuel (d_name e :: ret) ltac:(simpl in Hf; lia)).
    rewrite !length_app, <- !app_assoc in IH. rewrite !length_app, Nat.add_assoc. rewrite IH.
    cbn [map]. by rewrite reverse_cons, <- app_assoc.
Qed.

(** ** Theorems *)

(** C38: on a volume of 1 KiB blocks, with the superblock at a sector boundary,
    the lookup of a file's n-th block is the ext2 layout's: the n-th block number
    is direct for the first twelve blocks, and otherwise found through one, two
    or three levels of pointer blocks, each read as an array of little-endian
    32-bit numbers at its own place on the volume; the answer is where that
    block lies on the drive, and 0 for a hole anywhere on the way and for
    indices past the last tree.  (The driver's block address is right for 1 KiB
    blocks only: see [direct_block_short].) *)
Theorem nth_block_follows_tree l slack fs_data s_block d ino inode n :
  volume_ok l fs_data s_block d -> 0 <= n ->
  ext2_read_inode_metadata l slack fs_data s_block ino = Some inode ->
  (forall k, 0 <= nthZ (i_block inode) k < 2 ^ 32) ->
  ext2_get_nth_block_offset_of_inode l slack fs_data s_block ino n =
  let b := file_block fs_data d 1024 (i_block inode) n in
  Some (if b =? 0 then 0 else block_addr fs_data 1024 b).
Proof. apply nth_block_spec. Qed.

(** Fact: for larger blocks the driver's address of a direct block is too low, by
    the difference to 1 KiB. *)
Theorem direct_block_short l slack fs_data s_block ino inode n :
  block_size_ok s_block -> 0 <= start_offset fs_data < 2 ^ 62 ->
  ext2_read_inode_metadata l slack fs_data s_block ino = Some inode ->
  0 <= n < 12 -> 0 < nthZ (i_block inode) n < 2 ^ 32 ->
  let bs := s_block_get_block_size s_block in
  ext2_get_nth_block_offset_of_inode l slack fs_data s_block ino n =
  Some (block_addr fs_data bs (nthZ (i_block inode) n) - (bs - 1024)).
Proof.
  intros Hbs Hs Hino Hn Hb bs. destruct (block_size_range _ Hbs) as (Hr & _). fold bs in Hr.
  unfold ext2_get_nth_block_offset_of_inode. rewrite Hino. cbn [mbind option_bind]. fold bs.
  destruct (Z.ltb_spec n 12); [|lia]. unfold block_offset, block_addr, volume.
  destruct (Z.eqb_spec (nthZ (i_block inode) n) 0); [lia|]. rewrite u64_small by nia. f_equal. lia.
Qed.

(** C37: on a volume of 1 KiB blocks, a read of at least one byte from a block
    boundary before the end of a file without holes returns with the file's
    bytes from there, up to the requested count or the end of the file, and
    their number.  The bytes are those of the ext2 layout: byte [i] is byte
    [i mod 1024] of block [i / 1024] of the file, at that block's place on the
    volume.  (Reading no bytes, an empty file, or from its end on, does not
    return: [ext2_read_empty_file_diverges].) *)
Theorem ext2_read_inode_content l slack fs_data s_block d ino inode blocks size fuel offset count :
  ext2_read_inode_metadata l slack fs_data s_block ino = Some inode ->
  inode_file_size inode = size -> size < 2 ^ 62 ->
  on_disk l fs_data s_block d inode blocks ((size - 1) / s_block_get_block_size s_block) ->
  0 <= offset < size -> offset mod s_block_get_block_size s_block = 0 -> 0 < count < 2 ^ 62 ->
  size <= Z.of_nat fuel * s_block_get_block_size s_block ->
  let n := Z.min size (offset + count) - offset in
  ext2_read_inode l slack fuel fs_data s_block ino offset count =
  Some (map (fun j => file_byte fs_data s_block d blocks (offset + j)) (indices n), n).
Proof.
  intros Hino Hsz Hszb Hod Ho Hal Hc Hf n.
  destruct (block_size_range _ (vo_ok _ _ _ _ (od_volume _ _ _ _ _ _ _ Hod))) as (Hr & Hm & _).
  rewrite (read_inode_spec l slack fs_data s_block d ino inode blocks size) by (done || by apply (sector_of_block _ _ Hr Hm)).
  do 2 f_equal. apply map_indices_ext. intros i Hi. by eapply chunk_byte_aligned.
Qed.

(** Fact: a read that starts inside a block, at a sector boundary, takes a whole
    block's length from there before it looks up the next block: position [j]
    of the result is the byte [offset mod block_size + j mod block_size] after
    the start of a block of the file, which lies past that block's end, in
    whatever block follows it on the drive, when the sum exceeds the block. *)
Theorem ext2_read_inode_unaligned l slack fs_data s_block d ino inode blocks size fuel offset count :
  ext2_read_inode_metadata l slack fs_data s_block ino = Some inode ->
  inode_file_size inode = size -> size < 2 ^ 62 ->
  on_disk l fs_data s_block d inode blocks ((size - 1) / s_block_get_block_size s_block) ->
  0 <= offset < size -> offset mod 512 = 0 -> 0 < count < 2 ^ 62 ->
  size <= Z.of_nat fuel * s_block_get_block_size s_block ->
  let n := Z.min size (offset + count) - offset in
  ext2_read_inode l slack fuel fs_data s_block ino offset count =
  Some (map (chunk_byte fs_data s_block d blocks offset) (indices n), n).
Proof.
  intros Hino Hsz Hszb Hod Ho Hal Hc Hf n. by apply (read_inode_spec l slack fs_data s_block d ino inode blocks size).
Qed.

Lemma read_inode_loop_never l slack fuel fs_data s_block ino cur out :
  0 <= cur < 2 ^ 64 -> read_inode_loop l slack fuel fs_data s_block ino cur (2 ^ 64 - 1) out = None.
Proof.
  revert cur out. induction fuel as [|fuel IH]; intros cur out Hc; cbn [read_inode_loop];
    (destruct (Z.ltb_spec (2 ^ 64 - 1) cur); [lia|]); [done|].
  destruct (ext2_get_nth_block_offset_of_inode _ _ _ _ _ _) as [base|]; [|done]. cbn [mbind option_bind].
  destruct (read_disk _ _ _ _ _) as [bs|]; [|done]. cbn [mbind option_bind].
  apply IH. pose proof (u64_range (cur + MIN (s_block_get_block_size s_block) (2 ^ 64 - 1 - cur + 1))). lia.
Qed.

(** Fact: reading an empty file never returns: the last offset to read is
    computed as the size minus one, which wraps to the largest 64-bit number,
    and no offset is larger. *)
Theorem ext2_read_empty_file_diverges l slack fs_data s_block ino fuel offset count :
  ext2_get_inode_size l slack fs_data s_block ino = Some 0 -> 0 <= offset < 2 ^ 64 ->
  ext2_read_inode l slack fuel fs_data s_block ino offset count = None.
Proof.
  intros Hs Ho. unfold ext2_read_inode. rewrite Hs. cbn [mbind option_bind].
  assert (u64 (MIN 0 (u64 (offset + count)) - 1) = 2 ^ 64 - 1) as ->.
  { unfold MIN. pose proof (u64_range (offset + count)). destruct (Z.ltb_spec 0 (u64 (offset + count))); [done|].
    by replace (u64 (offset + count)) with 0 by lia. }
  by rewrite read_inode_loop_never.
Qed.

(** C39: the lookup of a name in a directory returns the first entry whose name
    agrees with it as far as the shorter of the two goes, and the zero entry
    when there is none: an entry that is a proper prefix of the name looked up,
    or that it is a prefix of, is taken for it when it comes first. *)
Theorem dir_lookup_first_compatible l slack behind fs_data s_block dir fuel es p seg k size :
  Forall dirent_ok es -> p = seg ++ k -> (length es <= fuel)%nat ->
  ext2_get_inode_size l slack fs_data s_block (u64 (s32 dir)) = Some size ->
  ext2_read_inode l slack fuel fs_data s_block (u64 (s32 dir)) 0 size = Some (encode_dir es, zlen (encode_dir es)) ->
  ext2_find_inode_in_dir_by_name l slack behind fuel fs_data s_block dir p (zlen seg) =
  Some (match list_find (fun e => compatible seg (d_name e)) es with
        | Some (_, e) => header_of e | None => zero_dir_entry end).
Proof.
  intros Hes Hp Hf Hs Hr. unfold ext2_find_inode_in_dir_by_name. rewrite Hs. cbn [mbind option_bind].
  rewrite Hr. cbn [mbind option_bind]. by apply (find_in_dir_spec fuel [] es behind p seg k).
Qed.

(** Fact: listing a directory delivers the name of every entry, the last one
    first. *)
Theorem ext2_list_dir_names l slack behind fs_data s_block fuel path dir es size :
  Forall dirent_ok es -> (length es <= fuel)%nat ->
  ext2_read_super_block l slack fs_data = Some s_block ->
  ext2_get_inode_number_at_path l slack behind fuel fs_data s_block path = Some dir -> dir <> 0 ->
  ext2_get_inode_size l slack fs_data s_block dir = Some size ->
  ext2_read_inode l slack fuel fs_data s_block dir 0 size = Some (encode_dir es, zlen (encode_dir es)) ->
  ext2_list_dir l slack behind fuel fs_data path = Some (reverse (map d_name es)).
Proof.
  intros Hes Hf Hsb Hp Hd Hs Hr. unfold ext2_list_dir. rewrite Hsb. cbn [mbind option_bind].
  rewrite Hp. cbn [mbind option_bind]. destruct (Z.eqb_spec dir 0); [done|].
  rewrite Hs. cbn [mbind option_bind]. rewrite Hr. cbn [mbind option_bind].
  pose proof (list_entries_spec fuel [] es behind [] Hes Hf) as H. rewrite app_nil_r in H. exact H.
Qed.

(** ** Witnesses: a small file system *)

Definition demo_dir : list dirent :=
  [Dirent 2 2 [46] [0; 0; 0]; Dirent 2 2 [46; 46] [0; 0];
   Dirent 11 1 [97; 98] [0; 0]; Dirent 12 1 [97; 98; 99] (repeat 0 (1024 - 36 - 11))].

Definition demo_image : mem :=
  let sb := mputs (mputs (mputs (mputs ∅ 0 (le_bytes 4 16)) 40 (le_bytes 4 16)) 56 [0x53; 0xEF]) 88 [128; 0] in
  let bg := mputs sb (1024 + 8) (le_bytes 4 3) in
  let root := mputs (mputs bg (2048 + 128 + 4) (le_bytes 4 1024)) (2048 + 128 + 40) (le_bytes 4 5) in
  let file := mputs (mputs root (2048 + 1280 + 4) (le_bytes 4 1030))
                (2048 + 1280 + 40) (le_bytes 4 6 ++ le_bytes 4 8) in
  let dir := mputs file 4096 (encode_dir demo_dir) in
  mputs (mputs dir (5120 + 1020) [1; 2; 3; 4; 88; 89]) 7168 [5; 6; 7; 8; 9; 10].

Definition demo_fs : filesystem_data := FsData 0 0 0.
Definition demo_drives : list disk := [Disk 0 AHCI_SATA 65536 demo_image].
Definition demo_sb : ext2_super_block := parse_super_block (mbytes demo_image 0 104).
Definition demo_inode : ext2_inode := parse_inode (mbytes demo_image 3328 128).
Definition demo_blocks (n : Z) : Z := if n =? 0 then 6 else 8.

Lemma demo_volume : volume_ok demo_drives demo_fs demo_sb (Disk 0 AHCI_SATA 65536 demo_image).
Proof. by constructor; vm_compute. Qed.

(** Words of an inode are 32 bits wide. *)
Lemma words_ok (bl : list Z) : forallb (fun x => (0 <=? x) && (x <? 2 ^ 32)) bl = true -> forall k, 0 <= nthZ bl k < 2 ^ 32.
Proof.
  intros H k. unfold nthZ. destruct (k <? 0); [lia|]. destruct (bl !! Z.to_nat k) as [x|] eqn:E; cbn; [|lia].
  rewrite forallb_forall in H. apply list_elem_of_lookup_2, list_elem_of_In, H in E. lia.
Qed.

Lemma demo_words : forall k, 0 <= nthZ (i_block demo_inode) k < 2 ^ 32.
Proof. apply words_ok. by vm_compute. Qed.

Lemma demo_on_disk :
  on_disk demo_drives demo_fs demo_sb (Disk 0 AHCI_SATA 65536 demo_image) demo_inode demo_blocks 1.
Proof.
  constructor; [exact demo_volume|exact demo_words|].
  intros n Hn. assert (n = 0 \/ n = 1) as [->| ->] by lia; vm_compute; done.
Qed.

(** Block 12 is behind a pointer block, block 9, whose first entry is 11. *)
Definition tree_image : mem :=
  mputs (mputs demo_image (2048 + 1280 + 40 + 48) (le_bytes 4 9)) 8192 (le_bytes 4 11).

Lemma nth_block_follows_tree_witness :
  ext2_get_nth_block_offset_of_inode [Disk 0 AHCI_SATA 65536 tree_image] (fun _ => 99) demo_fs demo_sb 11 12 = Some 10240.
Proof.
  rewrite (nth_block_follows_tree [Disk 0 AHCI_SATA 65536 tree_image] (fun _ => 99) demo_fs demo_sb (Disk 0 AHCI_SATA 65536 tree_image)
    11 (parse_inode (mbytes tree_image 3328 128)) 12).
  - vm_compute. reflexivity.
  - by constructor; vm_compute.
  - lia.
  - vm_compute. reflexivity.
  - apply words_ok. vm_compute. reflexivity.
Defined.

Lemma ext2_read_inode_content_witness :
  ext2_read_inode demo_drives (fun _ => 99) 2 demo_fs demo_sb 11 1024 100 = Some ([5; 6; 7; 8; 9; 10], 6).
Proof.
  rewrite (ext2_read_inode_content demo_drives (fun _ => 99) demo_fs demo_sb (Disk 0 AHCI_SATA 65536 demo_image)
    11 demo_inode demo_blocks 1030 2 1024 100).
  - vm_compute. reflexivity.
  - vm_compute. reflexivity.
  - vm_compute. reflexivity.
  - lia.
  - exact demo_on_disk.
  - lia.
  - vm_compute. reflexivity.
  - lia.
  - vm_compute. discriminate.
Defined.

(** From offset 512: the 512 bytes of the block, then 6 of its neighbour. *)
Lemma ext2_read_inode_unaligned_witness :
  exists out, ext2_read_inode demo_drives (fun _ => 99) 2 demo_fs demo_sb 11 512 518 = Some (out, 518) /\
    drop 508 out = [1; 2; 3; 4; 88; 89; 0; 0; 0; 0].
Proof.
  eexists. split.
  - apply (ext2_read_inode_unaligned demo_drives (fun _ => 99) demo_fs demo_sb (Disk 0 AHCI_SATA 65536 demo_image)
      11 demo_inode demo_blocks 1030 2 512 518).
    + vm_compute. reflexivity.
    + vm_compute. reflexivity.
    + lia.
    + exact demo_on_disk.
    + lia.
    + reflexivity.
    + lia.
    + vm_compute. discriminate.
  - vm_compute. reflexivity.
Defined.

Lemma ext2_read_empty_file_diverges_witness :
  ext2_read_inode demo_drives (fun _ => 99) 50 demo_fs demo_sb 12 0 10 = None.
Proof.
  apply (ext2_read_empty_file_diverges demo_drives (fun _ => 99) demo_fs demo_sb 12 50 0 10);
    [vm_compute; reflexivity|lia].
Defined.

Lemma demo_dir_ok : Forall dirent_ok demo_dir.
Proof. repeat constructor; vm_compute; (done || discriminate). Qed.

(** "abc" is looked up and the entry "ab" is returned. *)
Lemma dir_lookup_first_compatible_witness :
  ext2_find_inode_in_dir_by_name demo_drives (fun _ => 99) [] 4 demo_fs demo_sb 2 [97; 98; 99] 3 =
  Some (DirEntry 11 12 2 1).
Proof.
  refine (eq_trans (dir_lookup_first_compatible demo_drives (fun _ => 99) [] demo_fs demo_sb 2 4 demo_dir
    [97; 98; 99] [97; 98; 99] [] 1024 demo_dir_ok eq_refl _ _ _) _).
  - simpl. lia.
  - vm_compute. reflexivity.
  - vm_compute. reflexivity.
  - vm_compute. reflexivity.
Defined.

Lemma ext2_list_dir_names_witness :
  ext2_list_dir demo_drives (fun _ => 99) [] 4 demo_fs [47] = Some [[97; 98; 99]; [97; 98]; [46; 46]; [46]].
Proof.
  rewrite (ext2_list_dir_names demo_drives (fun _ => 99) [] demo_fs demo_sb 4 [47] 2 demo_dir 1024).
  - reflexivity.
  - exact demo_dir_ok.
  - simpl. lia.
  - vm_compute. reflexivity.
  - reflexivity.
  - lia.
  - vm_compute. reflexivity.
  - vm_compute. reflexivity.
Defined.
