(* ===== verification/Vfs.v ===== *)
(** * Vfs: kernel/arch/x86_64/vfs.c

    The tree of mount points.  Nodes live in a store addressed by pointers, as
    vfs_node structs do on the heap; a directory's data is the list of its
    children's pointers, newest first (append_node), a mounted file system's is
    its filesystem_data.  Path strings are lists of characters.

    vfs_get_node moves its position one past the terminator of the path after
    the last segment and tests the byte there; [after] is what memory holds
    there, as the NUL-terminated strings that follow one another.  Releasing
    the searched path is part of every result: the callers free it whatever
    vfs_get_node did with it. *)

From S2P Require Import Prelude Mem CStdlib CString Path Disk Ext2.

Definition VFS_NODE_NAME_NUM_OF_CHARS : nat := 256.

Definition EXT2_S_IFDIR : Z := 0x4000.
Definition EXT2_S_IFREG : Z := 0x8000.
Definition EXT2_S_IFMT : Z := 0xF000.

Definition FILESYSTEM_TYPE_EXT2 : Z := 0.
Definition FILESYSTEM_TYPE_UNKNOWN : Z := 1.

Inductive vfs_status :=
  | OK | CONTINUES_IN_FILE_SYSTEM | DIR_ALREADY_EXISTS | UNSUPPORTED | INVALID_PATH | NO_DIR | MEMORY_ERR.

Inductive vfs_node_type :=
  | UNWNOWN_TYPE | VFS_NODE_TYPE_REGULAR_FILE | VFS_NODE_TYPE_DIR | VFS_NODE_TYPE_CHAR_DEVICE
  | VFS_NODE_TYPE_BLOCK_DEVICE | VFS_NODE_TYPE_FIFO | VFS_NODE_TYPE_SOCKET | VFS_NODE_TYPE_SYMBOLINK
  | VFS_NODE_TYPE_FILE_SYSTEM.

#[export] Instance vfs_status_eq : EqDecision vfs_status.
Proof. solve_decision. Defined.
#[export] Instance vfs_node_type_eq : EqDecision vfs_node_type.
Proof. solve_decision. Defined.
#[export] Instance filesystem_data_eq : EqDecision filesystem_data.
Proof. solve_decision. Defined.

(** What the void pointer [data] refers to; NULL is the empty list. *)
Inductive node_data :=
  | Children (l : list Z)
  | Mounted (fs : filesystem_data).

Record vfs_node := Node { type : vfs_node_type; name : list Z; data : node_data }.

Record vfs := Vfs { nodes : gmap Z vfs_node; vfs_root : Z; next_node : Z }.

(** The searched path: allocated, already released, or never assigned. *)
Inductive path_state := Live | Freed | Uninitialised.

Record vfs_get_node_return_t := GetNode {
  found_node : option Z; remaining_path : option (list Z); status : vfs_status; path_searched : path_state;
}.

Inductive release := Released | DoubleFree | WildFree.

(** [if (path_searched) free(path_searched)]. *)
Definition free_path (p : path_state) : release :=
  match p with Live => Released | Freed => DoubleFree | Uninitialised => WildFree end.

(** A name as the zeroed array holds it. *)
Definition name_array (s : list Z) : list Z := s ++ replicate (VFS_NODE_NAME_NUM_OF_CHARS - length s) 0.

(** memcmp over the segment's length, then the terminator test. *)
Definition name_matches (name segment : list Z) : bool :=
  bool_decide (take (length segment) name = segment) && (nthZ name (zlen segment) =? 0).

Fixpoint find_child_loop (store : gmap Z vfs_node) (current_list_item : list Z) (segment : list Z) : option Z :=
  match current_list_item with
  | [] => None
  | c :: next =>
      match store !! c with
      | Some child_node => if name_matches (name child_node) segment then Some c else find_child_loop store next segment
      | None => find_child_loop store next segment
      end
  end.

Definition find_child_node (store : gmap Z vfs_node) (parent : Z) (segment : list Z) : option Z :=
  match store !! parent with
  | None => None
  | Some p =>
      if negb (bool_decide (type p = VFS_NODE_TYPE_DIR)) then None
      else match data p with Children l => find_child_loop store l segment | Mounted _ => None end
  end.

(** sizeof(vfs_node) bytes are allocated at a fresh pointer and zeroed. *)
Definition init_vfs : vfs :=
  Vfs {[1 := Node VFS_NODE_TYPE_DIR (name_array [PATH_SEPERATOR]) (Children [])]} 1 2.

(** The walk.  [sep] is the string at current_seperator_position, [pos] the one
    at current_path_position; the fuel is more than the characters ahead. *)
Fixpoint get_node_loop (fuel : nat) (store : gmap Z vfs_node) (path_preproccesed : list Z) (current_node : Z)
    (sep pos : list Z) (after : list (list Z)) : option vfs_get_node_return_t :=
  match pos with
  | [] => Some (GetNode (Some current_node) None OK Live)
  | _ =>
      match fuel with
      | O => None
      | S fuel =>
          let '(segment, next) := next_separator pos in
          node ← store !! current_node;
          match type node with
          | VFS_NODE_TYPE_DIR =>
              match find_child_node store current_node segment with
              | None => Some (GetNode (Some current_node) (Some sep) OK Live)
              | Some child_node =>
                  match next with
                  | _ :: rest => get_node_loop fuel store path_preproccesed child_node next rest after
                  | [] => get_node_loop fuel store path_preproccesed child_node [] (default [] (head after)) (tail after)
                  end
              end
          | VFS_NODE_TYPE_FILE_SYSTEM =>
              Some (GetNode (Some current_node) (Some sep) CONTINUES_IN_FILE_SYSTEM Live)
          | _ => Some (GetNode None (Some path_preproccesed) NO_DIR Freed)
          end
      end
  end.

Definition vfs_get_node (v : vfs) (path : list Z) (after : list (list Z)) : option vfs_get_node_return_t :=
  match preprocess_path path with
  | None => Some (GetNode None None MEMORY_ERR Uninitialised)
  | Some [] => Some (GetNode None (Some []) INVALID_PATH Freed)
  | Some path_preproccesed =>
      let current_path_position :=
        match path_preproccesed with
        | c :: rest => if c =? PATH_SEPERATOR then rest else path_preproccesed
        | [] => []
        end in
      get_node_loop (S (length path_preproccesed + length (concat after))) (nodes v) path_preproccesed (vfs_root v)
        path_preproccesed current_path_position after
  end.

(** ** mkdir and mount

    The results are the state, the node returned (NULL as [None]) and what the
    release of the searched path did.  A name that does not fit the node's
    array is copied past its end: [None]. *)

Definition set_data (v : vfs) (p : Z) (t : vfs_node_type) (d : node_data) : vfs :=
  match nodes v !! p with
  | Some n => Vfs (<[p := Node t (name n) d]> (nodes v)) (vfs_root v) (next_node v)
  | None => v
  end.

Definition vfs_mkdir (v : vfs) (path : list Z) (after : list (list Z)) : option (vfs * option Z * release) :=
  r ← vfs_get_node v path after;
  let cleanup_mkdir := Some (v, None, free_path (path_searched r)) in
  match remaining_path r with
  | None => cleanup_mkdir
  | Some remaining =>
      match found_node r with
      | None => cleanup_mkdir
      | Some parent_folder =>
          p ← nodes v !! parent_folder;
          if negb (bool_decide (type p = VFS_NODE_TYPE_DIR)) then cleanup_mkdir
          else
            let dir_name := match remaining with _ :: d => d | [] => default [] (head after) end in
            if bool_decide (PATH_SEPERATOR ∈ dir_name) then cleanup_mkdir
            else if (VFS_NODE_NAME_NUM_OF_CHARS <? length dir_name + 1)%nat then None
            else
              let new_node := next_node v in
              let siblings := match data p with Children l => l | Mounted _ => [] end in
              let v := Vfs (<[new_node := Node VFS_NODE_TYPE_DIR (name_array dir_name) (Children [])]> (nodes v))
                         (vfs_root v) (next_node v + 1) in
              let v := set_data v parent_folder (type p) (Children (new_node :: siblings)) in
              Some (v, Some new_node, free_path (path_searched r))
      end
  end.

Definition mount_file_system (v : vfs) (path : list Z) (after : list (list Z))
    (disk_number disk_offset fstype : Z) : option (vfs * option Z * release) :=
  r ← vfs_get_node v path after;
  let cleanup := Some (v, None, free_path (path_searched r)) in
  match found_node r, remaining_path r with
  | Some n, None =>
      node ← nodes v !! n;
      if negb (bool_decide (type node = VFS_NODE_TYPE_DIR)) then cleanup
      else match data node with
           | Children [] =>
               Some (set_data v n VFS_NODE_TYPE_FILE_SYSTEM (Mounted (FsData disk_number disk_offset fstype)),
                     Some n, free_path (path_searched r))
           | _ => cleanup
           end
  | _, _ => cleanup
  end.

(** ** Operations that reach into a mounted file system *)

Section Files.
Context (list_drives : list disk) (slack : Z -> Z) (behind : list Z).

(** The path inside the mounted file system. *)
Definition fs_path (r : vfs_get_node_return_t) : list Z := default [PATH_SEPERATOR] (remaining_path r).

Definition continues (r : vfs_get_node_return_t) : bool :=
  bool_decide (status r = CONTINUES_IN_FILE_SYSTEM) || bool_decide (status r = OK).

(** The name of a child up to its terminator. *)
Fixpoint c_name (name : list Z) : list Z :=
  match name with [] => [] | c :: name => if c =? 0 then [] else c :: c_name name end.

Fixpoint list_children (store : gmap Z vfs_node) (items : list Z) (ret : list (list Z)) : option (list (list Z)) :=
  match items with
  | [] => Some ret
  | c :: next => child_node ← store !! c; list_children store next (c_name (name child_node) :: ret)
  end.

Definition vfs_list_dir (fuel : nat) (v : vfs) (path : list Z) (after : list (list Z))
    : option (list (list Z) * release) :=
  r ← vfs_get_node v path after;
  let done ret := Some (ret, free_path (path_searched r)) in
  match found_node r with
  | None => done []
  | Some n =>
      found ← nodes v !! n;
      match type found, data found with
      | VFS_NODE_TYPE_DIR, Children l => ret ← list_children (nodes v) l []; done ret
      | VFS_NODE_TYPE_FILE_SYSTEM, Mounted fs =>
          if negb (continues r) then done []
          else if fs_type fs =? FILESYSTEM_TYPE_EXT2 then
            ret ← ext2_list_dir list_drives slack behind fuel fs (fs_path r); done ret
          else done []
      | _, _ => done []
      end
  end.

(** Nothing is written. *)
Definition vfs_write (path : list Z) (offset_bytes count_bytes : Z) : Z := 0.

(** The result is an int cut from a size_t. *)
Definition vfs_path_exists (fuel : nat) (v : vfs) (path : list Z) (after : list (list Z))
    : option (Z * release) :=
  r ← vfs_get_node v path after;
  let done ret := Some (s32 (u64 ret), free_path (path_searched r)) in
  match found_node r with
  | None => done 0
  | Some n =>
      found ← nodes v !! n;
      match type found, data found with
      | VFS_NODE_TYPE_DIR, _ =>
          done (if bool_decide (status r = OK) && bool_decide (remaining_path r = None) then 1 else 0)
      | VFS_NODE_TYPE_FILE_SYSTEM, Mounted fs =>
          if fs_type fs =? FILESYSTEM_TYPE_EXT2 then
            s_block ← ext2_read_super_block list_drives slack fs;
            inode_num ← ext2_get_inode_number_at_path list_drives slack behind fuel fs s_block (fs_path r);
            if inode_num =? 0 then done 0
            else
              inode ← ext2_read_inode_metadata list_drives slack fs s_block inode_num;
              let fmt := Z.land (i_mode inode) EXT2_S_IFMT in
              done (if fmt =? EXT2_S_IFDIR then 1 else if fmt =? EXT2_S_IFREG then 2 else -1)
          else done 0
      | _, _ => done (if bool_decide (status r = OK) then 2 else 0)
      end
  end.

(** The bytes written to the buffer, the count or -1, and the release. *)
Definition vfs_read (fuel : nat) (v : vfs) (path : list Z) (after : list (list Z)) (offset_bytes count_bytes : Z)
    : option (list Z * Z * release) :=
  r ← vfs_get_node v path after;
  let done out ret := Some (out, s64 ret, free_path (path_searched r)) in
  match found_node r with
  | None => done [] (-1)
  | Some n =>
      found ← nodes v !! n;
      match type found, data found with
      | VFS_NODE_TYPE_FILE_SYSTEM, Mounted fs =>
          if negb (continues r) then done [] 0
          else if fs_type fs =? FILESYSTEM_TYPE_EXT2 then
            s_block ← ext2_read_super_block list_drives slack fs;
            inode_num ← ext2_get_inode_number_at_path list_drives slack behind fuel fs s_block (fs_path r);
            if inode_num =? 0 then done [] (-1)
            else
              '(out, ret) ← ext2_read_inode list_drives slack fuel fs s_block inode_num offset_bytes count_bytes;
              done out ret
          else done [] 0
      | _, _ => done [] 0
      end
  end.

Definition vfs_get_file_size (fuel : nat) (v : vfs) (path : list Z) (after : list (list Z))
    : option (Z * release) :=
  r ← vfs_get_node v path after;
  let done ret := Some (s64 ret, free_path (path_searched r)) in
  match found_node r with
  | None => done (-1)
  | Some n =>
      found ← nodes v !! n;
      match type found, data found with
      | VFS_NODE_TYPE_FILE_SYSTEM, Mounted fs =>
          if negb (continues r) then done 0
          else if fs_type fs =? FILESYSTEM_TYPE_EXT2 then
            s_block ← ext2_read_super_block list_drives slack fs;
            inode_num ← ext2_get_inode_number_at_path list_drives slack behind fuel fs s_block (fs_path r);
            if inode_num =? 0 then done (-1)
            else ret ← ext2_get_inode_size list_drives slack fs s_block inode_num; done ret
          else done 0
      | _, _ => done 0
      end
  end.
End Files.

(** ** Paths as lists of segments *)

Inductive walked :=
  | Found (n : Z)
  | Missing (n : Z) (rest : list (list Z))
  | InFileSystem (n : Z) (rest : list (list Z))
  | NotDir.

Fixpoint walk (store : gmap Z vfs_node) (cur : Z) (segs : list (list Z)) : walked :=
  match segs with
  | [] => Found cur
  | s :: rest =>
      match store !! cur with
      | None => NotDir
      | Some node =>
          match type node with
          | VFS_NODE_TYPE_DIR =>
              match find_child_node store cur s with
              | None => Missing cur segs
              | Some c => walk store c rest
              end
          | VFS_NODE_TYPE_FILE_SYSTEM => InFileSystem cur segs
          | _ => NotDir
          end
      end
  end.

(** What vfs_get_node returns for a walk from the root by an absolute path. *)
Definition node_result (path : list Z) (w : walked) : vfs_get_node_return_t :=
  let remaining rest := Some (canonical [PATH_SEPERATOR] rest) in
  match w with
  | Found n => GetNode (Some n) None OK Live
  | Missing n rest => GetNode (Some n) (remaining rest) OK Live
  | InFileSystem n rest => GetNode (Some n) (remaining rest) CONTINUES_IN_FILE_SYSTEM Live
  | NotDir => GetNode None (Some path) NO_DIR Freed
  end.

(** ** The invariant *)

(** The strings of path segments: characters of a C string. *)
Definition seg_ok (s : list Z) : Prop :=
  segment_ok s /\ Forall (fun c => c <> 0) s /\ (length s < VFS_NODE_NAME_NUM_OF_CHARS)%nat.

Definition named (store : gmap Z vfs_node) (c : Z) : Prop :=
  exists node s, store !! c = Some node /\ name node = name_array s /\ seg_ok s.

Definition node_ok (store : gmap Z vfs_node) (node : vfs_node) : Prop :=
  match data node with
  | Children l => type node = VFS_NODE_TYPE_DIR /\ Forall (named store) l
  | Mounted _ => type node = VFS_NODE_TYPE_FILE_SYSTEM
  end.

(** Segments without NUL characters. *)
Definition nonzero (p : list (list Z)) : Prop := Forall (Forall (fun c => c <> 0)) p.

Record wf (v : vfs) : Prop := {
  wf_root : is_Some (nodes v !! vfs_root v);
  wf_next : forall n, is_Some (nodes v !! n) -> n < next_node v;
  wf_node : forall n node, nodes v !! n = Some node -> node_ok (nodes v) node;
  wf_tree : forall n p q, nonzero p -> nonzero q ->
    walk (nodes v) (vfs_root v) p = Found n -> walk (nodes v) (vfs_root v) q = Found n -> p = q;
}.

(** ** The abstract file tree: a map from paths to what is there *)

Inductive kind := KDir | KFs (fs : filesystem_data).

Definition tree := list (list Z) -> option kind.

Definition lookup_path (v : vfs) : tree := fun p =>
  match walk (nodes v) (vfs_root v) p with
  | Found n =>
      match nodes v !! n with
      | Some node => match data node with Children _ => Some KDir | Mounted fs => Some (KFs fs) end
      | None => None
      end
  | _ => None
  end.

Definition tree_insert (t : tree) (p : list (list Z)) (k : kind) : tree :=
  fun q => if bool_decide (q = p) then Some k else t q.

Inductive vfs_op :=
  | OpMkdir (path : list Z)
  | OpMount (path : list Z) (disk_number disk_offset fstype : Z).

Definition path_segments (path : list Z) : list (list Z) := segments [] (word path).

(** A directory is added below a directory, a file system replaces a directory
    without children; everything else is refused and changes nothing. *)
Inductive tree_step (t : tree) : vfs_op -> tree -> bool -> Prop :=
  | TMkdir path p s :
      path_segments path = p ++ [s] -> t (p ++ [s]) = None -> t p = Some KDir ->
      tree_step t (OpMkdir path) (tree_insert t (p ++ [s]) KDir) true
  | TMkdirExists path :
      t (path_segments path) <> None -> tree_step t (OpMkdir path) t false
  | TMkdirNoParent path p s :
      path_segments path = p ++ [s] -> t p <> Some KDir -> tree_step t (OpMkdir path) t false
  | TMount path d o ty :
      t (path_segments path) = Some KDir -> (forall s, seg_ok s -> t (path_segments path ++ [s]) = None) ->
      tree_step t (OpMount path d o ty) (tree_insert t (path_segments path) (KFs (FsData d o ty))) true
  | TMountNotDir path d o ty :
      t (path_segments path) <> Some KDir -> tree_step t (OpMount path d o ty) t false
  | TMountNotEmpty path d o ty s :
      seg_ok s -> t (path_segments path ++ [s]) <> None -> tree_step t (OpMount path d o ty) t false.

(** ** Lemmas: names *)

Lemma name_array_length s : (length s < 256)%nat -> length (name_array s) = 256%nat.
Proof. intros H. unfold name_array, VFS_NODE_NAME_NUM_OF_CHARS. rewrite length_app, length_replicate. lia. Qed.

Lemma name_matches_eq s t :
  seg_ok s -> Forall (fun c => c <> 0) t -> name_matches (name_array s) t = bool_decide (s = t).
Proof.
  intros (_ & Hs & Hlen) Ht. unfold VFS_NODE_NAME_NUM_OF_CHARS in Hlen. unfold name_matches. case_bool_decide as H1; simpl.
  - destruct (Nat.lt_trichotomy (length t) (length s)) as [Hl|[Hl|Hl]].
    + rewrite bool_decide_eq_false_2 by (intros ->; lia).
      unfold name_array in H1. rewrite take_app_le in H1 by lia.
      destruct (lookup_lt_is_Some_2 s (length t)) as [c Hc]; [done|].
      rewrite (nthZ_lookup _ _ c); [|unfold zlen; lia|].
      * apply Z.eqb_neq. rewrite list.Forall_forall in Hs. apply Hs. by eapply list_elem_of_lookup_2.
      * unfold name_array, zlen. rewrite Nat2Z.id, lookup_app_l by done. done.
    + unfold name_array in H1. rewrite take_app_le, Hl, firstn_all in H1 by lia. subst t.
      rewrite bool_decide_eq_true_2 by done. rewrite (nthZ_lookup _ _ 0); [done|unfold zlen; lia|].
      unfold name_array, zlen. rewrite Nat2Z.id, lookup_app_r by done. apply lookup_replicate_2.
      unfold VFS_NODE_NAME_NUM_OF_CHARS. lia.
    + exfalso. assert (name_array s !! length s = Some 0) as H0.
      { unfold name_array. rewrite lookup_app_r by done. apply lookup_replicate_2. unfold VFS_NODE_NAME_NUM_OF_CHARS. lia. }
      assert (t !! length s = Some 0) as H2.
      { rewrite <- H1, lookup_take_lt by done. exact H0. }
      rewrite list.Forall_forall in Ht. apply (Ht 0); [|done]. by eapply list_elem_of_lookup_2.
  - symmetry. apply bool_decide_eq_false_2. intros ->. apply H1. unfold name_array. by rewrite take_app_length.
Qed.

(** ** Lemmas: the string walk and the segment walk *)

Lemma next_separator_seg s rest :
  Forall (fun c => c <> PATH_SEPERATOR) s -> next_separator (s ++ PATH_SEPERATOR :: rest) = (s, PATH_SEPERATOR :: rest).
Proof.
  induction 1 as [|c s Hc Hs IH]; [done|]. cbn [app next_separator].
  destruct (Z.eqb_spec c PATH_SEPERATOR); [done|]. by rewrite IH.
Qed.

Lemma next_separator_last s : Forall (fun c => c <> PATH_SEPERATOR) s -> next_separator s = (s, []).
Proof.
  induction 1 as [|c s Hc Hs IH]; [done|]. cbn [next_separator].
  destruct (Z.eqb_spec c PATH_SEPERATOR); [done|]. by rewrite IH.
Qed.

Lemma find_child_loop_in store l s c : find_child_loop store l s = Some c -> c ∈ l.
Proof.
  induction l as [|d l IH]; simpl; [done|]. destruct (store !! d) as [node|].
  - destruct (name_matches (name node) s); [intros [= ->]; left|intros H; right; by apply IH].
  - intros H; right; by apply IH.
Qed.

Definition nodes_ok (store : gmap Z vfs_node) : Prop := forall n node, store !! n = Some node -> node_ok store node.

Lemma find_child_some store n s c :
  nodes_ok store -> find_child_node store n s = Some c -> is_Some (store !! c).
Proof.
  intros Hok. unfold find_child_node. destruct (store !! n) as [p|] eqn:E; [|done].
  case_bool_decide as Ht; simpl; [|done]. specialize (Hok _ _ E). unfold node_ok in Hok.
  destruct (data p) as [l|]; [|done]. intros H%find_child_loop_in. destruct Hok as [_ Hl].
  rewrite list.Forall_forall in Hl. destruct (Hl c H) as (node & _ & Hc & _). by exists node.
Qed.

Lemma get_node_loop_walk store whole segs fuel cur after :
  nodes_ok store -> is_Some (store !! cur) -> Forall segment_ok segs -> segs <> [] ->
  (length segs <= fuel)%nat -> default [] (head after) = [] ->
  get_node_loop fuel store whole cur (canonical [PATH_SEPERATOR] segs) (join [PATH_SEPERATOR] segs) after =
  Some (node_result whole (walk store cur segs)).
Proof.
  intros Hok Hcur Hsegs. revert cur Hcur fuel. induction Hsegs as [|s segs Hs Hsegs IH]; intros cur Hcur fuel Hne Hf Haft; [done|].
  destruct fuel as [|fuel]; [simpl in Hf; lia|]. pose proof (segment_seps s Hs) as Hsep.
  assert (join [PATH_SEPERATOR] (s :: segs) <> []) as Hj.
  { destruct Hs as [Hs0 _]. destruct segs; [done|]. simpl. by destruct s. }
  assert (next_separator (join [PATH_SEPERATOR] (s :: segs)) =
    (s, match segs with [] => [] | _ => canonical [PATH_SEPERATOR] segs end)) as Hnext.
  { destruct segs as [|s' segs]; [by apply next_separator_last|]. by apply next_separator_seg. }
  cbn [get_node_loop walk]. destruct (join [PATH_SEPERATOR] (s :: segs)) as [|c0 p0] eqn:Ej; [done|].
  rewrite Hnext. destruct Hcur as [node Hcur]. rewrite Hcur. cbn [mbind option_bind].
  assert (canonical [PATH_SEPERATOR] (s :: segs) = PATH_SEPERATOR :: c0 :: p0) as Hcan.
  { unfold canonical. by rewrite Ej. }
  destruct (type node); cbn [node_result]; rewrite ?Hcan; try done.
  destruct (find_child_node store cur s) as [c|] eqn:Ec; [|by rewrite <- Hcan].
  destruct segs as [|s' segs].
  - rewrite Haft. by destruct fuel.
  - cbn [canonical app]. apply IH; [by eapply find_child_some|done|simpl in *; lia|done].
Qed.

(** A path string a program passes: absolute, characters of a C string. *)
Definition path_ok (path : list Z) : Prop :=
  Forall (fun c => c <> 0) path /\ lead (word path) = [PATH_SEPERATOR] /\
  Forall (fun s => (length s < VFS_NODE_NAME_NUM_OF_CHARS)%nat) (path_segments path).

Lemma path_segments_ok path : Forall segment_ok (path_segments path).
Proof. apply segments_ok; [apply word_no_space|by left]. Qed.

Lemma segments_nonzero s acc :
  Forall (fun c => c <> 0) s -> Forall (fun c => c <> 0) acc -> Forall (Forall (fun c => c <> 0)) (segments acc s).
Proof.
  intros Hs. revert acc. induction Hs as [|c s Hc Hs IH]; intros acc Ha; simpl.
  - destruct acc; [constructor|]. constructor; [done|constructor].
  - destruct (c =? PATH_SEPERATOR).
    + destruct acc; [by apply IH|]. constructor; [done|]. apply IH. constructor.
    + apply IH. apply Forall_app. split; [done|]. by constructor.
Qed.

Lemma word_nonzero s : Forall (fun c => c <> 0) s -> Forall (fun c => c <> 0) (word s).
Proof. induction 1; simpl; [constructor|]. destruct (isspace x); by constructor. Qed.

Lemma path_segs_ok path : path_ok path -> Forall seg_ok (path_segments path).
Proof.
  intros (Hz & _ & Hl). pose proof (path_segments_ok path) as Hs.
  pose proof (segments_nonzero _ [] (word_nonzero _ Hz) ltac:(constructor)) as Hn. fold (path_segments path) in Hn.
  rewrite list.Forall_forall in Hs, Hl, Hn. apply list.Forall_forall. intros s Hin. split_and!; auto.
Qed.

Lemma get_node_spec v path after :
  wf v -> path <> [] -> lead (word path) = [PATH_SEPERATOR] -> default [] (head after) = [] ->
  vfs_get_node v path after =
  Some (node_result (canonical [PATH_SEPERATOR] (path_segments path)) (walk (nodes v) (vfs_root v) (path_segments path))).
Proof.
  intros Hwf Hne Hlead Haft. unfold vfs_get_node. rewrite preprocess_spec by done. rewrite Hlead.
  fold (path_segments path). pose proof (path_segments_ok path) as Hok. set (segs := path_segments path) in *.
  assert (canonical [PATH_SEPERATOR] segs = PATH_SEPERATOR :: join [PATH_SEPERATOR] segs) as E by done.
  rewrite E at 1. change (PATH_SEPERATOR =? PATH_SEPERATOR) with true. cbv iota.
  destruct (decide (segs = [])) as [->|Hs].
  - simpl. done.
  - lazymatch goal with |- get_node_loop ?f ?st ?w ?c ?sp _ ?af = ?r =>
      change (get_node_loop f st w c sp (join [PATH_SEPERATOR] segs) af = r) end.
    apply get_node_loop_walk; try done; [intros n node; apply Hwf|apply Hwf|].
    assert (length segs <= length (join [PATH_SEPERATOR] segs))%nat; [|rewrite E; cbn [length]; lia].
    clear - Hok. induction Hok as [|s segs [Hs _] _ IH]; [done|].
    destruct segs as [|s' segs]; [destruct s; simpl in *; [done|lia]|].
    change (join [PATH_SEPERATOR] (s :: s' :: segs)) with (s ++ [PATH_SEPERATOR] ++ join [PATH_SEPERATOR] (s' :: segs)).
    rewrite !length_app. simpl in *. lia.
Qed.

(** ** Lemmas: updates of the store *)

Lemma find_child_loop_ext store store' l s :
  (forall c, c ∈ l -> name <$> (store' !! c) = name <$> (store !! c)) ->
  find_child_loop store' l s = find_child_loop store l s.
Proof.
  induction l as [|c l IH]; intros H; [done|]. simpl.
  pose proof (H c ltac:(left)) as Hc. rewrite IH by (intros d Hd; apply H; by right).
  destruct (store' !! c), (store !! c); simpl in Hc; try done. injection Hc as ->. done.
Qed.

Section Mkdir.
Context (store : gmap Z vfs_node) (parent new : Z) (nm s : list Z) (l : list Z).
Hypothesis Hok : nodes_ok store.
Hypothesis Hparent : store !! parent = Some (Node VFS_NODE_TYPE_DIR nm (Children l)).
Hypothesis Hnew : store !! new = None.
Hypothesis Hs : seg_ok s.
Hypothesis Hmiss : find_child_node store parent s = None.

Abbreviation fresh_dir := (Node VFS_NODE_TYPE_DIR (name_array s) (Children [])).
Abbreviation store' :=
  (<[parent := Node VFS_NODE_TYPE_DIR nm (Children (new :: l))]> (<[new := fresh_dir]> store)).

Lemma mk_ne : parent <> new.
Proof. intros ->. congruence. Qed.

Lemma mk_new : store' !! new = Some fresh_dir.
Proof. rewrite lookup_insert_ne by apply mk_ne. apply lookup_insert_eq. Qed.

Lemma mk_parent : store' !! parent = Some (Node VFS_NODE_TYPE_DIR nm (Children (new :: l))).
Proof. apply lookup_insert_eq. Qed.

Lemma mk_other n : n <> parent -> n <> new -> store' !! n = store !! n.
Proof. intros H1 H2. by rewrite !lookup_insert_ne. Qed.

Lemma mk_name n : n <> new -> name <$> (store' !! n) = name <$> (store !! n).
Proof.
  intros Hn. destruct (decide (n = parent)) as [->|]; [|by rewrite mk_other].
  by rewrite mk_parent, Hparent.
Qed.

Lemma child_not_new n node c ls : store !! n = Some node -> data node = Children ls -> c ∈ ls -> c <> new.
Proof.
  intros Hn Hd Hc ->. specialize (Hok _ _ Hn). unfold node_ok in Hok. rewrite Hd in Hok.
  destruct Hok as [_ Hl]. rewrite list.Forall_forall in Hl. destruct (Hl new Hc) as (? & ? & ? & _). congruence.
Qed.

Lemma mk_child_new t : find_child_node store' new t = None.
Proof. unfold find_child_node. by rewrite mk_new. Qed.

Lemma mk_child_parent t : Forall (fun c => c <> 0) t ->
  find_child_node store' parent t = if bool_decide (s = t) then Some new else find_child_node store parent t.
Proof.
  intros Ht. unfold find_child_node. rewrite mk_parent, Hparent. simpl. rewrite mk_new.
  cbn [name]. rewrite name_matches_eq by done. case_bool_decide; [done|].
  apply find_child_loop_ext. intros c Hc. apply mk_name. by eapply child_not_new.
Qed.

Lemma mk_child_other n t : n <> parent -> n <> new -> find_child_node store' n t = find_child_node store n t.
Proof.
  intros H1 H2. unfold find_child_node. rewrite mk_other by done.
  destruct (store !! n) as [node|] eqn:E; [|done]. destruct (negb _); [done|].
  destruct (data node) as [ls|] eqn:Ed; [|done].
  apply find_child_loop_ext. intros c Hc. apply mk_name. by eapply child_not_new.
Qed.

Lemma mk_type n node : store !! n = Some node -> exists node', store' !! n = Some node' /\ type node' = type node.
Proof.
  intros Hn. destruct (decide (n = parent)) as [->|].
  - rewrite mk_parent. eexists. split; [done|]. rewrite Hparent in Hn. by injection Hn as <-.
  - exists node. split; [|done]. rewrite mk_other; [done|done|]. intros ->. congruence.
Qed.

Lemma child_ne_new cur t c : find_child_node store cur t = Some c -> c <> new.
Proof. intros Hc ->. destruct (find_child_some _ _ _ _ Hok Hc). congruence. Qed.

(** Old walks are kept. *)
Lemma mk_walk_keep p cur n :
  Forall (Forall (fun c => c <> 0)) p -> cur <> new -> walk store cur p = Found n -> walk store' cur p = Found n.
Proof.
  intros Hp. revert cur. induction Hp as [|t p Ht Hp IH]; intros cur Hcur; [done|]. cbn [walk].
  destruct (store !! cur) as [node|] eqn:E; [|done].
  destruct (mk_type _ _ E) as (node' & E' & Hty). rewrite E', Hty. destruct (type node) eqn:Et; try done.
  destruct (decide (cur = parent)) as [->|Hne].
  - rewrite mk_child_parent by done. case_bool_decide as Hst; [subst; by rewrite Hmiss|].
    destruct (find_child_node store parent t) as [c|] eqn:Ec; [|done]. apply IH. by eapply child_ne_new.
  - rewrite mk_child_other by done.
    destruct (find_child_node store cur t) as [c|] eqn:Ec; [|done]. apply IH. by eapply child_ne_new.
Qed.

(** The new node is reached through the parent only, every other node as before. *)
Lemma mk_walk_back p cur n :
  Forall (Forall (fun c => c <> 0)) p -> is_Some (store !! cur) -> walk store' cur p = Found n ->
  (n <> new /\ walk store cur p = Found n) \/
  (n = new /\ exists q, p = q ++ [s] /\ walk store cur q = Found parent).
Proof.
  intros Hp. revert cur. induction Hp as [|t p Ht Hp IH]; intros cur Hcur; cbn [walk].
  { intros [= <-]. left. split; [|done]. intros ->. destruct Hcur; congruence. }
  destruct Hcur as [node E]. destruct (mk_type _ _ E) as (node' & E' & Hty). rewrite E', E, Hty.
  destruct (type node) eqn:Et; try done.
  destruct (decide (cur = parent)) as [->|Hne].
  - rewrite mk_child_parent by done. case_bool_decide as Hst.
    + subst t. destruct p as [|t p]; cbn [walk].
      * intros [= <-]. right. split; [done|]. by exists [].
      * rewrite mk_new. cbn [type]. by rewrite mk_child_new.
    + destruct (find_child_node store parent t) as [c|] eqn:Ec; [|done].
      intros H. destruct (IH c ltac:(by eapply find_child_some) H) as [H1|(-> & q & -> & Hq)]; [by left|].
      right. split; [done|]. exists (t :: q). split; [done|]. cbn [walk]. by rewrite E, Et, Ec.
  - rewrite mk_child_other by (done || (intros ->; congruence)).
    destruct (find_child_node store cur t) as [c|] eqn:Ec; [|done].
    intros H. destruct (IH c ltac:(by eapply find_child_some) H) as [H1|(-> & q & -> & Hq)]; [by left|].
    right. split; [done|]. exists (t :: q). split; [done|]. cbn [walk]. by rewrite E, Et, Ec.
Qed.

Lemma mk_walk_new p cur :
  Forall (Forall (fun c => c <> 0)) p -> cur <> new -> walk store cur p = Found parent ->
  walk store' cur (p ++ [s]) = Found new.
Proof.
  intros Hp Hcur Hw. apply mk_walk_keep in Hw; [|done|done]. revert cur Hcur Hw. induction Hp as [|t p Ht Hp IH]; intros cur Hcur.
  - cbn [walk app]. intros [= ->]. rewrite mk_parent. cbn [type]. rewrite mk_child_parent by apply Hs.
    by rewrite bool_decide_eq_true_2.
  - cbn [walk app]. destruct (store' !! cur) as [node|]; [|done]. destruct (type node); try done.
    destruct (find_child_node store' cur t) as [c|] eqn:Ec; [|done]. intros Hw.
    destruct (decide (c = new)) as [->|]; [|by apply IH].
    destruct p as [|t' p]; cbn [walk] in Hw; [injection Hw as Hpn; by destruct mk_ne|].
    by rewrite mk_new, mk_child_new in Hw.
Qed.

Lemma mk_named c : named store c -> named store' c.
Proof.
  intros (node & t & Hc & Hn & Ht). assert (c <> new) by congruence.
  pose proof (mk_name c ltac:(done)) as E. rewrite Hc in E. simpl in E.
  destruct (store' !! c) as [node'|] eqn:E'; [|done]. injection E as E. exists node', t. by rewrite E.
Qed.

Lemma mk_nodes_ok : nodes_ok store'.
Proof.
  intros n node. destruct (decide (n = parent)) as [->|Hp].
  - rewrite mk_parent. intros [= <-]. split; [done|]. constructor.
    + exists fresh_dir, s. by rewrite mk_new.
    + specialize (Hok _ _ Hparent). destruct Hok as [_ Hl]. eapply list.Forall_impl; [exact Hl|]. apply mk_named.
  - destruct (decide (n = new)) as [->|].
    + rewrite mk_new. intros [= <-]. split; [done|constructor].
    + rewrite mk_other by done. intros Hn. specialize (Hok _ _ Hn). unfold node_ok in *.
      destruct (data node); [|done]. destruct Hok as [H1 Hl]. split; [done|].
      eapply list.Forall_impl; [exact Hl|]. apply mk_named.
Qed.
End Mkdir.

(** ** Lemmas: the operations on the tree *)

Lemma walk_app store cur p q :
  walk store cur (p ++ q) =
  match walk store cur p with
  | Found n => walk store n q
  | Missing n r => Missing n (r ++ q)
  | InFileSystem n r => InFileSystem n (r ++ q)
  | NotDir => NotDir
  end.
Proof.
  revert cur. induction p as [|s p IH]; intros cur; [done|]. cbn [walk app].
  destruct (store !! cur) as [node|]; [|done]. destruct (type node); try done.
  destruct (find_child_node store cur s); [apply IH|done].
Qed.

(** The rest of an unfinished walk starts at the node it stopped at. *)
Lemma walk_missing store cur p n rest :
  walk store cur p = Missing n rest ->
  exists q, p = q ++ rest /\ rest <> [] /\ walk store cur q = Found n /\
    exists node, store !! n = Some node /\ type node = VFS_NODE_TYPE_DIR /\
      match rest with s :: _ => find_child_node store n s = None | [] => False end.
Proof.
  revert cur. induction p as [|s p IH]; intros cur; cbn [walk]; [done|].
  destruct (store !! cur) as [node|] eqn:E; [|done]. destruct (type node) eqn:Et; try done.
  destruct (find_child_node store cur s) as [c|] eqn:Ec.
  - intros H. destruct (IH c H) as (q & -> & Hne & Hq & Hn). exists (s :: q). split_and!; try done.
    cbn [walk]. by rewrite E, Et, Ec.
  - intros [= -> <-]. exists []. split_and!; try done. by exists node.
Qed.

Lemma walk_in_fs store cur p n rest :
  walk store cur p = InFileSystem n rest ->
  exists q, p = q ++ rest /\ rest <> [] /\ walk store cur q = Found n /\
    exists node, store !! n = Some node /\ type node = VFS_NODE_TYPE_FILE_SYSTEM.
Proof.
  revert cur. induction p as [|s p IH]; intros cur; cbn [walk]; [done|].
  destruct (store !! cur) as [node|] eqn:E; [|done]. destruct (type node) eqn:Et; try done.
  - destruct (find_child_node store cur s) as [c|] eqn:Ec; [|done].
    intros H. destruct (IH c H) as (q & -> & Hne & Hq & Hn). exists (s :: q). split_and!; try done.
    cbn [walk]. by rewrite E, Et, Ec.
  - intros [= -> <-]. exists []. split_and!; try done. by exists node.
Qed.

Lemma walk_found_in store cur p n :
  nodes_ok store -> is_Some (store !! cur) -> walk store cur p = Found n -> is_Some (store !! n).
Proof.
  intros Hok. revert cur. induction p as [|s p IH]; intros cur Hcur; cbn [walk]; [by intros [= <-]|].
  destruct (store !! cur) as [node|] eqn:E; [|done]. destruct (type node); try done.
  destruct (find_child_node store cur s) as [c|] eqn:Ec; [|done]. apply IH. by eapply find_child_some.
Qed.

Lemma wf_nodes_ok v : wf v -> nodes_ok (nodes v).
Proof. intros Hwf n node. apply Hwf. Qed.

(** With the invariant no walk stops at a node of another type. *)
Lemma walk_no_notdir store cur p : nodes_ok store -> is_Some (store !! cur) -> walk store cur p <> NotDir.
Proof.
  intros Hok. revert cur. induction p as [|s p IH]; intros cur Hcur; cbn [walk]; [done|].
  destruct Hcur as [node E]. rewrite E. pose proof (Hok _ _ E) as Hn. unfold node_ok in Hn.
  destruct (data node); [destruct Hn as [-> _]|by rewrite Hn].
  destruct (find_child_node store cur s) as [c|] eqn:Ec; [|done]. apply IH. by eapply find_child_some.
Qed.

Lemma node_dir store n node : nodes_ok store -> store !! n = Some node -> type node = VFS_NODE_TYPE_DIR ->
  exists l, data node = Children l.
Proof.
  intros Hok Hn Ht. specialize (Hok _ _ Hn). unfold node_ok in Hok. destruct (data node); [eauto|]. congruence.
Qed.

Lemma nonzero_app p q : nonzero (p ++ q) <-> nonzero p /\ nonzero q.
Proof. apply Forall_app. Qed.

Lemma lookup_dir v p n node l :
  walk (nodes v) (vfs_root v) p = Found n -> nodes v !! n = Some node -> data node = Children l ->
  lookup_path v p = Some KDir.
Proof. intros H1 H2 H3. unfold lookup_path. by rewrite H1, H2, H3. Qed.

(** The state after a directory is created. *)
Definition with_dir (v : vfs) (parent : Z) (nm s : list Z) (l : list Z) : vfs :=
  Vfs (<[parent := Node VFS_NODE_TYPE_DIR nm (Children (next_node v :: l))]>
        (<[next_node v := Node VFS_NODE_TYPE_DIR (name_array s) (Children [])]> (nodes v)))
      (vfs_root v) (next_node v + 1).

Lemma next_free v : wf v -> nodes v !! next_node v = None.
Proof.
  intros Hwf. destruct (nodes v !! next_node v) eqn:E; [|done].
  assert (next_node v < next_node v) by (apply Hwf; by eexists). lia.
Qed.

Lemma root_ne_next v : wf v -> vfs_root v <> next_node v.
Proof. intros Hwf E. destruct (wf_root _ Hwf) as [x Hx]. rewrite E, next_free in Hx by done. done. Qed.

Lemma with_dir_wf v parent nm s l p :
  wf v -> nodes v !! parent = Some (Node VFS_NODE_TYPE_DIR nm (Children l)) -> seg_ok s ->
  find_child_node (nodes v) parent s = None -> walk (nodes v) (vfs_root v) p = Found parent -> nonzero p ->
  wf (with_dir v parent nm s l).
Proof.
  intros Hwf Hp Hs Hm Hw Hz. pose proof (wf_nodes_ok _ Hwf) as Hok. pose proof (next_free _ Hwf) as Hnew.
  pose proof (root_ne_next _ Hwf) as Hroot. constructor; cbn [nodes vfs_root next_node with_dir].
  - destruct (wf_root _ Hwf) as [x Hx]. destruct (mk_type _ _ _ nm s l Hp Hnew _ _ Hx) as (x' & Hx' & _). by exists x'.
  - intros n Hn. destruct (decide (n = next_node v)); [lia|]. enough (n < next_node v) by lia.
    destruct (decide (n = parent)) as [->|]; [apply Hwf; by rewrite Hp|].
    apply Hwf. by rewrite !lookup_insert_ne in Hn.
  - by apply mk_nodes_ok.
  - intros n q1 q2 Hz1 Hz2 H1 H2.
    destruct (mk_walk_back _ _ _ nm s l Hok Hp Hnew Hs Hm q1 _ n Hz1 (wf_root _ Hwf) H1) as [[Hn1 Hw1]|(-> & r1 & -> & Hr1)];
    destruct (mk_walk_back _ _ _ nm s l Hok Hp Hnew Hs Hm q2 _ _ Hz2 (wf_root _ Hwf) H2) as [[Hn2 Hw2]|(E & r2 & -> & Hr2)];
      try done.
    + by apply (wf_tree _ Hwf n).
    + apply nonzero_app in Hz1 as [Hz1 _]. apply nonzero_app in Hz2 as [Hz2 _].
      f_equal. by apply (wf_tree _ Hwf parent).
Qed.

Lemma with_dir_lookup v parent nm s l p q :
  wf v -> nodes v !! parent = Some (Node VFS_NODE_TYPE_DIR nm (Children l)) -> seg_ok s ->
  find_child_node (nodes v) parent s = None -> walk (nodes v) (vfs_root v) p = Found parent ->
  nonzero p -> nonzero q ->
  lookup_path (with_dir v parent nm s l) q = tree_insert (lookup_path v) (p ++ [s]) KDir q.
Proof.
  intros Hwf Hp Hs Hm Hw Hz Hzq. pose proof (wf_nodes_ok _ Hwf) as Hok. pose proof (next_free _ Hwf) as Hnew.
  pose proof (root_ne_next _ Hwf) as Hroot. unfold tree_insert. case_bool_decide as Hq.
  - subst q. eapply lookup_dir; [by apply mk_walk_new|by apply mk_new|done].
  - unfold lookup_path. cbn [nodes vfs_root with_dir]. set (store' := insert _ _ _).
    destruct (walk store' (vfs_root v) q) eqn:E.
    + destruct (mk_walk_back _ _ _ nm s l Hok Hp Hnew Hs Hm q _ n Hzq (wf_root _ Hwf) E) as [[Hn Hwq]|(-> & r & -> & Hr)].
      * rewrite Hwq. destruct (decide (n = parent)) as [->|Hne].
        -- unfold store'. by rewrite lookup_insert_eq, Hp.
        -- unfold store'. by rewrite !lookup_insert_ne.
      * destruct Hq. f_equal. apply nonzero_app in Hzq as [Hzr _]. by apply (wf_tree _ Hwf parent).
    + destruct (walk (nodes v) (vfs_root v) q) eqn:E2; try done.
      apply (mk_walk_keep _ parent (next_node v) nm s l) in E2; try done. unfold store' in E. congruence.
    + destruct (walk (nodes v) (vfs_root v) q) eqn:E2; try done.
      apply (mk_walk_keep _ parent (next_node v) nm s l) in E2; try done. unfold store' in E. congruence.
    + destruct (walk (nodes v) (vfs_root v) q) eqn:E2; try done.
      apply (mk_walk_keep _ parent (next_node v) nm s l) in E2; try done. unfold store' in E. congruence.
Qed.

Section Mount.
Context (store : gmap Z vfs_node) (n : Z) (nm : list Z) (fs : filesystem_data).
Hypothesis Hn : store !! n = Some (Node VFS_NODE_TYPE_DIR nm (Children [])).

Abbreviation store' := (<[n := Node VFS_NODE_TYPE_FILE_SYSTEM nm (Mounted fs)]> store).

Lemma mount_name c : name <$> (store' !! c) = name <$> (store !! c).
Proof.
  destruct (decide (c = n)) as [->|]; [by rewrite lookup_insert_eq, Hn|by rewrite lookup_insert_ne].
Qed.

Lemma mount_child m t : find_child_node store' m t = find_child_node store m t.
Proof.
  unfold find_child_node. destruct (decide (m = n)) as [->|]; [by rewrite lookup_insert_eq, Hn|].
  rewrite lookup_insert_ne by done. destruct (store !! m) as [p|]; [|done]. destruct (negb _); [done|].
  destruct (data p); [|done]. apply find_child_loop_ext. intros c _. apply mount_name.
Qed.

Lemma mount_walk cur p k : walk store' cur p = Found k <-> walk store cur p = Found k.
Proof.
  revert cur. induction p as [|t p IH]; intros cur; [done|]. cbn [walk]. rewrite mount_child.
  destruct (decide (cur = n)) as [->|].
  - rewrite lookup_insert_eq, Hn. cbn [type]. unfold find_child_node. rewrite Hn. simpl. done.
  - rewrite lookup_insert_ne by done. destruct (store !! cur) as [node|]; [|done]. destruct (type node); try done.
    destruct (find_child_node store cur t); [apply IH|done].
Qed.

Lemma mount_nodes_ok : nodes_ok store -> nodes_ok store'.
Proof.
  intros Hok m node. destruct (decide (m = n)) as [->|].
  - rewrite lookup_insert_eq. by intros [= <-].
  - rewrite lookup_insert_ne by done. intros Hm. specialize (Hok _ _ Hm). unfold node_ok in *.
    destruct (data node); [|done]. destruct Hok as [H1 H2]. split; [done|].
    eapply list.Forall_impl; [exact H2|]. intros c (x & t & Hc & Hx & Ht).
    pose proof (mount_name c) as E. rewrite Hc in E. simpl in E. destruct (store' !! c) as [x'|] eqn:E'; [|done].
    injection E as E. exists x', t. by rewrite E', E.
Qed.
End Mount.

Definition with_mount (v : vfs) (n : Z) (nm : list Z) (fs : filesystem_data) : vfs :=
  Vfs (<[n := Node VFS_NODE_TYPE_FILE_SYSTEM nm (Mounted fs)]> (nodes v)) (vfs_root v) (next_node v).

Lemma with_mount_wf v n nm fs :
  wf v -> nodes v !! n = Some (Node VFS_NODE_TYPE_DIR nm (Children [])) -> wf (with_mount v n nm fs).
Proof.
  intros Hwf Hn. constructor; cbn [nodes vfs_root next_node with_mount].
  - destruct (decide (vfs_root v = n)) as [->|]; [rewrite lookup_insert_eq; by eexists|].
    rewrite lookup_insert_ne by done. apply Hwf.
  - intros m Hm. apply Hwf. destruct (decide (m = n)) as [->|]; [by rewrite Hn|]. by rewrite lookup_insert_ne in Hm.
  - apply mount_nodes_ok; [done|]. by apply wf_nodes_ok.
  - intros m p q Hp Hq H1%mount_walk H2%mount_walk; try done. by apply (wf_tree _ Hwf m).
Qed.

Lemma with_mount_lookup v n nm fs p q :
  wf v -> nodes v !! n = Some (Node VFS_NODE_TYPE_DIR nm (Children [])) ->
  walk (nodes v) (vfs_root v) p = Found n -> nonzero p -> nonzero q ->
  lookup_path (with_mount v n nm fs) q = tree_insert (lookup_path v) p (KFs fs) q.
Proof.
  intros Hwf Hn Hp Hzp Hzq. unfold tree_insert. case_bool_decide as E.
  - subst q. unfold lookup_path. cbn [nodes vfs_root with_mount].
    apply (mount_walk _ n nm fs Hn) in Hp. by rewrite Hp, lookup_insert_eq.
  - unfold lookup_path. cbn [nodes vfs_root with_mount].
    destruct (walk (nodes v) (vfs_root v) q) as [k| | |] eqn:Eq.
    + apply (mount_walk _ n nm fs Hn) in Eq as Eq'. rewrite Eq'.
      destruct (decide (k = n)) as [->|]; [|by rewrite lookup_insert_ne]. destruct E. by apply (wf_tree _ Hwf n).
    + destruct (walk (<[n := _]> (nodes v)) (vfs_root v) q) eqn:E2; try done. apply mount_walk in E2; [congruence|done].
    + destruct (walk (<[n := _]> (nodes v)) (vfs_root v) q) eqn:E2; try done. apply mount_walk in E2; [congruence|done].
    + destruct (walk (<[n := _]> (nodes v)) (vfs_root v) q) eqn:E2; try done. apply mount_walk in E2; [congruence|done].
Qed.

(** ** One operation *)

(** The operations, with the byte that vfs_get_node may read behind the
    terminator of the searched path (vfs.c, line 467) taken to be zero: the path
    is a block of the heap, which malloc has cleared.  The functions themselves
    take that byte as an argument. *)
Definition run_op (v : vfs) (op : vfs_op) : option (vfs * option Z * release) :=
  match op with
  | OpMkdir path => vfs_mkdir v path []
  | OpMount path d o t => mount_file_system v path [] d o t
  end.

Definition op_path (op : vfs_op) : list Z := match op with OpMkdir p | OpMount p _ _ _ => p end.

Lemma path_ok_ne path : path_ok path -> path <> [].
Proof. intros (_ & H & _) ->. done. Qed.

Lemma path_nonzero path : path_ok path -> nonzero (path_segments path).
Proof. intros H. eapply list.Forall_impl; [exact (path_segs_ok _ H)|]. by intros s (_ & ? & _). Qed.

Lemma join_sep s rest : rest <> [] -> PATH_SEPERATOR ∈ join [PATH_SEPERATOR] (s :: rest).
Proof. intros H. destruct rest; [done|]. simpl. set_solver. Qed.

Lemma seg_no_sep s : segment_ok s -> PATH_SEPERATOR ∉ s.
Proof. intros H Hin. apply segment_seps in H. rewrite list.Forall_forall in H. by apply (H _ Hin). Qed.

(** What the operation did, against the tree; the walk decides. *)
Lemma mkdir_step v path :
  wf v -> path_ok path ->
  exists v' r, run_op v (OpMkdir path) = Some (v', r, Released) /\ wf v' /\
    exists t', tree_step (lookup_path v) (OpMkdir path) t' (bool_decide (r <> None)) /\
      forall q, nonzero q -> lookup_path v' q = t' q.
Proof.
  intros Hwf Hpath. pose proof (wf_nodes_ok _ Hwf) as Hok. pose proof (path_segs_ok _ Hpath) as Hsegs.
  pose proof (path_nonzero _ Hpath) as Hz. cbn [run_op]. unfold vfs_mkdir.
  rewrite get_node_spec by (done || by apply path_ok_ne || apply Hpath). cbn [mbind option_bind].
  destruct (walk (nodes v) (vfs_root v) (path_segments path)) as [n|n rest|n rest|] eqn:Ew; cbn [node_result].
  - do 2 eexists. split; [reflexivity|]. split; [done|]. eexists. split; [|done].
    apply TMkdirExists. unfold lookup_path. rewrite Ew.
    destruct (walk_found_in _ _ _ _ Hok (wf_root _ Hwf) Ew) as [node ->]. by destruct (data node).
  - destruct (walk_missing _ _ _ _ _ Ew) as (q & Eq & Hne & Hq & node & Hn & Hty & Hm).
    cbn [remaining_path found_node path_searched free_path]. rewrite Hn. cbn [mbind option_bind].
    rewrite bool_decide_eq_true_2 by done. cbn [negb]. destruct rest as [|s rest]; [done|].
    rewrite Eq in Hsegs, Hz. apply Forall_app in Hsegs as [_ Hsr]. apply list.Forall_cons in Hsr as [Hs Hsr].
    apply nonzero_app in Hz as [Hzq Hzs]. unfold canonical. cbn [app].
    destruct rest as [|s' rest].
    + cbn [join]. rewrite bool_decide_eq_false_2 by (apply seg_no_sep, Hs).
      destruct (Nat.ltb_spec VFS_NODE_NAME_NUM_OF_CHARS (length s + 1)) as [Hlong|_];
        [destruct Hs as (_ & _ & Hlen); lia|].
      destruct (node_dir _ _ _ Hok Hn Hty) as [l Hl]. rewrite Hl, Hty.
      destruct node as [ty nm da]. cbn [type data name] in *. subst ty da.
      assert (n <> next_node v) as Hnn by (intros ->; rewrite next_free in Hn; done).
      unfold set_data. cbn [nodes vfs_root next_node]. rewrite lookup_insert_ne, Hn by done. cbn [name].
      do 2 eexists. split; [reflexivity|]. split; [by apply (with_dir_wf v n nm s l q)|].
      eexists. split; [apply (TMkdir _ path q s Eq)|].
      * unfold lookup_path. by rewrite <- Eq, Ew.
      * by eapply lookup_dir.
      * intros q' Hq'. by apply with_dir_lookup.
    + rewrite bool_decide_eq_true_2 by (by apply join_sep).
      do 2 eexists. split; [reflexivity|]. split; [done|]. eexists. split; [|done].
      destruct (exists_last (l := s :: s' :: rest)) as (r & x & Er); [done|].
      apply (TMkdirNoParent _ path (q ++ r) x); [rewrite Eq, Er; by rewrite app_assoc|].
      unfold lookup_path. destruct r as [|y r]; [by apply (f_equal length) in Er|]. injection Er as <- _.
      rewrite walk_app, Hq. cbn [walk]. by rewrite Hn, Hty, Hm.
  - destruct (walk_in_fs _ _ _ _ _ Ew) as (q & Eq & Hne & Hq & node & Hn & Hty).
    cbn [remaining_path found_node path_searched free_path]. rewrite Hn. cbn [mbind option_bind].
    rewrite bool_decide_eq_false_2 by congruence. cbn [negb].
    do 2 eexists. split; [reflexivity|]. split; [done|]. eexists. split; [|done].
    destruct (exists_last Hne) as (r & x & ->).
    apply (TMkdirNoParent _ path (q ++ r) x); [by rewrite Eq, app_assoc|].
    unfold lookup_path. rewrite walk_app, Hq. specialize (Hok _ _ Hn). unfold node_ok in Hok.
    destruct r; cbn [walk]; rewrite Hn; [|by rewrite Hty]. destruct (data node); [|done]. destruct Hok. congruence.
  - by destruct (walk_no_notdir _ _ _ Hok (wf_root _ Hwf) Ew).
Qed.

(** A child in the list is found by its name. *)
Lemma find_child_loop_named store l c s :
  c ∈ l -> seg_ok s -> Forall (named store) l -> (exists node, store !! c = Some node /\ name node = name_array s) ->
  exists d, find_child_loop store l s = Some d.
Proof.
  intros Hc Hs Hl (node & Hn & Hnm). induction l as [|e l IH]; [by apply elem_of_nil in Hc|].
  apply list.Forall_cons in Hl as [He Hl]. simpl. destruct He as (ne & t & He & Hne & Ht). rewrite He.
  destruct (name_matches (name ne) s) eqn:E; [by eexists|].
  apply elem_of_cons in Hc as [->|Hc]; [|by apply IH].
  rewrite Hn in He. injection He as <-. rewrite Hnm, name_matches_eq in E by (done || apply Hs).
  by rewrite bool_decide_eq_true_2 in E.
Qed.

Lemma mount_step v path d o ty :
  wf v -> path_ok path ->
  exists v' r, run_op v (OpMount path d o ty) = Some (v', r, Released) /\ wf v' /\
    exists t', tree_step (lookup_path v) (OpMount path d o ty) t' (bool_decide (r <> None)) /\
      forall q, nonzero q -> lookup_path v' q = t' q.
Proof.
  intros Hwf Hpath. pose proof (wf_nodes_ok _ Hwf) as Hok. pose proof (path_segs_ok _ Hpath) as Hsegs.
  pose proof (path_nonzero _ Hpath) as Hz. cbn [run_op]. unfold mount_file_system.
  rewrite get_node_spec by (done || by apply path_ok_ne || apply Hpath). cbn [mbind option_bind].
  assert (forall w, walk (nodes v) (vfs_root v) (path_segments path) = w -> (forall n, w <> Found n) ->
    lookup_path v (path_segments path) <> Some KDir) as Hnone.
  { intros w Hw Hn. unfold lookup_path. rewrite Hw. destruct w; try done. by destruct (Hn n). }
  destruct (walk (nodes v) (vfs_root v) (path_segments path)) as [n|n rest|n rest|] eqn:Ew; cbn [node_result].
  2, 3: do 2 eexists; split; [reflexivity|]; split; [done|]; eexists; split; [|done];
    apply TMountNotDir; apply (Hnone _ eq_refl); by intros ?.
  2: by destruct (walk_no_notdir _ _ _ Hok (wf_root _ Hwf) Ew).
  cbn [found_node remaining_path path_searched free_path].
  destruct (walk_found_in _ _ _ _ Hok (wf_root _ Hwf) Ew) as [node Hn]. rewrite Hn. cbn [mbind option_bind].
  pose proof (Hok _ _ Hn) as Hnode. unfold node_ok in Hnode. destruct (data node) as [l|fs] eqn:Ed.
  - destruct Hnode as [Hty Hl]. rewrite bool_decide_eq_true_2 by done. cbn [negb].
    assert (lookup_path v (path_segments path) = Some KDir) as Hdir by (by eapply lookup_dir).
    destruct node as [ty' nm da]. cbn [type data name] in *. subst ty' da.
    destruct l as [|c l].
    + unfold set_data. rewrite Hn. do 2 eexists. split; [reflexivity|]. split; [by apply with_mount_wf|].
      eexists. split; [apply TMount; [done|]|].
      * intros s Hs. unfold lookup_path. rewrite walk_app, Ew. cbn [walk]. rewrite Hn. cbn [type].
        unfold find_child_node. by rewrite Hn.
      * intros q Hq. by apply with_mount_lookup.
    + do 2 eexists. split; [reflexivity|]. split; [done|]. eexists. split; [|done].
      pose proof (Forall_inv Hl) as (nc & s & Hc & Hnc & Hs).
      apply (TMountNotEmpty _ path d o ty s Hs). unfold lookup_path. rewrite walk_app, Ew. cbn [walk].
      rewrite Hn. cbn [type]. unfold find_child_node. rewrite Hn. cbn [type data].
      rewrite bool_decide_eq_true_2 by done. cbn [negb].
      destruct (find_child_loop_named (nodes v) (c :: l) c s ltac:(left) Hs Hl) as [e He]; [by exists nc|].
      rewrite He. assert (e ∈ c :: l) as Hin by (by eapply find_child_loop_in).
      rewrite list.Forall_forall in Hl. destruct (Hl e Hin) as (ne & ? & Hne & _). rewrite Hne. by destruct (data ne).
  - rewrite bool_decide_eq_false_2 by congruence. cbn [negb].
    do 2 eexists. split; [reflexivity|]. split; [done|]. eexists. split; [|done].
    apply TMountNotDir. unfold lookup_path. by rewrite Ew, Hn, Ed.
Qed.

Lemma init_wf : wf init_vfs.
Proof.
  assert (forall c p n, walk (nodes init_vfs) c p = Found n -> is_Some (nodes init_vfs !! c) -> p = []) as Hw.
  { intros c [|s p] n; [done|]. cbn [walk nodes init_vfs]. intros H [x Hx].
    apply lookup_singleton_Some in Hx as [<- <-]. rewrite lookup_singleton_eq in H. cbn [type] in H.
    unfold find_child_node in H. by rewrite lookup_singleton_eq in H. }
  assert (is_Some (nodes init_vfs !! vfs_root init_vfs)) as Hr by (eexists; apply lookup_singleton_eq).
  constructor; [done| | |].
  - intros n [x Hx]. cbn [nodes init_vfs] in Hx. apply lookup_singleton_Some in Hx as [<- _]. simpl. lia.
  - intros n node Hx. cbn [nodes init_vfs] in Hx. apply lookup_singleton_Some in Hx as [_ <-]. split; [done|constructor].
  - intros n p q _ _ H1 H2. by rewrite (Hw _ _ _ H1 Hr), (Hw _ _ _ H2 Hr).
Qed.

(** ** Sequences of operations *)

Fixpoint run_ops (v : vfs) (ops : list vfs_op) : option (vfs * list bool) :=
  match ops with
  | [] => Some (v, [])
  | op :: ops =>
      '(v, r, rel) ← run_op v op;
      match rel with
      | Released => '(v, rs) ← run_ops v ops; Some (v, bool_decide (r <> None) :: rs)
      | _ => None
      end
  end.

Inductive tree_run (t : tree) : list vfs_op -> tree -> list bool -> Prop :=
  | TNil : tree_run t [] t []
  | TCons op ops t1 t1' t2 r rs :
      tree_step t op t1 r -> (forall q, nonzero q -> t1' q = t1 q) -> tree_run t1' ops t2 rs ->
      tree_run t (op :: ops) t2 (r :: rs).

Lemma run_ops_refine ops v :
  wf v -> Forall (fun op => path_ok (op_path op)) ops ->
  exists v' rs, run_ops v ops = Some (v', rs) /\ wf v' /\ tree_run (lookup_path v) ops (lookup_path v') rs.
Proof.
  intros Hwf Hops. revert v Hwf. induction Hops as [|op ops Hop Hops IH]; intros v Hwf.
  { do 2 eexists. split; [reflexivity|]. split; [done|constructor]. }
  assert (exists v' r, run_op v op = Some (v', r, Released) /\ wf v' /\
    exists t', tree_step (lookup_path v) op t' (bool_decide (r <> None)) /\
      forall q, nonzero q -> lookup_path v' q = t' q) as (v1 & r & Hr & Hwf1 & t1 & Hstep & Ht1).
  { destruct op; [by apply mkdir_step|by apply mount_step]. }
  destruct (IH v1 Hwf1) as (v2 & rs & Hrs & Hwf2 & Hrun).
  exists v2, (bool_decide (r <> None) :: rs). cbn [run_ops]. rewrite Hr. cbn [mbind option_bind]. rewrite Hrs.
  split; [done|]. split; [done|]. by eapply TCons.
Qed.

(** ** Theorems *)

(** Fact: vfs_get_node on an absolute path, in every well-formed state, is the
    walk over the path's segments: it returns the node when the walk ends,
    the last directory and the rest of the path (from its separator) when a
    child is missing, and the mounted file system with the path inside it when
    it meets one; the searched path is live in each case. *)
Theorem vfs_get_node_walks v path after :
  wf v -> path_ok path -> default [] (head after) = [] ->
  exists w, w = walk (nodes v) (vfs_root v) (path_segments path) /\ w <> NotDir /\
    vfs_get_node v path after = Some (node_result (canonical [PATH_SEPERATOR] (path_segments path)) w).
Proof.
  intros Hwf Hp Ha. eexists. split; [reflexivity|]. split.
  - apply walk_no_notdir; [by apply wf_nodes_ok|apply Hwf].
  - apply get_node_spec; [done|by apply path_ok_ne|apply Hp|done].
Qed.

(** C11: every sequence of mkdir and mount operations on absolute paths with
    names of at most 255 characters, from init_vfs, returns, releases each
    searched path exactly once, keeps the nodes a tree, and does to the map from
    paths to directories and file systems what the abstract operations do: a
    directory is added below an existing directory only, an existing path is
    refused, a file system replaces only a directory without children. (The byte
    behind the terminator of the searched path, which vfs.c, line 467, reads, is
    taken to be zero, as in a block that malloc has cleared and that is longer
    than the path.) *)
Theorem vfs_refines_tree ops :
  Forall (fun op => path_ok (op_path op)) ops ->
  exists v rs, run_ops init_vfs ops = Some (v, rs) /\ wf v /\
    tree_run (lookup_path init_vfs) ops (lookup_path v) rs.
Proof. apply run_ops_refine, init_wf. Qed.

(** Fact: the release of the searched path goes wrong on paths that are not
    searched: the empty path leaves it unassigned and mkdir frees an
    indeterminate pointer, and a path of white space is freed twice. *)
Theorem vfs_mkdir_bad_free v after s :
  isspace s = true ->
  vfs_mkdir v [] after = Some (v, None, WildFree) /\ vfs_mkdir v [s] after = Some (v, None, DoubleFree).
Proof.
  intros Hs. split; [done|]. unfold vfs_mkdir, vfs_get_node, preprocess_path. cbn [preprocess_loop].
  by rewrite Hs.
Qed.

(** Fact: a relative path that is not there loses its first character: the
    directory is created under the root with the rest of the name, since the
    remaining path starts at the name and not at a separator. *)
Theorem vfs_mkdir_relative v c s nm l :
  wf v -> nodes v !! vfs_root v = Some (Node VFS_NODE_TYPE_DIR nm (Children l)) ->
  segment_ok (c :: s) -> seg_ok s -> find_child_node (nodes v) (vfs_root v) (c :: s) = None ->
  vfs_mkdir v (c :: s) [] = Some (with_dir v (vfs_root v) nm s l, Some (next_node v), Released).
Proof.
  intros Hwf Hroot Hcs Hs Hmiss. unfold vfs_mkdir, vfs_get_node.
  assert (canonical [] [c :: s] = c :: s) as Hcan by done.
  rewrite <- Hcan, canonical_fix; [|by left|by constructor|done]. rewrite Hcan.
  destruct Hcs as [_ Hcs]. apply list.Forall_cons in Hcs as Hc'. destruct Hc' as [[Hc _] _].
  destruct (Z.eqb_spec c PATH_SEPERATOR); [done|]. cbn [get_node_loop].
  rewrite next_separator_last by (eapply list.Forall_impl; [exact Hcs|]; by intros x []).
  rewrite Hroot. cbn [mbind option_bind type]. rewrite Hmiss.
  cbn [remaining_path found_node path_searched free_path mbind option_bind]. rewrite Hroot. cbn [mbind option_bind type data].
  rewrite bool_decide_eq_true_2 by done. cbn [negb]. rewrite bool_decide_eq_false_2 by (apply seg_no_sep, Hs).
  destruct (Nat.ltb_spec VFS_NODE_NAME_NUM_OF_CHARS (length s + 1)) as [Hlong|_]; [destruct Hs as (_ & _ & Hlen); lia|].
  unfold set_data. cbn [nodes vfs_root next_node]. rewrite lookup_insert_ne by (apply not_eq_sym, root_ne_next, Hwf).
  by rewrite Hroot.
Qed.

(** ** Witnesses *)

Definition demo_ops : list vfs_op :=
  [OpMkdir [47; 97]; OpMkdir [47; 97; 47; 98]; OpMkdir [47; 97]; OpMount [47; 97; 47; 98; 47] 0 1024 0;
   OpMount [47; 97] 0 0 0; OpMkdir [47; 97; 47; 98; 47; 99]].

Lemma demo_ops_ok : Forall (fun op => path_ok (op_path op)) demo_ops.
Proof. repeat constructor; try discriminate; vm_compute; lia. Qed.

Lemma vfs_refines_tree_witness :
  exists v rs, run_ops init_vfs demo_ops = Some (v, rs) /\ rs = [true; true; false; true; false; false] /\ wf v.
Proof.
  destruct (vfs_refines_tree demo_ops demo_ops_ok) as (v & rs & H1 & H2 & _).
  exists v, rs. split; [exact H1|]. split; [|exact H2].
  assert (snd <$> run_ops init_vfs demo_ops = Some [true; true; false; true; false; false]) as E by (vm_compute; reflexivity).
  rewrite H1 in E. simpl in E. congruence.
Defined.

Lemma vfs_get_node_walks_witness :
  exists w, w = Missing 1 [[97]; [98]] /\ 
    vfs_get_node init_vfs [47; 97; 47; 98] [] = Some (node_result [47; 97; 47; 98] w).
Proof.
  destruct (vfs_get_node_walks init_vfs [47; 97; 47; 98] [] init_wf) as (w & H1 & _ & H2).
  - repeat constructor; try discriminate; vm_compute; lia.
  - reflexivity.
  - exists w. split; [rewrite H1; vm_compute; reflexivity|exact H2].
Defined.

Lemma vfs_mkdir_bad_free_witness :
  vfs_mkdir init_vfs [] [] = Some (init_vfs, None, WildFree) /\
  vfs_mkdir init_vfs [32] [] = Some (init_vfs, None, DoubleFree).
Proof. exact (vfs_mkdir_bad_free init_vfs [] 32 eq_refl). Defined.

Lemma vfs_mkdir_relative_witness :
  exists v, vfs_mkdir init_vfs [97; 98] [] = Some (v, Some 2, Released) /\ lookup_path v [[98]] = Some KDir.
Proof.
  eexists. split.
  - apply (vfs_mkdir_relative init_vfs 97 [98] (name_array [47]) [] init_wf).
    + reflexivity.
    + repeat constructor; discriminate.
    + repeat constructor; try discriminate; vm_compute; lia.
    + reflexivity.
  - vm_compute. reflexivity.
Defined.
