(* ===== verification/Device.v ===== *)
(** * Device: port input and output (kernel/include/arch/x86_64/io.h)

    The in and out instructions of the drivers.  What a device answers is not
    code of the kernel: it is a parameter, a function of everything that passed
    over the ports before.  A driver is a computation in the monad [io]: it
    reads the device, extends the trace of port accesses, and fails ([None])
    when a polling loop runs out of fuel. *)

From S2P Require Import Prelude.

(** One port access of the given width in bits; the trace has the latest first. *)
Inductive event :=
  | Out (width port value : Z)
  | In (width port value : Z).

Definition trace := list event.
Definition device := trace -> Z -> Z -> Z.

Definition io (A : Type) : Type := device -> trace -> option (A * trace).

#[export] Instance io_ret : MRet io := fun A x _ h => Some (x, h).
#[export] Instance io_bind : MBind io := fun A B f x dev h =>
  match x dev h with Some (a, h') => f a dev h' | None => None end.

Definition io_fail {A} : io A := fun _ _ => None.

(** A computation on the memory of the driver that does not touch a port. *)
Definition io_lift {A} (x : option A) : io A := fun _ h => a ← x; Some (a, h).

Definition outb (port val : Z) : io unit := fun _ h => Some (tt, Out 8 port (u8 val) :: h).
Definition outw (port val : Z) : io unit := fun _ h => Some (tt, Out 16 port (u16 val) :: h).
Definition outl (port val : Z) : io unit := fun _ h => Some (tt, Out 32 port (u32 val) :: h).

Definition inb (port : Z) : io Z := fun dev h => let v := u8 (dev h 8 port) in Some (v, In 8 port v :: h).
Definition inw (port : Z) : io Z := fun dev h => let v := u16 (dev h 16 port) in Some (v, In 16 port v :: h).
Definition inl (port : Z) : io Z := fun dev h => let v := u32 (dev h 32 port) in Some (v, In 32 port v :: h).

(** Two writes to the unused port 0x80. *)
Definition io_wait : io unit := _ ← outb 0x80 0; outb 0x80 0.

(** A for loop over the elements of a list, with the state it carries. *)
Fixpoint io_fold {A B} (f : A -> B -> io B) (l : list A) (b : B) : io B :=
  match l with
  | [] => mret b
  | x :: l => b ← f x b; io_fold f l b
  end.

(** ** Devices with registers

    The last value written to a port; a device answers reads of a plain
    register with it. *)

Fixpoint last_out (h : trace) (port : Z) : option Z :=
  match h with
  | [] => None
  | Out _ p v :: h => if p =? port then Some v else last_out h port
  | In _ _ _ :: h => last_out h port
  end.

(** The port behaves as a byte register: a read returns the last write. *)
Definition byte_register (dev : device) (port init : Z) : Prop :=
  forall h, dev h 8 port = default init (last_out h port).

(** ** Running *)

Definition run {A} (x : io A) (dev : device) (h : trace) : option (A * trace) := x dev h.

Lemma run_bind {A B} (f : A -> io B) (x : io A) dev h :
  run (x ≫= f) dev h = '(a, h') ← run x dev h; run (f a) dev h'.
Proof. unfold run, mbind, io_bind. simpl. by destruct (x dev h) as [[a h']|]. Qed.

Lemma run_ret {A} (a : A) dev h : run (mret a) dev h = Some (a, h).
Proof. done. Qed.

Lemma run_outb p v dev h : run (outb p v) dev h = Some (tt, Out 8 p (u8 v) :: h).
Proof. done. Qed.
Lemma run_outw p v dev h : run (outw p v) dev h = Some (tt, Out 16 p (u16 v) :: h).
Proof. done. Qed.
Lemma run_outl p v dev h : run (outl p v) dev h = Some (tt, Out 32 p (u32 v) :: h).
Proof. done. Qed.
Lemma run_inb p dev h : run (inb p) dev h = Some (u8 (dev h 8 p), In 8 p (u8 (dev h 8 p)) :: h).
Proof. done. Qed.
Lemma run_inw p dev h : run (inw p) dev h = Some (u16 (dev h 16 p), In 16 p (u16 (dev h 16 p)) :: h).
Proof. done. Qed.
Lemma run_inl p dev h : run (inl p) dev h = Some (u32 (dev h 32 p), In 32 p (u32 (dev h 32 p)) :: h).
Proof. done. Qed.
Lemma run_io_wait dev h : run io_wait dev h = Some (tt, Out 8 0x80 0 :: Out 8 0x80 0 :: h).
Proof. done. Qed.

Lemma run_io_lift {A} (x : option A) dev h : run (io_lift x) dev h = a ← x; Some (a, h).
Proof. done. Qed.

Create Rewrite HintDb io.
#[export] Hint Rewrite @run_bind @run_ret run_outb run_outw run_outl run_inb run_inw run_inl run_io_wait @run_io_lift : io.

(** Steps through a driver. *)
Ltac run_io := repeat (autorewrite with io; cbn [mbind option_bind fst snd]).

(** ** Computations that read only

    [yields P x v]: from every trace in [P], [x] returns [v] and stays in [P].
    For a driver that only reads registers [P] says what the registers hold. *)

Definition yields {A} (dev : device) (P : trace -> Prop) (x : io A) (v : A) : Prop :=
  forall h, P h -> exists h', run x dev h = Some (v, h') /\ P h'.

Lemma yields_ret {A} dev P (v : A) : yields dev P (mret v) v.
Proof. intros h H. by exists h. Qed.

Lemma yields_bind {A B} dev P (x : io A) (f : A -> io B) a b :
  yields dev P x a -> yields dev P (f a) b -> yields dev P (x ≫= f) b.
Proof.
  intros Hx Hf h H. destruct (Hx h H) as (h1 & E1 & H1). destruct (Hf h1 H1) as (h2 & E2 & H2).
  exists h2. split; [|done]. by rewrite run_bind, E1.
Qed.

Lemma yields_fold {A B} dev P (f : A -> B -> io B) (g : B -> A -> B) l b :
  (forall x b, x ∈ l -> yields dev P (f x b) (g b x)) -> yields dev P (io_fold f l b) (fold_left g l b).
Proof.
  revert b. induction l as [|x l IH]; intros b H; simpl; [apply yields_ret|].
  eapply yields_bind; [apply H; left|]. apply IH. intros y c Hy. apply H. by right.
Qed.
