(* ===== verification/Interrupts.v ===== *)
(** * Interrupts: pic.c, pit.c and idt.c of kernel/arch/x86_64/interrupts

    The interrupt controllers, the timer and the descriptor table.  The
    controllers' mask registers are read and written through their data ports;
    the table is an array of 16-byte descriptors in memory.  The interrupt flag
    of the processor is not part of this state: cli and sti are left out of the
    port sequences. *)

From S2P Require Import Prelude Mem Device.

(** ** pic.c *)

Definition PIC1 : Z := 0x20.
Definition PIC2 : Z := 0xA0.
Definition PIC1_COMMAND : Z := PIC1.
Definition PIC1_DATA : Z := PIC1 + 1.
Definition PIC2_COMMAND : Z := PIC2.
Definition PIC2_DATA : Z := PIC2 + 1.
Definition PIC1_OFFSET : Z := 0x20.
Definition PIC2_OFFSET : Z := 0x28.
Definition PIC_EOI : Z := 0x20.
Definition ICW1_ICW4 : Z := 0x01.
Definition ICW1_INIT : Z := 0x10.
Definition ICW4_8086 : Z := 0x01.
Definition PIC_READ_IRR : Z := 0x0a.
Definition PIC_READ_ISR : Z := 0x0b.
Definition IRQ_PIT : Z := 0x0.
Definition IRQ_KEYBOARD : Z := 0x1.

(** The parameter is a uint8_t. *)
Definition pic_send_eoi (irq : Z) : io unit :=
  let irq := u8 irq in
  _ ← (if 8 <=? irq then outb PIC2_COMMAND PIC_EOI else mret tt);
  outb PIC1_COMMAND PIC_EOI.

(** ** pit.c *)

Definition PIT_COMMAND_REGISTER : Z := 0x43.
Definition PIT_CHANNEL_0_DATA_REGISTER : Z := 0x40.
Definition PIT_FREQUENCY : Z := 1193180.
Definition PIT_TIMER_FREQ : Z := 1000.
Definition TIME_DELTA_TICK_MS : Z := 1000 / PIT_TIMER_FREQ.

Record pit := Pit { pit_tick_count : Z; pit_time_ms : Z }.

Definition set_pit_count (count : Z) : io unit :=
  _ ← outb PIT_CHANNEL_0_DATA_REGISTER (Z.land count 0xFF);
  _ ← io_wait;
  outb PIT_CHANNEL_0_DATA_REGISTER (Z.shiftr (Z.land count 0xFF00) 8).

Definition pit_init : io unit :=
  let divisor := PIT_FREQUENCY / PIT_TIMER_FREQ in set_pit_count divisor.

Definition read_pit_count : io Z :=
  _ ← outb PIT_COMMAND_REGISTER 0;
  pit_count ← inb PIT_CHANNEL_0_DATA_REGISTER;
  _ ← io_wait;
  high ← inb PIT_CHANNEL_0_DATA_REGISTER;
  mret (Z.lor pit_count (Z.shiftl high 8)).

Definition pit_handler (p : pit) : pit :=
  Pit (u64 (pit_tick_count p + 1)) (u64 (pit_time_ms p + TIME_DELTA_TICK_MS)).

(** The wait of pit_sleep: interrupts tick while the loop runs, one tick
    between two tests; the result is the state when the loop ends. *)
Fixpoint pit_sleep_loop (fuel : nat) (p : pit) (end_ticks : Z) : option pit :=
  if pit_tick_count p <? end_ticks then
    match fuel with
    | O => None
    | S fuel => pit_sleep_loop fuel (pit_handler p) end_ticks
    end
  else Some p.

Definition pit_sleep (fuel : nat) (p : pit) (milliseconds : Z) : option pit :=
  pit_sleep_loop fuel p (u64 (pit_tick_count p + milliseconds)).

(** ** pic.c, continued *)

Definition pic_init (offset1 offset2 : Z) : io unit :=
  _ ← io_wait;
  a1 ← inb PIC1_DATA;
  a2 ← inb PIC2_DATA;
  _ ← outb PIC1_COMMAND (Z.lor ICW1_INIT ICW1_ICW4);
  _ ← io_wait;
  _ ← outb PIC2_COMMAND (Z.lor ICW1_INIT ICW1_ICW4);
  _ ← io_wait;
  _ ← outb PIC1_DATA offset1;
  _ ← io_wait;
  _ ← outb PIC2_DATA offset2;
  _ ← io_wait;
  _ ← outb PIC1_DATA 4;
  _ ← io_wait;
  _ ← outb PIC2_DATA 2;
  _ ← io_wait;
  _ ← outb PIC1_DATA ICW4_8086;
  _ ← io_wait;
  _ ← outb PIC2_DATA ICW4_8086;
  _ ← io_wait;
  _ ← outb PIC1_DATA a1;
  _ ← outb PIC2_DATA a2;
  pit_init.

Definition pic_disable : io unit := _ ← outb PIC1_DATA 0xff; outb PIC2_DATA 0xff.

(** The data port and the bit of a line. *)
Definition irq_port (IRQline : Z) : Z * Z :=
  if IRQline <? 8 then (PIC1_DATA, IRQline) else (PIC2_DATA, u8 (IRQline - 8)).

Definition irq_set_mask (IRQline : Z) : io unit :=
  let '(port, line) := irq_port IRQline in
  v ← inb port;
  let value := u8 (Z.lor v (Z.shiftl 1 line)) in
  outb port value.

Definition irq_clear_mask (IRQline : Z) : io unit :=
  let '(port, line) := irq_port IRQline in
  v ← inb port;
  let value := u8 (Z.land v (Z.lnot (Z.shiftl 1 line))) in
  outb port value.

Definition pic_get_irq_reg (ocw3 : Z) : io Z :=
  _ ← outb PIC1_COMMAND ocw3;
  _ ← outb PIC2_COMMAND ocw3;
  high ← inb PIC2_COMMAND;
  low ← inb PIC1_COMMAND;
  mret (Z.lor (Z.shiftl high 8) low).

Definition pic_get_irr : io Z := pic_get_irq_reg PIC_READ_IRR.
Definition pic_get_isr : io Z := pic_get_irq_reg PIC_READ_ISR.

(** ** idt.c *)

Definition KERNEL_CS : Z := 0x08.
Definition IDT_ENTRIES_AMOUNT : Z := 256.
Definition INT_TYPE_ATTRIBUTES : Z := 142.

Record idt_gate_descriptor := Gate {
  offset_low : Z; selector : Z; ist : Z; type_attributes : Z; offset_medium : Z; offset_high : Z; zero : Z;
}.

Definition sizeof_idt_gate_descriptor : Z := 16.

(** The packed struct in memory. *)
Definition store_gate (m : mem) (a : Z) (g : idt_gate_descriptor) : mem :=
  st32 (st32 (st16 (mwrite (mwrite (st16 (st16 m a (offset_low g)) (a + 2) (selector g))
    (a + 4) (ist g)) (a + 5) (type_attributes g)) (a + 6) (offset_medium g)) (a + 8) (offset_high g)) (a + 12) (zero g).

Definition idt_gate_init (m : mem) (idt gate_descriptor_num handler : Z) : mem :=
  let idt_gate := {|
    offset_low := Z.land handler 0xFFFF;
    selector := KERNEL_CS;
    ist := 0;
    type_attributes := INT_TYPE_ATTRIBUTES;
    offset_medium := Z.land (Z.shiftr handler 0x10) 0xFFFF;
    offset_high := Z.land (Z.shiftr handler 0x20) 0xFFFFFFFF;
    zero := 0 |} in
  store_gate m (idt + sizeof_idt_gate_descriptor * u8 gate_descriptor_num) idt_gate.

(** The limit and base loaded with lidt. *)
Definition update_idt (idt : Z) : Z * Z := (IDT_ENTRIES_AMOUNT * sizeof_idt_gate_descriptor - 1, idt).

(** Handlers are installed in order: 0 to 31 for exceptions, then the timer,
    the keyboard, line 2 and the network card. *)
Definition RTL8139_INTERRUPT_LINE : Z := 11.

Definition handler_vectors : list Z :=
  map Z.of_nat (seq 0 35) ++ [PIC1_OFFSET + RTL8139_INTERRUPT_LINE].

Definition init_isr_handlers (m : mem) (idt : Z) (handle_isr : Z -> Z) : mem :=
  fold_left (fun m n => idt_gate_init m idt n (handle_isr n)) handler_vectors m.

(** ** What the processor does with a gate

    It loads the descriptor of vector [n] from the table at [base] and jumps to
    the offset put together from its three parts. *)

Definition gate_target (m : mem) (base n : Z) : Z :=
  let a := base + 16 * n in
  ld16 m a + ld16 m (a + 6) * 2 ^ 16 + ld32 m (a + 8) * 2 ^ 32.

(** A present 64-bit interrupt gate of privilege 0 in the kernel's segment. *)
Definition gate_ok (m : mem) (base n : Z) : Prop :=
  let a := base + 16 * n in
  mread m (a + 5) = 0x8E /\ ld16 m (a + 2) = 8 /\ mread m (a + 4) = 0.

(** ** Lemmas: gates *)

Lemma store_gate_out m a g b : b < a \/ a + 16 <= b -> mread (store_gate m a g) b = mread m b.
Proof.
  intros H. unfold store_gate.
  rewrite !mread_store_out by (simpl; lia). rewrite !mread_mwrite_ne by lia. rewrite !mread_store_out by (simpl; lia). done.
Qed.

(** The fields of a stored gate. *)
Lemma store_gate_fields m a g :
  ld16 (store_gate m a g) a = u16 (offset_low g) /\ ld16 (store_gate m a g) (a + 2) = u16 (selector g) /\
  mread (store_gate m a g) (a + 4) = u8 (ist g) /\ mread (store_gate m a g) (a + 5) = u8 (type_attributes g) /\
  ld16 (store_gate m a g) (a + 6) = u16 (offset_medium g) /\ ld32 (store_gate m a g) (a + 8) = u32 (offset_high g).
Proof.
  unfold store_gate.
  assert (forall m b v c, c + 2 <= b \/ b + 1 <= c -> ld16 (mwrite m b v) c = ld16 m c) as Hw.
  { intros. apply load_ext. intros j Hj. simpl in Hj. apply mread_mwrite_ne. lia. }
  assert (forall m b v c, c + 2 <= b \/ b + 2 <= c -> ld16 (st16 m b v) c = ld16 m c) as H1
    by (intros; apply load_store_out; simpl; lia).
  assert (forall m b v c, c + 2 <= b \/ b + 4 <= c -> ld16 (st32 m b v) c = ld16 m c) as H2
    by (intros; apply load_store_out; simpl; lia).
  assert (forall m b v c, c + 4 <= b \/ b + 4 <= c -> ld32 (st32 m b v) c = ld32 m c) as H3
    by (intros; apply load_store_out; simpl; lia).
  split_and!.
  - rewrite H2, H2, H1, Hw, Hw, H1 by lia. apply ld16_st16.
  - rewrite H2, H2, H1, Hw, Hw by lia. apply ld16_st16.
  - rewrite !mread_store_out by (simpl; lia). rewrite mread_mwrite_ne by lia. apply mread_mwrite_eq.
  - rewrite !mread_store_out by (simpl; lia). apply mread_mwrite_eq.
  - rewrite H2, H2 by lia. apply ld16_st16.
  - rewrite H3 by lia. apply ld32_st32.
Qed.

(** The parts of an address add up. *)
Lemma handler_parts h : 0 <= h < 2 ^ 64 ->
  u16 (Z.land h 0xFFFF) + u16 (Z.land (Z.shiftr h 0x10) 0xFFFF) * 2 ^ 16 +
  u32 (Z.land (Z.shiftr h 0x20) 0xFFFFFFFF) * 2 ^ 32 = h.
Proof.
  intros Hh. change 0xFFFF with (Z.ones 16). change 0xFFFFFFFF with (Z.ones 32).
  rewrite !Z.land_ones, !Z.shiftr_div_pow2 by lia. unfold u16, u32.
  change (2 ^ 16) with 65536. change (2 ^ 0x10) with 65536. change (2 ^ 32) with 4294967296.
  change (2 ^ 0x20) with 4294967296. change (2 ^ 64) with 18446744073709551616 in Hh. zlia.
Qed.

Lemma gate_init_target m idt n h :
  0 <= n < 256 -> 0 <= h < 2 ^ 64 ->
  gate_target (idt_gate_init m idt n h) idt n = h /\ gate_ok (idt_gate_init m idt n h) idt n.
Proof.
  intros Hn Hh. unfold gate_target, gate_ok, idt_gate_init, sizeof_idt_gate_descriptor. rewrite u8_small by done.
  set (g := {| offset_low := _ |}).
  destruct (store_gate_fields m (idt + 16 * n) g) as (-> & -> & -> & -> & -> & ->).
  split; [by apply handler_parts|done].
Qed.

Lemma gate_init_other m idt n h b :
  0 <= n < 256 -> b < idt + 16 * n \/ idt + 16 * n + 16 <= b -> mread (idt_gate_init m idt n h) b = mread m b.
Proof. intros Hn Hb. unfold idt_gate_init, sizeof_idt_gate_descriptor. rewrite u8_small by done. by apply store_gate_out. Qed.

(** What a gate says depends on its 16 bytes only. *)
Lemma gate_ext m1 m2 base n :
  (forall b, base + 16 * n <= b < base + 16 * n + 16 -> mread m1 b = mread m2 b) ->
  gate_target m1 base n = gate_target m2 base n /\ (gate_ok m1 base n <-> gate_ok m2 base n).
Proof.
  intros H. unfold gate_target, gate_ok.
  assert (forall k a, base + 16 * n <= a -> a + Z.of_nat k <= base + 16 * n + 16 -> load k m1 a = load k m2 a) as HL.
  { intros k a H1 H2. apply load_ext. intros j Hj. apply H. lia. }
  rewrite !HL by (simpl; lia). rewrite !H by lia. done.
Qed.

Lemma init_handlers_gates vs m idt handle_isr n :
  Forall (fun v => 0 <= v < 256) vs -> (forall v, 0 <= handle_isr v < 2 ^ 64) -> 0 <= n < 256 ->
  let m' := fold_left (fun m n => idt_gate_init m idt n (handle_isr n)) vs m in
  (n ∈ vs -> gate_target m' idt n = handle_isr n /\ gate_ok m' idt n) /\
  (n ∉ vs -> forall b, idt + 16 * n <= b < idt + 16 * n + 16 -> mread m' b = mread m b).
Proof.
  intros Hvs Hh Hn. revert m. induction Hvs as [|v vs Hv Hvs IH]; intros m; simpl.
  { split; [by intros ?%elem_of_nil|done]. }
  destruct (IH (idt_gate_init m idt v (handle_isr v))) as [IH1 IH2].
  destruct (decide (n ∈ vs)) as [Hin|Hout].
  - split; [intros _; by apply IH1|]. intros Hno. destruct Hno. by right.
  - destruct (gate_ext _ _ idt n (IH2 Hout)) as [E1 E2]. split.
    + intros Hv'. apply elem_of_cons in Hv' as [->|]; [|done]. rewrite E1, E2. by apply gate_init_target.
    + intros Hno b Hb. rewrite IH2 by done. apply gate_init_other; [done|].
      apply not_elem_of_cons in Hno as [Hne _]. lia.
Qed.

(** ** Lemmas: masks *)

(** Line [k] of the two controllers is masked. *)
Definition masked (dev : device) (h : trace) (k : Z) : bool :=
  let '(port, line) := irq_port k in Z.testbit (dev h 8 port) line.

(** The mask registers as the controllers document them: the data port reads
    back the mask last written to it. *)
Definition pic_device (dev : device) : Prop :=
  exists i1 i2, byte_register dev PIC1_DATA i1 /\ byte_register dev PIC2_DATA i2.

Lemma irq_port_cases k : 0 <= k < 16 ->
  (k < 8 /\ irq_port k = (PIC1_DATA, k)) \/ (8 <= k /\ irq_port k = (PIC2_DATA, k - 8)).
Proof.
  intros Hk. unfold irq_port. destruct (Z.ltb_spec k 8); [by left|right]. split; [done|].
  by rewrite u8_small by lia.
Qed.

Lemma u8_testbit x i : 0 <= i < 8 -> Z.testbit (u8 x) i = Z.testbit x i.
Proof. intros. unfold u8. change 256 with (2 ^ 8). rewrite Z.mod_pow2_bits_low; [done|lia]. Qed.

Lemma set_bit_testbit v line i : 0 <= line -> 0 <= i ->
  Z.testbit (Z.lor v (Z.shiftl 1 line)) i = (i =? line) || Z.testbit v i.
Proof.
  intros Hl Hi. rewrite Z.lor_spec, Z.shiftl_1_l, Z.pow2_bits_eqb by lia. rewrite orb_comm. f_equal. apply Z.eqb_sym.
Qed.

Lemma clear_bit_testbit v line i : 0 <= line -> 0 <= i ->
  Z.testbit (Z.land v (Z.lnot (Z.shiftl 1 line))) i = negb (i =? line) && Z.testbit v i.
Proof.
  intros Hl Hi. rewrite Z.land_spec, Z.lnot_spec, Z.shiftl_1_l, Z.pow2_bits_eqb by lia.
  rewrite andb_comm. do 2 f_equal. apply Z.eqb_sym.
Qed.

(** The masks after the read and the write of one line's port. *)
Lemma masked_write dev h n k v : pic_device dev -> 0 <= n < 16 -> 0 <= k < 16 ->
  let '(port, line) := irq_port n in
  masked dev (Out 8 port (u8 v) :: In 8 port (u8 (dev h 8 port)) :: h) k =
  if bool_decide (fst (irq_port k) = port) then Z.testbit v (snd (irq_port k)) else masked dev h k.
Proof.
  intros (i1 & i2 & H1 & H2) Hn Hk. unfold masked.
  destruct (irq_port_cases n Hn) as [[? ->]|[? ->]], (irq_port_cases k Hk) as [[? ->]|[? ->]]; cbn [fst snd].
  - rewrite bool_decide_eq_true_2, H1 by done. cbn [last_out]. rewrite Z.eqb_refl. apply u8_testbit. lia.
  - rewrite bool_decide_eq_false_2, !H2 by done. reflexivity.
  - rewrite bool_decide_eq_false_2, !H1 by done. reflexivity.
  - rewrite bool_decide_eq_true_2, H2 by done. cbn [last_out]. rewrite Z.eqb_refl. apply u8_testbit. lia.
Qed.

Lemma irq_port_inj n k : 0 <= n < 16 -> 0 <= k < 16 ->
  bool_decide (fst (irq_port k) = fst (irq_port n)) && (snd (irq_port k) =? snd (irq_port n)) = (k =? n).
Proof.
  intros Hn Hk.
  destruct (irq_port_cases n Hn) as [[? ->]|[? ->]], (irq_port_cases k Hk) as [[? ->]|[? ->]]; cbn [fst snd];
    [rewrite bool_decide_eq_true_2 by done|rewrite bool_decide_eq_false_2 by done..|rewrite bool_decide_eq_true_2 by done];
    simpl; (destruct (Z.eqb_spec k n); destruct (Z.eqb_spec k n); try lia); try (by rewrite Z.eqb_refl || done).
  all: destruct (Z.eqb_spec (k - 8) (n - 8)); (done || lia).
Qed.

Lemma pit_sleep_loop_spec fuel p e :
  0 <= pit_tick_count p -> e < 2 ^ 64 -> e - pit_tick_count p <= Z.of_nat fuel ->
  exists p', pit_sleep_loop fuel p e = Some p' /\ pit_tick_count p' = Z.max (pit_tick_count p) e.
Proof.
  revert p. induction fuel as [|fuel IH]; intros p Hp He Hf; cbn [pit_sleep_loop];
    (destruct (Z.ltb_spec (pit_tick_count p) e); [|exists p; split; [done|lia]]); [lia|].
  assert (pit_tick_count (pit_handler p) = pit_tick_count p + 1) as E by (simpl; apply u64_small; lia).
  destruct (IH (pit_handler p)) as (p' & H1 & H2); [lia|done|lia|]. exists p'. split; [done|]. lia.
Qed.

Lemma irq_line_range n : 0 <= n < 16 -> 0 <= snd (irq_port n) < 8.
Proof. intros Hn. destruct (irq_port_cases n Hn) as [[? ->]|[? ->]]; simpl; lia. Qed.

Lemma irq_set_mask_run dev h n k : pic_device dev -> 0 <= n < 16 -> 0 <= k < 16 ->
  exists h', run (irq_set_mask n) dev h = Some (tt, h') /\ masked dev h' k = (k =? n) || masked dev h k.
Proof.
  intros Hdev Hn Hk. pose proof (irq_port_inj n k Hn Hk) as Hinj.
  pose proof (irq_line_range n Hn) as Hl. pose proof (irq_line_range k Hk) as Hlk.
  unfold irq_set_mask. destruct (irq_port n) as [port line] eqn:En. run_io. eexists. split; [reflexivity|].
  pose proof (masked_write dev h n k (u8 (Z.lor (u8 (dev h 8 port)) (Z.shiftl 1 line))) Hdev Hn Hk) as H.
  rewrite En in H. rewrite H. clear H. simpl in Hl, Hinj. rewrite <- Hinj. unfold masked.
  destruct (irq_port k) as [pk lk]. simpl in *. case_bool_decide as E; [subst pk|done]. simpl.
  rewrite u8_testbit, set_bit_testbit, u8_testbit by lia. done.
Qed.

Lemma irq_clear_mask_run dev h n k : pic_device dev -> 0 <= n < 16 -> 0 <= k < 16 ->
  exists h', run (irq_clear_mask n) dev h = Some (tt, h') /\ masked dev h' k = negb (k =? n) && masked dev h k.
Proof.
  intros Hdev Hn Hk. pose proof (irq_port_inj n k Hn Hk) as Hinj.
  pose proof (irq_line_range n Hn) as Hl. pose proof (irq_line_range k Hk) as Hlk.
  unfold irq_clear_mask. destruct (irq_port n) as [port line] eqn:En. run_io. eexists. split; [reflexivity|].
  pose proof (masked_write dev h n k (u8 (Z.land (u8 (dev h 8 port)) (Z.lnot (Z.shiftl 1 line)))) Hdev Hn Hk) as H.
  rewrite En in H. rewrite H. clear H. simpl in Hl, Hinj. rewrite <- Hinj. unfold masked.
  destruct (irq_port k) as [pk lk]. simpl in *. case_bool_decide as E; [subst pk|done]. simpl.
  rewrite u8_testbit, clear_bit_testbit, u8_testbit by lia. done.
Qed.

(** ** Theorems *)

(** Fact: after init_isr_handlers every one of the 36 vectors has a present
    kernel interrupt gate through which the processor reaches exactly the
    handler that was passed for it, whatever its 64-bit address, and the
    descriptors of all other vectors are untouched. *)
Theorem idt_reaches_handlers m idt handle_isr n :
  (forall v, 0 <= handle_isr v < 2 ^ 64) -> 0 <= n < 256 ->
  let m' := init_isr_handlers m idt handle_isr in
  (n ∈ handler_vectors -> gate_target m' idt n = handle_isr n /\ gate_ok m' idt n) /\
  (n ∉ handler_vectors -> forall b, idt + 16 * n <= b < idt + 16 * n + 16 -> mread m' b = mread m b).
Proof.
  intros Hh Hn. apply init_handlers_gates; [|done|done].
  apply list.Forall_forall. intros v Hv. unfold handler_vectors in Hv.
  apply elem_of_app in Hv as [Hv|Hv].
  - apply list_elem_of_fmap in Hv as (k & -> & Hk). apply elem_of_seq in Hk. lia.
  - apply list_elem_of_singleton in Hv as ->. vm_compute. split; [discriminate|done].
Qed.

(** Fact: against interrupt controllers whose data ports read back the mask last
    written, irq_set_mask and irq_clear_mask change the mask of exactly the
    given line out of sixteen, and pic_init leaves every mask as it was. *)
Theorem irq_masks dev h n k :
  pic_device dev -> 0 <= n < 16 -> 0 <= k < 16 ->
  (exists h', run (irq_set_mask n) dev h = Some (tt, h') /\ masked dev h' k = (k =? n) || masked dev h k) /\
  (exists h', run (irq_clear_mask n) dev h = Some (tt, h') /\ masked dev h' k = negb (k =? n) && masked dev h k) /\
  (forall o1 o2, exists h', run (pic_init o1 o2) dev h = Some (tt, h') /\ masked dev h' k = masked dev h k).
Proof.
  intros Hdev Hn Hk. split_and!; [by apply irq_set_mask_run|by apply irq_clear_mask_run|].
  intros o1 o2. destruct Hdev as (i1 & i2 & H1 & H2). unfold byte_register in H1, H2.
  eexists. split; [reflexivity|]. unfold masked.
  destruct (irq_port_cases k Hk) as [[? ->]|[? ->]].
  - rewrite !H1. cbn [last_out Z.eqb]. simpl. rewrite !u8_testbit by lia. done.
  - rewrite !H2. simpl. rewrite !u8_testbit by lia. done.
Qed.

(** Fact: pit_sleep returns when exactly the requested number of ticks has
    passed, provided the tick counter does not overflow meanwhile; one tick is
    one millisecond. *)
Theorem pit_sleep_waits p ms fuel :
  0 <= pit_tick_count p -> 0 <= ms -> pit_tick_count p + ms < 2 ^ 64 -> ms <= Z.of_nat fuel ->
  exists p', pit_sleep fuel p ms = Some p' /\ pit_tick_count p' = pit_tick_count p + ms /\ TIME_DELTA_TICK_MS = 1.
Proof.
  intros Hp Hms Ho Hf. unfold pit_sleep. rewrite u64_small by lia.
  destruct (pit_sleep_loop_spec fuel p (pit_tick_count p + ms)) as (p' & H1 & H2); [done|lia|lia|].
  exists p'. split; [done|]. split; [lia|done].
Qed.

(** ** Witnesses *)

Definition demo_dev : device := fun h _ port => default 0xFB (last_out h port).

Lemma idt_reaches_handlers_witness :
  let m' := init_isr_handlers ∅ 0x5000 (fun v => 0xFFFFFFFF80000000 + v) in
  gate_target m' 0x5000 43 = 0xFFFFFFFF8000002B /\ gate_ok m' 0x5000 43.
Proof.
  intros m'.
  destruct (idt_reaches_handlers ∅ 0x5000 (fun v => u64 (0xFFFFFFFF80000000 + v)) 43
    ltac:(intros v; apply u64_range) ltac:(lia)) as [H _].
  exact (H ltac:(apply elem_of_app; right; by left)).
Defined.

Lemma irq_masks_witness :
  exists h', run (irq_set_mask 9) demo_dev [] = Some (tt, h') /\ masked demo_dev h' 9 = true.
Proof.
  destruct (irq_masks demo_dev [] 9 9 ltac:(by exists 0xFB, 0xFB) ltac:(lia) ltac:(lia)) as [(h' & H1 & H2) _].
  exists h'. exact (conj H1 H2).
Defined.

Lemma pit_sleep_waits_witness :
  exists p', pit_sleep 10 (Pit 5 5) 10 = Some p' /\ pit_tick_count p' = 15.
Proof.
  destruct (pit_sleep_waits (Pit 5 5) 10 10 ltac:(simpl; lia) ltac:(lia) ltac:(simpl; lia) ltac:(lia)) as (p' & H1 & H2 & _).
  exists p'. exact (conj H1 H2).
Defined.
