(* ===== verification/Keyboard.v ===== *)
(** * Keyboard: io.c and scs1.c of kernel/arch/x86_64

    Scan codes, the modifier state, and the ring buffer between the keyboard
    interrupt and its readers.  Indices and arithmetic are those of size_t; an
    access outside the arrays is [None]. *)

From S2P Require Import Prelude Mem Device Interrupts.

Definition BUFFER_SIZE : Z := 0x100.
Definition EOF : Z := -1.
Definition CAN : Z := 0x18.

Inductive KEYCODES_EXT := KEYCODES_EXT_START | CURSOR_UP | CURSOR_LEFT | CURSOR_RIGHT | CURSOR_DOWN.

Definition keycode (k : KEYCODES_EXT) : Z :=
  match k with
  | KEYCODES_EXT_START => 0x100 | CURSOR_UP => 0x100 | CURSOR_LEFT => 0x101
  | CURSOR_RIGHT => 0x102 | CURSOR_DOWN => 0x103
  end.

(** ** scs1.c *)

Definition PS2_KEYBOARD_SCS1_RLS_IDX : Z := 0x81.

Definition scs1_is_press (scan_code : Z) : bool := scan_code <? PS2_KEYBOARD_SCS1_RLS_IDX.

Definition scs1_to_ascii (scan_code : Z) (shift caps : bool) : Z :=
  match scan_code with
  | 0x01 => 27
  | 0x02 => if shift then 33 else 49
  | 0x03 => if shift then 64 else 50
  | 0x04 => if shift then 35 else 51
  | 0x05 => if shift then 36 else 52
  | 0x06 => if shift then 37 else 53
  | 0x07 => if shift then 94 else 54
  | 0x08 => if shift then 38 else 55
  | 0x09 => if shift then 42 else 56
  | 0x0A => if shift then 40 else 57
  | 0x0B => if shift then 41 else 48
  | 0x0C => if shift then 95 else 45
  | 0x0D => if shift then 43 else 61
  | 0x0E => 8
  | 0x0F => 9
  | 0x10 => if (shift || caps) then 81 else 113
  | 0x11 => if (shift || caps) then 87 else 119
  | 0x12 => if (shift || caps) then 69 else 101
  | 0x13 => if (shift || caps) then 82 else 114
  | 0x14 => if (shift || caps) then 84 else 116
  | 0x15 => if (shift || caps) then 89 else 121
  | 0x16 => if (shift || caps) then 85 else 117
  | 0x17 => if (shift || caps) then 73 else 105
  | 0x18 => if (shift || caps) then 79 else 111
  | 0x19 => if (shift || caps) then 80 else 112
  | 0x1A => if shift then 123 else 91
  | 0x1B => if shift then 125 else 93
  | 0x1C => 10
  | 0x1D => 0
  | 0x1E => if (shift || caps) then 65 else 97
  | 0x1F => if (shift || caps) then 83 else 115
  | 0x20 => if (shift || caps) then 68 else 100
  | 0x21 => if (shift || caps) then 70 else 102
  | 0x22 => if (shift || caps) then 71 else 103
  | 0x23 => if (shift || caps) then 72 else 104
  | 0x24 => if (shift || caps) then 74 else 106
  | 0x25 => if (shift || caps) then 75 else 107
  | 0x26 => if (shift || caps) then 76 else 108
  | 0x27 => if shift then 58 else 59
  | 0x28 => if shift then 34 else 39
  | 0x29 => if shift then 126 else 96
  | 0x2A => 0
  | 0x2B => if shift then 124 else 92
  | 0x2C => if (shift || caps) then 90 else 122
  | 0x2D => if (shift || caps) then 88 else 120
  | 0x2E => if (shift || caps) then 67 else 99
  | 0x2F => if (shift || caps) then 86 else 118
  | 0x30 => if (shift || caps) then 66 else 98
  | 0x31 => if (shift || caps) then 78 else 110
  | 0x32 => if (shift || caps) then 77 else 109
  | 0x33 => if shift then 60 else 44
  | 0x34 => if shift then 62 else 46
  | 0x35 => if shift then 63 else 47
  | 0x36 => 0
  | 0x37 => 42
  | 0x38 => 0
  | 0x39 => 32
  | 0x3A => 0
  | 0x3B => 0
  | 0x3C => 0
  | 0x3D => 0
  | 0x3E => 0
  | 0x3F => 0
  | 0x40 => 0
  | 0x41 => 0
  | 0x42 => 0
  | 0x43 => 0
  | 0x44 => 0
  | 0x45 => 0
  | 0x46 => 0
  | 0x47 => 55
  | 0x48 => 56
  | 0x49 => 57
  | 0x4A => 45
  | 0x4B => 52
  | 0x4C => 53
  | 0x4D => 54
  | 0x4E => 43
  | 0x4F => 49
  | 0x50 => 50
  | 0x51 => 51
  | 0x52 => 48
  | 0x53 => 46
  | 0x57 => 0
  | 0x58 => 0
  | _ => 0
  end.

(** ** State *)

Record keyboard_state := KeyboardState {
  caps : bool; lshift : bool; lctrl : bool; lalt : bool; altgr : bool; rctrl : bool; rshift : bool;
  ext : bool; up : bool; down : bool; left : bool; right : bool;
}.

Record keyboard_t := Keyboard {
  buffer : list Z; tmp : list Z; buffer_head : Z; buffer_tail : Z; ks : keyboard_state;
}.

Definition keyboard_init : keyboard_t :=
  Keyboard (replicate 256 0) (replicate 256 0) 0 0
    (KeyboardState false false false false false false false false false false false false).

(** Characters are compared as (signed) chars. *)
Definition is_special_char (c : Z) : bool :=
  negb (negb (c =? 8) && negb (c =? 13) && negb (c =? 0x1B) && negb (c =? 9) && negb (c =? 10) &&
        negb (c =? EOF) && negb (c =? 0)).

(** ** The ring *)

Definition buffer_clear (k : keyboard_t) : keyboard_t := Keyboard (replicate 256 0) (tmp k) 0 0 (ks k).

Definition buffer_len (k : keyboard_t) : Z := s32 (buffer_tail k).

Definition buffer_put_c (k : keyboard_t) (c : Z) : option keyboard_t :=
  let next := u64 (buffer_head k + 1) mod BUFFER_SIZE in
  if negb (next =? buffer_tail k) then
    if buffer_head k <? BUFFER_SIZE
    then Some (Keyboard (updZ (buffer k) (buffer_head k) (u8 c)) (tmp k) next (buffer_tail k) (ks k))
    else None
  else Some k.

(** [n] bytes of an array from an index, and the array with bytes stored there. *)
Definition slice (l : list Z) (i n : Z) : list Z := take (Z.to_nat n) (drop (Z.to_nat i) l).

Definition overwrite (l : list Z) (i : Z) (bs : list Z) : list Z :=
  take (Z.to_nat i) l ++ bs ++ drop (Z.to_nat i + length bs) l.

(** A backspace moves what follows it two places to the front, over itself and
    the character before it. *)
Definition buffer_get (k : keyboard_t) : option (keyboard_t * Z) :=
  if buffer_head k =? buffer_tail k then Some (k, EOF)
  else if negb (buffer_tail k <? BUFFER_SIZE) then None
  else
    let c := s8 (nthZ (buffer k) (buffer_tail k)) in
    let tail := (buffer_tail k + 1) mod BUFFER_SIZE in
    if negb (c =? 8) then Some (Keyboard (buffer k) (tmp k) (buffer_head k) tail (ks k), c)
    else
      let n := BUFFER_SIZE - (tail + 1) in
      let tmp1 := overwrite (replicate 256 0) 0 (slice (buffer k) tail n) in
      if tail <? 2 then None
      else
        let buffer1 := overwrite (buffer k) (tail - 2) (slice tmp1 0 n) in
        Some (Keyboard buffer1 tmp1 (u64 (buffer_head k - 2)) (u64 (tail - 2)) (ks k), c).

Definition buffer_is_empty (k : keyboard_t) : bool :=
  (buffer_head k =? buffer_tail k) && negb (up (ks k) || down (ks k) || left (ks k) || right (ks k)).

(** ** Keys *)

Definition special_key_press (s : keyboard_state) (scan_code : Z) : keyboard_state :=
  let '(KeyboardState caps lshift lctrl lalt altgr rctrl rshift ext up down left right) := s in
  match scan_code with
  | 0x3A => KeyboardState (negb caps) lshift lctrl lalt altgr rctrl rshift ext up down left right
  | 0xBA => s
  | 0x2A => KeyboardState caps true lctrl lalt altgr rctrl rshift ext up down left right
  | 0xAA => KeyboardState caps false lctrl lalt altgr rctrl rshift ext up down left right
  | 0x1D => KeyboardState caps lshift true lalt altgr rctrl rshift ext up down left right
  | 0x9D => KeyboardState caps lshift false lalt altgr false rshift ext up down left right
  | 0x38 => KeyboardState caps lshift lctrl true altgr rctrl rshift ext up down left right
  | 0xB8 => KeyboardState caps lshift lctrl false false rctrl rshift ext up down left right
  | 0xE0 => KeyboardState caps lshift lctrl lalt altgr rctrl rshift true up down left right
  | 0x3B => KeyboardState caps lshift lctrl lalt altgr (if ext then true else rctrl) rshift false up down left right
  | 0xBB => KeyboardState caps lshift lctrl lalt altgr (if ext then false else rctrl) rshift false up down left right
  | 0x36 => KeyboardState caps lshift lctrl lalt altgr rctrl true ext up down left right
  | 0xB6 => KeyboardState caps lshift lctrl lalt altgr rctrl false ext up down left right
  | 0x48 => KeyboardState caps lshift lctrl lalt altgr rctrl rshift false (if ext then true else up) down left right
  | 0xC8 => KeyboardState caps lshift lctrl lalt altgr rctrl rshift false (if ext then false else up) down left right
  | 0x4B => KeyboardState caps lshift lctrl lalt altgr rctrl rshift false up down (if ext then true else left) right
  | 0xCB => KeyboardState caps lshift lctrl lalt altgr rctrl rshift false up down (if ext then false else left) right
  | 0x4D => KeyboardState caps lshift lctrl lalt altgr rctrl rshift false up down left (if ext then true else right)
  | 0xCD => KeyboardState caps lshift lctrl lalt altgr rctrl rshift false up down left (if ext then false else right)
  | 0x50 => KeyboardState caps lshift lctrl lalt altgr rctrl rshift false up (if ext then true else down) left right
  | 0xD0 => KeyboardState caps lshift lctrl lalt altgr rctrl rshift false up (if ext then false else down) left right
  | _ => s
  end.

Definition with_ks (k : keyboard_t) (s : keyboard_state) : keyboard_t :=
  Keyboard (buffer k) (tmp k) (buffer_head k) (buffer_tail k) s.

(** [i] counts down from [start]; the result is the count and the buffer. *)
Fixpoint trailing_loop (i : nat) (k : keyboard_t) (cnt : Z) : option (keyboard_t * Z) :=
  match i with
  | O => Some (k, cnt)
  | S j => if nthZ (buffer k) (Z.of_nat j) =? 32
           then k ← buffer_put_c k 8; trailing_loop j k (cnt + 1)
           else Some (k, cnt)
  end.

Definition clear_trailing_space (k : keyboard_t) (start : Z) : option (keyboard_t * Z) :=
  if start <=? 0 then Some (k, 0) else trailing_loop (Z.to_nat start) k 0.

(** From index [j] down to the start of the word. *)
Fixpoint word_loop (i : nat) (k : keyboard_t) (start : Z) : option (keyboard_t * Z) :=
  match i with
  | O => Some (k, start)
  | S j =>
      if negb (nthZ (buffer k) (Z.of_nat j) =? 32) then
        k ← (if negb (is_special_char (s8 (nthZ (buffer k) (Z.of_nat j)))) then buffer_put_c k 8 else Some k);
        word_loop j k (start - 1)
      else Some (k, start)
  end.

Definition buffer_put (k : keyboard_t) (s : Z) : option keyboard_t :=
  let k := with_ks k (special_key_press (ks k) s) in
  let st := ks k in
  if ext st || up st || left st || down st || right st then Some k
  else
    let uc := scs1_to_ascii s (lshift st || rshift st) (caps st) in
    if (lctrl st || rctrl st) && negb (lshift st || rshift st) && ((uc =? 8) || (uc =? 0x0C) || (uc =? 119)) then
      if (uc =? 8) || (uc =? 119) then
        let start := s32 (buffer_head k) in
        '(k, tspaces) ← clear_trailing_space k start;
        let start := start - tspaces - 1 in
        if start <? 0 then Some k
        else
          '(k, start) ← word_loop (Z.to_nat (start + 1)) k start;
          '(k, _) ← clear_trailing_space k start;
          Some k
      else Some k
    else if lctrl st || rctrl st || lalt st || altgr st then Some k
    else if negb (uc =? 0) then buffer_put_c k uc
    else Some k.

(** The polling loop of wait_key.  [codes] are the scan codes of the interrupts
    that arrive from now on, each handled by buffer_put between two tests of the
    loop; the result has those that have not arrived yet.  [None] when the loop
    still waits after the last one. *)
Fixpoint wait_not_empty (k : keyboard_t) (codes : list Z) : option (keyboard_t * list Z) :=
  if buffer_is_empty k then
    match codes with
    | [] => None
    | s :: codes => k ← buffer_put k s; wait_not_empty k codes
    end
  else Some (k, codes).

Definition wait_key (k : keyboard_t) (codes : list Z) : io (keyboard_t * Z * list Z) :=
  _ ← irq_clear_mask IRQ_KEYBOARD;
  '(k, codes) ← io_lift (wait_not_empty k codes);
  '(k, c) ← io_lift (buffer_get k);
  _ ← irq_set_mask IRQ_KEYBOARD;
  if negb (c =? EOF) then mret (k, c, codes)
  else
    let '(KeyboardState caps lshift lctrl lalt altgr rctrl rshift ext up down left right) := ks k in
    let st := KeyboardState caps lshift lctrl lalt altgr rctrl rshift ext in
    mret (if up then (with_ks k (st false down left right), keycode CURSOR_UP, codes)
          else if down then (with_ks k (st up false left right), keycode CURSOR_DOWN, codes)
          else if left then (with_ks k (st up down false right), keycode CURSOR_LEFT, codes)
          else if right then (with_ks k (st up down left false), keycode CURSOR_RIGHT, codes)
          else (k, EOF, codes)).

(** stdin_clear and stdin_insert of libc/kernel/kernel.c, in the kernel. *)
Definition stdin_clear (k : keyboard_t) : option keyboard_t := buffer_put_c k CAN.

Fixpoint stdin_insert (k : keyboard_t) (s : list Z) : option keyboard_t :=
  match s with
  | [] => Some k
  | c :: s => k ← buffer_put_c k c; stdin_insert k s
  end.

(** ** The ring as a bounded queue *)

Record ring (k : keyboard_t) (q : list Z) : Prop := {
  ring_len : length (buffer k) = 256%nat;
  ring_head : 0 <= buffer_head k < 256;
  ring_tail : 0 <= buffer_tail k < 256;
  ring_size : zlen q = (buffer_head k - buffer_tail k) mod 256;
  ring_at : forall i c, q !! i = Some c -> nthZ (buffer k) ((buffer_tail k + Z.of_nat i) mod 256) = c;
}.

Lemma ring_init : ring keyboard_init [].
Proof. by constructor. Qed.

Lemma ring_put k q c : ring k q ->
  exists k', buffer_put_c k c = Some k' /\ ks k' = ks k /\ ring k' (if zlen q <? 255 then q ++ [u8 c] else q).
Proof.
  intros [Hl Hh Ht Hs Hat]. unfold buffer_put_c. rewrite u64_small by lia. unfold BUFFER_SIZE.
  pose proof (zlen_nonneg q). destruct (Z.ltb_spec (zlen q) 255).
  - destruct (Z.eqb_spec ((buffer_head k + 1) mod 0x100) (buffer_tail k)) as [E|E]; [zlia|]. cbn [negb].
    destruct (Z.ltb_spec (buffer_head k) 0x100); [|lia].
    eexists. split; [reflexivity|]. split; [done|]. constructor; cbn [buffer buffer_head buffer_tail].
    + pose proof (zlen_updZ (buffer k) (buffer_head k) (u8 c)) as Hz. unfold zlen in Hz. lia.
    + zlia.
    + done.
    + rewrite zlen_app, Hs. change (zlen [u8 c]) with 1. change 0x100 with 256 in *. zlia.
    + intros i x Hi. destruct (Nat.lt_ge_cases i (length q)) as [Hlt|Hge].
      * rewrite lookup_app_l in Hi by done. rewrite nthZ_updZ_ne; [by apply Hat|].
        unfold zlen in *. change 0x100 with 256 in *. zlia.
      * rewrite lookup_app_r in Hi by done. apply list_lookup_singleton_Some in Hi as [Hi <-].
        assert ((buffer_tail k + Z.of_nat i) mod 256 = buffer_head k) as ->.
        { unfold zlen in *. zlia. }
        apply nthZ_updZ_eq. unfold zlen. lia.
  - destruct (Z.eqb_spec ((buffer_head k + 1) mod 0x100) (buffer_tail k)) as [E|E];
      [|change 0x100 with 256 in *; zlia].
    exists k. split; [done|]. split; [done|]. by constructor.
Qed.

Lemma ring_get_empty k : ring k [] -> buffer_get k = Some (k, EOF).
Proof.
  intros [_ Hh Ht Hs _]. unfold buffer_get. destruct (Z.eqb_spec (buffer_head k) (buffer_tail k)); [done|].
  unfold zlen in Hs. simpl in Hs. zlia.
Qed.

Lemma ring_get k c q : ring k (c :: q) -> s8 c <> 8 ->
  exists k', buffer_get k = Some (k', s8 c) /\ ks k' = ks k /\ ring k' q.
Proof.
  intros [Hl Hh Ht Hs Hat] Hc. rewrite zlen_cons in Hs. pose proof (zlen_nonneg q). unfold buffer_get.
  destruct (Z.eqb_spec (buffer_head k) (buffer_tail k)) as [E|E]; [zlia|]. unfold BUFFER_SIZE.
  destruct (Z.ltb_spec (buffer_tail k) 0x100); [|lia]. cbn [negb].
  assert (nthZ (buffer k) (buffer_tail k) = c) as Hn.
  { rewrite <- (Hat 0%nat c) by done. f_equal. rewrite Z.add_0_r, Z.mod_small by lia. done. }
  rewrite Hn. destruct (Z.eqb_spec (s8 c) 8); [done|]. cbn [negb].
  eexists. split; [reflexivity|]. split; [done|]. change 0x100 with 256 in *.
  constructor; cbn [buffer buffer_head buffer_tail].
  - done.
  - done.
  - zlia.
  - zlia.
  - intros i x Hi. rewrite <- (Hat (S i) x) by done. f_equal. zlia.
Qed.

(** ** The moving copy of a backspace *)

Lemma slice_lookup l i n j : 0 <= i -> 0 <= n -> (Z.of_nat j < n) -> slice l i n !! j = l !! (Z.to_nat i + j)%nat.
Proof. intros Hi Hn Hj. unfold slice. rewrite lookup_take_lt by lia. by rewrite lookup_drop. Qed.

Lemma slice_length l i n : 0 <= i -> 0 <= n -> i + n <= zlen l -> zlen (slice l i n) = n.
Proof. intros. unfold slice, zlen in *. rewrite length_take, length_drop. lia. Qed.

Lemma overwrite_lookup l i bs j : 0 <= i -> i + zlen bs <= zlen l ->
  overwrite l i bs !! j = if (i <=? Z.of_nat j) && (Z.of_nat j <? i + zlen bs) then bs !! (j - Z.to_nat i)%nat else l !! j.
Proof.
  intros Hi Hl. unfold overwrite, zlen in *.
  assert (length (take (Z.to_nat i) l) = Z.to_nat i) as Ht by (rewrite length_take; lia).
  destruct (Z.leb_spec i (Z.of_nat j)); simpl.
  - rewrite lookup_app_r by lia. rewrite Ht. destruct (Z.ltb_spec (Z.of_nat j) (i + Z.of_nat (length bs))).
    + by rewrite lookup_app_l by lia.
    + rewrite lookup_app_r, lookup_drop by lia. f_equal. lia.
  - rewrite lookup_app_l by lia. by rewrite lookup_take_lt by lia.
Qed.

Lemma overwrite_length l i bs : 0 <= i -> i + zlen bs <= zlen l -> length (overwrite l i bs) = length l.
Proof.
  intros Hi Hl. unfold overwrite, zlen in *. rewrite !length_app, length_take, length_drop. lia.
Qed.

Lemma nthZ_default l i : 0 <= i -> nthZ l i = default 0 (l !! Z.to_nat i).
Proof. intros. unfold nthZ. destruct (Z.ltb_spec i 0); [lia|done]. Qed.

(** In an unwrapped ring with a character before it a backspace is delivered
    like any other character. *)
Lemma ring_get_backspace k q : ring k (8 :: q) -> 1 <= buffer_tail k < buffer_head k ->
  exists k', buffer_get k = Some (k', 8) /\ ks k' = ks k /\ ring k' q /\
    buffer_tail k' = buffer_tail k - 1 /\ buffer_head k' = buffer_head k - 2.
Proof.
  intros [Hl Hh Ht Hs Hat] Hth. rewrite zlen_cons in Hs. pose proof (zlen_nonneg q). unfold buffer_get.
  destruct (Z.eqb_spec (buffer_head k) (buffer_tail k)) as [E|E]; [lia|]. unfold BUFFER_SIZE.
  destruct (Z.ltb_spec (buffer_tail k) 0x100); [|lia]. cbn [negb].
  assert (nthZ (buffer k) (buffer_tail k) = 8) as ->.
  { rewrite <- (Hat 0%nat 8) by done. f_equal. rewrite Z.add_0_r, Z.mod_small by lia. done. }
  change (s8 8 =? 8) with true. cbn [negb]. rewrite Z.mod_small by lia.
  destruct (Z.ltb_spec (buffer_tail k + 1) 2); [lia|].
  set (t := buffer_tail k + 1) in *. set (n := 0x100 - (t + 1)). set (s := slice (buffer k) t n).
  assert (zlen (buffer k) = 256) as Hz by (unfold zlen; lia).
  assert (zlen s = n) as Hsl by (apply slice_length; lia).
  set (tmp1 := overwrite (replicate 256 0) 0 s).
  assert (slice tmp1 0 n = s) as ->.
  { unfold tmp1, overwrite, slice. simpl. rewrite drop_0, take_app_le by (unfold zlen in *; lia).
    apply take_ge. unfold zlen in *. lia. }
  eexists. split; [reflexivity|]. split; [done|]. rewrite !u64_small by lia. cbn [buffer_tail buffer_head].
  split; [|lia]. constructor; cbn [buffer buffer_head buffer_tail].
  - rewrite overwrite_length; [done|lia|lia].
  - lia.
  - lia.
  - rewrite Z.mod_small in * by lia. lia.
  - intros i x Hi. assert (Z.of_nat i < zlen q) by (apply lookup_lt_Some in Hi; unfold zlen; lia).
    rewrite Z.mod_small in Hs by lia. rewrite Z.mod_small by lia.
    rewrite nthZ_default, overwrite_lookup by lia.
    rewrite (proj2 (Z.leb_le _ _)), (proj2 (Z.ltb_lt _ _)) by lia. simpl.
    unfold s. rewrite slice_lookup by lia.
    rewrite <- (Hat (S i) x) by done. rewrite Z.mod_small by lia. rewrite nthZ_default by lia.
    do 2 f_equal. lia.
Qed.

(** ** Traces of the ring *)

Inductive ring_op := Put (c : Z) | Get.

(** The interrupt handler puts, the reader gets; the results of the gets. *)
Fixpoint run_ring (k : keyboard_t) (ops : list ring_op) : option (list Z) :=
  match ops with
  | [] => Some []
  | Put c :: ops => k ← buffer_put_c k c; run_ring k ops
  | Get :: ops => '(k, c) ← buffer_get k; cs ← run_ring k ops; Some (c :: cs)
  end.

(** A queue of at most 255 characters that drops what does not fit. *)
Fixpoint run_queue (q : list Z) (ops : list ring_op) : list Z :=
  match ops with
  | [] => []
  | Put c :: ops => run_queue (if zlen q <? 255 then q ++ [u8 c] else q) ops
  | Get :: ops => match q with [] => EOF :: run_queue [] ops | c :: q => s8 c :: run_queue q ops end
  end.

Definition no_backspace (op : ring_op) : Prop := match op with Put c => s8 (u8 c) <> 8 | Get => True end.

Lemma run_ring_queue k q ops :
  ring k q -> Forall (fun c => s8 c <> 8) q -> Forall no_backspace ops -> run_ring k ops = Some (run_queue q ops).
Proof.
  intros Hr Hq Hops. revert k q Hr Hq. induction Hops as [|op ops Hop Hops IH]; intros k q Hr Hq; [done|].
  destruct op as [c|]; cbn [run_ring run_queue].
  - destruct (ring_put k q c Hr) as (k' & -> & _ & Hr'). cbn [mbind option_bind]. apply IH; [done|].
    destruct (zlen q <? 255); [|done]. apply Forall_app. split; [done|]. by constructor.
  - destruct q as [|c q].
    + rewrite ring_get_empty by done. cbn [mbind option_bind]. by rewrite (IH k []).
    + apply list.Forall_cons in Hq as [Hc Hq]. destruct (ring_get k c q Hr Hc) as (k' & -> & _ & Hr').
      cbn [mbind option_bind]. by rewrite (IH k' q).
Qed.

(** ** Theorems *)

(** C12: from the empty keyboard buffer every interleaving of buffer_put_c and
    buffer_get, without backspaces, delivers what a queue bounded by 255
    characters delivers: in order, none lost or duplicated except those put
    while the queue is full, EOF when it is empty; all array accesses are in
    range. *)
Theorem keyboard_buffer_fifo ops :
  Forall no_backspace ops -> run_ring keyboard_init ops = Some (run_queue [] ops).
Proof. intros H. apply run_ring_queue; [apply ring_init|constructor|done]. Qed.

(** Fact: a backspace in the buffer is delivered in order, too, and the unread
    characters are kept, when it is not at the first or last index and the
    unread part does not wrap; at the first or the last index the copy writes
    before the start of the array. *)
Theorem keyboard_backspace k q :
  ring k (8 :: q) ->
  (1 <= buffer_tail k < buffer_head k -> exists k', buffer_get k = Some (k', 8) /\ ring k' q) /\
  (buffer_tail k = 0 \/ buffer_tail k = 255 -> buffer_get k = None).
Proof.
  intros Hr. split.
  - intros H. destruct (ring_get_backspace k q Hr H) as (k' & H1 & _ & H2 & _). by exists k'.
  - destruct Hr as [Hl Hh Ht Hs Hat]. rewrite zlen_cons in Hs. pose proof (zlen_nonneg q). intros Hend.
    unfold buffer_get. destruct (Z.eqb_spec (buffer_head k) (buffer_tail k)) as [E|E]; [zlia|]. unfold BUFFER_SIZE.
    destruct (Z.ltb_spec (buffer_tail k) 0x100); [|done]. cbn [negb].
    assert (nthZ (buffer k) (buffer_tail k) = 8) as ->.
    { rewrite <- (Hat 0%nat 8) by done. f_equal. rewrite Z.add_0_r, Z.mod_small by lia. done. }
    change (s8 8 =? 8) with true. cbn [negb].
    destruct (Z.ltb_spec ((buffer_tail k + 1) mod 0x100) 2) as [_|Hge]; [done|].
    change 0x100 with 256 in *. zlia.
Qed.

(** The codes after which the flag of the extended prefix is reset. *)
Definition clears_ext (s : Z) : bool :=
  bool_decide (s ∈ [0x3B; 0xBB; 0x48; 0xC8; 0x4B; 0xCB; 0x4D; 0xCD; 0x50; 0xD0]).

Lemma special_key_ext s st : ext st = true -> clears_ext s = false -> ext (special_key_press st s) = true.
Proof.
  intros He Hc. unfold clears_ext in Hc. apply bool_decide_eq_false in Hc.
  destruct st as [a b c d e f g h i j l m]. cbn [ext] in He. subst h. unfold special_key_press.
  repeat (case_match; try reflexivity); exfalso; apply Hc; set_solver.
Qed.

(** Fact: after the prefix byte 0xE0 the keyboard is deaf until a cursor key (or
    code 0x3B or 0xBB) arrives: every other scan code, also those of the keys
    whose code the prefix belongs to (right Ctrl, keypad Enter, Delete), leaves
    the flag set and puts nothing into the buffer. *)
Theorem keyboard_ext_deaf k codes :
  ext (ks k) = true -> Forall (fun s => clears_ext s = false) codes ->
  exists k', fold_left (fun k s => k ≫= fun k => buffer_put k s) codes (Some k) = Some k' /\
    ext (ks k') = true /\ buffer k' = buffer k /\ buffer_head k' = buffer_head k /\ buffer_tail k' = buffer_tail k.
Proof.
  intros He Hc. revert k He. induction Hc as [|s codes Hs Hc IH]; intros k He; cbn [fold_left]; [by exists k|].
  cbn [mbind option_bind]. pose proof (special_key_ext s (ks k) He Hs) as He'.
  assert (buffer_put k s = Some (with_ks k (special_key_press (ks k) s))) as ->.
  { unfold buffer_put. cbn [ks with_ks]. by rewrite He'. }
  exact (IH (with_ks k (special_key_press (ks k) s)) He').
Qed.

(** No control, alt, prefix or cursor key is held. *)
Definition plain_state (s : keyboard_state) : bool :=
  negb (lctrl s || rctrl s || lalt s || altgr s || ext s || up s || down s || left s || right s).

Lemma plain_put k q s c :
  ring k q -> zlen q < 255 -> plain_state (ks k) = true -> special_key_press (ks k) s = ks k ->
  scs1_to_ascii s (lshift (ks k) || rshift (ks k)) (caps (ks k)) = c -> 0 < c < 256 ->
  exists k', buffer_put k s = Some k' /\ ks k' = ks k /\ ring k' (q ++ [c]).
Proof.
  intros Hr Hq Hp Hs Hc Hcr.
  assert (buffer_put k s = buffer_put_c k c) as ->.
  { unfold buffer_put. rewrite Hs. assert (with_ks k (ks k) = k) as -> by by destruct k.
    unfold plain_state in Hp. rewrite Hc.
    destruct (ks k) as [cp ls lc la ag rc rs ex u d l r]. simpl in *.
    destruct lc, rc, la, ag, ex, u, d, l, r; try done. simpl.
    destruct (Z.eqb_spec c 0); [lia|done]. }
  destruct (ring_put k q c Hr) as (k' & H1 & H2 & H3). exists k'. split; [done|]. split; [done|].
  rewrite (proj2 (Z.ltb_lt _ _)) in H3 by done. by rewrite u8_small in H3 by lia.
Qed.

Lemma ring_is_empty k : ring k [] -> plain_state (ks k) = true -> buffer_is_empty k = true.
Proof.
  intros [_ Hh Ht Hs _] Hp. unfold buffer_is_empty, plain_state in *. rewrite (proj2 (Z.eqb_eq _ _)).
  - destruct (up (ks k)), (down (ks k)), (left (ks k)), (right (ks k)); try done; by rewrite !orb_true_r in Hp.
  - unfold zlen in Hs. simpl in Hs. zlia.
Qed.

Lemma ring_not_empty k c q : ring k (c :: q) -> buffer_is_empty k = false.
Proof.
  intros [_ Hh Ht Hs _]. unfold buffer_is_empty. rewrite (proj2 (Z.eqb_neq _ _)); [done|].
  rewrite zlen_cons in Hs. pose proof (zlen_nonneg q). intros E. rewrite E, Z.sub_diag in Hs. zlia.
Qed.

(** C40: a reader that waits in wait_key on an empty buffer is woken by the next
    key: when its scan code arrives, with no control or alt key held, wait_key
    returns the character the key stands for under the current shift and caps
    lock, the buffer is empty again, later scan codes are left for later, and
    the keyboard line, opened during the wait, is masked again while no other
    line changes. *)
Theorem wait_key_delivers dev h k s codes c :
  pic_device dev -> ring k [] -> plain_state (ks k) = true -> special_key_press (ks k) s = ks k ->
  scs1_to_ascii s (lshift (ks k) || rshift (ks k)) (caps (ks k)) = c -> 0 < c < 128 -> c <> 8 ->
  exists k' h', run (wait_key k (s :: codes)) dev h = Some (k', c, codes, h') /\
    ring k' [] /\ ks k' = ks k /\
    forall line, 0 <= line < 16 -> masked dev h' line = (line =? IRQ_KEYBOARD) || masked dev h line.
Proof.
  intros Hdev Hr Hp Hs Hc Hcr Hb.
  destruct (plain_put k [] s c) as (k1 & Hput & Hk1 & Hr1); [done|done|done|done|done|lia|].
  assert (s8 c = c) as Hs8 by ulia.
  destruct (ring_get k1 c [] Hr1) as (k2 & Hget & Hk2 & Hr2); [lia|].
  assert (wait_not_empty k (s :: codes) = Some (k1, codes)) as Hw.
  { cbn [wait_not_empty]. rewrite ring_is_empty by done. rewrite Hput. cbn [mbind option_bind].
    destruct codes; cbn [wait_not_empty]; by rewrite (ring_not_empty k1 c []). }
  destruct (irq_clear_mask_run dev h IRQ_KEYBOARD 0) as (h1 & Hc1 & _); [done|done|done|].
  destruct (irq_set_mask_run dev h1 IRQ_KEYBOARD 0) as (h2 & Hc2 & _); [done|done|done|].
  exists k2, h2. split; [|split; [done|split; [congruence|]]].
  - unfold wait_key. rewrite run_bind, Hc1. cbn [mbind option_bind]. rewrite run_bind, run_io_lift, Hw.
    cbn [mbind option_bind]. rewrite run_bind, run_io_lift, Hget. cbn [mbind option_bind].
    rewrite run_bind, Hc2. cbn [mbind option_bind]. rewrite Hs8.
    destruct (Z.eqb_spec c EOF) as [E|_]; [unfold EOF in E; lia|]. done.
  - intros line Hline.
    destruct (irq_clear_mask_run dev h IRQ_KEYBOARD line) as (h1' & Hc1' & M1); [done|done|done|].
    destruct (irq_set_mask_run dev h1 IRQ_KEYBOARD line) as (h2' & Hc2' & M2); [done|done|done|].
    assert (h1' = h1) as -> by congruence. assert (h2' = h2) as -> by congruence.
    rewrite M2, M1. by destruct (line =? IRQ_KEYBOARD).
Qed.

(** ** Witnesses *)

Lemma keyboard_buffer_fifo_witness :
  run_ring keyboard_init [Put 97; Put 98; Get; Put 99; Get; Get; Get] = Some [97; 98; 99; EOF].
Proof.
  apply (keyboard_buffer_fifo [Put 97; Put 98; Get; Put 99; Get; Get; Get]).
  repeat constructor; discriminate.
Defined.

(** Backspace is the first key pressed. *)
Lemma keyboard_backspace_witness :
  exists k, buffer_put keyboard_init 0x0E = Some k /\ buffer_get k = None.
Proof.
  destruct (ring_put keyboard_init [] 8 ring_init) as (k & H1 & _ & H2).
  exists k. split; [rewrite <- H1; vm_compute; reflexivity|].
  refine (proj2 (keyboard_backspace k [] H2) _). left.
  assert (Some (buffer_tail k) = Some 0) as E; [|congruence].
  rewrite <- (f_equal (fmap buffer_tail) H1 : _ = Some (buffer_tail k)). vm_compute. reflexivity.
Defined.

(** Right Ctrl pressed and released, then the letter a. *)
Lemma keyboard_ext_deaf_witness :
  exists k', fold_left (fun k s => k ≫= fun k => buffer_put k s) [0x1D; 0xE0; 0x9D; 0x1E; 0x9E]
    (buffer_put keyboard_init 0xE0) = Some k' /\ buffer_head k' = 0.
Proof.
  destruct (keyboard_ext_deaf (with_ks keyboard_init (special_key_press (ks keyboard_init) 0xE0))
    [0x1D; 0xE0; 0x9D; 0x1E; 0x9E] eq_refl) as (k' & H1 & _ & _ & H2 & _).
  - repeat constructor.
  - exists k'. exact (conj H1 H2).
Defined.

(** The key a, with the next key already on its way. *)
Lemma wait_key_delivers_witness :
  exists k' h', run (wait_key keyboard_init [0x1E; 0x30]) (fun h _ port => default 0xFF (last_out h port)) [] =
    Some (k', 97, [0x30], h') /\ ring k' [].
Proof.
  destruct (wait_key_delivers (fun h _ port => default 0xFF (last_out h port)) [] keyboard_init 0x1E [0x30] 97
    ltac:(by exists 0xFF, 0xFF) ring_init eq_refl eq_refl eq_refl ltac:(lia) ltac:(lia)) as (k' & h' & H1 & H2 & _).
  exists k', h'. exact (conj H1 H2).
Defined.
