(* ===== verification/Time.v ===== *)
(** * Time: libc/time/time.c

    The real-time clock, read over its two ports, and the calendar arithmetic
    on what was read.  The theorems tie the calendar to its definition by
    succession: one second after a time of the Gregorian calendar is one more
    in Unix time, and the weekday advances with the day. *)

From S2P Require Import Prelude Device.

Definition CURRENT_YEAR : Z := 2024.
Definition CMOS_ADDRESS : Z := 0x70.
Definition CMOS_DATA : Z := 0x71.

Record datetime := DateTime { second : Z; minute : Z; hour : Z; day : Z; month : Z; year : Z }.

(** ** Reading the clock *)

Definition get_update_in_progress_flag : io Z :=
  _ ← outb CMOS_ADDRESS 0x0A; v ← inb CMOS_DATA; mret (Z.land v 0x80).

Definition get_rtc_register (reg : Z) : io Z := _ ← outb CMOS_ADDRESS reg; inb CMOS_DATA.

Fixpoint wait_update (fuel : nat) : io unit :=
  flag ← get_update_in_progress_flag;
  if flag =? 0 then mret tt else match fuel with O => io_fail | S fuel => wait_update fuel end.

(** The registers of one reading; the century only when its register is known. *)
Definition read_registers (century_register : Z) (century : Z) : io (datetime * Z) :=
  s ← get_rtc_register 0x00;
  mi ← get_rtc_register 0x02;
  h ← get_rtc_register 0x04;
  d ← get_rtc_register 0x07;
  mo ← get_rtc_register 0x08;
  y ← get_rtc_register 0x09;
  c ← (if negb (century_register =? 0) then get_rtc_register century_register else mret century);
  mret (DateTime s mi h d mo y, c).

Definition same_reading (a b : datetime * Z) : bool :=
  (second a.1 =? second b.1) && (minute a.1 =? minute b.1) && (hour a.1 =? hour b.1) &&
  (day a.1 =? day b.1) && (month a.1 =? month b.1) && (year a.1 =? year b.1) && (a.2 =? b.2).

(** Readings are repeated until two in a row agree. *)
Fixpoint read_stable (fuel : nat) (century_register : Z) (last : datetime * Z) : io (datetime * Z) :=
  _ ← wait_update fuel;
  now ← read_registers century_register last.2;
  if same_reading last now then mret now
  else match fuel with O => io_fail | S fuel => read_stable fuel century_register now end.

Definition bcd_byte (v : Z) : Z := u8 (Z.land v 0x0F + v / 16 * 10).

Definition read_rtc (fuel : nat) (century_register century : Z) : io datetime :=
  _ ← wait_update fuel;
  first ← read_registers century_register century;
  '(t, century) ← read_stable fuel century_register first;
  registerB ← get_rtc_register 0x0B;
  let '(DateTime second minute hour day month year) := t in
  let bcd := Z.land registerB 0x04 =? 0 in
  let second := if bcd then bcd_byte second else second in
  let minute := if bcd then bcd_byte minute else minute in
  let hour := if bcd then u8 (Z.lor (Z.land hour 0x0F + Z.land hour 0x70 / 16 * 10) (Z.land hour 0x80)) else hour in
  let day := if bcd then bcd_byte day else day in
  let month := if bcd then bcd_byte month else month in
  let year := if bcd then Z.land year 0x0F + year / 16 * 10 else year in
  let century := if bcd && negb (century_register =? 0) then bcd_byte century else century in
  let hour := if (Z.land registerB 0x02 =? 0) && negb (Z.land hour 0x80 =? 0)
              then (Z.land hour 0x7F + 12) mod 24 else hour in
  let year := if negb (century_register =? 0) then u32 (year + century * 100)
              else let y := u32 (year + CURRENT_YEAR / 100 * 100) in
                   if y <? CURRENT_YEAR then u32 (y + 100) else y in
  mret (DateTime second minute hour day month year).

(** ** The calendar *)

Definition is_leap_year (year : Z) : bool :=
  ((year mod 4 =? 0) && negb (year mod 100 =? 0)) || (year mod 400 =? 0).

(** The array is read without a test of the month. *)
Definition days_in_month (month year : Z) : Z :=
  if (month =? 2) && is_leap_year year then 29
  else nthZ [31; 28; 31; 30; 31; 30; 31; 31; 30; 31; 30; 31] (month - 1).

Fixpoint years_loop (k : nat) (i days : Z) : Z :=
  match k with
  | O => days
  | S k => years_loop k (i + 1) (u64 (days + if is_leap_year i then 366 else 365))
  end.

Fixpoint months_loop (k : nat) (i year days : Z) : Z :=
  match k with
  | O => days
  | S k => months_loop k (i + 1) year (u64 (days + days_in_month i year))
  end.

Definition unix_time (t : datetime) : Z :=
  let days := years_loop (Z.to_nat (year t - 1970)) 1970 0 in
  let days := months_loop (Z.to_nat (month t - 1)) 1 (year t) days in
  let days := u64 (days + (day t - 1)) in
  let seconds := u64 (days * 86400) in
  let seconds := u64 (seconds + hour t * 3600) in
  let seconds := u64 (seconds + minute t * 60) in
  u64 (seconds + second t).

(** Zeller's congruence on ints: 0 is Saturday. *)
Definition zeller (day month year : Z) : Z :=
  let k := day in
  let '(m, Y) := if month <? 3 then (month + 12, year - 1) else (month, year) in
  Z.rem (k + Z.quot (13 * (m + 1)) 5 + Y + Z.quot Y 4 - Z.quot Y 100 + Z.quot Y 400) 7.

Inductive weekday := Sun | Mon | Tue | Wed | Thu | Fri | Sat.

Definition weekdays : list weekday := [Sun; Mon; Tue; Wed; Thu; Fri; Sat].

(** [weekdays[h - 1]]: [None] is an access before the array. *)
Definition day_of_week (day month year : Z) : option weekday :=
  let h := zeller day month year in
  if h - 1 <? 0 then None else weekdays !! Z.to_nat (h - 1).

(** time in the kernel; date prints the same reading through printf. *)
Definition time (fuel : nat) (century_register century : Z) : io Z :=
  t ← read_rtc fuel century_register century; mret (unix_time t).

(** ** The calendar by succession *)

Definition valid (t : datetime) : Prop :=
  0 <= second t < 60 /\ 0 <= minute t < 60 /\ 0 <= hour t < 24 /\
  1 <= day t <= days_in_month (month t) (year t) /\ 1 <= month t <= 12 /\ 1970 <= year t < 2 ^ 31 - 1.

Definition next_day (t : datetime) : datetime :=
  if day t <? days_in_month (month t) (year t) then DateTime 0 0 0 (day t + 1) (month t) (year t)
  else if month t <? 12 then DateTime 0 0 0 1 (month t + 1) (year t)
  else DateTime 0 0 0 1 1 (year t + 1).

(** One second later. *)
Definition tick (t : datetime) : datetime :=
  if second t <? 59 then DateTime (second t + 1) (minute t) (hour t) (day t) (month t) (year t)
  else if minute t <? 59 then DateTime 0 (minute t + 1) (hour t) (day t) (month t) (year t)
  else if hour t <? 23 then DateTime 0 0 (hour t + 1) (day t) (month t) (year t)
  else next_day t.

(** ** Lemmas *)

Definition year_length (y : Z) : Z := if is_leap_year y then 366 else 365.

Lemma days_in_month_range m y : 1 <= m <= 12 -> 28 <= days_in_month m y <= 31.
Proof.
  intros Hm. unfold days_in_month. destruct ((m =? 2) && is_leap_year y); [lia|].
  assert (m ∈ [1; 2; 3; 4; 5; 6; 7; 8; 9; 10; 11; 12]) as Hin by (rewrite !elem_of_cons; lia).
  repeat (apply elem_of_cons in Hin as [->|Hin]; [vm_compute; split; discriminate|]). by apply elem_of_nil in Hin.
Qed.

Lemma years_loop_bound k i d : 0 <= d -> d + 366 * Z.of_nat k < 2 ^ 62 ->
  d + 365 * Z.of_nat k <= years_loop k i d <= d + 366 * Z.of_nat k.
Proof.
  revert i d. induction k as [|k IH]; intros i d Hd Hk; cbn [years_loop]; [lia|].
  destruct (is_leap_year i); rewrite u64_small by lia; specialize (IH (i + 1)); [specialize (IH (d + 366))|specialize (IH (d + 365))]; lia.
Qed.

Lemma years_loop_snoc k i d : 0 <= d -> d + 366 * (Z.of_nat k + 1) < 2 ^ 62 ->
  years_loop (S k) i d = years_loop k i d + year_length (i + Z.of_nat k).
Proof.
  revert i d. induction k as [|k IH]; intros i d Hd Hk.
  - cbn [years_loop]. unfold year_length. replace (i + Z.of_nat 0) with i by lia.
    destruct (is_leap_year i); rewrite u64_small; lia.
  - set (w := if is_leap_year i then 366 else 365).
    assert (365 <= w <= 366) by (unfold w; destruct (is_leap_year i); lia).
    change (years_loop (S (S k)) i d) with (years_loop (S k) (i + 1) (u64 (d + w))).
    change (years_loop (S k) i d) with (years_loop k (i + 1) (u64 (d + w))).
    rewrite (u64_small (d + w)) by lia. rewrite IH by lia. do 2 f_equal. lia.
Qed.

Lemma months_loop_bound k i y d : 1 <= i -> i + Z.of_nat k <= 13 -> 0 <= d -> d + 31 * Z.of_nat k < 2 ^ 63 ->
  d <= months_loop k i y d <= d + 31 * Z.of_nat k.
Proof.
  revert i d. induction k as [|k IH]; intros i d Hi Hk Hd Hb; cbn [months_loop]; [lia|].
  pose proof (days_in_month_range i y ltac:(lia)). rewrite u64_small by lia.
  specialize (IH (i + 1) (d + days_in_month i y)). lia.
Qed.

Lemma months_loop_snoc k i y d : 1 <= i -> i + Z.of_nat k <= 12 -> 0 <= d -> d + 31 * (Z.of_nat k + 1) < 2 ^ 63 ->
  months_loop (S k) i y d = months_loop k i y d + days_in_month (i + Z.of_nat k) y.
Proof.
  revert i d. induction k as [|k IH]; intros i d Hi Hk Hd Hb.
  - cbn [months_loop]. replace (i + Z.of_nat 0) with i by lia. pose proof (days_in_month_range i y ltac:(lia)).
    rewrite u64_small; lia.
  - change (months_loop (S (S k)) i y d) with (months_loop (S k) (i + 1) y (u64 (d + days_in_month i y))).
    change (months_loop (S k) i y d) with (months_loop k (i + 1) y (u64 (d + days_in_month i y))).
    pose proof (days_in_month_range i y ltac:(lia)). rewrite (u64_small (d + days_in_month i y)) by lia.
    rewrite IH by lia. do 2 f_equal. lia.
Qed.

(** Days since the epoch, without the wrap-around of the C type. *)
Definition years_days (y : Z) : Z := years_loop (Z.to_nat (y - 1970)) 1970 0.

Definition unix_days (t : datetime) : Z :=
  months_loop (Z.to_nat (month t - 1)) 1 (year t) (years_days (year t)) + (day t - 1).

Lemma years_days_bound y : 1970 <= y < 2 ^ 31 -> 0 <= years_days y < 2 ^ 40.
Proof.
  intros Hy. unfold years_days.
  destruct (years_loop_bound (Z.to_nat (y - 1970)) 1970 0) as [H1 H2]; [lia|lia|]. lia.
Qed.

Lemma years_days_succ y : 1970 <= y < 2 ^ 31 - 1 -> years_days (y + 1) = years_days y + year_length y.
Proof.
  intros Hy. unfold years_days. replace (Z.to_nat (y + 1 - 1970)) with (S (Z.to_nat (y - 1970))) by lia.
  rewrite years_loop_snoc by lia. do 2 f_equal. lia.
Qed.

(** The days of a month's predecessors, and of a whole year. *)
Lemma months_days_succ m y d : 1 <= m <= 12 -> 0 <= d < 2 ^ 41 ->
  months_loop (Z.to_nat (m + 1 - 1)) 1 y d = months_loop (Z.to_nat (m - 1)) 1 y d + days_in_month m y.
Proof.
  intros Hm Hd. replace (Z.to_nat (m + 1 - 1)) with (S (Z.to_nat (m - 1))) by lia.
  rewrite months_loop_snoc by lia. do 2 f_equal. lia.
Qed.

Lemma months_year y d : 0 <= d < 2 ^ 41 -> months_loop 11 1 y d + 31 = d + year_length y.
Proof.
  intros Hd. do 11 (rewrite months_loop_snoc by lia). cbn [months_loop].
  assert (days_in_month 2 y = if is_leap_year y then 29 else 28) as E by (unfold days_in_month; by destruct (is_leap_year y)).
  change (1 + Z.of_nat 1) with 2. rewrite E. unfold year_length.
  do 10 (let e := match goal with |- context [days_in_month ?k y] => k end in
    let v := eval vm_compute in (nthZ [31; 28; 31; 30; 31; 30; 31; 31; 30; 31; 30; 31] (e - 1)) in
    change (days_in_month e y) with v).
  destruct (is_leap_year y); lia.
Qed.

Lemma unix_time_eq t : valid t -> unix_time t = unix_days t * 86400 + hour t * 3600 + minute t * 60 + second t.
Proof.
  intros (Hs & Hmi & Hh & Hd & Hm & Hy). unfold unix_time, unix_days. fold (years_days (year t)).
  pose proof (years_days_bound (year t) ltac:(lia)). pose proof (days_in_month_range (month t) (year t) Hm).
  destruct (months_loop_bound (Z.to_nat (month t - 1)) 1 (year t) (years_days (year t))) as [Hb1 Hb2]; [lia..|].
  set (md := months_loop _ _ _ _) in *. rewrite (u64_small (md + _)), (u64_small (_ * 86400)) by lia.
  rewrite (u64_small (_ + hour t * 3600)) by lia. rewrite (u64_small (_ + minute t * 60)) by lia.
  rewrite u64_small by lia. done.
Qed.

Lemma next_day_valid t : valid t -> year (next_day t) < 2 ^ 31 - 1 -> valid (next_day t).
Proof.
  intros (Hs & Hmi & Hh & Hd & Hm & Hy) Hy'. unfold next_day in *.
  destruct (Z.ltb_spec (day t) (days_in_month (month t) (year t))); [|destruct (Z.ltb_spec (month t) 12)];
    unfold valid; cbn [second minute hour day month year] in *; split_and!; try lia.
  - pose proof (days_in_month_range (month t + 1) (year t) ltac:(lia)). lia.
  - pose proof (days_in_month_range 1 (year t + 1) ltac:(lia)). lia.
Qed.

Lemma next_day_days t : valid t -> unix_days (next_day t) = unix_days t + 1.
Proof.
  intros (Hs & Hmi & Hh & Hd & Hm & Hy). pose proof (years_days_bound (year t) ltac:(lia)).
  unfold next_day. destruct (Z.ltb_spec (day t) (days_in_month (month t) (year t)));
    [|destruct (Z.ltb_spec (month t) 12)]; unfold unix_days; cbn [day month year].
  - lia.
  - rewrite months_days_succ by lia. lia.
  - assert (month t = 12) as E by lia. rewrite E in *. change (Z.to_nat (1 - 1)) with O.
    change (Z.to_nat (12 - 1)) with 11%nat. rewrite years_days_succ by lia.
    change (months_loop 0 1 (year t + 1) (years_days (year t) + year_length (year t)))
      with (years_days (year t) + year_length (year t)).
    pose proof (months_year (year t) (years_days (year t)) ltac:(lia)).
    assert (days_in_month 12 (year t) = 31) by done. lia.
Qed.

(** Leap years up to and including [n]. *)
Definition leaps (n : Z) : Z := n / 4 - n / 100 + n / 400.

Lemma div_step c y : 0 < c -> y / c - (y - 1) / c = if y mod c =? 0 then 1 else 0.
Proof.
  intros Hc. pose proof (Z.div_mod y c ltac:(lia)) as E. pose proof (Z.mod_pos_bound y c Hc).
  destruct (Z.eqb_spec (y mod c) 0) as [Z0|NZ].
  - assert ((y - 1) / c = y / c - 1) as ->; [|lia].
    symmetry. apply (Z.div_unique _ _ _ (c - 1)); lia.
  - assert ((y - 1) / c = y / c) as ->; [|lia].
    symmetry. apply (Z.div_unique _ _ _ (y mod c - 1)); lia.
Qed.

Lemma is_leap_count y : leaps y - leaps (y - 1) = if is_leap_year y then 1 else 0.
Proof.
  unfold leaps, is_leap_year. pose proof (div_step 4 y ltac:(lia)) as H4.
  pose proof (div_step 100 y ltac:(lia)) as H100. pose proof (div_step 400 y ltac:(lia)) as H400.
  assert (y mod 400 = 0 -> y mod 100 = 0) as I1 by zlia. assert (y mod 100 = 0 -> y mod 4 = 0) as I2 by zlia.
  destruct (Z.eqb_spec (y mod 4) 0), (Z.eqb_spec (y mod 100) 0), (Z.eqb_spec (y mod 400) 0);
    cbn [andb orb negb]; tauto || lia.
Qed.

Lemma years_days_closed y : 1970 <= y < 2 ^ 31 -> years_days y = 365 * (y - 1970) + leaps (y - 1) - leaps 1969.
Proof.
  intros Hy. replace y with (1970 + Z.of_nat (Z.to_nat (y - 1970))) by lia.
  assert (Z.to_nat (y - 1970) < Z.to_nat (2 ^ 31 - 1970))%nat as Hk by lia. revert Hk.
  generalize (Z.to_nat (y - 1970)) as k. clear y Hy. induction k as [|k IH]; intros Hk; [reflexivity|].
  replace (1970 + Z.of_nat (S k)) with (1970 + Z.of_nat k + 1) by lia. rewrite years_days_succ by lia.
  rewrite IH by lia. unfold year_length.
  pose proof (is_leap_count (1970 + Z.of_nat k)) as L.
  replace (1970 + Z.of_nat k + 1 - 1) with (1970 + Z.of_nat k) by lia.
  destruct (is_leap_year (1970 + Z.of_nat k)); lia.
Qed.

(** The days before a month, from the first of March on independent of leap
    years but for one. *)
Lemma months_days m y d : 1 <= m <= 12 -> 0 <= d < 2 ^ 41 ->
  months_loop (Z.to_nat (m - 1)) 1 y d =
  d + nthZ [0; 31; 59; 90; 120; 151; 181; 212; 243; 273; 304; 334] (m - 1) +
  (if is_leap_year y then (if m <? 3 then 0 else 1) else 0).
Proof.
  intros Hm Hd. assert (m = 1 \/ 1 < m) as [->|Hlt] by lia.
  { simpl. destruct (is_leap_year y); unfold nthZ; simpl; lia. }
  revert Hm. replace m with (1 + Z.of_nat (Z.to_nat (m - 1))) by lia.
  generalize (Z.to_nat (m - 1)) as k. clear m Hlt. induction k as [|k IH]; intros Hk.
  { simpl. destruct (is_leap_year y); unfold nthZ; simpl; lia. }
  replace (1 + Z.of_nat (S k)) with (1 + Z.of_nat k + 1) by lia. rewrite months_days_succ by lia.
  rewrite IH by lia. clear IH.
  assert (k ∈ [0; 1; 2; 3; 4; 5; 6; 7; 8; 9; 10]%nat) as Hin by (rewrite !elem_of_cons; lia).
  repeat (apply elem_of_cons in Hin as [->|Hin];
    [unfold days_in_month, nthZ; simpl; destruct (is_leap_year y); simpl; lia|]).
  by apply elem_of_nil in Hin.
Qed.

(** Zeller's number in terms of the count of leap years. *)
Lemma zeller_leaps k m y : 1 <= k -> 1 <= m <= 12 -> 1970 <= y ->
  zeller k m y =
  if m <? 3 then (k + (13 * (m + 13)) / 5 + (y - 1) + leaps (y - 1)) mod 7
  else (k + (13 * (m + 1)) / 5 + y + leaps y) mod 7.
Proof.
  intros Hk Hm Hy. unfold zeller, leaps.
  assert (forall Y, 0 <= Y -> 0 <= Y / 4 - Y / 100 + Y / 400) as Hpos by (intros; zlia).
  destruct (Z.ltb_spec m 3).
  - specialize (Hpos (y - 1) ltac:(lia)). rewrite !Z.quot_div_nonneg by lia.
    assert (0 <= 13 * (m + 12 + 1) / 5) by (apply Z.div_pos; lia).
    rewrite Z.rem_mod_nonneg by lia. f_equal. replace (m + 12 + 1) with (m + 13) by lia. lia.
  - specialize (Hpos y ltac:(lia)). rewrite !Z.quot_div_nonneg by lia.
    assert (0 <= 13 * (m + 1) / 5) by (apply Z.div_pos; lia).
    rewrite Z.rem_mod_nonneg by lia. f_equal. lia.
Qed.

(** Zeller's number against the days since the epoch, a Thursday. *)
Lemma zeller_days t : valid t -> zeller (day t) (month t) (year t) = (unix_days t + 5) mod 7.
Proof.
  intros (_ & _ & _ & Hd & Hm & Hy). unfold unix_days.
  pose proof (years_days_bound (year t) ltac:(lia)).
  rewrite months_days by lia. rewrite years_days_closed, zeller_leaps by lia.
  pose proof (is_leap_count (year t)) as L. change (leaps 1969) with 477.
  generalize dependent (leaps (year t)). generalize (leaps (year t - 1)) as l1. intros l1 l2 L.
  generalize dependent (is_leap_year (year t)). intros leap L. revert Hm. generalize (month t) as m. intros m Hm.
  clear - L Hm. generalize (year t) as y, (day t) as k. intros y k.
  assert (m ∈ [1; 2; 3; 4; 5; 6; 7; 8; 9; 10; 11; 12]) as Hin by (rewrite !elem_of_cons; lia).
  repeat (apply elem_of_cons in Hin as [->|Hin]; [unfold nthZ; simpl; destruct leap; zlia|]).
  by apply elem_of_nil in Hin.
Qed.

(** ** The clock chip

    A clock that stands still: the register selected by the last write to the
    address port answers reads of the data port. *)

Definition rtc_device (regs : Z -> Z) : device := fun h _ port =>
  if port =? CMOS_DATA then regs (default 0 (last_out h CMOS_ADDRESS)) else 0.

Lemma rtc_register regs reg h : 0 <= reg < 256 ->
  run (get_rtc_register reg) (rtc_device regs) h =
  Some (u8 (regs reg), In 8 CMOS_DATA (u8 (regs reg)) :: Out 8 CMOS_ADDRESS reg :: h).
Proof.
  intros Hr. unfold get_rtc_register. run_io. unfold rtc_device. rewrite Z.eqb_refl. cbn [last_out].
  rewrite Z.eqb_refl. simpl. by rewrite (u8_small reg).
Qed.

Lemma rtc_wait regs fuel h : Z.land (u8 (regs 0x0A)) 0x80 = 0 ->
  exists h', run (wait_update fuel) (rtc_device regs) h = Some (tt, h').
Proof.
  intros Hu. destruct fuel; cbn [wait_update]; unfold get_update_in_progress_flag;
    (eexists; run_io; unfold rtc_device; rewrite Z.eqb_refl; cbn [last_out]; rewrite Z.eqb_refl;
     change (u8 0x0A) with 0x0A; cbn [default]; unfold id; rewrite Hu; reflexivity).
Qed.

(** The registers as one reading. *)
Definition reading (regs : Z -> Z) : datetime :=
  DateTime (u8 (regs 0x00)) (u8 (regs 0x02)) (u8 (regs 0x04)) (u8 (regs 0x07)) (u8 (regs 0x08)) (u8 (regs 0x09)).

Lemma rtc_registers regs c h :
  exists h', run (read_registers 0 c) (rtc_device regs) h = Some ((reading regs, c), h').
Proof.
  unfold read_registers. eexists.
  do 6 (rewrite run_bind, rtc_register by lia; cbn [mbind option_bind]). run_io. reflexivity.
Qed.

Lemma same_reading_refl a : same_reading a a = true.
Proof. unfold same_reading. by rewrite !Z.eqb_refl. Qed.

Lemma rtc_stable regs fuel c h : Z.land (u8 (regs 0x0A)) 0x80 = 0 ->
  exists h', run (read_stable fuel 0 (reading regs, c)) (rtc_device regs) h = Some ((reading regs, c), h').
Proof.
  intros Hu. destruct (rtc_wait regs fuel h Hu) as [h1 H1]. destruct (rtc_registers regs c h1) as [h2 H2].
  exists h2. destruct fuel; cbn [read_stable]; rewrite run_bind, H1; cbn [mbind option_bind];
    rewrite run_bind; cbn [snd]; rewrite H2; cbn [mbind option_bind]; by rewrite same_reading_refl.
Qed.

(** How the chip shows a time: binary or BCD digits, and the hour of the day or
    the hour of the half-day with a flag for the afternoon. *)
Definition bcd (v : Z) : Z := v / 10 * 16 + v mod 10.

Definition rtc_show (binary hours24 : bool) (t : datetime) (reg : Z) : Z :=
  let enc v := if binary then v else bcd v in
  if reg =? 0x00 then enc (second t)
  else if reg =? 0x02 then enc (minute t)
  else if reg =? 0x04 then
    if hours24 then enc (hour t)
    else enc (if hour t mod 12 =? 0 then 12 else hour t mod 12) + (if hour t <? 12 then 0 else 0x80)
  else if reg =? 0x07 then enc (day t)
  else if reg =? 0x08 then enc (month t)
  else if reg =? 0x09 then enc (year t mod 100)
  else if reg =? 0x0B then (if binary then 4 else 0) + (if hours24 then 2 else 0)
  else 0.

Lemma bcd_roundtrip v : 0 <= v < 100 -> bcd_byte (u8 (bcd v)) = v /\ Z.land (u8 (bcd v)) 0x0F + u8 (bcd v) / 16 * 10 = v.
Proof.
  intros Hv. pose proof (all_below_spec 100 (fun v => (bcd_byte (u8 (bcd v)) =? v) &&
    (Z.land (u8 (bcd v)) 0x0F + u8 (bcd v) / 16 * 10 =? v)) v ltac:(vm_compute; reflexivity) Hv) as H.
  cbv beta in H. lia.
Qed.

(** The decoded hour: right in 24-hour mode; in 12-hour mode noon and midnight
    are exchanged. *)
Definition shown_hour (hours24 : bool) (h : Z) : Z :=
  if hours24 then h else if h =? 0 then 12 else if h =? 12 then 0 else h.

Definition decode_hour (binary hours24 : bool) (v : Z) : Z :=
  let v := if binary then v else u8 (Z.lor (Z.land v 0x0F + Z.land v 0x70 / 16 * 10) (Z.land v 0x80)) in
  if negb hours24 && negb (Z.land v 0x80 =? 0) then (Z.land v 0x7F + 12) mod 24 else v.

Lemma hour_decodes binary hours24 t : 0 <= hour t < 24 ->
  decode_hour binary hours24 (u8 (rtc_show binary hours24 t 0x04)) = shown_hour hours24 (hour t).
Proof.
  intros Hh. unfold rtc_show. change (0x04 =? 0x00) with false. change (0x04 =? 0x02) with false.
  change (0x04 =? 0x04) with true. cbv iota. generalize dependent (hour t). intros h Hh.
  pose proof (all_below_spec 24 (fun h => decode_hour binary hours24
    (u8 (if hours24 then (if binary then h else bcd h)
         else (if binary then (if h mod 12 =? 0 then 12 else h mod 12) else bcd (if h mod 12 =? 0 then 12 else h mod 12)) +
              (if h <? 12 then 0 else 0x80))) =? shown_hour hours24 h) h) as H.
  destruct binary, hours24; apply Z.eqb_eq; apply H; (vm_compute; reflexivity) || lia.
Qed.

(** ** Theorems *)

(** Fact: Unix time follows the Gregorian calendar: it is 0 at the epoch, and for
    every valid time from 1970 on (years below 2^31 - 1) the time one second
    later, over all carries into minutes, hours, days, months and leap years,
    has a Unix time exactly one larger. *)
Theorem unix_time_ticks t :
  valid t -> valid (tick t) ->
  unix_time (tick t) = unix_time t + 1 /\ unix_time (DateTime 0 0 0 1 1 1970) = 0.
Proof.
  intros Hv Hv'. split; [|reflexivity]. rewrite !unix_time_eq by done. unfold tick in *.
  pose proof Hv as (Hs & Hmi & Hh & _).
  destruct (Z.ltb_spec (second t) 59); [unfold unix_days; simpl; lia|].
  destruct (Z.ltb_spec (minute t) 59); [unfold unix_days; simpl; lia|].
  destruct (Z.ltb_spec (hour t) 23); [unfold unix_days; simpl; lia|].
  rewrite next_day_days by done.
  assert (hour (next_day t) = 0 /\ minute (next_day t) = 0 /\ second (next_day t) = 0) as (-> & -> & ->).
  { unfold next_day. destruct (_ <? _); [done|]. by destruct (_ <? _). }
  lia.
Qed.

(** Fact: day_of_week names the right day for every valid date, counting from the
    epoch, a Thursday, except on Saturdays: there it reads the array of names
    before its first element. *)
Theorem day_of_week_correct t :
  valid t ->
  let w := (unix_days t + 4) mod 7 in
  day_of_week (day t) (month t) (year t) = if w =? 6 then None else weekdays !! Z.to_nat w.
Proof.
  intros Hv w. unfold day_of_week. rewrite zeller_days by done. subst w.
  destruct (Z.eqb_spec ((unix_days t + 4) mod 7) 6), (Z.ltb_spec ((unix_days t + 5) mod 7 - 1) 0); try done; try zlia.
  f_equal. zlia.
Qed.

(** Fact: reading a clock that stands still returns its time, whichever way the
    chip shows it (binary or BCD), for the years 2024 to 2099 it can tell
    apart, in 24-hour mode; in 12-hour mode the hours 0 and 12 come out
    exchanged and all others are right. *)
Theorem read_rtc_decodes binary hours24 t fuel century h :
  valid t -> 2024 <= year t < 2100 ->
  exists h', run (read_rtc fuel 0 century) (rtc_device (rtc_show binary hours24 t)) h =
    Some (DateTime (second t) (minute t) (shown_hour hours24 (hour t)) (day t) (month t) (year t), h').
Proof.
  intros (Hs & Hmi & Hh & Hd & Hm & Hy) Hy'. pose proof (days_in_month_range (month t) (year t) Hm).
  set (regs := rtc_show binary hours24 t). assert (Z.land (u8 (regs 0x0A)) 0x80 = 0) as Hu by done.
  destruct (rtc_wait regs fuel h Hu) as [h1 H1]. destruct (rtc_registers regs century h1) as [h2 H2].
  destruct (rtc_stable regs fuel century h2 Hu) as [h3 H3].
  unfold read_rtc. eexists. rewrite run_bind, H1. cbn [mbind option_bind]. rewrite run_bind, H2. cbn [mbind option_bind].
  rewrite run_bind, H3. cbn [mbind option_bind]. rewrite run_bind, rtc_register by lia. cbn [mbind option_bind reading].
  rewrite run_ret. f_equal. f_equal.
  pose proof (hour_decodes binary hours24 t Hh) as Hhour. fold regs in Hhour. unfold decode_hour in Hhour.
  assert ((Z.land (u8 (regs 0x0B)) 0x04 =? 0) = negb binary) as -> by (by destruct binary, hours24).
  assert ((Z.land (u8 (regs 0x0B)) 0x02 =? 0) = negb hours24) as -> by (by destruct binary, hours24).
  change (negb (0 =? 0)) with false. rewrite andb_false_r. cbv iota.
  assert (regs 0x00 = (if binary then second t else bcd (second t)) /\ regs 0x02 = (if binary then minute t else bcd (minute t)) /\
    regs 0x07 = (if binary then day t else bcd (day t)) /\ regs 0x08 = (if binary then month t else bcd (month t)) /\
    regs 0x09 = (if binary then year t mod 100 else bcd (year t mod 100))) as (-> & -> & -> & -> & ->) by done.
  destruct (bcd_roundtrip (second t)) as [B1 _]; [lia|]. destruct (bcd_roundtrip (minute t)) as [B2 _]; [lia|].
  destruct (bcd_roundtrip (day t)) as [B3 _]; [lia|]. destruct (bcd_roundtrip (month t)) as [B4 _]; [lia|].
  destruct (bcd_roundtrip (year t mod 100)) as [_ B5]; [zlia|].
  assert ((let y := u32 (year t mod 100 + CURRENT_YEAR / 100 * 100) in if y <? CURRENT_YEAR then u32 (y + 100) else y) = year t)
    as Hyear.
  { change (CURRENT_YEAR / 100 * 100) with 2000. unfold CURRENT_YEAR. rewrite u32_small by zlia. cbv zeta.
    destruct (Z.ltb_spec (year t mod 100 + 2000) 2024); zlia. }
  destruct binary; cbn [negb] in *; cbv iota in *.
  - rewrite (u8_small (second t)), (u8_small (minute t)), (u8_small (day t)), (u8_small (month t)),
      (u8_small (year t mod 100)) by zlia. f_equal; done.
  - rewrite B1, B2, B3, B4, B5. f_equal; done.
Qed.

(** ** Witnesses *)

(** The last second of February in a leap year. *)
Definition demo_time : datetime := DateTime 59 59 23 29 2 2024.

Lemma demo_time_valid : valid demo_time.
Proof. unfold valid, demo_time. simpl. unfold days_in_month. simpl. lia. Qed.

Lemma demo_tick_valid : valid (tick demo_time).
Proof. unfold valid, tick, demo_time. simpl. unfold days_in_month, nthZ. simpl. lia. Qed.

Lemma unix_time_ticks_witness : unix_time (DateTime 0 0 0 1 3 2024) = unix_time demo_time + 1.
Proof. exact (proj1 (unix_time_ticks demo_time demo_time_valid demo_tick_valid)). Defined.

(** 2 March 2024 was a Saturday. *)
Definition demo_saturday : datetime := DateTime 0 0 0 2 3 2024.

Lemma day_of_week_correct_witness : day_of_week 2 3 2024 = None /\ (unix_days demo_saturday + 4) mod 7 = 6.
Proof.
  split; [|vm_compute; reflexivity].
  refine (eq_trans (day_of_week_correct demo_saturday _) _); [|vm_compute; reflexivity].
  unfold valid, demo_saturday. simpl. unfold days_in_month, nthZ. simpl. lia.
Defined.

(** Noon in 12-hour mode. *)
Lemma read_rtc_decodes_witness :
  exists h', run (read_rtc 1 0 0) (rtc_device (rtc_show false false (DateTime 5 4 12 29 2 2024))) [] =
    Some (DateTime 5 4 0 29 2 2024, h').
Proof.
  apply (read_rtc_decodes false false (DateTime 5 4 12 29 2 2024) 1 0 []).
  - unfold valid. simpl. unfold days_in_month. simpl. lia.
  - simpl. lia.
Defined.
