(* ===== verification/Net.v ===== *)
(** * Net: kernel/net (ethernet.c, ipv4.c, udp.c, dns.c) and their headers

    Packets are built in place in a buffer of byte memory: each layer moves the
    payload up and stores its header in front.  A header is the list of its
    bytes in the packed little-endian layout of its struct. *)

From S2P Require Import Prelude Mem Endian CString CStdlib.

Definition ETH_FRAME_MIN_SIZE : Z := 60.
Definition MAC_ADDR_SIZE : Z := 6.
Definition ETHERTYPE_IPV4 : Z := 0x0800.
Definition ETHERTYPE_ARP : Z := 0x0806.
Definition PTYPE_IPV4 : Z := ETHERTYPE_IPV4.
Definition PTYPE_ARP : Z := ETHERTYPE_ARP.
Definition IPV4_ADDR_SIZE : Z := 4.
Definition IPV4_VERSION_IPV4 : Z := 4.
Definition IPV4_TTL_DEFAULT : Z := 0x40.
Definition IPV4_PROTOCOL_UDP : Z := 17.
Definition PACKET_MAX_SIZE : Z := 1500.

(** ** ethernet.c *)

Definition ethernet_header (hwdst hwsrc : list Z) (type : Z) : list Z :=
  hwdst ++ hwsrc ++ le_bytes 2 (htobe16 type).

Definition sizeof_ethernet_header : Z := 14.

(** The buffer's memory and the packet's length. *)
Definition encapsulate_ethernet (m : mem) (packet len : Z) (hwdst hwsrc : list Z) (type : Z) : mem * Z :=
  let eth_header := ethernet_header hwdst hwsrc type in
  let m := memmove m (packet + sizeof_ethernet_header) packet len in
  let m := mputs m packet eth_header in
  let len := s32 (len + sizeof_ethernet_header) in
  let m := memset m (packet + len) 0 ETH_FRAME_MIN_SIZE in
  (m, if len <? ETH_FRAME_MIN_SIZE then ETH_FRAME_MIN_SIZE else len).

(** ** ipv4.c *)

(** The running sum of the 16-bit words, folded whenever it exceeds 16 bits; an
    odd last byte is added alone. *)
Definition fold_carry (sum : Z) : Z :=
  if 0xFFFF <? sum then Z.land sum 0xFFFF + Z.shiftr sum 16 else sum.

Fixpoint checksum_loop (data : list Z) (sum : Z) : Z :=
  match data with
  | lo :: hi :: data => checksum_loop data (fold_carry (u32 (sum + (lo + 256 * hi))))
  | [b] => fold_carry (u32 (sum + b))
  | [] => sum
  end.

Definition ipv4_checksum (data : list Z) : Z := u16 (Z.lnot (checksum_loop data 0)).

Definition sizeof_ipv4_header : Z := 20.

(** The header with a given value in the checksum field. *)
Definition ipv4_header (len protocol : Z) (src_ip dst_ip : list Z) (header_checksum : Z) : list Z :=
  [Z.lor (Z.shiftl IPV4_VERSION_IPV4 4) (sizeof_ipv4_header / 4); 0] ++
  le_bytes 2 (htobe16 (u16 (sizeof_ipv4_header + len))) ++
  le_bytes 2 (htobe16 0) ++
  le_bytes 2 (htobe16 (Z.shiftl 2 13)) ++
  [IPV4_TTL_DEFAULT; u8 protocol] ++
  le_bytes 2 header_checksum ++ src_ip ++ dst_ip.

Definition encapsulate_ipv4 (m : mem) (packet len protocol : Z) (src_ip dst_ip : list Z) : mem * Z :=
  let hdr := ipv4_header len protocol src_ip dst_ip (htobe16 0) in
  let hdr := ipv4_header len protocol src_ip dst_ip (htobe16 (ipv4_checksum hdr)) in
  let m := memmove m (packet + sizeof_ipv4_header) packet len in
  let m := mputs m packet hdr in
  (m, s32 (len + sizeof_ipv4_header)).

(** ** udp.c *)

Definition sizeof_udp_header : Z := 8.

Definition udp_header (src_port dst_port length : Z) : list Z :=
  le_bytes 2 (be16toh (u16 src_port)) ++ le_bytes 2 (be16toh (u16 dst_port)) ++
  le_bytes 2 (be16toh (u16 length)) ++ le_bytes 2 (be16toh 0).

(** The length is increased first: eight bytes behind the payload move along. *)
Definition encapsulate_udp (m : mem) (packet len src_port dst_port : Z) : mem * Z :=
  let len := s32 (len + sizeof_udp_header) in
  let hdr := udp_header src_port dst_port len in
  let m := memmove m (packet + sizeof_udp_header) packet len in
  (mputs m packet hdr, len).

(** ** dns.c *)

Definition DNS_QR_QUERY : Z := 0.
Definition DNS_OPCODE_QUERY : Z := 0.
Definition DNS_RCODE_NOERROR : Z := 0.
Definition DNS_RR_TYPE_A : Z := 1.
Definition DNS_RR_CLASS_IN : Z := 1.
Definition sizeof_dns_header : Z := 12.
Definition sizeof_dns_question : Z := 4.

Definition dns_header (tid : Z) : list Z :=
  let flags := Z.lor (Z.lor (Z.shiftl DNS_QR_QUERY 15) (Z.shiftl DNS_OPCODE_QUERY 11))
                 (Z.lor (Z.shiftl 1 8) DNS_RCODE_NOERROR) in
  le_bytes 2 (htobe16 tid) ++ le_bytes 2 (htobe16 flags) ++ le_bytes 2 (htobe16 1) ++
  le_bytes 2 0 ++ le_bytes 2 0 ++ le_bytes 2 0.

Definition dns_question : list Z := le_bytes 2 (htobe16 DNS_RR_TYPE_A) ++ le_bytes 2 (htobe16 DNS_RR_CLASS_IN).

(** The labels of the name, each behind its length; strtok writes terminators
    into the name as it goes. *)
Fixpoint dns_labels (k fuel : nat) (m : mem) (start name delim packet packet_len : Z) : option (mem * Z) :=
  match k with
  | O => None
  | S k =>
      '(m, start, label) ← strtok fuel m start name delim;
      if label =? NULL then Some (m, packet_len)
      else
        n ← strlen fuel m label;
        let m := mwrite m (packet + packet_len) n in
        let packet_len := packet_len + 1 in
        n ← strlen fuel m label;
        let m := memcpy m (packet + packet_len) label n in
        dns_labels k fuel m start NULL delim packet (packet_len + n)
  end.

Definition dns_gateway : list Z := [10; 0; 0; 138].
Definition dns_own_ip : list Z := [10; 0; 0; 24].
Definition dns_dst_mac : list Z := [0x00; 0xb8; 0xc2; 0xbe; 0x03; 0x6d].

(** The message: header, labels, terminator, question. *)
Definition dns_message (k fuel : nat) (m : mem) (start name delim packet tid : Z) : option (mem * Z) :=
  let m := mputs m packet (dns_header tid) in
  '(m, packet_len) ← dns_labels k fuel m start name delim packet sizeof_dns_header;
  let m := mwrite m (packet + packet_len) 0 in
  let packet_len := packet_len + 1 in
  let m := mputs m (packet + packet_len) dns_question in
  Some (m, packet_len + sizeof_dns_question).

(** The frame send_dns hands to send_packet, sent by [mac]; [rnd] is what rand
    returned. The hardware address the ARP request finds is not used. *)
Definition send_dns (k fuel : nat) (m : mem) (start name delim packet rnd : Z) (mac : list Z) : option (mem * Z) :=
  let tid := rnd mod (pow 2 16 - 1) in
  '(m, len) ← dns_message k fuel m start name delim packet tid;
  let '(m, len) := encapsulate_udp m packet len 1234 53 in
  let '(m, len) := encapsulate_ipv4 m packet len IPV4_PROTOCOL_UDP dns_own_ip dns_gateway in
  Some (encapsulate_ethernet m packet len dns_dst_mac mac PTYPE_IPV4).

(** ** The ones' complement sum *)

(** The plain sum of the words. *)
Fixpoint word_sum (data : list Z) : Z :=
  match data with
  | lo :: hi :: data => lo + 256 * hi + word_sum data
  | [b] => b
  | [] => 0
  end.

Definition bytes_ok (l : list Z) : Prop := Forall (fun b => 0 <= b < 256) l.

Lemma fold_carry_spec s :
  0 <= s <= 2 * 65535 -> 0 <= fold_carry s <= 65535 /\ (fold_carry s mod 65535 = s mod 65535) /\ (fold_carry s = 0 <-> s = 0).
Proof.
  intros Hs. unfold fold_carry. destruct (Z.ltb_spec 0xFFFF s).
  - change (Z.land s 0xFFFF) with (Z.land s (Z.ones 16)). rewrite Z.land_ones, Z.shiftr_div_pow2 by lia.
    change (2 ^ 16) with 65536.
    assert (s mod 65536 + s / 65536 = s - 65535) as -> by zlia. split_and!; [lia|lia| |lia].
    replace (s - 65535) with (s + (-1) * 65535) by lia. by rewrite Z.mod_add.
  - split_and!; [lia|lia|done|done].
Qed.

(** Induction two bytes at a time. *)
Lemma pairs_ind (P : list Z -> Prop) :
  P [] -> (forall b, P [b]) -> (forall lo hi l, P l -> P (lo :: hi :: l)) -> forall l, P l.
Proof.
  intros H0 H1 H2. fix IH 1. intros [|a [|b l]]; [done|apply H1|apply H2, IH].
Qed.

Lemma checksum_loop_spec data sum :
  bytes_ok data -> 0 <= sum <= 65535 ->
  0 <= checksum_loop data sum <= 65535 /\
  checksum_loop data sum mod 65535 = (sum + word_sum data) mod 65535 /\
  (checksum_loop data sum = 0 <-> sum + word_sum data = 0) /\ 0 <= word_sum data.
Proof.
  revert sum. induction data as [|b|lo hi data IH] using pairs_ind; intros sum Hb Hs; cbn [checksum_loop word_sum].
  - rewrite Z.add_0_r. split_and!; try lia; done.
  - apply list.Forall_cons in Hb as [Hb _]. rewrite u32_small by lia.
    destruct (fold_carry_spec (sum + b)) as (H1 & H2 & H3); [lia|]. split_and!; try done; lia.
  - apply list.Forall_cons in Hb as [Hlo Hb]. apply list.Forall_cons in Hb as [Hhi Hb]. rewrite u32_small by lia.
    destruct (fold_carry_spec (sum + (lo + 256 * hi))) as (H1 & H2 & H3); [lia|].
    destruct (IH (fold_carry (sum + (lo + 256 * hi))) Hb H1) as (I1 & I2 & I3 & I4).
    split_and!; try lia. rewrite I2. rewrite Z.add_mod, H2, <- Z.add_mod by lia. f_equal. lia.
Qed.

(** The checksum is what makes the sum of all words a multiple of 65535. *)
Lemma ipv4_checksum_spec data :
  bytes_ok data -> 0 <= ipv4_checksum data < 65536 /\
  (word_sum data + ipv4_checksum data) mod 65535 = 0 /\
  (0 < word_sum data -> (ipv4_checksum data = 0 <-> word_sum data mod 65535 = 0)).
Proof.
  intros Hb. destruct (checksum_loop_spec data 0 Hb ltac:(lia)) as (H1 & H2 & H3 & H4).
  unfold ipv4_checksum. set (r := checksum_loop data 0) in *.
  assert (u16 (Z.lnot r) = 65535 - r) as ->.
  { unfold Z.lnot. unfold u16. replace (Z.pred (- r)) with (65535 - r + (-1) * 65536) by lia.
    rewrite Z.mod_add, Z.mod_small by lia. lia. }
  split; [lia|]. rewrite Z.add_0_l in *. split; [zlia|]. intros Hp. zlia.
Qed.

Lemma word_sum_app l k : Nat.Even (length l) -> word_sum (l ++ k) = word_sum l + word_sum k.
Proof.
  induction l as [|b|lo hi l IH] using pairs_ind; intros He; simpl; [done| |].
  - destruct He as [n Hn]. simpl in Hn. lia.
  - rewrite IH; [lia|]. destruct He as [n Hn]. exists (pred n). simpl in Hn. lia.
Qed.

Lemma le_bytes_ok n v : bytes_ok (le_bytes n v).
Proof. revert v. induction n as [|n IH]; intros v; simpl; [constructor|]. constructor; [apply Z.mod_pos_bound; lia|apply IH]. Qed.

Lemma word_sum_le2 v : 0 <= v < 65536 -> word_sum (le_bytes 2 v) = v.
Proof. intros Hv. simpl. zlia. Qed.

(** Swapping the bytes of a word multiplies it by 256 modulo 65535. *)
Lemma swap16_arith v : 0 <= v < 65536 -> swap16 v = v mod 256 * 256 + v / 256.
Proof.
  intros Hv. unfold swap16. rewrite Z.lor_comm, (Z.shiftr_div_pow2 v 8) by lia.
  rewrite (lor_add_disjoint (v / 2 ^ 8) v 8) by (lia || zlia). change (2 ^ 8) with 256. ulia.
Qed.

Lemma htobe16_arith v : 0 <= v < 65536 -> htobe16 v = v mod 256 * 256 + v / 256.
Proof. intros Hv. unfold htobe16. rewrite little_endian. by apply swap16_arith. Qed.

Lemma le_bytes_htobe v : 0 <= v < 65536 -> le_bytes 2 (htobe16 v) = [v / 256; v mod 256].
Proof. intros Hv. rewrite htobe16_arith by done. simpl. f_equal; [zlia|]. f_equal. zlia. Qed.

(** ** Headers *)

Definition addr_ok (n : nat) (l : list Z) : Prop := length l = n /\ bytes_ok l.

Lemma ipv4_header_length len protocol src dst c :
  addr_ok 4 src -> addr_ok 4 dst -> length (ipv4_header len protocol src dst c) = 20%nat.
Proof. intros [H1 _] [H2 _]. unfold ipv4_header. rewrite !length_app, !length_le_bytes, H1, H2. done. Qed.

(** Field by field, the sum of the header with any value in the checksum field. *)
Lemma ipv4_header_sum len protocol src dst c :
  addr_ok 4 src -> addr_ok 4 dst -> 0 <= c < 65536 ->
  bytes_ok (ipv4_header len protocol src dst c) /\
  word_sum (ipv4_header len protocol src dst c) = word_sum (ipv4_header len protocol src dst 0) + c /\
  0 < word_sum (ipv4_header len protocol src dst 0).
Proof.
  intros [Hs1 Hs2] [Hd1 Hd2] Hc. unfold ipv4_header.
  set (a := [Z.lor _ _; 0]). set (b := [IPV4_TTL_DEFAULT; u8 protocol]).
  assert (bytes_ok a) as Ha by (repeat constructor; vm_compute; (discriminate || done)).
  assert (bytes_ok b) as Hb by (repeat constructor; try (vm_compute; (discriminate || done)); apply u8_range).
  assert (forall l, bytes_ok l -> 0 <= word_sum l) as Hpos by (intros l Hl; by apply (checksum_loop_spec l 0)).
  split.
  - unfold bytes_ok. rewrite !Forall_app. split_and!; try done; apply le_bytes_ok.
  - pose proof (Hpos _ (le_bytes_ok 2 (htobe16 (u16 (sizeof_ipv4_header + len))))).
    pose proof (Hpos _ Hb). pose proof (Hpos _ Hs2). pose proof (Hpos _ Hd2).
    assert (forall k, Nat.Even (length (le_bytes 2 k))) as He by (intros k; rewrite length_le_bytes; by exists 1%nat).
    assert (Nat.Even (length a) /\ Nat.Even (length b)) as [Ea Eb] by (split; by exists 1%nat).
    assert (Nat.Even (length src)) as Es by (rewrite Hs1; by exists 2%nat).
    rewrite !word_sum_app by done. rewrite (word_sum_le2 c), (word_sum_le2 0) by lia.
    change (word_sum a) with 69. change (word_sum (le_bytes 2 (htobe16 0))) with 0.
    change (word_sum (le_bytes 2 (htobe16 (2 ≪ 13)))) with 64. lia.
Qed.

(** ** Layout in the buffer *)

Definition bytes_at (m : mem) (a : Z) (l : list Z) : Prop :=
  forall i x, l !! i = Some x -> mread m (a + Z.of_nat i) = x.

Lemma bytes_at_app m a l k : bytes_at m a (l ++ k) <-> bytes_at m a l /\ bytes_at m (a + zlen l) k.
Proof.
  unfold bytes_at, zlen. split.
  - intros H. split; intros i x Hi.
    + apply H. by apply lookup_app_l_Some.
    + rewrite <- Z.add_assoc, <- Nat2Z.inj_add. apply H. rewrite lookup_app_r by lia. rewrite <- Hi. f_equal. lia.
  - intros [H1 H2] i x Hi. apply lookup_app_Some in Hi as [Hi|[Hge Hi]]; [by apply H1|].
    rewrite <- (H2 _ _ Hi). f_equal. lia.
Qed.

Lemma bytes_at_ext m1 m2 a l :
  (forall b, a <= b < a + zlen l -> mread m1 b = mread m2 b) -> bytes_at m2 a l -> bytes_at m1 a l.
Proof.
  intros H Hl i x Hi. rewrite H; [by apply Hl|]. apply lookup_lt_Some in Hi. unfold zlen. lia.
Qed.

Lemma bytes_at_mputs m a l : bytes_ok l -> bytes_at (mputs m a l) a l.
Proof.
  intros Hl i x Hi. rewrite (mread_mputs_in m a l i x Hi). apply u8_small. unfold bytes_ok in Hl.
  rewrite list.Forall_forall in Hl. apply Hl. by eapply list_elem_of_lookup_2.
Qed.

(** The common step: the payload moves up by the header's length, the header
    is stored in front, everything outside the new packet and [extra] bytes
    behind it stays. *)
Lemma encapsulate_step m p len extra hdr pl :
  bytes_ok hdr -> bytes_at m p pl -> zlen pl = len -> 0 <= extra ->
  let m' := mputs (memmove m (p + zlen hdr) p (len + extra)) p hdr in
  bytes_at m' p (hdr ++ pl) /\
  (forall b, b < p \/ p + zlen hdr + len + extra <= b -> mread m' b = mread m b).
Proof.
  intros Hh Hp Hl He m'. pose proof (zlen_nonneg hdr). pose proof (zlen_nonneg pl). split.
  - apply bytes_at_app. split; [by apply bytes_at_mputs|]. intros i x Hi.
    assert (Z.of_nat i < zlen pl) by (apply lookup_lt_Some in Hi; unfold zlen; lia).
    unfold m'. rewrite mread_mputs_out by lia. rewrite memmove_in by lia. by apply Hp.
  - intros b Hb. unfold m'. rewrite mread_mputs_out by lia. apply memmove_out. lia.
Qed.

Lemma s32_len n : 0 <= n < 65536 -> s32 n = n.
Proof. intros. apply s32_small. lia. Qed.

Lemma udp_header_ok sp dp len : bytes_ok (udp_header sp dp len) /\ zlen (udp_header sp dp len) = 8.
Proof.
  split; [|unfold zlen, udp_header; by rewrite !length_app, !length_le_bytes].
  unfold bytes_ok, udp_header. rewrite !Forall_app. split_and!; apply le_bytes_ok.
Qed.

Lemma ethernet_header_ok dst src ty :
  addr_ok 6 dst -> addr_ok 6 src -> bytes_ok (ethernet_header dst src ty) /\ zlen (ethernet_header dst src ty) = 14.
Proof.
  intros [H1 H2] [H3 H4]. split.
  - unfold bytes_ok, ethernet_header. rewrite !Forall_app. split_and!; try done. apply le_bytes_ok.
  - unfold zlen, ethernet_header. by rewrite !length_app, length_le_bytes, H1, H3.
Qed.

Lemma udp_layout m p sp dp pl :
  bytes_at m p pl -> zlen pl < 60000 ->
  exists m', encapsulate_udp m p (zlen pl) sp dp = (m', zlen pl + 8) /\
    bytes_at m' p (udp_header sp dp (zlen pl + 8) ++ pl) /\
    (forall b, b < p \/ p + zlen pl + 16 <= b -> mread m' b = mread m b).
Proof.
  intros Hp Hl. pose proof (zlen_nonneg pl). unfold encapsulate_udp, sizeof_udp_header. rewrite s32_len by lia.
  destruct (udp_header_ok sp dp (zlen pl + 8)) as [H1 H2].
  destruct (encapsulate_step m p (zlen pl) 8 _ pl H1 Hp eq_refl ltac:(lia)) as [H3 H4].
  eexists. split; [reflexivity|]. rewrite H2 in *. split; [done|]. intros b Hb. apply H4. lia.
Qed.

Lemma ipv4_layout m p proto src dst pl :
  bytes_at m p pl -> zlen pl < 60000 -> addr_ok 4 src -> addr_ok 4 dst ->
  let hdr := ipv4_header (zlen pl) proto src dst (htobe16 (ipv4_checksum (ipv4_header (zlen pl) proto src dst 0))) in
  exists m', encapsulate_ipv4 m p (zlen pl) proto src dst = (m', zlen pl + 20) /\
    bytes_at m' p (hdr ++ pl) /\ zlen hdr = 20 /\
    (forall b, b < p \/ p + zlen pl + 20 <= b -> mread m' b = mread m b).
Proof.
  intros Hp Hl Hs Hd hdr. pose proof (zlen_nonneg pl). unfold encapsulate_ipv4, sizeof_ipv4_header. rewrite s32_len by lia.
  change (htobe16 0) with 0. fold hdr.
  assert (zlen hdr = 20) as H2 by (unfold zlen, hdr; by rewrite ipv4_header_length).
  assert (bytes_ok hdr) as H1.
  { apply ipv4_header_sum; [done|done|]. unfold htobe16. rewrite little_endian. apply swap16_range. }
  destruct (encapsulate_step m p (zlen pl) 0 _ pl H1 Hp eq_refl ltac:(lia)) as [H3 H4].
  rewrite H2 in *. rewrite !Z.add_0_r in *. eexists. split; [reflexivity|]. split; [done|]. split; [done|].
  intros b Hb. apply H4. lia.
Qed.

Lemma ethernet_layout m p dst src ty pl :
  bytes_at m p pl -> zlen pl < 60000 -> addr_ok 6 dst -> addr_ok 6 src ->
  exists m', encapsulate_ethernet m p (zlen pl) dst src ty = (m', Z.max 60 (zlen pl + 14)) /\
    bytes_at m' p (ethernet_header dst src ty ++ pl ++ replicate (Z.to_nat (46 - zlen pl)) 0) /\
    (forall b, b < p \/ p + zlen pl + 74 <= b -> mread m' b = mread m b).
Proof.
  intros Hp Hl Hd Hs. pose proof (zlen_nonneg pl). unfold encapsulate_ethernet, sizeof_ethernet_header, ETH_FRAME_MIN_SIZE.
  rewrite s32_len by lia. destruct (ethernet_header_ok dst src ty Hd Hs) as [H1 H2].
  destruct (encapsulate_step m p (zlen pl) 0 _ pl H1 Hp eq_refl ltac:(lia)) as [H3 H4].
  rewrite H2 in *. rewrite !Z.add_0_r in *. set (m1 := mputs _ _ _) in *.
  eexists. split; [f_equal; destruct (Z.ltb_spec (zlen pl + 14) 60); lia|]. split.
  - rewrite app_assoc. apply bytes_at_app. rewrite zlen_app, H2. split.
    + eapply bytes_at_ext; [|exact H3]. intros b Hb. rewrite zlen_app, H2 in Hb. apply memset_out. lia.
    + intros i x [-> Hi]%lookup_replicate. rewrite memset_in by lia. done.
  - intros b Hb. rewrite memset_out by lia. apply H4. lia.
Qed.

(** ** Domain names *)

Definition encode_labels (ts : list (list Z)) : list Z := concat (map (fun t => zlen t :: t) ts).

(** The labels of a question as a resolver reads them: up to the length 0. *)
Fixpoint decode_labels (k : nat) (l : list Z) : option (list (list Z) * list Z) :=
  match k, l with
  | S k, n :: l =>
      if n =? 0 then Some ([], l)
      else '(ts, rest) ← decode_labels k (drop (Z.to_nat n) l); Some (take (Z.to_nat n) l :: ts, rest)
  | _, _ => None
  end.

Lemma decode_encode ts rest k :
  Forall (fun t => t <> []) ts -> (length ts < k)%nat ->
  decode_labels k (encode_labels ts ++ 0 :: rest) = Some (ts, rest).
Proof.
  intros Hts. revert k. induction Hts as [|t ts Ht Hts IH]; intros k Hk; (destruct k as [|k]; [simpl in Hk; lia|]); [done|].
  change (encode_labels (t :: ts)) with (zlen t :: t ++ encode_labels ts). cbn [app decode_labels].
  destruct (Z.eqb_spec (zlen t) 0) as [E|_]; [destruct t; [done|rewrite zlen_cons in E; pose proof (zlen_nonneg t); lia]|].
  replace (Z.to_nat (zlen t)) with (length t) by (unfold zlen; lia).
  rewrite <- app_assoc, drop_app_length, take_app_length. rewrite IH by (simpl in Hk; lia). done.
Qed.

Lemma tokens_nonempty d acc s : Forall (fun t => t <> []) (tokens d acc s).
Proof.
  revert acc. induction s as [|c s IH]; intros acc; simpl.
  - destruct acc; [constructor|]. constructor; [done|constructor].
  - case_bool_decide; [|apply IH]. destruct acc; [constructor|]. constructor; [done|apply IH].
Qed.

(** [lo, hi) and the string at [p], with its terminator, do not meet. *)
Abbreviation apart lo hi p s := (clear_of lo hi p s).

Lemma cstr_keep m m' a s lo hi :
  cstr m a s -> apart lo hi a s -> (forall b, b < lo \/ hi <= b -> mread m' b = mread m b) -> cstr m' a s.
Proof.
  intros Hs Ha Hm. eapply cstr_ext; [|exact Hs]. intros b Hb. apply Hm. unfold clear_of in Ha. lia.
Qed.

Section Labels.
Context (fuel : nat) (delim packet : Z) (d : list Z).
Hypothesis Hdelim : 0 < delim.

(** One label: its length and its characters. *)
Lemma put_label m a t off :
  cstr m a t -> (length t < fuel)%nat -> zlen t < 256 -> apart (packet + off) (packet + off + 1 + zlen t) a t ->
  exists m1 m', strlen fuel m a = Some (zlen t) /\ m1 = mwrite m (packet + off) (zlen t) /\
    strlen fuel m1 a = Some (zlen t) /\ m' = memcpy m1 (packet + (off + 1)) a (zlen t) /\
    bytes_at m' (packet + off) (zlen t :: t) /\
    (forall b, b < packet + off \/ packet + off + 1 + zlen t <= b -> mread m' b = mread m b).
Proof.
  intros Ht Hf Hl Hap. pose proof (zlen_nonneg t). unfold clear_of in Hap.
  assert (cstr (mwrite m (packet + off) (zlen t)) a t) as Ht1.
  { eapply cstr_ext; [|exact Ht]. intros b Hb. apply mread_mwrite_ne. lia. }
  do 2 eexists. split; [by apply strlen_spec|]. split; [reflexivity|]. split; [by apply strlen_spec|]. split; [reflexivity|].
  split.
  - intros [|i] x Hi; simpl in Hi.
    + injection Hi as <-. rewrite Z.add_0_r, memcpy_out, mread_mwrite_eq by lia. apply u8_small. lia.
    + assert (Z.of_nat i < zlen t) by (apply lookup_lt_Some in Hi; unfold zlen; lia).
      replace (packet + off + Z.of_nat (S i)) with (packet + (off + 1) + Z.of_nat i) by lia.
      rewrite memcpy_in by lia. by apply (cstr_prefix _ _ t).
  - intros b Hb. rewrite memcpy_out by lia. apply mread_mwrite_ne. lia.
Qed.

Lemma dns_labels_spec n k m start name a s off :
  (length s <= n)%nat -> (if negb (name =? NULL) then name else start) = a -> 0 < a ->
  cstr m a s -> cstr m delim d -> clear_of a (a + zlen s) delim d ->
  (length s + length d < fuel)%nat -> (length (tokens d [] s) < k)%nat ->
  Forall (fun t => zlen t < 256) (tokens d [] s) ->
  let e := encode_labels (tokens d [] s) in
  apart (packet + off) (packet + off + zlen e) a s -> apart (packet + off) (packet + off + zlen e) delim d ->
  exists m', dns_labels k fuel m start name delim packet off = Some (m', off + zlen e) /\
    bytes_at m' (packet + off) e /\
    (forall b, (b < packet + off \/ packet + off + zlen e <= b) -> (b < a \/ a + zlen s <= b) -> mread m' b = mread m b).
Proof.
  revert k m start name a s off. induction n as [|n IH]; intros k m start name a s off Hn Ha Ha0 Hs Hd Hcl Hf Hk Hlen e Hap Hapd;
    subst e; (destruct k as [|k]; [lia|]);
    destruct (token_prefix d s) as (t & rest & -> & Ht & Hr); cbn [dns_labels];
    rewrite (strtok_call fuel m start name delim d a t rest) by done; cbn [mbind option_bind];
    rewrite (tokens_split d [] t rest) in * by done; simpl app in *.
  all: destruct t as [|c t]; [exists m; split_and!; [by rewrite Z.add_0_r|by intros i x Hi|done]|].
  { simpl in Hn. lia. }
  set (w := c :: t) in *. pose proof (zlen_nonneg w) as Hw. pose proof (zlen_nonneg d) as Hd0.
  destruct rest as [|x r]; cbv zeta in *; (destruct (Z.eqb_spec a NULL) as [E|_]; [unfold NULL in E; lia|]).
  - rewrite app_nil_r in *. change (encode_labels [w]) with (zlen w :: w ++ []) in *. rewrite ?app_nil_r in *.
    rewrite zlen_cons in *. apply list.Forall_cons in Hlen as [Hlw _].
    destruct (put_label m a w off Hs) as (m1 & m' & -> & -> & E2 & -> & H1 & H2);
      [lia|done|unfold clear_of in *; lia|]. cbn [mbind option_bind]. rewrite E2. cbn [mbind option_bind].
    destruct k as [|k]; [simpl in Hk; lia|]. cbn [dns_labels]. unfold strtok. simpl.
    eexists. split; [do 2 f_equal; lia|]. split; [exact H1|]. intros b Hb _. apply H2. lia.
  - change (encode_labels (w :: tokens d [] r)) with (zlen w :: w ++ encode_labels (tokens d [] r)) in *.
    set (e := encode_labels (tokens d [] r)) in *. rewrite zlen_cons, !zlen_app, ?zlen_cons in *.
    apply list.Forall_cons in Hlen as [Hlw Hlen]. pose proof (zlen_nonneg r). pose proof (zlen_nonneg e).
    rewrite length_app in Hf, Hn. cbn [length] in Hf, Hn, Hk. assert (1 <= length w)%nat by (unfold w; simpl; lia).
    apply cstr_app in Hs as Hs'. destruct Hs' as [Hw1 (_ & _ & Hr1)]. unfold clear_of in Hcl, Hap, Hapd.
    rewrite zlen_app, zlen_cons in Hap.
    set (m0 := mwrite m (a + zlen w) 0).
    assert (forall b, b <> a + zlen w -> mread m0 b = mread m b) as Hm0 by (intros; by apply mread_mwrite_ne).
    assert (cstr m0 a w) as Hw0.
    { rewrite <- (app_nil_r w). apply cstr_app. split.
      - intros i y Hi. pose proof (lookup_lt_Some _ _ _ Hi). unfold zlen in *. rewrite Hm0 by lia. by apply Hw1.
      - simpl. unfold m0. by rewrite mread_mwrite_eq. }
    destruct (put_label m0 a w off Hw0) as (m1 & m' & -> & -> & E2 & Em & B1 & B2);
      [lia|done|unfold clear_of; lia|]. cbn [mbind option_bind]. rewrite E2. cbn [mbind option_bind]. rewrite <- Em.
    destruct (IH k m' (a + zlen w + 1) NULL (a + zlen w + 1) r (off + 1 + zlen w)) as (m2 & HL1 & HL2 & HL3);
      try done; try lia; try (unfold clear_of; fold e; lia).
    + eapply cstr_ext; [|exact Hr1]. intros b Hb. rewrite B2 by lia. apply Hm0. lia.
    + eapply cstr_ext; [|exact Hd]. intros b Hb. rewrite B2 by lia. apply Hm0. lia.
    + fold e in HL1, HL2, HL3. exists m2. rewrite HL1. split; [do 2 f_equal; lia|]. split.
      * rewrite app_comm_cons. apply bytes_at_app. rewrite zlen_cons. split.
        -- eapply bytes_at_ext; [|exact B1]. intros b Hb. rewrite zlen_cons in Hb. apply HL3; lia.
        -- replace (packet + off + (1 + zlen w)) with (packet + (off + 1 + zlen w)) by lia. exact HL2.
      * intros b Hb Hb'. rewrite HL3 by lia. rewrite B2 by lia. apply Hm0. lia.
Qed.
End Labels.

(** The finished message. *)
Definition message_bytes (tid : Z) (ts : list (list Z)) : list Z :=
  dns_header tid ++ encode_labels ts ++ [0] ++ dns_question.

Lemma dns_header_ok tid : bytes_ok (dns_header tid) /\ zlen (dns_header tid) = 12.
Proof.
  split; [|unfold zlen, dns_header; by rewrite !length_app, !length_le_bytes].
  unfold bytes_ok, dns_header. rewrite !Forall_app. split_and!; apply le_bytes_ok.
Qed.

Lemma dns_message_spec k fuel m start name delim packet d s tid :
  0 < name -> 0 < delim -> cstr m name s -> cstr m delim d -> clear_of name (name + zlen s) delim d ->
  (length s + length d < fuel)%nat -> (length (tokens d [] s) < k)%nat ->
  Forall (fun t => zlen t < 256) (tokens d [] s) ->
  let bs := message_bytes tid (tokens d [] s) in
  clear_of packet (packet + zlen bs) name s -> clear_of packet (packet + zlen bs) delim d ->
  exists m', dns_message k fuel m start name delim packet tid = Some (m', zlen bs) /\ bytes_at m' packet bs.
Proof.
  intros Hn0 Hdl Hs Hd Hcl Hf Hk Hlen bs Hap Hapd. unfold dns_message, sizeof_dns_header, sizeof_dns_question.
  destruct (dns_header_ok tid) as [Hh Hhl]. set (e := encode_labels (tokens d [] s)) in *.
  assert (zlen bs = 17 + zlen e) as Hbl.
  { unfold bs, message_bytes. rewrite !zlen_app, Hhl. fold e. change (zlen [0]) with 1. change (zlen dns_question) with 4. lia. }
  pose proof (zlen_nonneg e). unfold clear_of in Hap, Hapd.
  set (m0 := mputs m packet (dns_header tid)).
  assert (forall b, b < packet \/ packet + 12 <= b -> mread m0 b = mread m b) as Hm0.
  { intros b Hb. apply mread_mputs_out. rewrite Hhl. lia. }
  destruct (dns_labels_spec fuel delim packet d Hdl (length s) k m0 start name name s 12) as (m1 & E1 & B1 & O1);
    try done; try (fold e; unfold clear_of; lia).
  { destruct (Z.eqb_spec name NULL) as [E|]; [unfold NULL in E; lia|done]. }
  { eapply cstr_ext; [|exact Hs]. intros b Hb. apply Hm0. lia. }
  { eapply cstr_ext; [|exact Hd]. intros b Hb. apply Hm0. lia. }
  fold e in E1, B1, O1. rewrite E1. cbn [mbind option_bind]. eexists. split; [do 2 f_equal; lia|].
  set (m2 := mwrite m1 _ 0). unfold bs, message_bytes. fold e.
  assert (forall b, b < packet + (12 + zlen e) -> mread (mputs m2 (packet + (12 + zlen e + 1)) dns_question) b = mread m1 b) as Hlow.
  { intros b Hb. rewrite mread_mputs_out by lia. apply mread_mwrite_ne. lia. }
  apply bytes_at_app. rewrite Hhl. split; [|apply bytes_at_app; split; [|apply bytes_at_app; split]].
  - eapply bytes_at_ext; [|apply (bytes_at_mputs m); exact Hh]. intros b Hb. rewrite Hhl in Hb.
    rewrite Hlow by lia. apply O1; lia.
  - eapply bytes_at_ext; [|exact B1]. intros b Hb. apply Hlow. lia.
  - intros [|i] x Hi; [|done]. injection Hi as <-. rewrite mread_mputs_out by lia.
    replace (packet + 12 + zlen e + Z.of_nat 0) with (packet + (12 + zlen e)) by lia. unfold m2. by rewrite mread_mwrite_eq.
  - change (zlen [0]) with 1. replace (packet + 12 + zlen e + 1) with (packet + (12 + zlen e + 1)) by lia.
    apply bytes_at_mputs. unfold bytes_ok, dns_question. rewrite Forall_app. split; apply le_bytes_ok.
Qed.

(** ** Theorems *)

(** Fact: ipv4_checksum computes the Internet checksum: with it in the checksum
    field, in the byte order of the sum, the header verifies (its checksum is
    0).  encapsulate_ipv4 swaps the value before storing it, so the header it
    sends verifies exactly when the two bytes of the checksum are equal. *)
Theorem ipv4_checksum_verifies len protocol src dst :
  addr_ok 4 src -> addr_ok 4 dst ->
  let c := ipv4_checksum (ipv4_header len protocol src dst 0) in
  ipv4_checksum (ipv4_header len protocol src dst c) = 0 /\
  (ipv4_checksum (ipv4_header len protocol src dst (htobe16 c)) = 0 <-> c / 256 = c mod 256).
Proof.
  intros Hs Hd c. destruct (ipv4_header_sum len protocol src dst 0 Hs Hd ltac:(lia)) as (H0 & _ & Hp).
  destruct (ipv4_checksum_spec _ H0) as (Hc & Hsum & _). fold c in Hc, Hsum.
  assert (forall v, 0 <= v < 65536 -> ipv4_checksum (ipv4_header len protocol src dst v) = 0 <->
    (word_sum (ipv4_header len protocol src dst 0) + v) mod 65535 = 0) as Hv.
  { intros v Hv. destruct (ipv4_header_sum len protocol src dst v Hs Hd Hv) as (H1 & H2 & _).
    destruct (ipv4_checksum_spec _ H1) as (_ & _ & H3). rewrite H2 in H3. apply H3. lia. }
  split; [by apply Hv|].
  assert (0 <= htobe16 c < 65536) as Hr by (unfold htobe16; rewrite little_endian; apply swap16_range).
  rewrite Hv by done. rewrite htobe16_arith by done. revert Hsum.
  generalize (word_sum (ipv4_header len protocol src dst 0)) as S. intros S Hsum. clear - Hc Hsum. zlia.
Qed.

(** Fact: the three layers stack up: for a payload in the buffer, encapsulation
    in UDP, IPv4 and Ethernet leaves the Ethernet, IPv4 and UDP headers, the
    payload and zero padding up to the minimum frame size, in this order, and
    the length of the frame; nothing outside the frame and the 60 bytes behind
    it changes. *)
Theorem encapsulation_layers m p sport dport src dst hwdst hwsrc pl :
  bytes_at m p pl -> zlen pl < 1400 -> addr_ok 4 src -> addr_ok 4 dst -> addr_ok 6 hwdst -> addr_ok 6 hwsrc ->
  let udp := udp_header sport dport (zlen pl + 8) in
  let ip := ipv4_header (zlen pl + 8) IPV4_PROTOCOL_UDP src dst
              (htobe16 (ipv4_checksum (ipv4_header (zlen pl + 8) IPV4_PROTOCOL_UDP src dst 0))) in
  let '(m1, len1) := encapsulate_udp m p (zlen pl) sport dport in
  let '(m2, len2) := encapsulate_ipv4 m1 p len1 IPV4_PROTOCOL_UDP src dst in
  let '(m3, len3) := encapsulate_ethernet m2 p len2 hwdst hwsrc PTYPE_IPV4 in
  len3 = Z.max 60 (zlen pl + 42) /\
  bytes_at m3 p (ethernet_header hwdst hwsrc PTYPE_IPV4 ++ (ip ++ udp ++ pl) ++ replicate (Z.to_nat (18 - zlen pl)) 0) /\
  (forall b, b < p \/ p + zlen pl + 102 <= b -> mread m3 b = mread m b).
Proof.
  intros Hpl Hl Hs Hd Hwd Hws udp ip. pose proof (zlen_nonneg pl).
  destruct (udp_layout m p sport dport pl Hpl ltac:(lia)) as (m1 & -> & B1 & O1).
  destruct (udp_header_ok sport dport (zlen pl + 8)) as [_ Hul]. fold udp in B1, Hul.
  assert (zlen (udp ++ pl) = zlen pl + 8) as E1 by (rewrite zlen_app; lia).
  destruct (ipv4_layout m1 p IPV4_PROTOCOL_UDP src dst (udp ++ pl) B1 ltac:(lia) Hs Hd) as (m2 & E2 & B2 & Hil & O2).
  rewrite E1 in *. rewrite E2. fold ip in B2, Hil.
  assert (zlen (ip ++ udp ++ pl) = zlen pl + 8 + 20) as E3 by (rewrite zlen_app; lia).
  destruct (ethernet_layout m2 p hwdst hwsrc PTYPE_IPV4 (ip ++ udp ++ pl) B2 ltac:(lia) Hwd Hws) as (m3 & E4 & B3 & O3).
  rewrite E3 in *. rewrite E4. split; [lia|]. split.
  - replace (18 - zlen pl) with (46 - (zlen pl + 8 + 20)) by lia. exact B3.
  - intros b Hb. rewrite O3, O2, O1 by lia. done.
Qed.

(** Fact: send_dns's message for a name is the header, the name's labels and the
    question; a resolver that decodes it gets back exactly the tokens of the
    name between its dots. *)
Theorem dns_message_roundtrip k fuel m start name delim packet d s tid :
  0 < name -> 0 < delim -> cstr m name s -> cstr m delim d -> clear_of name (name + zlen s) delim d ->
  (length s + length d < fuel)%nat -> (length (tokens d [] s) < k)%nat ->
  Forall (fun t => zlen t < 256) (tokens d [] s) ->
  let bs := message_bytes tid (tokens d [] s) in
  clear_of packet (packet + zlen bs) name s -> clear_of packet (packet + zlen bs) delim d ->
  exists m', dns_message k fuel m start name delim packet tid = Some (m', zlen bs) /\
    mbytes m' packet (length bs) = bs /\
    decode_labels k (drop 12 (mbytes m' packet (length bs))) = Some (tokens d [] s, dns_question).
Proof.
  intros Hn0 Hdl Hs Hd Hcl Hf Hk Hlen bs Hap Hapd.
  destruct (dns_message_spec k fuel m start name delim packet d s tid Hn0 Hdl Hs Hd Hcl Hf Hk Hlen Hap Hapd) as (m' & E & B).
  exists m'. split; [exact E|].
  assert (mbytes m' packet (length bs) = bs) as Hb.
  { apply list_eq. intros i. destruct (decide (i < length bs)%nat) as [Hi|Hi].
    - rewrite lookup_mbytes by done. destruct (lookup_lt_is_Some_2 bs i Hi) as [x Hx]. rewrite Hx. f_equal. by apply B.
    - rewrite !lookup_ge_None_2; [done|lia|]. rewrite length_mbytes. lia. }
  split; [exact Hb|]. rewrite Hb. unfold bs, message_bytes.
  change 12%nat with (length (dns_header tid)). rewrite drop_app_length.
  change ([0] ++ dns_question) with (0 :: dns_question).
  apply decode_encode; [apply tokens_nonempty|done].
Qed.

(** ** Witnesses *)

(** This header's checksum is 0x1026; swapped it does not verify. *)
Lemma ipv4_checksum_verifies_witness :
  ipv4_checksum (ipv4_header 40 17 [10; 0; 0; 24] [10; 0; 0; 138] 0x1026) = 0 /\
  ipv4_checksum (ipv4_header 40 17 [10; 0; 0; 24] [10; 0; 0; 138] (htobe16 0x1026)) <> 0.
Proof.
  destruct (ipv4_checksum_verifies 40 17 [10; 0; 0; 24] [10; 0; 0; 138]) as [H1 H2].
  - split; [reflexivity|]. repeat constructor; lia.
  - split; [reflexivity|]. repeat constructor; lia.
  - split; [exact H1|]. intros H. apply H2 in H. vm_compute in H. discriminate H.
Defined.

Lemma encapsulation_layers_witness :
  let '(m1, len1) := encapsulate_udp (mputs ∅ 100 [7; 8; 9]) 100 3 1234 53 in
  let '(m2, len2) := encapsulate_ipv4 m1 100 len1 IPV4_PROTOCOL_UDP [10; 0; 0; 24] [10; 0; 0; 138] in
  let '(m3, len3) := encapsulate_ethernet m2 100 len2 dns_dst_mac [2; 3; 4; 5; 6; 7] PTYPE_IPV4 in
  len3 = 60.
Proof.
  pose proof (encapsulation_layers (mputs ∅ 100 [7; 8; 9]) 100 1234 53 [10; 0; 0; 24] [10; 0; 0; 138] dns_dst_mac
    [2; 3; 4; 5; 6; 7] [7; 8; 9]) as H.
  change (zlen [7; 8; 9]) with 3 in H. cbv zeta in H.
  destruct (encapsulate_udp _ _ _ _ _) as [m1 l1]. destruct (encapsulate_ipv4 _ _ _ _ _ _) as [m2 l2].
  destruct (encapsulate_ethernet _ _ _ _ _ _) as [m3 l3].
  refine (proj1 (H _ _ _ _ _ _)).
  - apply bytes_at_mputs. repeat constructor; lia.
  - lia.
  - split; [reflexivity|]. repeat constructor; lia.
  - split; [reflexivity|]. repeat constructor; lia.
  - split; [reflexivity|]. repeat constructor; lia.
  - split; [reflexivity|]. repeat constructor; lia.
Defined.

Definition demo_name : mem := mputs (mputs ∅ 2000 [97; 98; 46; 99; 0]) 3000 [46; 0].

(** The name ab.c *)
Lemma dns_message_roundtrip_witness :
  exists m', dns_message 3 9 demo_name 0 2000 3000 100 7 = Some (m', 22) /\
    decode_labels 3 (drop 12 (mbytes m' 100 22)) = Some ([[97; 98]; [99]], dns_question).
Proof.
  destruct (dns_message_roundtrip 3 9 demo_name 0 2000 3000 100 [46] [97; 98; 46; 99] 7) as (m' & H1 & _ & H2).
  - lia.
  - lia.
  - vm_compute. tauto || (split_and!; (reflexivity || discriminate)).
  - vm_compute. split_and!; (reflexivity || discriminate).
  - right. vm_compute. discriminate.
  - simpl. lia.
  - vm_compute. lia.
  - vm_compute. repeat constructor.
  - right. vm_compute. discriminate.
  - right. vm_compute. discriminate.
  - exists m'. exact (conj H1 H2).
Defined.
