(* ===== verification/Pci.v ===== *)
(** * Pci: kernel/driver/pci.c and kernel/include/pci.h

    Configuration space through the ports 0xCF8 and 0xCFC, the enumeration of
    functions, and the mapping of a base address register.  The descriptors of
    the functions found, which the code keeps in hardware memory it never
    frees, are values; hardware_append_node puts a new one in front. *)

From S2P Require Import Prelude Mem Paging Device.

Definition PCI_CONFIG_ADDRESS : Z := 0xCF8.
Definition PCI_CONFIG_DATA : Z := 0xCFC.

Definition PCI_OFFSET_VENDOR_ID : Z := 0x00.
Definition PCI_OFFSET_DEVICE_ID : Z := 0x02.
Definition PCI_OFFSET_COMMAND : Z := 0x04.
Definition PCI_OFFSET_STATUS : Z := 0x06.
Definition PCI_OFFSET_REVISION_ID : Z := 0x08.
Definition PCI_OFFSET_PROG_IF : Z := 0x09.
Definition PCI_OFFSET_SUBCLASS : Z := 0x0A.
Definition PCI_OFFSET_CLASS_CODE : Z := 0x0B.
Definition PCI_OFFSET_CACHE_LINE_SIZE : Z := 0x0C.
Definition PCI_OFFSET_LATENCY_TIMER : Z := 0x0D.
Definition PCI_OFFSET_HEADER_TYPE : Z := 0x0E.
Definition PCI_OFFSET_BIST : Z := 0x0F.
Definition PCI_OFFSET_BASE_ADDRESS_0 : Z := 0x10.
Definition PCI_OFFSET_BASE_ADDRESS_1 : Z := 0x14.
Definition PCI_OFFSET_BASE_ADDRESS_2 : Z := 0x18.
Definition PCI_OFFSET_BASE_ADDRESS_3 : Z := 0x1C.
Definition PCI_OFFSET_BASE_ADDRESS_4 : Z := 0x20.
Definition PCI_OFFSET_BASE_ADDRESS_5 : Z := 0x24.
Definition PCI_OFFSET_CARD_BUS_CIS_POINTER : Z := 0x28.
Definition PCI_OFFSET_SUBSYSTEM_VENDOR_ID : Z := 0x2C.
Definition PCI_OFFSET_SUBSYSTEM_ID : Z := 0x2E.
Definition PCI_OFFSET_EXPANSION_ROM_BASE_ADDRESS : Z := 0x30.
Definition PCI_OFFSET_CAPABILITY_POINTER : Z := 0x34.
Definition PCI_OFFSET_MIN_GRANT : Z := 0x3E.
Definition PCI_OFFSET_MAX_LATENCY : Z := 0x3F.
Definition PCI_OFFSET_INTERRUPT_LINE : Z := 0x3C.
Definition PCI_OFFSET_INTERRUPT_PIN : Z := 0x3D.
Definition PCI_OFFSET_SECONDERY_BUS_NUMBER : Z := 0x19.

(** ** Configuration space *)

Definition config_address (bus slot func offset : Z) : Z :=
  u32 (Z.lor (Z.lor (Z.lor (Z.lor (Z.shiftl bus 16) (Z.shiftl slot 11)) (Z.shiftl func 8)) (Z.land offset 0xFC)) 0x80000000).

Definition pci_config_read_word (bus slot func offset : Z) : io Z :=
  _ ← outl PCI_CONFIG_ADDRESS (config_address bus slot func offset);
  v ← inl PCI_CONFIG_DATA;
  mret (u16 (Z.land (Z.shiftr v (Z.land offset 2 * 8)) 0xFFFF)).

Definition pci_config_write_word (bus slot func offset value : Z) : io unit :=
  _ ← outl PCI_CONFIG_ADDRESS (config_address bus slot func offset);
  tmp ← inl PCI_CONFIG_DATA;
  let tmp := u32 (Z.land tmp (Z.lnot (Z.shiftl 0xFFFF (Z.land offset 2 * 8)))) in
  let tmp := u32 (Z.lor tmp (Z.shiftl value (Z.land offset 2 * 8))) in
  outl PCI_CONFIG_DATA tmp.

Definition pci_config_read_dword (bus slot func offset : Z) : io Z :=
  _ ← outl PCI_CONFIG_ADDRESS (config_address bus slot func offset);
  inl PCI_CONFIG_DATA.

Definition pci_config_write_dword (bus slot func offset value : Z) : io unit :=
  _ ← outl PCI_CONFIG_ADDRESS (config_address bus slot func offset);
  outl PCI_CONFIG_DATA value.

(** The accessors of pci.h: 16-bit fields, and bytes as the low byte of a word. *)
Definition get_byte (bus slot func offset : Z) : io Z :=
  w ← pci_config_read_word bus slot func offset; mret (Z.land w 0xFF).

Definition get_vendor_id (bus slot func : Z) : io Z := pci_config_read_word bus slot func PCI_OFFSET_VENDOR_ID.
Definition get_product_id (bus slot func : Z) : io Z := pci_config_read_word bus slot func PCI_OFFSET_DEVICE_ID.
Definition get_command (bus slot func : Z) : io Z := pci_config_read_word bus slot func PCI_OFFSET_COMMAND.
Definition get_status (bus slot func : Z) : io Z := pci_config_read_word bus slot func PCI_OFFSET_STATUS.
Definition get_revision_id (bus slot func : Z) : io Z := get_byte bus slot func PCI_OFFSET_REVISION_ID.
Definition get_prog_if (bus slot func : Z) : io Z := get_byte bus slot func PCI_OFFSET_PROG_IF.
Definition get_subclass (bus slot func : Z) : io Z := get_byte bus slot func PCI_OFFSET_SUBCLASS.
Definition get_class_code (bus slot func : Z) : io Z := get_byte bus slot func PCI_OFFSET_CLASS_CODE.
Definition get_cache_line_size (bus slot func : Z) : io Z := get_byte bus slot func PCI_OFFSET_CACHE_LINE_SIZE.
Definition get_latency_timer (bus slot func : Z) : io Z := get_byte bus slot func PCI_OFFSET_LATENCY_TIMER.
Definition get_header_type (bus slot func : Z) : io Z := get_byte bus slot func PCI_OFFSET_HEADER_TYPE.
Definition get_bist (bus slot func : Z) : io Z := get_byte bus slot func PCI_OFFSET_BIST.
Definition get_bar0 (bus slot func : Z) : io Z := pci_config_read_dword bus slot func PCI_OFFSET_BASE_ADDRESS_0.
Definition get_bar1 (bus slot func : Z) : io Z := pci_config_read_dword bus slot func PCI_OFFSET_BASE_ADDRESS_1.
Definition get_bar2 (bus slot func : Z) : io Z := pci_config_read_dword bus slot func PCI_OFFSET_BASE_ADDRESS_2.
Definition get_bar3 (bus slot func : Z) : io Z := pci_config_read_dword bus slot func PCI_OFFSET_BASE_ADDRESS_3.
Definition get_bar4 (bus slot func : Z) : io Z := pci_config_read_dword bus slot func PCI_OFFSET_BASE_ADDRESS_4.
Definition get_bar5 (bus slot func : Z) : io Z := pci_config_read_dword bus slot func PCI_OFFSET_BASE_ADDRESS_5.
Definition get_cardbus_cis_pointer (bus slot func : Z) : io Z :=
  pci_config_read_dword bus slot func PCI_OFFSET_CARD_BUS_CIS_POINTER.
Definition get_subsystem_vendor_id (bus slot func : Z) : io Z :=
  pci_config_read_word bus slot func PCI_OFFSET_SUBSYSTEM_VENDOR_ID.
Definition get_subsystem_id (bus slot func : Z) : io Z := pci_config_read_word bus slot func PCI_OFFSET_SUBSYSTEM_ID.
Definition get_expansion_rom_base_addr (bus slot func : Z) : io Z :=
  pci_config_read_dword bus slot func PCI_OFFSET_EXPANSION_ROM_BASE_ADDRESS.
Definition get_capabilities_pointer (bus slot func : Z) : io Z := get_byte bus slot func PCI_OFFSET_CAPABILITY_POINTER.
Definition get_min_grant (bus slot func : Z) : io Z := get_byte bus slot func PCI_OFFSET_MIN_GRANT.
Definition get_max_latency (bus slot func : Z) : io Z := get_byte bus slot func PCI_OFFSET_MAX_LATENCY.
Definition get_interrupt_line (bus slot func : Z) : io Z := get_byte bus slot func PCI_OFFSET_INTERRUPT_LINE.
Definition get_interrupt_pin (bus slot func : Z) : io Z := get_byte bus slot func PCI_OFFSET_INTERRUPT_PIN.
Definition get_secondery_bus (bus slot func : Z) : io Z := get_byte bus slot func PCI_OFFSET_SECONDERY_BUS_NUMBER.

(** ** Enumeration *)

Record PCIDevice := PciDevice {
  bus : Z; slot : Z; function : Z;
  vendorId : Z; deviceId : Z; command : Z; status : Z;
  classCode : Z; subclass : Z; progIf : Z;
}.

(** check_function, check_device and check_bus call each other: a bridge's
    secondary bus is scanned by [check_bus], which is passed in. *)
Definition check_function (check_bus : Z -> list PCIDevice -> io (list PCIDevice))
    (b s f : Z) (list_pci_devices : list PCIDevice) : io (list PCIDevice) :=
  base_class ← get_class_code b s f;
  sub_class ← get_subclass b s f;
  if (base_class =? 0x6) && (sub_class =? 0x4) then
    secondary_bus ← get_secondery_bus b s f;
    check_bus secondary_bus list_pci_devices
  else
    vendor ← get_vendor_id b s f;
    product ← get_product_id b s f;
    cmd ← get_command b s f;
    st ← get_status b s f;
    class ← get_class_code b s f;
    sub ← get_subclass b s f;
    prog ← get_prog_if b s f;
    mret (PciDevice b s f vendor product cmd st class sub prog :: list_pci_devices).

Definition check_device (check_bus : Z -> list PCIDevice -> io (list PCIDevice))
    (b device : Z) (l : list PCIDevice) : io (list PCIDevice) :=
  vendorID ← get_vendor_id b device 0;
  if vendorID =? 0xFFFF then mret l
  else
    l ← check_function check_bus b device 0 l;
    headerType ← get_header_type b device 0;
    if negb (Z.land headerType 0x80 =? 0) then
      io_fold (fun f l =>
        v ← get_vendor_id b device f;
        if negb (v =? 0xFFFF) then check_function check_bus b device f l else mret l) [1; 2; 3; 4; 5; 6; 7] l
    else mret l.

Definition devices : list Z := map Z.of_nat (seq 0 32).

(** [fuel] bounds the nesting of buses. *)
Fixpoint check_bus (fuel : nat) (b : Z) (l : list PCIDevice) : io (list PCIDevice) :=
  match fuel with
  | O => io_fail
  | S fuel => io_fold (fun device l => check_device (check_bus fuel) b device l) devices l
  end.

(** The loop over the host controllers, which ends at the first break. *)
Fixpoint host_loop (fuel : nat) (functions : list Z) (l : list PCIDevice) : io (list PCIDevice) :=
  match functions with
  | [] => mret l
  | f :: functions =>
      v ← get_vendor_id 0 0 f;
      if negb (v =? 0xFFFF) then mret l
      else l ← check_bus fuel f l; host_loop fuel functions l
  end.

Definition enumerate_pci (fuel : nat) : io (list PCIDevice) :=
  headerType ← get_header_type 0 0 0;
  if Z.land headerType 0x80 =? 0 then check_bus fuel 0 []
  else host_loop fuel [0; 1; 2; 3; 4; 5; 6; 7] [].

(** ** assign_bar

    The machine state is the kernel's paging state; the result is the address,
    0 for NULL. *)
Definition assign_bar (s : mach) (kpid : Z) (device : PCIDevice) (bar_num : Z) : io (mach * Z) :=
  let config_space_offset := u8 (u16 (PCI_OFFSET_BASE_ADDRESS_0 + 4 * bar_num)) in
  let '(b, d, f) := (bus device, slot device, function device) in
  orig_reg_val ← pci_config_read_dword b d f config_space_offset;
  _ ← pci_config_write_dword b d f config_space_offset 0xFFFFFFFF;
  v ← pci_config_read_dword b d f config_space_offset;
  let bar_size := Z.land v 0xFFFFFFF0 in
  let bar_size := u32 (Z.lnot bar_size) in
  let bar_size := u32 (bar_size + 1) in
  if bar_size =? 0 then mret (s, 0)
  else
    s ← io_lift (map_memory_range_with_flags s kpid orig_reg_val (u64 (orig_reg_val + bar_size - 1)) orig_reg_val
           (Z.lor (Z.lor (Z.lor PAGE_PRESENT PAGE_WRITE) PAGE_UNCACHEABLE) PAGE_USER) 0);
    let s := flush_tlb s in
    _ ← pci_config_write_dword b d f config_space_offset orig_reg_val;
    mret (s, orig_reg_val).

(** ** The device behind the ports

    Configuration space as the specification of the ports documents it: a read
    of the data port returns the 32-bit register whose address was last written
    to the address port, a write stores into it.  [wr a old v] is what the
    register at [a] holds after [v] was written over [old]: [v] in a plain
    register, less in one with read-only bits. *)

Definition selected (h : trace) : Z := default 0 (last_out h PCI_CONFIG_ADDRESS).

Fixpoint pci_reg (wr : Z -> Z -> Z -> Z) (cfg : Z -> Z) (h : trace) (a : Z) : Z :=
  match h with
  | [] => cfg a
  | Out _ p v :: h =>
      if (p =? PCI_CONFIG_DATA) && (selected h =? a) then wr a (pci_reg wr cfg h a) v else pci_reg wr cfg h a
  | In _ _ _ :: h => pci_reg wr cfg h a
  end.

Record pci_bus (dev : device) (wr : Z -> Z -> Z -> Z) (cfg : Z -> Z) : Prop := {
  pb_read : forall h, dev h 32 PCI_CONFIG_DATA = pci_reg wr cfg h (selected h);
  pb_cfg : forall a, 0 <= cfg a < 2 ^ 32;
  pb_wr : forall a old v, 0 <= wr a old v < 2 ^ 32;
}.

(** The registers in the state after [h] are [c]. *)
Definition holds (wr : Z -> Z -> Z -> Z) (cfg c : Z -> Z) (h : trace) : Prop := forall a, pci_reg wr cfg h a = c a.

(** ** Addresses as numbers *)

Definition loc_ok (b s f o : Z) : Prop := 0 <= b < 256 /\ 0 <= s < 32 /\ 0 <= f < 8 /\ 0 <= o < 256.

Lemma config_address_spec b s f o : loc_ok b s f o ->
  config_address b s f o = 2 ^ 31 + b * 2 ^ 16 + s * 2 ^ 11 + f * 2 ^ 8 + o / 4 * 4.
Proof.
  intros (Hb & Hs & Hf & Ho). unfold config_address.
  assert (Z.land o 0xFC = o / 4 * 4) as ->.
  { pose proof (all_below_spec 256 (fun o => Z.land o 0xFC =? o / 4 * 4) o ltac:(vm_compute; reflexivity) Ho) as H.
    cbv beta in H. lia. }
  set (x := o / 4 * 4). assert (0 <= x < 256) by (unfold x; zlia).
  rewrite <- !Z.lor_assoc, (Z.lor_comm x). change 0x80000000 with (Z.shiftl 1 31).
  assert (forall a b c d e, Z.lor a (Z.lor b (Z.lor c (Z.lor d e))) = Z.lor d (Z.lor a (Z.lor b (Z.lor c e)))) as ->.
  { intros. apply Z.bits_inj'. intros i Hi. rewrite !Z.lor_spec.
    by destruct (Z.testbit a i), (Z.testbit b0 i), (Z.testbit c i), (Z.testbit d i). }
  change (2 ^ 31) with 2147483648. change (2 ^ 16) with 65536. change (2 ^ 11) with 2048. change (2 ^ 8) with 256.
  rewrite (lor_high f x 8) by (simpl; lia). rewrite (lor_high s _ 11) by (simpl; lia).
  rewrite (lor_high b _ 16) by (simpl; lia). rewrite (lor_high 1 _ 31) by (simpl; lia).
  simpl Z.pow. rewrite u32_small by lia. lia.
Qed.

Lemma config_address_inj b s f o b' s' f' o' : loc_ok b s f o -> loc_ok b' s' f' o' ->
  config_address b s f o = config_address b' s' f' o' -> b = b' /\ s = s' /\ f = f' /\ o / 4 = o' / 4.
Proof.
  intros H H'. rewrite !config_address_spec by done. destruct H as (? & ? & ? & ?), H' as (? & ? & ? & ?).
  change (2 ^ 31) with 2147483648. change (2 ^ 16) with 65536. change (2 ^ 11) with 2048. change (2 ^ 8) with 256.
  zlia.
Qed.

Lemma config_address_range b s f o : 0 <= config_address b s f o < 2 ^ 32.
Proof. apply u32_range. Qed.

(** ** Accesses *)

(** The 16-bit word a read finds at an offset in the registers [c]. *)
Definition word (c : Z -> Z) (b s f o : Z) : Z :=
  c (config_address b s f o) / (if Z.odd (o / 2) then 65536 else 1) mod 65536.

Lemma half_shift o : Z.land o 2 * 8 = if Z.odd (o / 2) then 16 else 0.
Proof.
  assert (Z.odd (o / 2) = Z.testbit o 1) as -> by by rewrite Z.testbit_odd, Z.shiftr_div_pow2 by lia.
  assert (Z.land o 2 = if Z.testbit o 1 then 2 else 0) as ->; [|by destruct (Z.testbit o 1)].
  apply Z.bits_inj'. intros i Hi. rewrite Z.land_spec.
  destruct (Z.eq_dec i 1) as [->|Hne]; [by destruct (Z.testbit o 1)|].
  assert (Z.testbit 2 i = false) as ->.
  { change 2 with (2 ^ 1). apply Z.pow2_bits_false. lia. }
  rewrite andb_false_r. destruct (Z.testbit o 1); [|by rewrite Z.bits_0].
  change 2 with (2 ^ 1). symmetry. apply Z.pow2_bits_false. lia.
Qed.

Section Accesses.
Context (dev : device) (wr : Z -> Z -> Z -> Z) (cfg : Z -> Z) (Hbus : pci_bus dev wr cfg).

Lemma pci_reg_range h a : 0 <= pci_reg wr cfg h a < 2 ^ 32.
Proof.
  induction h as [|[w p v|w p v] h IH]; simpl; [by eapply pb_cfg| |done].
  destruct ((p =? PCI_CONFIG_DATA) && (selected h =? a)); [by eapply pb_wr|done].
Qed.

Lemma holds_range c h a : holds wr cfg c h -> 0 <= c a < 2 ^ 32.
Proof. intros H. rewrite <- H. apply pci_reg_range. Qed.

(** The answer of the data port after an address was selected. *)
Lemma data_read c b s f o h : holds wr cfg c h ->
  u32 (dev (Out 32 PCI_CONFIG_ADDRESS (u32 (config_address b s f o)) :: h) 32 PCI_CONFIG_DATA) =
  c (config_address b s f o).
Proof.
  intros H. rewrite (pb_read _ _ _ Hbus). unfold selected. cbn [last_out]. rewrite Z.eqb_refl. cbn [default id].
  rewrite (u32_small (config_address b s f o)) by apply config_address_range. cbn [pci_reg].
  change (PCI_CONFIG_ADDRESS =? PCI_CONFIG_DATA) with false. cbn [andb]. rewrite H.
  by apply u32_small, (holds_range c h).
Qed.

Lemma read_dword_yields c b s f o :
  yields dev (holds wr cfg c) (pci_config_read_dword b s f o) (c (config_address b s f o)).
Proof.
  intros h H. unfold pci_config_read_dword. run_io. eexists. split; [by rewrite (data_read c)|].
  exact H.
Qed.

Lemma read_word_yields c b s f o :
  yields dev (holds wr cfg c) (pci_config_read_word b s f o) (word c b s f o).
Proof.
  intros h H. unfold pci_config_read_word. run_io.
  set (h' := In 32 _ _ :: _). exists h'. split; [|exact H]. subst h'.
  rewrite (data_read c) by done. do 2 f_equal. rewrite half_shift. unfold word.
  pose proof (holds_range c h (config_address b s f o) H) as Hr. set (x := c _) in *.
  change 0xFFFF with (Z.ones 16). rewrite Z.land_ones, Z.shiftr_div_pow2 by (destruct (Z.odd (o / 2)); lia).
  unfold u16. destruct (Z.odd (o / 2)); simpl Z.pow; rewrite Z.mod_mod by lia; done.
Qed.

(** The low byte of a word: get_byte. *)
Lemma get_byte_yields c b s f o : yields dev (holds wr cfg c) (get_byte b s f o) (word c b s f o mod 256).
Proof.
  unfold get_byte. eapply yields_bind; [apply read_word_yields|].
  change 0xFF with (Z.ones 8). rewrite Z.land_ones by lia. apply yields_ret.
Qed.

(** A write changes the one register that is selected. *)
Lemma write_dword_run c b s f o v h : holds wr cfg c h ->
  exists h', run (pci_config_write_dword b s f o v) dev h = Some (tt, h') /\
    holds wr cfg (fun a => if a =? config_address b s f o then wr a (c a) (u32 v) else c a) h'.
Proof.
  intros H. unfold pci_config_write_dword. run_io. eexists. split; [reflexivity|]. intros a. cbn [pci_reg].
  unfold selected. cbn [last_out]. rewrite Z.eqb_refl. cbn [default id].
  change (PCI_CONFIG_ADDRESS =? PCI_CONFIG_DATA) with false. cbn [andb].
  rewrite (u32_small (config_address b s f o)) by apply config_address_range. rewrite !H, Z.eqb_sym. done.
Qed.

(** The register with the half at [o] replaced. *)
Definition set_half (x o v : Z) : Z :=
  if Z.odd (o / 2) then v * 65536 + x mod 65536 else x / 65536 * 65536 + v.

Lemma set_half_bits x o v : 0 <= x < 2 ^ 32 -> 0 <= v < 65536 ->
  u32 (Z.lor (u32 (Z.land x (Z.lnot (Z.shiftl 0xFFFF (Z.land o 2 * 8))))) (Z.shiftl v (Z.land o 2 * 8))) = set_half x o v.
Proof.
  intros Hx Hv. rewrite half_shift. unfold set_half. change 0xFFFF with (Z.ones 16).
  change (2 ^ 32) with 4294967296 in Hx. rewrite <- Z.ldiff_land. destruct (Z.odd (o / 2)).
  - assert (Z.ldiff x (Z.shiftl (Z.ones 16) 16) = x mod 65536) as ->.
    { change 65536 with (2 ^ 16). rewrite <- (Z.land_ones x 16) by lia. apply Z.bits_inj'. intros i Hi. rewrite Z.ldiff_spec, Z.land_spec.
      destruct (Z.lt_ge_cases i 16).
      - rewrite Z.shiftl_spec_low, Z.ones_spec_low by lia. cbn [negb]. by rewrite !andb_true_r.
      - rewrite Z.shiftl_spec, (Z.ones_spec_high 16 i), andb_false_r by lia. destruct (Z.lt_ge_cases i 32).
        + rewrite Z.ones_spec_low by lia. cbn [negb]. by rewrite andb_false_r.
        + by rewrite (testbit_high 32 x) by lia. }
    rewrite (u32_small (x mod 65536)) by zlia. rewrite Z.lor_comm, lor_high by (simpl; zlia).
    rewrite u32_small by (simpl; zlia). simpl. lia.
  - rewrite Z.shiftl_0_r, Z.ldiff_ones_r, Z.shiftr_div_pow2 by lia.
    change (2 ^ 16) with 65536.
    rewrite (u32_small (Z.shiftl (x / 65536) 16)) by (rewrite Z.shiftl_mul_pow2 by lia; change (2 ^ 16) with 65536; zlia).
    rewrite Z.shiftl_0_r, lor_high by (simpl; lia). change (2 ^ 16) with 65536. rewrite u32_small by zlia. lia.
Qed.

Lemma write_word_run c b s f o v h : holds wr cfg c h -> 0 <= v < 65536 ->
  exists h', run (pci_config_write_word b s f o v) dev h = Some (tt, h') /\
    holds wr cfg (fun a => if a =? config_address b s f o then wr a (c a) (set_half (c a) o v) else c a) h'.
Proof.
  intros H Hv. unfold pci_config_write_word. run_io. eexists. split; [reflexivity|]. intros a. cbn [pci_reg].
  rewrite (data_read c) by done. pose proof (holds_range c h (config_address b s f o) H) as Hr.
  rewrite set_half_bits by done.
  unfold selected. cbn [last_out]. rewrite Z.eqb_refl. cbn [default id].
  change (PCI_CONFIG_ADDRESS =? PCI_CONFIG_DATA) with false. cbn [andb].
  rewrite (u32_small (config_address b s f o)) by apply config_address_range.
  rewrite (H a). change (PCI_CONFIG_DATA =? PCI_CONFIG_DATA) with true. cbn [andb].
  rewrite (Z.eqb_sym (config_address b s f o)). destruct (Z.eqb_spec a (config_address b s f o)) as [->|]; [|done].
  rewrite u32_small; [done|]. unfold set_half. change (2 ^ 32) with 4294967296 in Hr.
  destruct (Z.odd (o / 2)); zlia.
Qed.

End Accesses.

(** Reading back a half. *)
Lemma word_set_half x o o' v : 0 <= x < 2 ^ 32 -> 0 <= v < 65536 ->
  set_half x o v / (if Z.odd (o' / 2) then 65536 else 1) mod 65536 =
  if eqb (Z.odd (o / 2)) (Z.odd (o' / 2)) then v else x / (if Z.odd (o' / 2) then 65536 else 1) mod 65536.
Proof.
  intros Hx Hv. unfold set_half. change (2 ^ 32) with 4294967296 in Hx.
  destruct (Z.odd (o / 2)), (Z.odd (o' / 2)); cbn [eqb]; zlia.
Qed.

Lemma half_index o o' : o / 4 = o' / 4 -> Z.odd (o / 2) = Z.odd (o' / 2) <-> o / 2 = o' / 2.
Proof.
  intros H. split; [|by intros ->]. intros E. pose proof (Zmod_odd (o / 2)) as H1. pose proof (Zmod_odd (o' / 2)) as H2.
  rewrite E in H1. destruct (Z.odd (o' / 2)); zlia.
Qed.

(** Fact: a 16-bit write to configuration space, to a plain register (an odd
    offset stands for the word it lies in), is read back by pci_config_read_word at that place, and at every
    other place, of the same or another function, a read finds what it found
    before; both accesses go through for every bus, slot, function and offset. *)
Theorem pci_word_roundtrip dev wr cfg c b s f o v b' s' f' o' h :
  pci_bus dev wr cfg -> holds wr cfg c h -> loc_ok b s f o -> loc_ok b' s' f' o' -> 0 <= v < 65536 ->
  (forall old v, 0 <= v < 2 ^ 32 -> wr (config_address b s f o) old v = v) ->
  exists h1 h2, run (pci_config_write_word b s f o v) dev h = Some (tt, h1) /\
    run (pci_config_read_word b' s' f' o') dev h1 =
      Some (if bool_decide (b' = b /\ s' = s /\ f' = f /\ o' / 2 = o / 2) then v else word c b' s' f' o', h2).
Proof.
  intros Hbus H Hl Hl' Hv Hplain.
  destruct (write_word_run dev wr cfg Hbus c b s f o v h H Hv) as (h1 & E1 & H1).
  destruct (read_word_yields dev wr cfg Hbus _ b' s' f' o' h1 H1) as (h2 & E2 & _).
  exists h1, h2. split; [done|]. rewrite E2. do 2 f_equal. unfold word.
  pose proof (holds_range dev wr cfg Hbus c h (config_address b s f o) H) as Hr.
  destruct (Z.eqb_spec (config_address b' s' f' o') (config_address b s f o)) as [E|E].
  - apply config_address_inj in E as E'; [|done|done]. destruct E' as (-> & -> & -> & Eo). rewrite E.
    rewrite Hplain by (unfold set_half; change (2 ^ 32) with 4294967296 in *; destruct (Z.odd _); zlia).
    rewrite word_set_half by done. pose proof (half_index o o' (eq_sym Eo)) as Hi.
    destruct (eqb _ _) eqn:Eb; case_bool_decide as Hd; try done.
    + apply eqb_prop in Eb. destruct Hd. split_and!; try done. symmetry. by apply Hi.
    + destruct Hd as (_ & _ & _ & Hd). apply eqb_false_iff in Eb. destruct Eb. by apply Hi.
  - rewrite bool_decide_eq_false_2; [done|]. intros (-> & -> & -> & Ho). apply E.
    rewrite !config_address_spec by done. do 2 f_equal. zlia.
Qed.

(** ** What enumeration finds

    Fields of a function's header as the specification lays them out. *)

Definition field16 (c : Z -> Z) (b s f o : Z) : Z := c (config_address b s f o) / 256 ^ (o mod 4) mod 65536.
Definition field8 (c : Z -> Z) (b s f o : Z) : Z := c (config_address b s f o) / 256 ^ (o mod 4) mod 256.

Definition present_function (c : Z -> Z) (b s f : Z) : bool := negb (field16 c b s f 0 =? 0xFFFF).
Definition multi_function (c : Z -> Z) (b s : Z) : bool := Z.testbit (field8 c b s 0 0x0E) 7.

(** The functions of a device that answer: only function 0 unless the header
    says that there are more. *)
Definition functions_of (c : Z -> Z) (b s : Z) : list Z :=
  if present_function c b s 0 then
    0 :: if multi_function c b s then filter (fun f => present_function c b s f) [1; 2; 3; 4; 5; 6; 7] else []
  else [].

(** The descriptor of a function; the byte accessors read the even byte. *)
Definition descriptor (c : Z -> Z) (b s f : Z) : PCIDevice :=
  PciDevice b s f (field16 c b s f 0) (field16 c b s f 2) (field16 c b s f 4) (field16 c b s f 6)
    (field8 c b s f 0x0A) (field8 c b s f 0x0A) (field8 c b s f 0x08).

Definition bus_functions (c : Z -> Z) (b : Z) : list PCIDevice :=
  concat (map (fun s => map (descriptor c b s) (functions_of c b s)) devices).

Lemma word_field16 c b s f o : o mod 2 = 0 -> word c b s f o = field16 c b s f o.
Proof.
  intros Ho. unfold word, field16. do 2 f_equal. pose proof (Zmod_odd (o / 2)) as H.
  destruct (Z.odd (o / 2)).
  - assert (o mod 4 = 2) as -> by zlia. done.
  - assert (o mod 4 = 0) as -> by zlia. done.
Qed.

Lemma word_field8 c b s f o : o mod 2 = 0 -> word c b s f o mod 256 = field8 c b s f o.
Proof.
  intros Ho. rewrite word_field16 by done. unfold field16, field8. set (x := c _ / _). zlia.
Qed.

Lemma bit7_test x : 0 <= x < 256 -> (Z.land x 0x80 =? 0) = negb (Z.testbit x 7).
Proof.
  intros Hx. pose proof (all_below_spec 256 (fun x => eqb (Z.land x 0x80 =? 0) (negb (Z.testbit x 7))) x
    ltac:(vm_compute; reflexivity) Hx) as H. by apply eqb_prop in H.
Qed.

Section Enumeration.
Context (dev : device) (wr : Z -> Z -> Z -> Z) (cfg c : Z -> Z) (Hbus : pci_bus dev wr cfg).

Lemma field16_yields b s f o : o mod 2 = 0 ->
  yields dev (holds wr cfg c) (pci_config_read_word b s f o) (field16 c b s f o).
Proof. intros Ho. rewrite <- word_field16 by done. by apply read_word_yields. Qed.

Lemma field8_yields b s f o : o mod 2 = 0 -> yields dev (holds wr cfg c) (get_byte b s f o) (field8 c b s f o).
Proof. intros Ho. rewrite <- word_field8 by done. by apply get_byte_yields. Qed.

(** An odd offset reads the byte below it. *)
Lemma odd_byte_yields b s f o : o mod 2 = 0 -> 0 <= o < 255 -> 0 <= b < 256 -> 0 <= s < 32 -> 0 <= f < 8 ->
  yields dev (holds wr cfg c) (get_byte b s f (o + 1)) (field8 c b s f o).
Proof.
  intros Ho Hr Hb Hs Hf. rewrite <- word_field8 by done.
  assert (word c b s f o = word c b s f (o + 1)) as ->; [|by apply get_byte_yields].
  unfold word. rewrite !config_address_spec by (unfold loc_ok; lia).
  assert ((o + 1) / 2 = o / 2) as -> by zlia. assert ((o + 1) / 4 = o / 4) as -> by zlia. done.
Qed.

Lemma check_function_yields cb b s f l : 0 <= b < 256 -> 0 <= s < 32 -> 0 <= f < 8 ->
  yields dev (holds wr cfg c) (check_function cb b s f l) (descriptor c b s f :: l).
Proof.
  intros Hb Hs Hf. unfold check_function.
  eapply yields_bind; [exact (odd_byte_yields b s f 0x0A eq_refl ltac:(lia) Hb Hs Hf)|].
  eapply yields_bind; [exact (field8_yields b s f 0x0A eq_refl)|].
  assert ((field8 c b s f 10 =? 6) && (field8 c b s f 10 =? 4) = false) as -> by lia.
  eapply yields_bind; [exact (field16_yields b s f 0 eq_refl)|].
  eapply yields_bind; [exact (field16_yields b s f 2 eq_refl)|].
  eapply yields_bind; [exact (field16_yields b s f 4 eq_refl)|].
  eapply yields_bind; [exact (field16_yields b s f 6 eq_refl)|].
  eapply yields_bind; [exact (odd_byte_yields b s f 0x0A eq_refl ltac:(lia) Hb Hs Hf)|].
  eapply yields_bind; [exact (field8_yields b s f 0x0A eq_refl)|].
  eapply yields_bind; [exact (odd_byte_yields b s f 0x08 eq_refl ltac:(lia) Hb Hs Hf)|].
  apply yields_ret.
Qed.

(** One function of a multi-function device. *)
Lemma check_one_yields cb b s f l : 0 <= b < 256 -> 0 <= s < 32 -> 0 <= f < 8 ->
  yields dev (holds wr cfg c)
    (v ← get_vendor_id b s f; if negb (v =? 0xFFFF) then check_function cb b s f l else mret l)
    (if present_function c b s f then descriptor c b s f :: l else l).
Proof.
  intros Hb Hs Hf. eapply yields_bind; [exact (field16_yields b s f 0 eq_refl)|]. unfold present_function.
  destruct (negb _); [by apply check_function_yields|apply yields_ret].
Qed.

Lemma fold_found b s fs l :
  fold_left (fun l f => if present_function c b s f then descriptor c b s f :: l else l) fs l =
  reverse (map (descriptor c b s) (filter (fun f => present_function c b s f) fs)) ++ l.
Proof.
  revert l. induction fs as [|f fs IH]; intros l; [done|]. cbn [fold_left]. rewrite IH, filter_cons.
  destruct (present_function c b s f) eqn:E; [|done].
  rewrite decide_True by done. simpl. rewrite reverse_cons, <- app_assoc. done.
Qed.

Lemma check_device_yields cb b s l : 0 <= b < 256 -> 0 <= s < 32 ->
  yields dev (holds wr cfg c) (check_device cb b s l) (reverse (map (descriptor c b s) (functions_of c b s)) ++ l).
Proof.
  intros Hb Hs. unfold check_device, functions_of.
  eapply yields_bind; [exact (field16_yields b s 0 0 eq_refl)|]. unfold present_function at 1.
  destruct (field16 c b s 0 0 =? 0xFFFF); cbn [negb]; [apply yields_ret|].
  eapply yields_bind; [apply check_function_yields; lia|].
  eapply yields_bind; [exact (field8_yields b s 0 0x0E eq_refl)|].
  rewrite bit7_test by (unfold field8; zlia). rewrite negb_involutive. unfold multi_function.
  destruct (Z.testbit _ 7); [|apply yields_ret].
  rewrite map_cons, reverse_cons, <- app_assoc. cbn [app]. rewrite <- fold_found.
  apply yields_fold. intros f l' Hf. apply check_one_yields; [done|done|]. set_unfold in Hf. lia.
Qed.

Lemma check_bus_yields fuel b l : 0 <= b < 256 ->
  yields dev (holds wr cfg c) (check_bus (S fuel) b l) (reverse (bus_functions c b) ++ l).
Proof.
  intros Hb. cbn [check_bus].
  assert (forall ss l, reverse (concat (map (fun s => map (descriptor c b s) (functions_of c b s)) ss)) ++ l =
    fold_left (fun l s => reverse (map (descriptor c b s) (functions_of c b s)) ++ l) ss l) as Hfold.
  { induction ss as [|s ss IH]; intros l'; [done|]. cbn [fold_left map concat]. rewrite <- IH.
    by rewrite reverse_app, <- app_assoc. }
  unfold bus_functions. rewrite Hfold. apply yields_fold. intros s l' Hs. apply check_device_yields; [done|].
  unfold devices in Hs. apply list_elem_of_fmap in Hs as (k & -> & Hk). apply elem_of_seq in Hk. lia.
Qed.

End Enumeration.

(** ** A memory register that decodes [sz] bytes

    It stores the address bits above its size and reads the others as zero. *)

Lemma bar_size_probe n : 4 <= n < 32 ->
  u32 (u32 (Z.lnot (Z.land (0xFFFFFFFF / 2 ^ n * 2 ^ n) 0xFFFFFFF0)) + 1) = 2 ^ n.
Proof.
  intros Hn. pose proof (all_below_spec 28 (fun k =>
    u32 (u32 (Z.lnot (Z.land (0xFFFFFFFF / 2 ^ (k + 4) * 2 ^ (k + 4)) 0xFFFFFFF0)) + 1) =? 2 ^ (k + 4)) (n - 4)
    ltac:(vm_compute; reflexivity) ltac:(lia)) as H.
  cbv beta in H. replace (n - 4 + 4) with n in H by lia. lia.
Qed.

(** The pages a register of [2 ^ n] bytes touches. *)
Lemma bar_range n base : 4 <= n < 32 -> 0 <= base -> base mod 2 ^ n = 0 -> base + 2 ^ n <= 2 ^ 32 ->
  let st := aalign_down base PAGE_SIZE in let en := aalign (base + 2 ^ n - 1) PAGE_SIZE in
  st <= base /\ base + 2 ^ n <= en /\ (en - st) / PAGE_SIZE <= 2 ^ n / 4096 + 1.
Proof.
  intros Hn Hb Hm Hlim st en. unfold PAGE_SIZE in *. change (2 ^ 32) with 4294967296 in Hlim.
  assert (exists p, 0 < p /\ 2 ^ n = 16 * p) as (p & Hp & E16).
  { exists (2 ^ (n - 4)). split; [apply Z.pow_pos_nonneg; lia|]. change 16 with (2 ^ 4). rewrite <- Z.pow_add_r by lia. f_equal. lia. }
  assert (exists q, base = 16 * q) as (q & Eq).
  { apply Z.mod_divide in Hm as [d Hd]; [|lia]. exists (d * p). rewrite Hd, E16. lia. }
  pose proof (aalign_down_spec base 4096 ltac:(lia) Hb) as [H1 [d1 D1]].
  pose proof (aalign_spec (base + 2 ^ n - 1) 4096 ltac:(lia) ltac:(lia) ltac:(lia)) as [H2 [d2 D2]].
  fold st in H1, D1. fold en in H2, D2. clearbody st en. rewrite E16 in *. split_and!; [lia|lia|].
  destruct (Z.lt_ge_cases n 12) as [Hlt|Hge].
  - assert (exists r, 4096 = 16 * p * r) as (r & Er).
    { exists (2 ^ (12 - n)). rewrite <- E16, <- Z.pow_add_r by lia. by replace (n + (12 - n)) with 12 by lia. }
    apply Z.mod_divide in Hm as [e He]; [|lia].
    assert (en = st + 4096) as ->; [|zlia].
    assert (base + 16 * p <= st + 4096); [|lia].
    assert (e < (d1 + 1) * r); [|nia]. apply (Z.mul_lt_mono_pos_r (16 * p)); nia.
  - assert (exists r, 16 * p = 4096 * r) as (r & Er).
    { exists (2 ^ (n - 12)). rewrite <- E16. change 4096 with (2 ^ 12). rewrite <- Z.pow_add_r by lia. f_equal. lia. }
    apply Z.mod_divide in Hm as [e He]; [|lia].
    assert (base = 4096 * (e * r)) as Hb' by (rewrite He, Er; ring). clear He Eq E16.
    assert (st = base) as -> by lia. assert (en = base + 16 * p) as -> by lia.
    rewrite Er. clear -H1. zlia.
Qed.

(** Fact: on a machine with a single host controller enumerate_pci returns and
    its list holds exactly the functions of bus 0 that answer, each once, the
    last one first, for every content of configuration space and without
    changing a register.  Two fields are not what their names say, since the
    byte accessors cannot reach odd offsets: the class code is that of the
    subclass and the programming interface is the revision; as class and
    subclass are then never 6 and 4 no bridge is recognised and no other bus is
    scanned. *)
Theorem enumerate_pci_bus0 dev wr cfg c h fuel :
  pci_bus dev wr cfg -> holds wr cfg c h -> multi_function c 0 0 = false ->
  exists h', run (enumerate_pci (S fuel)) dev h = Some (reverse (bus_functions c 0), h') /\ holds wr cfg c h'.
Proof.
  intros Hbus H Hm.
  assert (yields dev (holds wr cfg c) (enumerate_pci (S fuel)) (reverse (bus_functions c 0))) as Hy; [|by apply Hy].
  unfold enumerate_pci. eapply yields_bind; [exact (field8_yields dev wr cfg c Hbus 0 0 0 0x0E eq_refl)|].
  rewrite bit7_test by (unfold field8; zlia). unfold multi_function in Hm. rewrite Hm. cbn [negb].
  rewrite <- (app_nil_r (reverse _)). by apply check_bus_yields.
Qed.

(** Fact: on a machine whose host controller at 0:0 has several functions
    enumerate_pci stops at once with an empty list: the loop over the
    controllers breaks at the first function that is present. *)
Theorem enumerate_pci_multi_host dev wr cfg c h fuel :
  pci_bus dev wr cfg -> holds wr cfg c h -> multi_function c 0 0 = true -> present_function c 0 0 0 = true ->
  exists h', run (enumerate_pci fuel) dev h = Some ([], h').
Proof.
  intros Hbus H Hm Hp.
  assert (yields dev (holds wr cfg c) (enumerate_pci fuel) []) as Hy.
  { unfold enumerate_pci. eapply yields_bind; [exact (field8_yields dev wr cfg c Hbus 0 0 0 0x0E eq_refl)|].
    rewrite bit7_test by (unfold field8; zlia). unfold multi_function in Hm. rewrite Hm. cbn [negb host_loop].
    eapply yields_bind; [exact (field16_yields dev wr cfg c Hbus 0 0 0 0 eq_refl)|].
    unfold present_function in Hp. rewrite Hp. apply yields_ret. }
  destruct (Hy h H) as (h' & E & _). by exists h'.
Qed.

(** Fact: for a memory register that decodes 2^n bytes and holds an aligned
    address, assign_bar finds the size by writing all ones, maps exactly those
    bytes (up to whole pages) at their physical address, leaves every register
    of configuration space as it was, and returns the address. *)
Theorem assign_bar_maps dev wr cfg c h s K kpid d bar n :
  pci_bus dev wr cfg -> holds wr cfg c h -> paging_ok s K -> 0 < kpid < 256 -> 4 <= n < 32 -> 0 <= bar < 6 ->
  let A := config_address (bus d) (slot d) (function d) (16 + 4 * bar) in
  (forall old v, 0 <= v < 2 ^ 32 -> wr A old v = v / 2 ^ n * 2 ^ n) ->
  c A mod 2 ^ n = 0 -> c A + 2 ^ n <= 2 ^ 32 -> 4 * (2 ^ n / 4096 + 1) <= free_pages s ->
  exists s' h', run (assign_bar s kpid d bar) dev h = Some (s', c A, h') /\ holds wr cfg c h' /\ paging_ok s' K /\
    (forall va, c A <= va < c A + 2 ^ n -> translate (pm s') K va = Some va).
Proof.
  intros Hbus H Hp Hpid Hn Hbar A Hwr Hal Hlim Hfree.
  pose proof (holds_range dev wr cfg Hbus c h A H) as HA. unfold assign_bar, PCI_OFFSET_BASE_ADDRESS_0.
  rewrite (u16_small (0x10 + 4 * bar)), (u8_small (0x10 + 4 * bar)) by lia. fold A. set (o := 0x10 + 4 * bar) in *.
  destruct (read_dword_yields dev wr cfg Hbus c (bus d) (slot d) (function d) o h H) as (h1 & E1 & H1).
  rewrite run_bind, E1. cbn [mbind option_bind]. fold A.
  destruct (write_dword_run dev wr cfg c (bus d) (slot d) (function d) o 0xFFFFFFFF h1 H1) as (h2 & E2 & H2).
  rewrite run_bind, E2. cbn [mbind option_bind].
  destruct (read_dword_yields dev wr cfg Hbus _ (bus d) (slot d) (function d) o h2 H2) as (h3 & E3 & H3).
  rewrite run_bind, E3. cbn [mbind option_bind]. fold A. rewrite Z.eqb_refl, Hwr by apply u32_range.
  rewrite (u32_small 0xFFFFFFFF) by lia. rewrite bar_size_probe by done.
  assert (16 <= 2 ^ n) by (change 16 with (2 ^ 4); apply Z.pow_le_mono_r; lia).
  destruct (Z.eqb_spec (2 ^ n) 0); [lia|].
  destruct (bar_range n (c A) Hn ltac:(lia) Hal Hlim) as (R1 & R2 & R3).
  change (2 ^ 32) with 4294967296 in *. rewrite (u64_small (c A + 2 ^ n - 1)) by lia.
  destruct (map_memory_range_spec s K kpid (c A) (c A + 2 ^ n - 1) (c A) 15 0 Hp Hpid ltac:(lia))
    as (s' & E4 & P & _ & _ & T & _); try (unfold PAGE_SIZE in *; lia); [done|].
  rewrite run_bind, run_io_lift. change (Z.lor (Z.lor (Z.lor PAGE_PRESENT PAGE_WRITE) PAGE_UNCACHEABLE) PAGE_USER) with 15.
  rewrite E4. cbn [mbind option_bind].
  destruct (write_dword_run dev wr cfg _ (bus d) (slot d) (function d) o (c A) h3 H3) as (h4 & E5 & H4).
  rewrite run_bind, E5. cbn [mbind option_bind]. exists (flush_tlb s'), h4.
  assert (flush_tlb s' = s') as -> by by destruct s'. split; [done|]. split_and!; [|done|].
  - intros a. rewrite H4. fold A. destruct (Z.eqb_spec a A) as [->|]; [|done].
    rewrite Hwr by apply u32_range. rewrite u32_small by lia.
    apply Z.mod_divide in Hal as [q Hq]; [|lia]. rewrite Hq, Z.div_mul by lia. done.
  - intros va Hva. rewrite T; [|unfold low; lia|lia]. f_equal. lia.
Qed.

(** ** Witnesses *)

(** A host bridge at 0:0, a network card at 0:3 and a controller with a memory
    register of 4096 bytes at 0:4. *)
Definition demo_cfg (a : Z) : Z :=
  if a =? config_address 0 0 0 0 then 0x12378086
  else if a =? config_address 0 0 0 8 then 0x06000002
  else if a =? config_address 0 0 0 12 then 0
  else if a =? config_address 0 3 0 0 then 0x813910EC
  else if a =? config_address 0 3 0 4 then 0x02800007
  else if a =? config_address 0 3 0 8 then 0x02000020
  else if a =? config_address 0 3 0 12 then 0
  else if a =? config_address 0 4 0 36 then 0xFEBF0000
  else 0xFFFFFFFF.

Definition demo_wr (a old v : Z) : Z :=
  if a =? config_address 0 4 0 36 then u32 v / 2 ^ 12 * 2 ^ 12 else u32 v.

Definition demo_pci : device := fun h _ _ => pci_reg demo_wr demo_cfg h (selected h).

Lemma demo_bus : pci_bus demo_pci demo_wr demo_cfg.
Proof.
  constructor; [done| |]; intros a.
  - unfold demo_cfg. repeat case_match; lia.
  - intros old v. unfold demo_wr. pose proof (u32_range v). change (2 ^ 32) with 4294967296.
    case_match; [|lia]. change (2 ^ 12) with 4096. zlia.
Qed.

Lemma pci_word_roundtrip_witness :
  exists h1 h2, run (pci_config_write_word 0 3 0 4 0x0107) demo_pci [] = Some (tt, h1) /\
    run (pci_config_read_word 0 3 0 6) demo_pci h1 = Some (0x0280, h2).
Proof.
  refine (pci_word_roundtrip demo_pci demo_wr demo_cfg demo_cfg 0 3 0 4 0x0107 0 3 0 6 [] demo_bus
    (fun a => eq_refl) ltac:(unfold loc_ok; lia) ltac:(unfold loc_ok; lia) ltac:(lia) _).
  intros old v Hv. unfold demo_wr. change (_ =? _) with false. by apply u32_small.
Defined.

Lemma enumerate_pci_bus0_witness :
  exists l h', run (enumerate_pci 1) demo_pci [] = Some (l, h') /\ map slot l = [3; 0] /\ map vendorId l = [0x10EC; 0x8086].
Proof.
  destruct (enumerate_pci_bus0 demo_pci demo_wr demo_cfg demo_cfg [] 0 demo_bus (fun a => eq_refl) eq_refl)
    as (h' & H1 & _).
  exists (reverse (bus_functions demo_cfg 0)), h'. split; [exact H1|]. vm_compute. split; reflexivity.
Defined.

(** The same machine with the multi-function bit set in the host bridge. *)
Definition demo_multi (a : Z) : Z := if a =? config_address 0 0 0 12 then 0x00800000 else demo_cfg a.

Lemma enumerate_pci_multi_host_witness :
  exists h', run (enumerate_pci 1) (fun h _ _ => pci_reg demo_wr demo_multi h (selected h)) [] = Some ([], h').
Proof.
  refine (enumerate_pci_multi_host (fun h _ _ => pci_reg demo_wr demo_multi h (selected h)) demo_wr demo_multi
    demo_multi [] 1 _ (fun a => eq_refl) eq_refl eq_refl).
  constructor; [done| |apply demo_bus]. intros a. unfold demo_multi. case_match; [lia|apply demo_bus].
Defined.

Lemma assign_bar_maps_witness :
  exists s' h', run (assign_bar demo_state 1 (PciDevice 0 4 0 0 0 0 0 1 6 0) 5) demo_pci [] = Some (s', 0xFEBF0000, h') /\
    translate (pm s') PML4_KERNEL 0xFEBF0123 = Some 0xFEBF0123.
Proof.
  destruct (assign_bar_maps demo_pci demo_wr demo_cfg demo_cfg [] demo_state PML4_KERNEL 1
    (PciDevice 0 4 0 0 0 0 0 1 6 0) 5 12 demo_bus (fun a => eq_refl) demo_ok ltac:(lia) ltac:(lia) ltac:(lia))
    as (s' & h' & H1 & _ & _ & H2).
  - intros old v Hv. unfold demo_wr. change (_ =? _) with true. by rewrite u32_small.
  - reflexivity.
  - vm_compute. discriminate.
  - vm_compute. discriminate.
  - exists s', h'. split; [exact H1|]. apply H2. vm_compute. intuition discriminate.
Defined.
