(* ===== verification/Nic.v ===== *)
(** * Nic: the network card and ARP (kernel/net/rtl8139.c, kernel/net/arp.c)

    The receive ring the card fills in memory, the four transmit descriptors
    behind ports, the handling of ARP packets and the cache of addresses.  The
    state is what the sources keep in globals and function-local statics,
    together with the memory packets live in; the local packet buffer of
    send_arp is at an address given as an argument.  Printing is left out. *)

From S2P Require Import Prelude Mem Endian Device Interrupts Time Pci Net.

(** ** Data *)

Definition ARP_CACHE_SIZE : nat := 16.
Definition ARP_HTYPE_ETH : Z := 1.
Definition ARP_HLEN_ETH : Z := 6.
Definition ARP_PLEN_IPV4 : Z := 4.
Definition ARP_OPER_REQUEST : Z := 1.
Definition ARP_OPER_REPLY : Z := 2.
Definition ARP_WAIT_TIMEOUT : Z := 3000.
Definition ARP_CACHE_TTL : Z := 30000.
Definition ARP_CACHE_CLEANUP_INTERVAL : Z := 10000.

Definition RTL8139_DEVICE_ID : Z := 0x8139.
Definition RTL8139_OFFSET_MAC0 : Z := 0x0.
Definition RTL8139_OFFSET_TRANSMIT_CMD_0 : Z := 0x10.
Definition RTL8139_OFFSET_TRANSMIT_BUF_0 : Z := 0x20.
Definition RTL8139_OFFSET_TRANSMIT_OK : Z := 15.
Definition RTL8139_OFFSET_RBSTART : Z := 0x30.
Definition RTL8139_OFFSET_CMD : Z := 0x37.
Definition RTL8139_OFFSET_CAPR : Z := 0x38.
Definition RTL8139_OFFSET_IMR : Z := 0x3C.
Definition RTL8139_OFFSET_ISR : Z := 0x3E.
Definition RTL8139_OFFSET_RCR : Z := 0x44.
Definition RTL8139_OFFSET_CONFIG_1 : Z := 0x52.
Definition RTL8139_SOFTWARE_RESET : Z := 0x10.
Definition RTL8139_INTERRUPT_PIN : Z := 11.
Definition RX_BUFFER_SIZE : Z := 8 * 1024.
Definition RX_BUFFER_LEN : Z := RX_BUFFER_SIZE + 4 * 1516.
Definition TOK : Z := 4.
Definition ROK : Z := 1.
Definition RTL8139_ALLOW_ROK_TOK : Z := TOK + ROK.
Definition RTL8139_RX_CRC_LEN : Z := 4.

Record nic := Nic {
  rx_buf : Z;
  ioaddr : Z;
  trrc : Z;
  mac : list Z;
  ipv4 : list Z;
}.

Record arp_entry := ArpEntry { entry_ip : list Z; entry_mac : list Z; timestamp : Z }.

Definition empty_entry : arp_entry := ArpEntry (replicate 4 0) (replicate 6 0) 0.

Record net := NetState {
  g_nic : nic;
  rx_offset : Z;
  receive_cnt : Z;
  arp_cache : list arp_entry;
  last_cleanup : Z;
  ram : mem;
}.

Definition set_nic (s : net) (n : nic) : net :=
  NetState n (rx_offset s) (receive_cnt s) (arp_cache s) (last_cleanup s) (ram s).
Definition set_cache (s : net) (c : list arp_entry) : net :=
  NetState (g_nic s) (rx_offset s) (receive_cnt s) c (last_cleanup s) (ram s).
Definition set_ram (s : net) (m : mem) : net :=
  NetState (g_nic s) (rx_offset s) (receive_cnt s) (arp_cache s) (last_cleanup s) m.
Definition set_rx_offset (s : net) (o : Z) : net :=
  NetState (g_nic s) o (receive_cnt s) (arp_cache s) (last_cleanup s) (ram s).

Record packet := Packet { pkt_header : Z; pkt_len : Z; pkt_data : Z }.

(** ** The cache *)

(** memcmp of two addresses of the same length is zero when they are equal. *)
Definition same_ip (a b : list Z) : bool := bool_decide (a = b).

(** The loop of cache_arp_entry: the first slot with this address, or free. *)
Fixpoint cache_loop (c : list arp_entry) (ip mac : list Z) (now : Z) : list arp_entry :=
  match c with
  | [] => []
  | e :: c =>
      if same_ip (entry_ip e) ip || (nthZ (entry_ip e) 0 =? 0) then ArpEntry ip mac now :: c
      else e :: cache_loop c ip mac now
  end.

Definition cache_arp_entry (fuel : nat) (s : net) (ip mac : list Z) : io net :=
  now ← time fuel 0 0;
  mret (set_cache s (cache_loop (arp_cache s) ip mac now)).

Definition clear_arp_cache (s : net) : net := set_cache s (map (fun _ => empty_entry) (arp_cache s)).

Definition expired (now : Z) (e : arp_entry) : bool :=
  negb (nthZ (entry_ip e) 0 =? 0) && (ARP_CACHE_TTL <? u64 (now - timestamp e)).

Definition cleanup_entries (now : Z) (c : list arp_entry) : list arp_entry :=
  map (fun e => if expired now e then empty_entry else e) c.

Definition cleanup_arp_cache (fuel : nat) (s : net) : io net :=
  now ← time fuel 0 0;
  mret (set_cache s (cleanup_entries now (arp_cache s))).

Definition arp_cache_maintenance (fuel : nat) (s : net) : io net :=
  now ← time fuel 0 0;
  if ARP_CACHE_CLEANUP_INTERVAL <? u64 (now - last_cleanup s) then
    s ← cleanup_arp_cache fuel s;
    mret (NetState (g_nic s) (rx_offset s) (receive_cnt s) (arp_cache s) now (ram s))
  else mret s.

(** The mac field of the first entry with this address. *)
Fixpoint find_mac_in_cache (c : list arp_entry) (ip : list Z) : option (list Z) :=
  match c with
  | [] => None
  | e :: c => if same_ip (entry_ip e) ip then Some (entry_mac e) else find_mac_in_cache c ip
  end.

(** [k] polls of the cache 10 ms apart; [view i] is the cache as the network
    interrupts have left it at poll [i]. *)
Fixpoint wait_arp_loop (k i : nat) (view : nat -> list arp_entry) (ip : list Z) : io (option (list Z)) :=
  match k with
  | O => mret None
  | S k =>
      let mac := find_mac_in_cache (view i) ip in
      _ ← irq_clear_mask RTL8139_INTERRUPT_LINE;
      match mac with
      | Some mac => mret (Some mac)
      | None => wait_arp_loop k (S i) view ip
      end
  end.

Definition wait_for_arp_entry (view : nat -> list arp_entry) (ip : list Z) : io (option (list Z)) :=
  wait_arp_loop (Z.to_nat (ARP_WAIT_TIMEOUT / 10)) 0 view ip.

(** ** Transmission *)

Fixpoint wait_transmit (fuel : nat) (port : Z) : io unit :=
  match fuel with
  | O => io_fail
  | S fuel =>
      v ← inl port;
      if Z.land v (Z.shiftl 1 RTL8139_OFFSET_TRANSMIT_OK) =? 0 then wait_transmit fuel port else mret tt
  end.

Definition send_packet (fuel : nat) (n : nic) (packet packet_len : Z) : io nic :=
  _ ← outl (ioaddr n + RTL8139_OFFSET_TRANSMIT_BUF_0 + 4 * trrc n) packet;
  _ ← outl (ioaddr n + RTL8139_OFFSET_TRANSMIT_CMD_0 + 4 * trrc n) packet_len;
  _ ← wait_transmit fuel (ioaddr n + RTL8139_OFFSET_TRANSMIT_CMD_0 + 4 * trrc n);
  mret (Nic (rx_buf n) (ioaddr n) (Z.rem (s32 (trrc n + 1)) 4) (mac n) (ipv4 n)).

Definition arp_header (oper : Z) (sha spa tha tpa : list Z) : list Z :=
  le_bytes 2 (htobe16 ARP_HTYPE_ETH) ++ le_bytes 2 (htobe16 PTYPE_IPV4) ++ [ARP_HLEN_ETH; ARP_PLEN_IPV4] ++
  le_bytes 2 (htobe16 oper) ++ sha ++ spa ++ tha ++ tpa.

Definition sizeof_arp_header : Z := 28.
Definition eth_broadcast : list Z := replicate 6 0xff.

Definition send_arp (fuel : nat) (s : net) (packet oper : Z) (sha spa tha tpa : list Z) : io net :=
  let m := mputs (ram s) packet (arp_header oper sha spa tha tpa) in
  let '(m, packet_len) :=
    if oper =? ARP_OPER_REQUEST then encapsulate_ethernet m packet sizeof_arp_header eth_broadcast sha PTYPE_ARP
    else if oper =? ARP_OPER_REPLY then encapsulate_ethernet m packet sizeof_arp_header tha sha PTYPE_ARP
    else (m, sizeof_arp_header) in
  n ← send_packet fuel (g_nic s) packet packet_len;
  mret (set_nic (set_ram s m) n).

Definition get_mac (fuel : nat) (s : net) (packet : Z) (view : nat -> list arp_entry) (ip : list Z)
    : io (net * option (list Z)) :=
  let sha := mac (g_nic s) in
  let tha := replicate 6 0 in
  s ← send_arp fuel s packet ARP_OPER_REQUEST sha (ipv4 (g_nic s)) tha ip;
  r ← wait_for_arp_entry view ip;
  mret (s, r).

(** ** Reception *)

(** The fields of the header at [arp].  The comparisons with the own address
    run over six bytes: in the structure two zero bytes of padding follow the
    address, in the packet whatever comes next. *)
Definition handle_packet_arp (fuel : nat) (s : net) (buf : Z) (pkt : packet) : io net :=
  let arp := pkt_data pkt + sizeof_ethernet_header in
  let m := ram s in
  let oper := htobe16 (ld16 m (arp + 6)) in
  let sha := mbytes m (arp + 8) 6 in
  let spa := mbytes m (arp + 14) 4 in
  let n := g_nic s in
  if oper =? ARP_OPER_REPLY then cache_arp_entry fuel s spa sha
  else if oper =? ARP_OPER_REQUEST then
    if bool_decide (mbytes m (arp + 24) 6 = ipv4 n ++ [0; 0]) || bool_decide (mbytes m (arp + 14) 6 = ipv4 n ++ [0; 0])
    then send_arp fuel s buf ARP_OPER_REPLY (mac n) (ipv4 n) sha spa
    else mret s
  else mret s.

Definition handle_packet (fuel : nat) (s : net) (buf : Z) (pkt : packet) : io net :=
  if pkt_len pkt <=? 0 then mret s
  else
    let eth := pkt_data pkt in
    let type := be16toh (ld16 (ram s) (eth + 12)) in
    let s := set_ram s (st16 (ram s) (eth + 12) type) in
    if type =? PTYPE_ARP then handle_packet_arp fuel s buf pkt else mret s.

Definition receive_packet (fuel : nat) (s : net) (buf : Z) : io net :=
  let header := u32 (u32 (rx_buf (g_nic s)) + rx_offset s) in
  let pkt := Packet header (s16 (ld16 (ram s) (header + 2) - RTL8139_RX_CRC_LEN)) (header + 4) in
  if pkt_len pkt <=? 4 then mret s
  else
    s ← handle_packet fuel s buf pkt;
    let o := u32 (Z.land (u32 (rx_offset s + pkt_len pkt + (8 + 3))) (Z.lnot 3)) in
    let o := u32 (o - (if RX_BUFFER_SIZE <=? o then RX_BUFFER_SIZE else 0)) in
    _ ← outw (ioaddr (g_nic s) + RTL8139_OFFSET_CAPR) (Z.land (u32 (o - 16)) 0xFFFF);
    mret (set_rx_offset s o).

Definition rtl8139_handler (fuel : nat) (s : net) (buf : Z) : io net :=
  status ← inw (ioaddr (g_nic s) + RTL8139_OFFSET_ISR);
  _ ← outw (ioaddr (g_nic s) + RTL8139_OFFSET_ISR) RTL8139_ALLOW_ROK_TOK;
  if negb (Z.land status ROK =? 0) then
    let s := NetState (g_nic s) (rx_offset s) (s32 (receive_cnt s + 1)) (arp_cache s) (last_cleanup s) (ram s) in
    receive_packet fuel s buf
  else mret s.

(** ** Initialisation *)

Definition rtl8139_read_self_mac (n : nic) : io nic :=
  mac ← io_fold (fun i mac => b ← inb (ioaddr n + RTL8139_OFFSET_MAC0 + i); mret (mac ++ [b])) [0; 1; 2; 3; 4; 5] [];
  mret (Nic (rx_buf n) (ioaddr n) (trrc n) mac (ipv4 n)).

(** The last matching device of the list. *)
Fixpoint find_rtl8139 (l : list PCIDevice) (device : option PCIDevice) : option PCIDevice :=
  match l with
  | [] => device
  | d :: l => find_rtl8139 l (if deviceId d =? RTL8139_DEVICE_ID then Some d else device)
  end.

Fixpoint wait_reset (fuel : nat) (port : Z) : io unit :=
  match fuel with
  | O => io_fail
  | S fuel => v ← inb port; if Z.land v RTL8139_SOFTWARE_RESET =? 0 then mret tt else wait_reset fuel port
  end.

(** [buffer] is what malloc returns for the receive buffer. *)
Definition rtl8139_init (fuel : nat) (s : net) (list_pci_devices : list PCIDevice) (buffer : Z) : io net :=
  match find_rtl8139 list_pci_devices None with
  | None => mret s
  | Some d =>
      let command := Z.lor (command d) 4 in
      _ ← pci_config_write_word (bus d) (slot d) (function d) PCI_OFFSET_COMMAND command;
      bar ← get_bar0 (bus d) (slot d) (function d);
      let io_base := u16 bar in
      let io_base := if negb (Z.land io_base 1 =? 0) then io_base - 1 else io_base in
      _ ← outb (io_base + RTL8139_OFFSET_CONFIG_1) 0;
      _ ← outb (io_base + RTL8139_OFFSET_CMD) RTL8139_SOFTWARE_RESET;
      _ ← wait_reset fuel (io_base + RTL8139_OFFSET_CMD);
      _ ← outl (io_base + RTL8139_OFFSET_RBSTART) buffer;
      _ ← outw (io_base + RTL8139_OFFSET_IMR) RTL8139_ALLOW_ROK_TOK;
      _ ← pci_config_write_word (bus d) (slot d) (function d) PCI_OFFSET_INTERRUPT_LINE
            (Z.shiftl RTL8139_INTERRUPT_PIN 8 + RTL8139_INTERRUPT_LINE);
      _ ← outl (io_base + RTL8139_OFFSET_RCR) (Z.lor 0xf (Z.shiftl 1 7));
      _ ← outb (io_base + RTL8139_OFFSET_CMD) 12;
      n ← rtl8139_read_self_mac (Nic buffer io_base (trrc (g_nic s)) (mac (g_nic s)) (ipv4 (g_nic s)));
      let s := clear_arp_cache (set_nic s n) in
      _ ← irq_clear_mask RTL8139_INTERRUPT_LINE;
      mret s
  end.

(** ** The cache as a finite map

    What the cache means: the first entry with an address counts, entries with
    a zero first byte are free slots. *)

Definition usable (ip : list Z) : Prop := nthZ ip 0 <> 0.

Fixpoint cache_map (c : list arp_entry) : gmap (list Z) (list Z * Z) :=
  match c with
  | [] => ∅
  | e :: c =>
      if nthZ (entry_ip e) 0 =? 0 then cache_map c
      else <[entry_ip e := (entry_mac e, timestamp e)]> (cache_map c)
  end.

(** There is a slot for the address. *)
Definition has_room (c : list arp_entry) (ip : list Z) : bool :=
  existsb (fun e => same_ip (entry_ip e) ip || (nthZ (entry_ip e) 0 =? 0)) c.

(** Of two entries with the same address in use the first is not older; no
    entry is from the future. *)
Fixpoint newest_first (now : Z) (c : list arp_entry) : Prop :=
  match c with
  | [] => True
  | e :: c =>
      0 <= timestamp e <= now /\ newest_first now c /\
      Forall (fun e' => usable (entry_ip e) -> entry_ip e' = entry_ip e -> timestamp e' <= timestamp e) c
  end.

Lemma find_mac_map c ip : usable ip -> find_mac_in_cache c ip = fst <$> cache_map c !! ip.
Proof.
  intros Hip. induction c as [|e c IH]; simpl; [by rewrite lookup_empty|]. unfold same_ip.
  case_bool_decide as E.
  - subst ip. unfold usable in Hip. destruct (Z.eqb_spec (nthZ (entry_ip e) 0) 0); [done|].
    by rewrite lookup_insert_eq.
  - destruct (nthZ (entry_ip e) 0 =? 0); [done|]. by rewrite lookup_insert_ne.
Qed.

(** Learning an address replaces what was known of it, if there is room. *)
Lemma cache_loop_map c ip mac now : usable ip ->
  cache_map (cache_loop c ip mac now) = if has_room c ip then <[ip := (mac, now)]> (cache_map c) else cache_map c.
Proof.
  intros Hip. unfold usable in Hip. induction c as [|e c IH]; [done|].
  change (has_room (e :: c) ip) with ((same_ip (entry_ip e) ip || (nthZ (entry_ip e) 0 =? 0)) || has_room c ip).
  cbn [cache_loop cache_map]. unfold same_ip in *. case_bool_decide as E; cbn [orb cache_map entry_ip entry_mac timestamp].
  - subst ip. destruct (Z.eqb_spec (nthZ (entry_ip e) 0) 0); [done|]. by rewrite insert_insert_eq.
  - destruct (Z.eqb_spec (nthZ (entry_ip e) 0) 0) as [Ez|Ez]; cbn [orb cache_map entry_ip entry_mac timestamp].
    + destruct (Z.eqb_spec (nthZ ip 0) 0); done.
    + destruct (Z.eqb_spec (nthZ (entry_ip e) 0) 0); [done|]. rewrite IH.
      destruct (has_room c ip); [|done]. by rewrite insert_insert_ne.
Qed.

Lemma cache_loop_newest c ip mac now t : t <= now -> 0 <= now ->
  newest_first t c -> newest_first now (cache_loop c ip mac now).
Proof.
  intros Ht Hn. induction c as [|e c IH]; simpl; [done|]. intros (H1 & H2 & H3).
  assert (forall c, newest_first t c -> newest_first now c) as Hmono.
  { clear -Ht. induction c as [|e c IH]; simpl; [done|]. intros (? & ? & ?). split_and!; [lia|lia|by apply IH|done]. }
  assert (forall c, newest_first t c -> Forall (fun e' => timestamp e' <= t) c) as Hall.
  { clear. induction c as [|e c IH]; simpl; [done|]. intros (? & ? & ?). constructor; [lia|by apply IH]. }
  destruct (same_ip (entry_ip e) ip || _) eqn:E; simpl.
  - split_and!; [lia|lia|by apply Hmono|]. eapply list.Forall_impl; [by apply Hall|]. simpl. intros x Hx _ _. lia.
  - split_and!; [lia|lia|by apply IH|].
    apply orb_false_iff in E as [E _]. unfold same_ip in E. apply bool_decide_eq_false in E.
    clear -H3 E. induction c as [|x c IH]; simpl; [done|]. apply list.Forall_cons in H3 as [Hx H3].
    destruct (same_ip (entry_ip x) ip || _); constructor; simpl; try done. by apply IH.
Qed.

Lemma cleanup_cons now e c :
  cleanup_entries now (e :: c) = (if expired now e then empty_entry else e) :: cleanup_entries now c.
Proof. done. Qed.

(** An address is never listed younger behind the entry that counts. *)
Lemma newest_bound c e ip m t :
  Forall (fun e' => usable (entry_ip e) -> entry_ip e' = entry_ip e -> timestamp e' <= timestamp e) c ->
  usable (entry_ip e) -> ip = entry_ip e -> cache_map c !! ip = Some (m, t) -> t <= timestamp e.
Proof.
  intros H Hu ->. induction c as [|x c IH]; simpl; [by rewrite lookup_empty|].
  apply list.Forall_cons in H as [Hx H]. destruct (nthZ (entry_ip x) 0 =? 0); [by apply IH|].
  destruct (decide (entry_ip x = entry_ip e)) as [E|E].
  - rewrite E, lookup_insert_eq. intros [= _ <-]. by apply Hx.
  - rewrite lookup_insert_ne by done. by apply IH.
Qed.

(** Expiry removes the addresses learnt too long ago, no others. *)
Lemma cleanup_map now c : newest_first now c -> now < 2 ^ 64 ->
  cache_map (cleanup_entries now c) = filter (fun p => now - snd (snd p) <= ARP_CACHE_TTL) (cache_map c).
Proof.
  intros H Hn. change (2 ^ 64) with 18446744073709551616 in Hn. induction c as [|e c IH].
  { symmetry. apply map_filter_empty. }
  destruct H as (H1 & H2 & H3). specialize (IH H2). rewrite cleanup_cons. unfold expired. cbn [cache_map].
  destruct (Z.eqb_spec (nthZ (entry_ip e) 0) 0) as [Ez|Ez]; cbn [negb andb].
  { by rewrite Ez. }
  rewrite (u64_small (now - timestamp e)) by lia. destruct (Z.ltb_spec ARP_CACHE_TTL (now - timestamp e)) as [Hlt|Hge].
  - change (nthZ (entry_ip empty_entry) 0 =? 0) with true. cbn iota. rewrite IH.
    rewrite map_filter_insert_False by (simpl; lia).
    apply map_eq. intros ip. apply option_eq. intros [m t]. rewrite !map_lookup_filter_Some, lookup_delete_Some.
    split; [|by intros [[_ ?] ?]]. intros [Hl Ht]. split; [|done]. split; [|done]. intros <-.
    assert (t <= timestamp e); [|simpl in Ht; lia]. by eapply newest_bound.
  - destruct (Z.eqb_spec (nthZ (entry_ip e) 0) 0); [done|]. rewrite IH.
    by rewrite map_filter_insert_True by (simpl; lia).
Qed.

Lemma cleanup_newest now t c : t <= now -> 0 <= now -> newest_first t c -> newest_first now (cleanup_entries now c).
Proof.
  intros Ht Hn. induction c as [|e c IH]; [done|]. intros (H1 & H2 & H3). rewrite cleanup_cons. simpl.
  split_and!.
  - destruct (expired now e); simpl; lia.
  - destruct (expired now e); simpl; lia.
  - by apply IH.
  - unfold cleanup_entries. apply list.Forall_fmap. eapply list.Forall_impl; [exact H3|]. intros x Hx. simpl.
    destruct (expired now e) eqn:Ee; simpl.
    + intros Hu. by destruct Hu.
    + intros Hu. destruct (expired now x); simpl; [|by apply Hx]. intros E. destruct Hu. by rewrite <- E.
Qed.

(** ** Histories of the cache *)

Inductive cache_op := Learn (ip mac : list Z) (now : Z) | Expire (now : Z).

Definition op_time (o : cache_op) : Z := match o with Learn _ _ t | Expire t => t end.

(** The cache and the map side by side. *)
Definition cache_step (s : list arp_entry * gmap (list Z) (list Z * Z)) (o : cache_op) :=
  let '(c, M) := s in
  match o with
  | Learn ip mac now =>
      (cache_loop c ip mac now, if has_room c ip then <[ip := (mac, now)]> M else M)
  | Expire now => (cleanup_entries now c, filter (fun p => now - snd (snd p) <= ARP_CACHE_TTL) M)
  end.

Definition op_usable (o : cache_op) : Prop :=
  match o with Learn ip _ _ => usable ip | Expire _ => True end.

(** Addresses are usable and the clock does not run backwards. *)
Fixpoint history_ok (t : Z) (ops : list cache_op) : Prop :=
  match ops with
  | [] => True
  | o :: ops =>
      t <= op_time o < 2 ^ 64 /\ op_usable o /\ history_ok (op_time o) ops
  end.

Lemma cache_history c M t ops : 0 <= t -> newest_first t c -> cache_map c = M -> history_ok t ops ->
  let '(c', M') := fold_left cache_step ops (c, M) in length c' = length c /\ cache_map c' = M'.
Proof.
  intros Ht Hc HM Hops. revert c M t Ht Hc HM Hops. induction ops as [|o ops IH]; intros c M t Ht Hc HM Hops; [done|].
  destruct Hops as (H1 & H2 & H3). cbn [fold_left]. destruct o as [ip mac now|now]; cbn [cache_step op_time] in *.
  - specialize (IH (cache_loop c ip mac now) (if has_room c ip then <[ip := (mac, now)]> M else M) now).
    destruct (fold_left _ _ _) as [c' M']. destruct IH as [L E]; [lia|by apply (cache_loop_newest c ip mac now t); [lia|lia|]| |done|].
    + rewrite cache_loop_map by done. by rewrite HM.
    + split; [|done]. rewrite L. clear. induction c as [|e c IH]; simpl; [done|].
      destruct (same_ip _ _ || _); simpl; congruence.
  - specialize (IH (cleanup_entries now c) (filter (fun p => now - snd (snd p) <= ARP_CACHE_TTL) M) now).
    destruct (fold_left _ _ _) as [c' M']. destruct IH as [L E]; [lia|by apply (cleanup_newest now t c); [lia|lia|]| |done|].
    + rewrite <- HM. apply cleanup_map; [|lia]. clear -Hc H1. induction c as [|e c IH]; [done|].
      destruct Hc as (? & ? & ?). split_and!; [lia|lia|by apply IH|done].
    + split; [|done]. rewrite L. unfold cleanup_entries. apply length_map.
Qed.

(** ** Transmission *)

(** The writes of a trace, the latest first. *)
Fixpoint outs (h : trace) : trace :=
  match h with
  | [] => []
  | Out w p v :: h => Out w p v :: outs h
  | In _ _ _ :: h => outs h
  end.

(** The card at [io] as documented: after a descriptor's address and length
    have been written its status shows the transmission as done, at the latest
    at the poll [fuel] allows. *)
Definition card (dev : device) (fuel : nat) (io : Z) : Prop :=
  forall h k p l, 0 <= k < 4 ->
    exists h', run (wait_transmit fuel (io + RTL8139_OFFSET_TRANSMIT_CMD_0 + 4 * k)) dev
      (Out 32 (io + RTL8139_OFFSET_TRANSMIT_CMD_0 + 4 * k) l :: Out 32 (io + RTL8139_OFFSET_TRANSMIT_BUF_0 + 4 * k) p :: h)
      = Some (tt, h').

(** The clock can be read. *)
Definition clock (dev : device) (fuel : nat) : Prop :=
  forall h, exists now h', run (time fuel 0 0) dev h = Some (now, h').

Lemma wait_transmit_outs fuel port dev h h' : run (wait_transmit fuel port) dev h = Some (tt, h') -> outs h' = outs h.
Proof.
  revert h. induction fuel as [|fuel IH]; intros h; cbn [wait_transmit]; [done|].
  run_io. destruct (Z.land _ _ =? 0).
  - intros H. by rewrite (IH _ H).
  - intros [= <-]. done.
Qed.

Definition next_trrc (n : nic) : nic := Nic (rx_buf n) (ioaddr n) ((trrc n + 1) mod 4) (mac n) (ipv4 n).

(** What one packet writes: its descriptor's address, then its length. *)
Definition descriptor_writes (io t packet len : Z) : trace :=
  [Out 32 (io + 0x10 + 4 * t) (u32 len); Out 32 (io + 0x20 + 4 * t) (u32 packet)].

Lemma send_packet_run dev fuel n packet len h : card dev fuel (ioaddr n) -> 0 <= trrc n < 4 ->
  exists h', run (send_packet fuel n packet len) dev h = Some (next_trrc n, h') /\
    outs h' = descriptor_writes (ioaddr n) (trrc n) packet len ++ outs h.
Proof.
  intros Hc Ht. destruct (Hc h (trrc n) (u32 packet) (u32 len) Ht) as [h' H]. exists h'.
  unfold send_packet. rewrite run_bind, run_outl. cbn [mbind option_bind]. rewrite run_bind, run_outl.
  cbn [mbind option_bind]. rewrite run_bind, H. cbn [mbind option_bind]. rewrite run_ret. split.
  - do 2 f_equal. unfold next_trrc. f_equal. rewrite s32_small by lia. rewrite Z.rem_mod_nonneg by lia. done.
  - rewrite (wait_transmit_outs _ _ _ _ _ H). done.
Qed.

(** The writes of a sequence of packets sent from descriptor [t] on. *)
Fixpoint sequence_writes (io t : Z) (pkts : list (Z * Z)) : trace :=
  match pkts with
  | [] => []
  | (p, l) :: pkts => sequence_writes io ((t + 1) mod 4) pkts ++ descriptor_writes io t p l
  end.

(** ** ARP frames *)

Lemma arp_header_ok oper sha spa tha tpa : addr_ok 6 sha -> addr_ok 4 spa -> addr_ok 6 tha -> addr_ok 4 tpa ->
  bytes_ok (arp_header oper sha spa tha tpa) /\ zlen (arp_header oper sha spa tha tpa) = 28.
Proof.
  intros [L1 B1] [L2 B2] [L3 B3] [L4 B4]. unfold arp_header. split.
  - unfold bytes_ok. rewrite !Forall_app. split_and!; try done; try apply le_bytes_ok.
    repeat constructor; vm_compute; (discriminate || done).
  - unfold zlen. rewrite !length_app, !length_le_bytes, L1, L2, L3, L4. done.
Qed.

(** The frame around an ARP message. *)
Definition arp_frame (oper : Z) (dst sha spa tha tpa : list Z) : list Z :=
  ethernet_header dst sha PTYPE_ARP ++ arp_header oper sha spa tha tpa ++ replicate 18 0.

Definition with_ram_nic (s : net) (m : mem) (n : nic) : net :=
  NetState n (rx_offset s) (receive_cnt s) (arp_cache s) (last_cleanup s) m.

Lemma send_arp_run dev fuel s buf oper sha spa tha tpa h :
  card dev fuel (ioaddr (g_nic s)) -> 0 <= trrc (g_nic s) < 4 -> oper = ARP_OPER_REQUEST \/ oper = ARP_OPER_REPLY ->
  addr_ok 6 sha -> addr_ok 4 spa -> addr_ok 6 tha -> addr_ok 4 tpa ->
  exists m' h', run (send_arp fuel s buf oper sha spa tha tpa) dev h = Some (with_ram_nic s m' (next_trrc (g_nic s)), h') /\
    bytes_at m' buf (arp_frame oper (if oper =? ARP_OPER_REQUEST then eth_broadcast else tha) sha spa tha tpa) /\
    (forall b, b < buf \/ buf + 102 <= b -> mread m' b = mread (ram s) b) /\
    outs h' = descriptor_writes (ioaddr (g_nic s)) (trrc (g_nic s)) buf 60 ++ outs h.
Proof.
  intros Hc Ht Hop H1 H2 H3 H4. destruct (arp_header_ok oper sha spa tha tpa H1 H2 H3 H4) as [Hb Hl].
  set (dst := if oper =? ARP_OPER_REQUEST then eth_broadcast else tha).
  assert (addr_ok 6 dst) as Hdst.
  { unfold dst. destruct (oper =? _); [|done]. split; [done|]. repeat constructor; done. }
  set (m := mputs (ram s) buf (arp_header oper sha spa tha tpa)).
  destruct (ethernet_layout m buf dst sha PTYPE_ARP (arp_header oper sha spa tha tpa)) as (m' & E & L & O);
    [by apply bytes_at_mputs|lia|done|done|]. rewrite Hl in E, L, O.
  change (Z.max 60 (28 + 14)) with 60 in E.
  destruct (send_packet_run dev fuel (g_nic s) buf 60 h Hc Ht) as (h' & Hs & Ho).
  exists m', h'. split_and!; try done.
  - unfold send_arp. fold m.
    replace (if oper =? ARP_OPER_REQUEST then _ else _) with (m', 60).
    { rewrite run_bind, Hs. done. }
    rewrite <- E. unfold dst. destruct Hop as [->| ->]; reflexivity.
  - intros b Hb'. rewrite O by lia. unfold m. apply mread_mputs_out. lia.
Qed.

(** ** Reception *)

Lemma mbytes_at m a l : bytes_at m a l -> mbytes m a (length l) = l.
Proof.
  intros H. apply list_eq. intros i. destruct (l !! i) as [x|] eqn:E.
  - rewrite lookup_mbytes by (by eapply lookup_lt_Some). f_equal. by apply H.
  - apply lookup_ge_None in E. apply lookup_ge_None. by rewrite length_mbytes.
Qed.

Lemma mbytes_at_len m a l n : bytes_at m a l -> length l = n -> mbytes m a n = l.
Proof. intros H <-. by apply mbytes_at. Qed.

Lemma ld16_at m a x y : bytes_at m a [x; y] -> ld16 m a = x + 256 * y.
Proof.
  intros H. pose proof (H 0%nat x eq_refl) as H0. pose proof (H 1%nat y eq_refl) as H1.
  change (Z.of_nat 0) with 0 in H0. change (Z.of_nat 1) with 1 in H1. rewrite Z.add_0_r in H0.
  change (ld16 m a) with (mread m a + 256 * (mread m (a + 1) + 256 * 0)). lia.
Qed.

(** An ARP message of a frame in memory, with what follows it. *)
Definition arp_in (m : mem) (data oper : Z) (sha spa tha tpa rest : list Z) : Prop :=
  bytes_at m (data + 12) [8; 6] /\ bytes_at m (data + 14) (arp_header oper sha spa tha tpa ++ rest).

(** Converting the type field in place leaves the message alone. *)
Lemma arp_in_swap m data oper sha spa tha tpa rest v :
  arp_in m data oper sha spa tha tpa rest ->
  bytes_at (st16 m (data + 12) v) (data + 14) (arp_header oper sha spa tha tpa ++ rest).
Proof.
  intros [_ H]. eapply bytes_at_ext; [|exact H]. intros b Hb. apply mread_store_out. simpl. lia.
Qed.

Record message_at (m : mem) (arp oper : Z) (sha spa tha tpa rest : list Z) : Prop := {
  ma_oper : htobe16 (ld16 m (arp + 6)) = oper;
  ma_sha : mbytes m (arp + 8) 6 = sha;
  ma_spa : mbytes m (arp + 14) 4 = spa;
  ma_tpa : mbytes m (arp + 24) (4 + length rest) = tpa ++ rest;
}.

Lemma arp_fields m arp oper sha spa tha tpa rest : 0 <= oper < 256 ->
  addr_ok 6 sha -> addr_ok 4 spa -> addr_ok 6 tha -> addr_ok 4 tpa ->
  bytes_at m arp (arp_header oper sha spa tha tpa ++ rest) -> message_at m arp oper sha spa tha tpa rest.
Proof.
  intros Ho [L1 B1] [L2 B2] [L3 B3] [L4 B4] H. unfold arp_header in H. rewrite (le_bytes_htobe oper) in H by lia.
  rewrite <- !app_assoc in H.
  apply bytes_at_app in H as [_ H]. apply bytes_at_app in H as [_ H]. apply bytes_at_app in H as [_ H].
  apply bytes_at_app in H as [Hoper H]. apply bytes_at_app in H as [Hsha H]. apply bytes_at_app in H as [Hspa H].
  apply bytes_at_app in H as [_ H].
  change (zlen [_; _]) with 2 in *. unfold zlen in *. rewrite L1, L2, L3 in *. rewrite <- !Z.add_assoc in *.
  constructor.
  - rewrite (ld16_at m (arp + 6) _ _ Hoper). rewrite (Z.div_small oper), (Z.mod_small oper) by lia.
    rewrite htobe16_arith by lia. zlia.
  - by apply mbytes_at_len.
  - by apply mbytes_at_len.
  - apply mbytes_at_len; [done|]. rewrite length_app, L4. done.
Qed.

(** Whatever the packet, handle_packet returns and keeps the position in the
    receive ring. *)
Lemma handle_packet_total dev fuel s buf pkt h :
  card dev fuel (ioaddr (g_nic s)) -> clock dev fuel -> 0 <= trrc (g_nic s) < 4 ->
  exists s' h', run (handle_packet fuel s buf pkt) dev h = Some (s', h') /\ rx_offset s' = rx_offset s /\
    rx_buf (g_nic s') = rx_buf (g_nic s) /\ ioaddr (g_nic s') = ioaddr (g_nic s) /\ 0 <= trrc (g_nic s') < 4.
Proof.
  intros Hc Hk Ht. unfold handle_packet. destruct (pkt_len pkt <=? 0); [by exists s, h|].
  cbv zeta. destruct (_ =? PTYPE_ARP); [|by eexists _, _]. unfold handle_packet_arp. cbv zeta.
  destruct (_ =? ARP_OPER_REPLY).
  { unfold cache_arp_entry. destruct (Hk h) as (now & h' & E). eexists _, h'. rewrite run_bind, E. by cbn. }
  destruct (_ =? ARP_OPER_REQUEST); [|by eexists _, _].
  destruct (bool_decide _ || bool_decide _); [|by eexists _, _].
  unfold send_arp. change (ARP_OPER_REPLY =? ARP_OPER_REQUEST) with false.
  change (ARP_OPER_REPLY =? ARP_OPER_REPLY) with true. cbn iota. cbn [g_nic set_ram ram].
  destruct (encapsulate_ethernet _ _ _ _ _ _) as [m' len].
  destruct (send_packet_run dev fuel (g_nic s) buf len h Hc Ht) as (h' & Hs & _).
  eexists _, h'. rewrite run_bind, Hs. cbn [mbind option_bind]. rewrite run_ret. cbn. split_and!; try done.
  - apply Z.mod_pos_bound. lia.
  - apply Z.mod_pos_bound. lia.
Qed.

Lemma align4 x : 0 <= x < 2 ^ 32 -> u32 (Z.land x (Z.lnot 3)) = x / 4 * 4.
Proof.
  intros Hx. rewrite <- Z.ldiff_land. change 3 with (Z.ones 2). rewrite Z.ldiff_ones_r, Z.shiftl_mul_pow2, Z.shiftr_div_pow2 by lia.
  change (2 ^ 2) with 4. change (2 ^ 32) with 4294967296 in Hx. apply u32_small. zlia.
Qed.

(** ** Theorems *)

(** C13: the ARP cache is a finite map from usable addresses to hardware
    addresses; an address is usable when its first byte is not zero (the code
    takes an entry whose address starts with a zero for a free slot: arp.c, line
    12). After any history of learnt replies, all from usable addresses, and
    expiry runs, under a clock that does not run backwards, find_mac_in_cache
    returns for every usable address what was learnt for it last, unless that
    has been expired or there was no slot for it when it came; entries that an
    earlier expiry has left behind in later slots never show. *)
Theorem arp_cache_refines ops ip :
  history_ok 0 ops -> usable ip ->
  let '(c, M) := fold_left cache_step ops (replicate ARP_CACHE_SIZE empty_entry, ∅) in
  length c = ARP_CACHE_SIZE /\ find_mac_in_cache c ip = fst <$> M !! ip.
Proof.
  intros Hops Hip.
  pose proof (cache_history (replicate ARP_CACHE_SIZE empty_entry) ∅ 0 ops ltac:(lia)) as H.
  destruct (fold_left _ _ _) as [c M]. destruct H as [L E]; [|done|done|].
  - simpl. split_and!; try lia; repeat constructor; simpl; lia.
  - split; [done|]. rewrite find_mac_map by done. by rewrite E.
Qed.

(** Fact: a sequence of packets goes out through the four transmit descriptors
    in turn: each packet's address and length are written to the next
    descriptor's registers, in the order of the packets, nothing else is
    written, and the counter always stays below four. *)
Theorem send_packets_round_robin dev fuel n pkts h :
  card dev fuel (ioaddr n) -> 0 <= trrc n < 4 ->
  exists n' h', run (io_fold (fun p n => send_packet fuel n (fst p) (snd p)) pkts n) dev h = Some (n', h') /\
    trrc n' = (trrc n + zlen pkts) mod 4 /\ outs h' = sequence_writes (ioaddr n) (trrc n) pkts ++ outs h.
Proof.
  revert n h. induction pkts as [|[p l] pkts IH]; intros n h Hc Ht; cbn [io_fold].
  { exists n, h. split_and!; [done| |done]. change (zlen []) with 0. rewrite Z.mod_small; lia. }
  destruct (send_packet_run dev fuel n p l h Hc Ht) as (h1 & E1 & O1).
  rewrite run_bind. cbn [fst snd]. rewrite E1. cbn [mbind option_bind].
  destruct (IH (next_trrc n) h1 Hc) as (n' & h' & E2 & T2 & O2); [apply Z.mod_pos_bound; lia|].
  exists n', h'. split; [done|]. split.
  - rewrite T2, zlen_cons. cbn [next_trrc trrc]. zlia.
  - rewrite O2, O1. cbn [sequence_writes next_trrc trrc ioaddr]. by rewrite <- app_assoc.
Qed.

(** C31: receiving keeps the position in the ring and the buffer bounds: from a
    4-aligned position below 8192, for a packet whose length field is between 9
    and 6064, the packet lies inside the allocated buffer, the packet is
    handled and acknowledged, and the position moves behind it, rounded up to 4
    and wrapped at 8192, where the card places the next one. *)
Theorem receive_packet_ring dev fuel s buf h :
  card dev fuel (ioaddr (g_nic s)) -> clock dev fuel -> 0 <= trrc (g_nic s) < 4 ->
  0 <= rx_buf (g_nic s) -> rx_buf (g_nic s) + RX_BUFFER_LEN <= 2 ^ 32 ->
  0 <= rx_offset s < RX_BUFFER_SIZE -> rx_offset s mod 4 = 0 ->
  let len := ld16 (ram s) (rx_buf (g_nic s) + rx_offset s + 2) in 9 <= len <= 6064 ->
  exists s' h', run (receive_packet fuel s buf) dev h = Some (s', h') /\
    rx_offset s + 4 + len <= RX_BUFFER_LEN /\
    rx_offset s' = ((rx_offset s + 4 + len + 3) / 4 * 4) mod RX_BUFFER_SIZE /\
    0 <= rx_offset s' < RX_BUFFER_SIZE /\ rx_offset s' mod 4 = 0 /\
    exists h'', h' = Out 16 (ioaddr (g_nic s) + RTL8139_OFFSET_CAPR) (u16 (rx_offset s' - 16)) :: h''.
Proof.
  intros Hc Hk Ht Hb1 Hb2 Ho Hm len Hlen. change (2 ^ 32) with 4294967296 in Hb2.
  unfold RX_BUFFER_LEN, RX_BUFFER_SIZE in *. unfold receive_packet.
  rewrite (u32_small (rx_buf (g_nic s))), (u32_small (rx_buf _ + rx_offset s)) by lia. fold len. cbv zeta.
  cbn [pkt_len]. unfold RTL8139_RX_CRC_LEN. assert (s16 (len - 4) = len - 4) as -> by ulia.
  destruct (Z.leb_spec (len - 4) 4); [lia|].
  set (pkt := Packet _ _ _).
  destruct (handle_packet_total dev fuel s buf pkt h Hc Hk Ht) as (s1 & h1 & E & R1 & R2 & R3 & _).
  rewrite run_bind, E. cbn [mbind option_bind]. rewrite R1.
  rewrite (u32_small (rx_offset s + _ + _)), align4 by (change (2 ^ 32) with 4294967296; lia).
  set (o := (rx_offset s + (len - 4) + (8 + 3)) / 4 * 4).
  assert (0 <= o < 16384 /\ o mod 4 = 0) as [Ho1 Ho2] by (unfold o; zlia).
  unfold RX_BUFFER_SIZE. set (o' := o - _). assert (u32 o' = o') as ->.
  { apply u32_small. unfold o'. destruct (Z.leb_spec (8 * 1024) o); lia. }
  assert (o' = o mod 8192) as Ho' by (unfold o'; destruct (Z.leb_spec (8 * 1024) o); zlia).
  run_io. eexists _, _. split; [reflexivity|]. cbn [rx_offset set_rx_offset]. split_and!.
  - zlia.
  - rewrite Ho'. unfold o. do 3 f_equal. lia.
  - zlia.
  - zlia.
  - zlia.
  - rewrite R3. eexists. do 2 f_equal. change 0xFFFF with (Z.ones 16). rewrite Z.land_ones by lia.
    change (2 ^ 16) with 65536. ulia.
Qed.

(** Fact: an ARP request for the own address is answered: handle_packet sends one
    frame, addressed to the requester, with an ARP reply that names the own
    hardware and network address and returns the requester's. *)
Theorem arp_request_answered dev fuel s buf pkt sha spa tha h :
  card dev fuel (ioaddr (g_nic s)) -> 0 <= trrc (g_nic s) < 4 -> 0 < pkt_len pkt ->
  addr_ok 6 (mac (g_nic s)) -> addr_ok 4 (ipv4 (g_nic s)) -> addr_ok 6 sha -> addr_ok 4 spa -> addr_ok 6 tha ->
  arp_in (ram s) (pkt_data pkt) ARP_OPER_REQUEST sha spa tha (ipv4 (g_nic s)) [0; 0] ->
  exists s' h', run (handle_packet fuel s buf pkt) dev h = Some (s', h') /\
    bytes_at (ram s') buf (arp_frame ARP_OPER_REPLY sha (mac (g_nic s)) (ipv4 (g_nic s)) sha spa) /\
    outs h' = descriptor_writes (ioaddr (g_nic s)) (trrc (g_nic s)) buf 60 ++ outs h /\
    arp_cache s' = arp_cache s.
Proof.
  intros Hc Ht Hl Hmac Hip H1 H2 H3 Harp. pose proof Harp as [Hty _]. unfold handle_packet.
  destruct (Z.leb_spec (pkt_len pkt) 0); [lia|]. rewrite (ld16_at _ _ _ _ Hty). cbv zeta.
  change (be16toh (8 + 256 * 6)) with PTYPE_ARP. rewrite Z.eqb_refl.
  set (s0 := set_ram s _).
  destruct (arp_fields (ram s0) (pkt_data pkt + 14) ARP_OPER_REQUEST sha spa tha (ipv4 (g_nic s)) [0; 0])
    as [F1 F2 F3 F4]; try done; [by eapply arp_in_swap|].
  unfold handle_packet_arp, sizeof_ethernet_header. cbv zeta. rewrite F1, F2, F3.
  change (ARP_OPER_REQUEST =? ARP_OPER_REPLY) with false. rewrite Z.eqb_refl. cbn iota.
  rewrite (bool_decide_eq_true_2 (mbytes _ (_ + 24) _ = _)) by exact F4. cbn [orb].
  destruct (send_arp_run dev fuel s0 buf ARP_OPER_REPLY (mac (g_nic s)) (ipv4 (g_nic s)) sha spa h)
    as (m' & h' & E & L & _ & O); try done; [by right|].
  exists (with_ram_nic s0 m' (next_trrc (g_nic s0))), h'. split_and!; done.
Qed.

(** Fact: an ARP reply is learnt: after handle_packet the sender's hardware
    address is what find_mac_in_cache returns for its network address, at the
    time read from the clock, provided the cache has a slot for it; nothing is
    sent and no other address changes. *)
Theorem arp_reply_learnt dev fuel s buf pkt sha spa tha tpa rest h :
  clock dev fuel -> 0 < pkt_len pkt -> addr_ok 6 sha -> addr_ok 4 spa -> addr_ok 6 tha -> addr_ok 4 tpa ->
  usable spa -> has_room (arp_cache s) spa = true ->
  arp_in (ram s) (pkt_data pkt) ARP_OPER_REPLY sha spa tha tpa rest ->
  exists s' h', run (handle_packet fuel s buf pkt) dev h = Some (s', h') /\ g_nic s' = g_nic s /\
    find_mac_in_cache (arp_cache s') spa = Some sha /\
    (forall ip, usable ip -> ip <> spa -> find_mac_in_cache (arp_cache s') ip = find_mac_in_cache (arp_cache s) ip).
Proof.
  intros Hk Hl H1 H2 H3 H4 Hu Hroom Harp. pose proof Harp as [Hty _]. unfold handle_packet.
  destruct (Z.leb_spec (pkt_len pkt) 0); [lia|]. rewrite (ld16_at _ _ _ _ Hty). cbv zeta.
  change (be16toh (8 + 256 * 6)) with PTYPE_ARP. rewrite Z.eqb_refl.
  set (s0 := set_ram s _).
  destruct (arp_fields (ram s0) (pkt_data pkt + 14) ARP_OPER_REPLY sha spa tha tpa rest)
    as [F1 F2 F3 _]; try done; [by eapply arp_in_swap|].
  unfold handle_packet_arp, sizeof_ethernet_header. cbv zeta. rewrite F1, F2, F3, Z.eqb_refl.
  unfold cache_arp_entry. destruct (Hk h) as (now & h' & E). rewrite run_bind, E. cbn [mbind option_bind].
  rewrite run_ret. eexists _, h'. split; [reflexivity|]. split; [done|]. cbn [arp_cache set_cache s0 set_ram].
  split.
  - rewrite find_mac_map, cache_loop_map, Hroom by done. by rewrite lookup_insert_eq.
  - intros ip Hip Hne. rewrite !find_mac_map, cache_loop_map, Hroom by done. by rewrite lookup_insert_ne.
Qed.

(** ** Witnesses *)

(** A card that is always done, and a clock that shows zeros. *)
Definition demo_card : device := fun _ w _ => if w =? 32 then 0x8000 else 0.

Lemma demo_card_ok io : card demo_card 1 io.
Proof. intros h k p l Hk. eexists. reflexivity. Qed.

Lemma demo_clock_ok : clock demo_card 1.
Proof.
  intros h. assert (exists t h', run (read_rtc 1 0 0) demo_card h = Some (t, h')) as (t & h' & E)
    by (vm_compute; eexists _, _; reflexivity).
  exists (unix_time t), h'. unfold time. by rewrite run_bind, E.
Qed.

Definition demo_mac : list Z := [0x52; 0x54; 0; 0x12; 0x34; 0x56].
Definition demo_ip : list Z := [10; 0; 0; 24].
Definition demo_peer_mac : list Z := [2; 0; 0; 0; 0; 1].
Definition demo_peer_ip : list Z := [10; 0; 0; 138].

Definition demo_net (m : mem) : net :=
  NetState (Nic 0x100000 0xC000 3 demo_mac demo_ip) 8188 0 (replicate ARP_CACHE_SIZE empty_entry) 0 m.

(** A frame with an ARP message in the ring, behind its status and length. *)
Definition demo_frame (oper : Z) : list Z :=
  [1; 0; 64; 0] ++ ethernet_header demo_mac demo_peer_mac PTYPE_ARP ++
  arp_header oper demo_peer_mac demo_peer_ip (replicate 6 0) demo_ip ++ [0; 0].

Definition demo_ram (oper : Z) : mem := mputs ∅ (0x100000 + 8188) (demo_frame oper).

Lemma demo_addr n l : length l = n -> forallb (fun x => (0 <=? x) && (x <? 256)) l = true -> addr_ok n l.
Proof.
  intros Hl Hb. split; [done|]. apply list.Forall_forall. intros x Hx. rewrite forallb_forall in Hb.
  apply list_elem_of_In in Hx. specialize (Hb x Hx). lia.
Qed.

Lemma demo_arp_in oper : oper = 1 \/ oper = 2 ->
  arp_in (demo_ram oper) (0x100000 + 8192) oper demo_peer_mac demo_peer_ip (replicate 6 0) demo_ip [0; 0].
Proof.
  intros Ho. assert (bytes_at (demo_ram oper) (0x100000 + 8188) (demo_frame oper)) as H.
  { apply bytes_at_mputs. apply (demo_addr (length (demo_frame oper))); [done|].
    destruct Ho as [->| ->]; vm_compute; reflexivity. }
  split.
  - intros [|[|i]] x Hi; simpl in Hi; try done; injection Hi as <-.
    + rewrite <- (H 16%nat 8); [done|]. destruct Ho as [->| ->]; reflexivity.
    + rewrite <- (H 17%nat 6); [done|]. destruct Ho as [->| ->]; reflexivity.
  - intros i x Hi. rewrite <- (H (18 + i)%nat x); [f_equal; lia|].
    change (18 + i)%nat with (length (take 18 (demo_frame oper)) + i)%nat.
    destruct Ho as [->| ->]; exact Hi.
Qed.

Lemma arp_cache_refines_witness :
  let '(c, M) := fold_left cache_step
    [Learn [10; 0; 0; 1] [1; 1; 1; 1; 1; 1] 5; Learn demo_peer_ip demo_peer_mac 10; Expire 30006; Learn demo_peer_ip demo_mac 30007]
    (replicate ARP_CACHE_SIZE empty_entry, ∅) in
  length c = ARP_CACHE_SIZE /\ find_mac_in_cache c demo_peer_ip = fst <$> M !! demo_peer_ip.
Proof.
  refine (arp_cache_refines [Learn [10; 0; 0; 1] [1; 1; 1; 1; 1; 1] 5; Learn demo_peer_ip demo_peer_mac 10; Expire 30006;
    Learn demo_peer_ip demo_mac 30007] demo_peer_ip _ _).
  - simpl. repeat split; try lia; vm_compute; discriminate.
  - vm_compute. discriminate.
Defined.

Lemma send_packets_round_robin_witness :
  exists n' h', run (io_fold (fun p n => send_packet 1 n (fst p) (snd p)) [(0x5000, 60); (0x6000, 90)]
    (Nic 0 0xC000 3 demo_mac demo_ip)) demo_card [] = Some (n', h') /\ trrc n' = 1.
Proof.
  destruct (send_packets_round_robin demo_card 1 (Nic 0 0xC000 3 demo_mac demo_ip) [(0x5000, 60); (0x6000, 90)] []
    (demo_card_ok _) ltac:(simpl; lia)) as (n' & h' & H1 & H2 & _).
  exists n', h'. exact (conj H1 H2).
Defined.

Lemma receive_packet_ring_witness :
  exists s' h', run (receive_packet 1 (demo_net (demo_ram 1)) 0x5000) demo_card [] = Some (s', h') /\ rx_offset s' = 64.
Proof.
  destruct (receive_packet_ring demo_card 1 (demo_net (demo_ram 1)) 0x5000 [] (demo_card_ok _) demo_clock_ok)
    as (s' & h' & H1 & _ & H2 & _);
    [simpl; lia|simpl; lia|vm_compute; discriminate|vm_compute; intuition discriminate|reflexivity|
     vm_compute; intuition discriminate|].
  exists s', h'. split; [exact H1|]. rewrite H2. vm_compute. reflexivity.
Defined.

Lemma arp_request_answered_witness :
  exists s' h', run (handle_packet 1 (demo_net (demo_ram 1)) 0x5000 (Packet 0 60 (0x100000 + 8192))) demo_card [] = Some (s', h') /\
    bytes_at (ram s') 0x5000 (arp_frame ARP_OPER_REPLY demo_peer_mac demo_mac demo_ip demo_peer_mac demo_peer_ip).
Proof.
  destruct (arp_request_answered demo_card 1 (demo_net (demo_ram 1)) 0x5000 (Packet 0 60 (0x100000 + 8192))
    demo_peer_mac demo_peer_ip (replicate 6 0) [] (demo_card_ok _)) as (s' & h' & H1 & H2 & _);
    [simpl; lia|simpl; lia|by apply demo_addr|by apply demo_addr|by apply demo_addr|by apply demo_addr|by apply demo_addr|
     by apply demo_arp_in; left|].
  exists s', h'. exact (conj H1 H2).
Defined.

Lemma arp_reply_learnt_witness :
  exists s' h', run (handle_packet 1 (demo_net (demo_ram 2)) 0x5000 (Packet 0 60 (0x100000 + 8192))) demo_card [] = Some (s', h') /\
    find_mac_in_cache (arp_cache s') demo_peer_ip = Some demo_peer_mac.
Proof.
  destruct (arp_reply_learnt demo_card 1 (demo_net (demo_ram 2)) 0x5000 (Packet 0 60 (0x100000 + 8192))
    demo_peer_mac demo_peer_ip (replicate 6 0) demo_ip [0; 0] [] demo_clock_ok) as (s' & h' & H1 & _ & H2 & _);
    [simpl; lia|by apply demo_addr|by apply demo_addr|by apply demo_addr|by apply demo_addr|
     vm_compute; discriminate|reflexivity|by apply demo_arp_in; right|].
  exists s', h'. exact (conj H1 H2).
Defined.
