(* ===== verification/Ahci.v ===== *)
(** * Ahci: kernel/driver/ahci.c and kernel/include/ahci.h

    The SATA controller driver.  It works on memory-mapped registers, on the
    command structures in memory that the controller reads, and on ports.  The
    controller is a parameter: a function that answers a register read from
    everything read and written before and may change memory (its transfers)
    before it answers.  A driver routine is a computation in the monad [ahci].
    Hardware memory is identity mapped and lies in the physical memory of
    Paging, so that a transfer and an edit of the tables see each other. *)

From S2P Require Import Prelude Mem CStdlib Paging Disk Device Pci.

(** ** Constants *)

Definition AHCI_PCI_CMD_REG_BITS : Z := 3.
Definition AHCI_CONFIG_BAR_NUM : Z := 5.
Definition SATA_SIG_ATAPI : Z := 0xEB140101.
Definition SATA_SIG_SEMB : Z := 0xC33C0101.
Definition SATA_SIG_PM : Z := 0x96690101.
Definition AHCI_DEV_NULL : Z := 0.
Definition AHCI_DEV_SATA : Z := 1.
Definition AHCI_DEV_SEMB : Z := 2.
Definition AHCI_DEV_PM : Z := 3.
Definition AHCI_DEV_SATAPI : Z := 4.
Definition HBA_PxCMD_ST : Z := 0x0001.
Definition HBA_PxCMD_FRE : Z := 0x0010.
Definition HBA_PxCMD_FR : Z := 0x4000.
Definition HBA_PxCMD_CR : Z := 0x8000.
Definition HBA_PORT_IPM_ACTIVE : Z := 1.
Definition HBA_PORT_DET_PRESENT : Z := 3.
Definition ATA_DEV_BUSY : Z := 0x80.
Definition ATA_DEV_DRQ : Z := 0x08.
Definition HBA_PxIS_TFES : Z := 0x40000000.
Definition ATA_CMD_READ_DMA_EX : Z := 0x25.
Definition ATA_CMD_WRITE_DMA_EX : Z := 0x35.
Definition ATA_CMD_IDENTIFY : Z := 0xEC.
Definition FIS_TYPE_REG_H2D : Z := 0x27.
Definition PRDT_SIZE_PER_ENTRY : Z := 16 * 512.
Definition IDENTIFY_TIMEOUT : nat := 100 * 1000.

(** Offsets of the registers in HBA_PORT and HBA_MEM. *)
Definition PORT_CLB : Z := 0x00.
Definition PORT_FB : Z := 0x08.
Definition PORT_IS : Z := 0x10.
Definition PORT_CMD : Z := 0x18.
Definition PORT_TFD : Z := 0x20.
Definition PORT_SIG : Z := 0x24.
Definition PORT_SSTS : Z := 0x28.
Definition PORT_SCTL : Z := 0x2C.
Definition PORT_SACT : Z := 0x34.
Definition PORT_CI : Z := 0x38.
Definition MEM_CAP : Z := 0x00.
Definition MEM_GHC : Z := 0x04.
Definition MEM_PI : Z := 0x0C.
Definition MEM_BOHC : Z := 0x28.
Definition port_of (abar i : Z) : Z := abar + 0x100 + 0x80 * i.

(** ** The machine *)

Inductive access := Rd (addr value : Z) | Wr (addr value : Z).

Record env := Env { pio : device; hba : list access -> mem -> Z -> Z * mem }.

Record sata_disk := SataDisk { sata_id : Z; sata_size : Z; sata_port : Z; sata_bar : Z }.

Record hst := Hst {
  km : mach;
  accesses : list access;
  ptrace : trace;
  cmdslots : Z;
  last_disk_id : Z;
  drives : list sata_disk;
  ahci_devices : list PCIDevice;
}.

(** One physical memory, for the tables of Paging and for the command structures. *)
Definition ram (s : hst) : mem := pm (km s).

Definition set_km (s : hst) (k : mach) : hst :=
  Hst k (accesses s) (ptrace s) (cmdslots s) (last_disk_id s) (drives s) (ahci_devices s).
Definition set_ram (s : hst) (m : mem) : hst := set_km s (set_pm (km s) m).
Definition add_access (s : hst) (a : access) : hst :=
  Hst (km s) (a :: accesses s) (ptrace s) (cmdslots s) (last_disk_id s) (drives s) (ahci_devices s).
Definition set_ptrace (s : hst) (t : trace) : hst :=
  Hst (km s) (accesses s) t (cmdslots s) (last_disk_id s) (drives s) (ahci_devices s).
Definition set_cmdslots (s : hst) (n : Z) : hst :=
  Hst (km s) (accesses s) (ptrace s) n (last_disk_id s) (drives s) (ahci_devices s).
Definition add_disk (s : hst) (d : sata_disk) : hst :=
  Hst (km s) (accesses s) (ptrace s) (cmdslots s) (u64 (last_disk_id s + 1)) (d :: drives s) (ahci_devices s).
Definition add_device (s : hst) (d : PCIDevice) : hst :=
  Hst (km s) (accesses s) (ptrace s) (cmdslots s) (last_disk_id s) (drives s) (d :: ahci_devices s).

Definition ahci (A : Type) : Type := env -> hst -> option (A * hst).

#[export] Instance ahci_ret : MRet ahci := fun A x _ s => Some (x, s).
#[export] Instance ahci_bind : MBind ahci := fun A B f x e s =>
  match x e s with Some (a, s') => f a e s' | None => None end.

Definition ahci_fail {A} : ahci A := fun _ _ => None.

Definition rd (a : Z) : ahci Z := fun e s =>
  let '(v, m) := hba e (accesses s) (ram s) a in Some (v, add_access (set_ram s m) (Rd a v)).
Definition rd32 (a : Z) : ahci Z := v ← rd a; mret (u32 v).
Definition rd64 (a : Z) : ahci Z := v ← rd a; mret (u64 v).
Definition wr (a v : Z) : ahci unit := fun _ s => Some (tt, add_access s (Wr a v)).

Definition get {A} (f : hst -> A) : ahci A := fun _ s => Some (f s, s).
Definition modify (f : hst -> hst) : ahci unit := fun _ s => Some (tt, f s).

Definition lift_io {A} (x : io A) : ahci A := fun e s =>
  '(a, t) ← x (pio e) (ptrace s); Some (a, set_ptrace s t).

(** hardware_allocate_mem on the paging state; [kpid] is the kernel's process. *)
Definition hardware_alloc (kpid size alignment : Z) : ahci Z := fun _ s =>
  '(k, addr) ← hardware_allocate_mem (km s) kpid size alignment; Some (addr, set_km s k).

(** The node of a drive or a device; the lists are values. *)
Definition hardware_append_node (kpid : Z) (f : hst -> hst) : ahci unit :=
  _ ← hardware_alloc kpid 16 0; modify f.

(** while (register & mask); *)
Fixpoint poll_clear (fuel : nat) (a mask : Z) : ahci unit :=
  v ← rd32 a;
  if Z.land v mask =? 0 then mret tt
  else match fuel with O => ahci_fail | S fuel => poll_clear fuel a mask end.

(** ** Ports *)

Definition start_cmd (fuel : nat) (port : Z) : ahci unit :=
  _ ← poll_clear fuel (port + PORT_CMD) HBA_PxCMD_CR;
  v ← rd32 (port + PORT_CMD);
  _ ← wr (port + PORT_CMD) (Z.lor v HBA_PxCMD_FRE);
  v ← rd32 (port + PORT_CMD);
  wr (port + PORT_CMD) (Z.lor v HBA_PxCMD_ST).

Definition port_reset (port : Z) : ahci unit :=
  _ ← wr (port + PORT_SCTL) 0x301;
  wr (port + PORT_SCTL) 0x300.

(** The loop of stop_cmd: both tests, each with its own read. *)
Fixpoint stop_loop (fuel : nat) (port : Z) : ahci unit :=
  v ← rd32 (port + PORT_CMD);
  let again := match fuel with O => ahci_fail | S fuel => stop_loop fuel port end in
  if negb (Z.land v HBA_PxCMD_FR =? 0) then again
  else
    v ← rd32 (port + PORT_CMD);
    if negb (Z.land v HBA_PxCMD_CR =? 0) then again else mret tt.

Definition stop_cmd (fuel : nat) (port : Z) : ahci unit :=
  _ ← port_reset port;
  v ← rd32 (port + PORT_CMD);
  _ ← wr (port + PORT_CMD) (u32 (Z.land v (Z.lnot HBA_PxCMD_ST)));
  v ← rd32 (port + PORT_CMD);
  _ ← wr (port + PORT_CMD) (u32 (Z.land v (Z.lnot HBA_PxCMD_FRE)));
  stop_loop fuel port.

(** The 32 command headers, each with a cleared table of its own. *)
Fixpoint rebase_headers (k : nat) (kpid cmdheader i : Z) : ahci unit :=
  match k with
  | O => mret tt
  | S k =>
      _ ← modify (fun s => set_ram s (st16 (ram s) (cmdheader + 32 * i + 2) 8));
      ctba ← hardware_alloc kpid 0x100 0x100;
      _ ← modify (fun s => set_ram s (memset (st64 (ram s) (cmdheader + 32 * i + 8) ctba) ctba 0 0x100));
      rebase_headers k kpid cmdheader (i + 1)
  end.

Definition port_rebase (fuel : nat) (kpid port : Z) : ahci unit :=
  _ ← stop_cmd fuel port;
  clb ← hardware_alloc kpid 0x400 0x400;
  _ ← wr (port + PORT_CLB) clb;
  clb ← rd64 (port + PORT_CLB);
  _ ← modify (fun s => set_ram s (memset (ram s) clb 0 0x400));
  fb ← hardware_alloc kpid 0x100 0x100;
  _ ← wr (port + PORT_FB) fb;
  fb ← rd64 (port + PORT_FB);
  _ ← modify (fun s => set_ram s (memset (ram s) fb 0 0x100));
  cmdheader ← rd64 (port + PORT_CLB);
  _ ← rebase_headers 32 kpid cmdheader 0;
  start_cmd fuel port.

Definition check_type (port : Z) : ahci Z :=
  ssts ← rd32 (port + PORT_SSTS);
  let ipm := Z.land (Z.shiftr ssts 8) 0x0F in
  let det := Z.land ssts 0x0F in
  if negb (det =? HBA_PORT_DET_PRESENT) then mret AHCI_DEV_NULL
  else if negb (ipm =? HBA_PORT_IPM_ACTIVE) then mret AHCI_DEV_NULL
  else
    sig ← rd32 (port + PORT_SIG);
    mret (if sig =? SATA_SIG_ATAPI then AHCI_DEV_SATAPI
          else if sig =? SATA_SIG_SEMB then AHCI_DEV_SEMB
          else if sig =? SATA_SIG_PM then AHCI_DEV_PM
          else AHCI_DEV_SATA).

Fixpoint slot_loop (k : nat) (i slots : Z) : Z :=
  match k with
  | O => -1
  | S k => if Z.land slots 1 =? 0 then i else slot_loop k (i + 1) (Z.shiftr slots 1)
  end.

Definition find_cmdslot (port : Z) : ahci Z :=
  sact ← rd32 (port + PORT_SACT);
  ci ← rd32 (port + PORT_CI);
  n ← get cmdslots;
  mret (slot_loop (Z.to_nat n) 0 (Z.lor sact ci)).

(** ** Command structures in memory

    HBA_CMD_HEADER is 32 bytes: flags, prdtl at 2, ctba at 8.  HBA_CMD_TBL has
    the command FIS at 0 and 16-byte descriptors from 0x80: dba at 0, and at 12
    a word with the byte count in its low 22 bits and the interrupt flag on
    top.  Bit fields are read, changed and written back. *)

Definition sizeof_HBA_CMD_TBL : Z := 144.
Definition sizeof_HBA_PRDT_ENTRY : Z := 16.
Definition sizeof_ATA_IDENTIFY_DEVICE : Z := 512.

Definition set_cfl (m : mem) (h v : Z) : mem := mwrite m h (Z.lor (Z.land (mread m h) (Z.lnot 0x1F)) v).
Definition set_w (m : mem) (h : Z) (w : bool) : mem :=
  mwrite m h (if w then Z.lor (mread m h) 0x40 else Z.land (mread m h) (Z.lnot 0x40)).
Definition prdt_entry (tbl i : Z) : Z := tbl + 128 + sizeof_HBA_PRDT_ENTRY * i.
Definition set_dba (m : mem) (e v : Z) : mem := st64 m e v.
Definition set_dbc (m : mem) (e v : Z) : mem :=
  st32 m (e + 12) (Z.lor (Z.land (ld32 m (e + 12)) (Z.lnot 0x3FFFFF)) (Z.land v 0x3FFFFF)).
Definition set_i (m : mem) (e : Z) : mem := st32 m (e + 12) (Z.lor (ld32 m (e + 12)) (Z.shiftl 1 31)).

(** The full entries: memory, the pointer and the sectors left. *)
Fixpoint prdt_loop (k : nat) (m : mem) (tbl i buf count : Z) : mem * Z * Z :=
  match k with
  | O => (m, buf, count)
  | S k =>
      let e := prdt_entry tbl i in
      let m := set_i (set_dbc (set_dba m e buf) e (PRDT_SIZE_PER_ENTRY - 1)) e in
      prdt_loop k m tbl (i + 1) (u64 (buf + PRDT_SIZE_PER_ENTRY)) (count - PRDT_SIZE_PER_ENTRY / 512)
  end.

(** The register FIS of a transfer. *)
Definition set_fis (m : mem) (tbl command start count : Z) : mem :=
  let m := mwrite m tbl FIS_TYPE_REG_H2D in
  let m := mwrite m (tbl + 1) (Z.lor (mread m (tbl + 1)) 0x80) in
  let m := mwrite m (tbl + 2) command in
  let m := mwrite m (tbl + 4) start in
  let m := mwrite m (tbl + 5) (Z.shiftr start 8) in
  let m := mwrite m (tbl + 6) (Z.shiftr start 16) in
  let m := mwrite m (tbl + 7) (Z.shiftl 1 6) in
  let m := mwrite m (tbl + 8) (Z.shiftr start 24) in
  let m := mwrite m (tbl + 9) (Z.shiftr start 32) in
  let m := mwrite m (tbl + 10) (Z.shiftr start 40) in
  st16 m (tbl + 12) count.

(** Header and table of a transfer of [count] sectors; the second result is the
    buffer pointer, which the code advances as it fills the entries. *)
Definition build_command (m : mem) (hdr : Z) (w last_i : bool) (command start count buf : Z) : mem * Z :=
  let m := set_cfl m hdr (20 / 4) in
  let m := set_w m hdr w in
  let prdtl := u16 (u32 (count + 16 - 1) / 16) in
  let m := st16 m (hdr + 2) prdtl in
  let tbl := ld64 m (hdr + 8) in
  let m := memset m tbl 0 (u64 (sizeof_HBA_CMD_TBL + (prdtl - 1) * sizeof_HBA_PRDT_ENTRY)) in
  let k := Z.to_nat (prdtl - 1) in
  let '(m, buf, count_temp) := prdt_loop k m tbl 0 buf (s32 count) in
  let e := prdt_entry tbl (Z.of_nat k) in
  let m := set_dbc (set_dba m e buf) e (s32 (Z.shiftl count_temp 9) - 1) in
  let m := if last_i then set_i m e else m in
  (set_fis m tbl command start count, buf).

(** ** Issuing a command *)

(** The wait for the port, which is restarted at the millionth turn. *)
Fixpoint wait_idle (fuel : nat) (port spin : Z) : ahci unit :=
  tfd ← rd32 (port + PORT_TFD);
  if Z.land tfd (Z.lor ATA_DEV_BUSY ATA_DEV_DRQ) =? 0 then mret tt
  else
    match fuel with
    | O => ahci_fail
    | S fuel =>
        let spin := spin + 1 in
        _ ← (if spin =? 1000000 then _ ← stop_cmd fuel port; start_cmd fuel port else mret tt);
        _ ← lift_io io_wait;
        wait_idle fuel port spin
    end.

Inductive outcome := Done | Failed | TimedOut.

(** The wait for completion: at most [timeout] turns. *)
Fixpoint wait_done (timeout : nat) (port slot : Z) : ahci outcome :=
  match timeout with
  | O => mret TimedOut
  | S timeout =>
      ci ← rd32 (port + PORT_CI);
      if Z.land ci (Z.shiftl 1 slot) =? 0 then mret Done
      else
        istat ← rd32 (port + PORT_IS);
        if negb (Z.land istat HBA_PxIS_TFES =? 0) then mret Failed
        else wait_done timeout port slot
  end.

(** From the filled command table to the result; [retry] is the recursive call
    after a timeout. *)
Definition run_command (fuel : nat) (port slot : Z) (retry : ahci bool) : ahci bool :=
  _ ← wait_idle fuel port 0;
  _ ← wr (port + PORT_CI) (u32 (Z.shiftl 1 slot));
  r ← wait_done IDENTIFY_TIMEOUT port slot;
  match r with
  | Failed => mret false
  | TimedOut => _ ← stop_cmd fuel port; _ ← start_cmd fuel port; retry
  | Done =>
      istat ← rd32 (port + PORT_IS);
      mret (Z.land istat HBA_PxIS_TFES =? 0)
  end.

(** read_ahci and write_ahci: the same steps but for the direction, the command
    and the interrupt flag of the last entry.  A retry starts from the advanced
    buffer pointer. *)
Fixpoint transfer_ahci (fuel : nat) (w last_i : bool) (command port start count buf : Z) : ahci bool :=
  _ ← wr (port + PORT_IS) 0xFFFFFFFF;
  slot ← find_cmdslot port;
  if slot =? -1 then mret false
  else
    clb ← rd64 (port + PORT_CLB);
    m ← get ram;
    let '(m, buf) := build_command m (clb + 32 * slot) w last_i command start count buf in
    _ ← modify (fun s => set_ram s m);
    run_command fuel port slot
      (match fuel with
       | O => ahci_fail
       | S fuel => transfer_ahci fuel w last_i command port start count buf
       end).

Definition read_ahci (fuel : nat) : Z -> Z -> Z -> Z -> ahci bool := transfer_ahci fuel false true ATA_CMD_READ_DMA_EX.
Definition write_ahci (fuel : nat) : Z -> Z -> Z -> Z -> ahci bool := transfer_ahci fuel true false ATA_CMD_WRITE_DMA_EX.

(** The identify command: one entry of 512 bytes. *)
Definition build_identify (m : mem) (hdr buf : Z) : mem :=
  let m := set_cfl m hdr (20 / 4) in
  let m := set_w m hdr false in
  let m := st16 m (hdr + 2) 1 in
  let tbl := ld64 m (hdr + 8) in
  let m := memset m tbl 0 (sizeof_HBA_CMD_TBL + (1 - 1) * sizeof_HBA_PRDT_ENTRY) in
  let e := prdt_entry tbl 0 in
  let m := set_dbc (set_dba m e buf) e (sizeof_ATA_IDENTIFY_DEVICE - 1) in
  let m := memset m tbl 0 8 in
  let m := mwrite m tbl FIS_TYPE_REG_H2D in
  let m := mwrite m (tbl + 1) (Z.lor (mread m (tbl + 1)) 0x80) in
  let m := mwrite m (tbl + 7) (Z.shiftl 1 6) in
  mwrite m (tbl + 2) ATA_CMD_IDENTIFY.

Fixpoint get_identify_sata (fuel : nat) (port buf : Z) : ahci bool :=
  _ ← wr (port + PORT_IS) 0xFFFFFFFF;
  slot ← find_cmdslot port;
  if slot =? -1 then mret false
  else
    clb ← rd64 (port + PORT_CLB);
    _ ← modify (fun s => set_ram s (build_identify (ram s) (clb + 32 * slot) buf));
    run_command fuel port slot
      (match fuel with O => ahci_fail | S fuel => get_identify_sata fuel port buf end).

(** ** Finding drives *)

Definition probe_one (fuel : nat) (kpid abar i : Z) : ahci unit :=
  _ ← port_reset (port_of abar i);
  dt ← check_type (port_of abar i);
  if dt =? AHCI_DEV_SATA then
    _ ← port_rebase fuel kpid (port_of abar i);
    ata_id ← hardware_alloc kpid sizeof_ATA_IDENTIFY_DEVICE 0;
    _ ← get_identify_sata fuel (port_of abar i) ata_id;
    _ ← hardware_alloc kpid 72 0;
    sectors ← get (fun s => ld32 (ram s) (ata_id + 120));
    hardware_append_node kpid (fun s => add_disk s (SataDisk (last_disk_id s) (u32 (sectors * 512)) (port_of abar i) abar))
  else mret tt.

Fixpoint probe_loop (k : nat) (fuel : nat) (kpid abar pi i : Z) : ahci unit :=
  match k with
  | O => mret tt
  | S k =>
      _ ← (if negb (Z.land pi 1 =? 0) then probe_one fuel kpid abar i else mret tt);
      probe_loop k fuel kpid abar (Z.shiftr pi 1) (i + 1)
  end.

Definition probe_port (fuel : nat) (kpid abar : Z) : ahci unit :=
  pi ← rd32 (abar + MEM_PI);
  probe_loop 32 fuel kpid abar pi 0.

Fixpoint poll_set (fuel : nat) (a mask : Z) : ahci unit :=
  v ← rd32 a;
  if negb (Z.land v mask =? 0) then mret tt
  else match fuel with O => ahci_fail | S fuel => poll_set fuel a mask end.

Definition initialize_ahci (fuel : nat) (abar : Z) : ahci unit :=
  _ ← poll_clear fuel (abar + MEM_BOHC) 1;
  v ← rd32 (abar + MEM_BOHC);
  _ ← wr (abar + MEM_BOHC) (Z.lor v 2);
  _ ← poll_clear fuel (abar + MEM_BOHC) 2;
  v ← rd32 (abar + MEM_GHC);
  _ ← wr (abar + MEM_GHC) (u32 (Z.lor v (Z.lor (Z.shiftl 1 31) 2)));
  _ ← poll_set fuel (abar + MEM_GHC) (Z.shiftl 1 31);
  cap ← rd32 (abar + MEM_CAP);
  modify (fun s => set_cmdslots s (Z.land (Z.shiftr cap 8) 0x1F + 1)).

Fixpoint setup_ahci_controllers (fuel : nat) (kpid : Z) (head : list PCIDevice) : ahci unit :=
  match head with
  | [] => mret tt
  | d :: head =>
      _ ← (if ((classCode d =? 6) || (classCode d =? 1)) && ((subclass d =? 6) || (subclass d =? 1)) then
             k ← get km;
             '(k, abar) ← lift_io (assign_bar k kpid d AHCI_CONFIG_BAR_NUM);
             _ ← modify (fun s => set_km s k);
             if abar =? 0 then mret tt
             else
               v ← lift_io (pci_config_read_dword (bus d) (slot d) (function d) PCI_OFFSET_COMMAND);
               let command_reg := Z.lor (u16 v) AHCI_PCI_CMD_REG_BITS in
               _ ← lift_io (pci_config_write_dword (bus d) (slot d) (function d) PCI_OFFSET_COMMAND command_reg);
               _ ← lift_io (pci_config_write_dword (bus d) (slot d) (function d) PCI_OFFSET_INTERRUPT_LINE 2);
               _ ← initialize_ahci fuel abar;
               _ ← probe_port fuel kpid abar;
               hardware_append_node kpid (fun s => add_device s d)
           else mret tt);
      setup_ahci_controllers fuel kpid head
  end.

(** ** Running *)

Definition arun {A} (x : ahci A) (e : env) (s : hst) : option (A * hst) := x e s.

Lemma arun_bind {A B} (f : A -> ahci B) (x : ahci A) e s :
  arun (x ≫= f) e s = '(a, s') ← arun x e s; arun (f a) e s'.
Proof. unfold arun, mbind, ahci_bind. simpl. by destruct (x e s) as [[a s']|]. Qed.

Lemma arun_ret {A} (a : A) e s : arun (mret a) e s = Some (a, s).
Proof. done. Qed.
Lemma arun_wr a v e s : arun (wr a v) e s = Some (tt, add_access s (Wr a v)).
Proof. done. Qed.
Lemma arun_get {A} (f : hst -> A) e s : arun (get f) e s = Some (f s, s).
Proof. done. Qed.
Lemma arun_modify f e s : arun (modify f) e s = Some (tt, f s).
Proof. done. Qed.

Lemma arun_rd a e s v m : hba e (accesses s) (ram s) a = (v, m) ->
  arun (rd a) e s = Some (v, add_access (set_ram s m) (Rd a v)).
Proof. intros H. unfold arun, rd. by rewrite H. Qed.

Lemma arun_rd32 a e s v m : hba e (accesses s) (ram s) a = (v, m) ->
  arun (rd32 a) e s = Some (u32 v, add_access (set_ram s m) (Rd a v)).
Proof. intros H. unfold rd32. by rewrite arun_bind, (arun_rd _ _ _ _ _ H). Qed.
Lemma arun_rd64 a e s v m : hba e (accesses s) (ram s) a = (v, m) ->
  arun (rd64 a) e s = Some (u64 v, add_access (set_ram s m) (Rd a v)).
Proof. intros H. unfold rd64. by rewrite arun_bind, (arun_rd _ _ _ _ _ H). Qed.

Create Rewrite HintDb ahci.
#[export] Hint Rewrite @arun_bind @arun_ret arun_wr @arun_get arun_modify : ahci.

Ltac run_ahci := repeat (autorewrite with ahci; cbn [mbind option_bind fst snd]).

(** ** What a command says to the controller *)

Definition segment (m : mem) (tbl i : Z) : Z * Z :=
  (ld64 m (prdt_entry tbl i), ld32 m (prdt_entry tbl i + 12) mod 2 ^ 22 + 1).

Definition segments (m : mem) (hdr : Z) : list (Z * Z) :=
  map (segment m (ld64 m (hdr + 8))) (indices (ld16 m (hdr + 2))).

Definition fis_lba (m : mem) (tbl : Z) : Z :=
  mread m (tbl + 4) + 256 * (mread m (tbl + 5) + 256 * (mread m (tbl + 6) + 256 * (mread m (tbl + 8) +
    256 * (mread m (tbl + 9) + 256 * mread m (tbl + 10))))).

(** A command header and table for the transfer of [count] sectors from sector
    [start], as the specification of the structures reads them. *)
Record command_at (m : mem) (hdr : Z) (w : bool) (command start count : Z) (segs : list (Z * Z)) : Prop := {
  ca_cfl : mread m hdr mod 32 = 5;
  ca_w : Z.testbit (mread m hdr) 6 = w;
  ca_fis : mread m (ld64 m (hdr + 8)) = FIS_TYPE_REG_H2D /\ mread m (ld64 m (hdr + 8) + 1) = 0x80;
  ca_command : mread m (ld64 m (hdr + 8) + 2) = command;
  ca_device : mread m (ld64 m (hdr + 8) + 7) = 0x40;
  ca_lba : fis_lba m (ld64 m (hdr + 8)) = start;
  ca_count : ld16 m (ld64 m (hdr + 8) + 12) = count;
  ca_segments : segments m hdr = segs;
}.

(** A contiguous buffer of [n] bytes as [k] full pieces and a last one. *)
Fixpoint chunks (k : nat) (buf n : Z) : list (Z * Z) :=
  match k with
  | O => [(buf, n)]
  | S k => (buf, PRDT_SIZE_PER_ENTRY) :: chunks k (buf + PRDT_SIZE_PER_ENTRY) (n - PRDT_SIZE_PER_ENTRY)
  end.

(** ** Lemmas: descriptors *)

Lemma dbc_zero v : 0 <= v < 2 ^ 22 -> Z.lor (Z.land 0 (Z.lnot 0x3FFFFF)) (Z.land v 0x3FFFFF) = v.
Proof. intros Hv. rewrite Z.land_0_l, Z.lor_0_l. change 0x3FFFFF with (Z.ones 22). rewrite Z.land_ones, Z.mod_small by lia. done. Qed.

Lemma flag_word v : 0 <= v < 2 ^ 22 -> Z.lor v (Z.shiftl 1 31) = v + 2 ^ 31.
Proof.
  intros Hv. change (2 ^ 22) with 4194304 in Hv. rewrite lor_add_disjoint by (change (2 ^ 31) with 2147483648; lia). lia.
Qed.

(** One entry of a cleared table. *)
Lemma entry_filled m e a v (flag : bool) : ld32 m (e + 12) = 0 -> 0 <= a < 2 ^ 64 -> 0 <= v < 2 ^ 22 ->
  let m1 := set_dbc (set_dba m e a) e v in
  let m' := if flag then set_i m1 e else m1 in
  ld64 m' e = a /\ ld32 m' (e + 12) mod 2 ^ 22 = v /\
  (forall b, b < e \/ e + 16 <= b -> mread m' b = mread m b).
Proof.
  intros Hz Ha Hv m1 m'.
  assert (ld32 m1 (e + 12) = v) as H1.
  { unfold m1, set_dbc, set_dba. rewrite ld32_st32.
    rewrite load_store_out by (simpl; lia). rewrite Hz, dbc_zero by done.
    apply u32_small. change (2 ^ 22) with 4194304 in Hv. lia. }
  assert (ld64 m1 e = a) as H2.
  { unfold m1, set_dbc, set_dba. rewrite load_store_out by (simpl; lia). rewrite ld64_st64. by apply u64_small. }
  assert (forall b, b < e \/ e + 16 <= b -> mread m1 b = mread m b) as H3.
  { intros b Hb. unfold m1, set_dbc, set_dba. by rewrite !mread_store_out by (simpl; lia). }
  change (2 ^ 22) with 4194304 in *. unfold m'. destruct flag.
  - unfold set_i. rewrite H1, flag_word by done. split_and!.
    + by rewrite load_store_out by (simpl; lia).
    + rewrite ld32_st32, u32_small by (change (2 ^ 31) with 2147483648; lia). change (2 ^ 31) with (512 * 4194304).
      rewrite Z.mod_add by lia. apply Z.mod_small. lia.
    + intros b Hb. rewrite mread_store_out by (simpl; lia). by apply H3.
  - split_and!; [done| |done]. rewrite H1. apply Z.mod_small. lia.
Qed.

(** The loop fills the first [k] entries from [i] on. *)
Lemma prdt_loop_spec k m tbl i buf c :
  0 <= buf -> buf + 8192 * Z.of_nat k < 2 ^ 64 -> 0 <= i ->
  (forall j, i <= j < i + Z.of_nat k -> ld32 m (prdt_entry tbl j + 12) = 0) ->
  exists m', prdt_loop k m tbl i buf c = (m', buf + 8192 * Z.of_nat k, c - 16 * Z.of_nat k) /\
    (forall j, i <= j < i + Z.of_nat k -> segment m' tbl j = (buf + 8192 * (j - i), 8192)) /\
    (forall b, b < prdt_entry tbl i \/ prdt_entry tbl (i + Z.of_nat k) <= b -> mread m' b = mread m b).
Proof.
  unfold prdt_entry, sizeof_HBA_PRDT_ENTRY. revert m i buf c.
  induction k as [|k IH]; intros m i buf c Hb Hlim Hi Hz; cbn [prdt_loop].
  { exists m. split_and!; [f_equal; [f_equal|]; lia|lia|done]. }
  unfold prdt_entry, sizeof_HBA_PRDT_ENTRY, PRDT_SIZE_PER_ENTRY.
  change (2 ^ 64) with 18446744073709551616 in *.
  set (e := tbl + 128 + 16 * i). change (16 * 512 - 1) with 8191. change (16 * 512) with 8192. change (8192 / 512) with 16.
  destruct (entry_filled m e buf 8191 true) as (E1 & E2 & E3); [apply Hz; lia|lia|done|].
  set (m1 := set_i _ _) in *. rewrite u64_small by lia.
  destruct (IH m1 (i + 1) (buf + 8192) (c - 16)) as (m' & F1 & F2 & F3); [lia|lia|lia| |].
  { intros j Hj. rewrite <- (Hz j) by lia. apply load_ext. intros x Hx. apply E3. simpl in Hx. unfold e. lia. }
  exists m'. rewrite F1. split_and!; [f_equal; [f_equal|]; lia| |].
  - intros j Hj. destruct (Z.eq_dec j i) as [->|Hne].
    + unfold segment, prdt_entry, sizeof_HBA_PRDT_ENTRY. fold e.
      assert (ld64 m' e = ld64 m1 e) as -> by (apply load_ext; intros x Hx; apply F3; simpl in Hx; unfold e in *; lia).
      assert (ld32 m' (e + 12) = ld32 m1 (e + 12)) as -> by (apply load_ext; intros x Hx; apply F3; simpl in Hx; unfold e in *; lia).
      rewrite E1, E2. f_equal; lia.
    + rewrite F2 by lia. f_equal. lia.
  - intros b Hb'. rewrite F3 by (unfold e in *; lia). apply E3. unfold e. lia.
Qed.

(** ** Lemmas: the command *)

Ltac byte_at :=
  repeat first [ rewrite mread_mwrite_eq | rewrite mread_mwrite_ne by lia | rewrite mread_store_out by (simpl; lia) ].

Lemma lba_bytes x : 0 <= x < 2 ^ 48 ->
  u8 x + 256 * (u8 (Z.shiftr x 8) + 256 * (u8 (Z.shiftr x 16) + 256 * (u8 (Z.shiftr x 24) +
    256 * (u8 (Z.shiftr x 32) + 256 * u8 (Z.shiftr x 40))))) = x.
Proof.
  intros Hx. rewrite !Z.shiftr_div_pow2 by lia. change (2 ^ 48) with 281474976710656 in Hx.
  change (2 ^ 8) with 256. change (2 ^ 16) with 65536. change (2 ^ 24) with 16777216. change (2 ^ 32) with 4294967296.
  change (2 ^ 40) with 1099511627776. ulia.
Qed.

Lemma set_fis_spec m tbl command start count :
  0 <= command < 256 -> 0 <= start < 2 ^ 48 -> 0 <= count < 65536 -> mread m (tbl + 1) = 0 ->
  let m' := set_fis m tbl command start count in
  (mread m' tbl = 0x27 /\ mread m' (tbl + 1) = 0x80) /\ mread m' (tbl + 2) = command /\ mread m' (tbl + 7) = 0x40 /\
  fis_lba m' tbl = start /\ ld16 m' (tbl + 12) = count /\
  (forall b, b < tbl \/ tbl + 14 <= b -> mread m' b = mread m b).
Proof.
  intros Hc Hs Hn Hz m'. unfold m', set_fis, fis_lba. cbv zeta. split_and!.
  - byte_at. done.
  - byte_at. rewrite Hz. done.
  - byte_at. by apply u8_small.
  - byte_at. done.
  - byte_at. by apply lba_bytes.
  - rewrite ld16_st16. by apply u16_small.
  - intros b Hb. byte_at. done.
Qed.

Lemma header_byte (x : Z) (w : bool) : 0 <= x < 256 ->
  let y := u8 (Z.lor (Z.land x (Z.lnot 0x1F)) (20 / 4)) in
  let z := u8 (if w then Z.lor y 0x40 else Z.land y (Z.lnot 0x40)) in
  z mod 32 = 5 /\ Z.testbit z 6 = w.
Proof.
  intros Hx y z.
  pose proof (all_below_spec 256 (fun x =>
    let y := u8 (Z.lor (Z.land x (Z.lnot 0x1F)) (20 / 4)) in
    forallb (fun w : bool => let z := u8 (if w then Z.lor y 0x40 else Z.land y (Z.lnot 0x40)) in
      (z mod 32 =? 5) && eqb (Z.testbit z 6) w) [true; false]) x ltac:(vm_compute; reflexivity) Hx) as H.
  cbn [forallb] in H. fold y in H. rewrite andb_true_r in H. apply andb_prop in H as [H1 H2].
  unfold z. destruct w.
  - apply andb_prop in H1 as [H3 H4]. apply eqb_prop in H4. split; [lia|done].
  - apply andb_prop in H2 as [H3 H4]. apply eqb_prop in H4. split; [lia|done].
Qed.

Lemma chunks_lookup k buf n i : chunks k buf n !! i =
  if decide (i < k)%nat then Some (buf + 8192 * Z.of_nat i, 8192)
  else if decide (i = k) then Some (buf + 8192 * Z.of_nat k, n - 8192 * Z.of_nat k) else None.
Proof.
  revert buf n i. induction k as [|k IH]; intros buf n [|i]; simpl.
  - f_equal. f_equal; lia.
  - done.
  - f_equal. f_equal. lia.
  - rewrite IH. unfold PRDT_SIZE_PER_ENTRY. repeat case_decide; try lia; f_equal; f_equal; lia.
Qed.

Lemma segments_chunks (f : Z -> Z * Z) k buf n :
  (forall j, 0 <= j < Z.of_nat k -> f j = (buf + 8192 * j, 8192)) ->
  f (Z.of_nat k) = (buf + 8192 * Z.of_nat k, n - 8192 * Z.of_nat k) ->
  map f (indices (Z.of_nat k + 1)) = chunks k buf n.
Proof.
  intros H1 H2. apply list_eq. intros i. rewrite chunks_lookup, list_lookup_fmap.
  destruct (Nat.le_gt_cases i k).
  - rewrite indices_lookup by lia. simpl. repeat case_decide; try lia.
    + f_equal. rewrite H1 by lia. done.
    + subst i. f_equal. exact H2.
  - rewrite lookup_ge_None_2 by (pose proof (indices_length (Z.of_nat k + 1)); unfold zlen in *; lia).
    repeat case_decide; (lia || done).
Qed.

(** The command that is built: 1 to 128 sectors fit in the eight entries of a
    256-byte table. *)
Lemma build_command_spec m hdr w last_i command start count buf :
  0 <= command < 256 -> 0 <= start < 2 ^ 48 -> 1 <= count <= 128 -> 0 <= buf -> buf + 512 * count < 2 ^ 64 ->
  let tbl := ld64 m (hdr + 8) in hdr + 32 <= tbl \/ tbl + 256 <= hdr ->
  exists m', build_command m hdr w last_i command start count buf = (m', buf + 8192 * ((count - 1) / 16)) /\
    command_at m' hdr w command start count (chunks (Z.to_nat ((count - 1) / 16)) buf (512 * count)) /\
    ld64 m' (hdr + 8) = tbl /\
    (forall b, b < hdr \/ hdr + 4 <= b -> b < tbl \/ tbl + 256 <= b -> mread m' b = mread m b).
Proof.
  intros Hcmd Hstart Hcount Hb Hlim tbl Hdisj. unfold build_command. change (2 ^ 64) with 18446744073709551616 in *.
  set (k := (count - 1) / 16). assert (0 <= k <= 7 /\ 16 * k < count <= 16 * k + 16) as [Hk1 Hk2] by (unfold k; zlia).
  assert (u16 (u32 (count + 16 - 1) / 16) = k + 1) as -> by (rewrite u32_small, u16_small by zlia; unfold k; zlia).
  replace (k + 1 - 1) with k by lia. rewrite (s32_small count) by lia.
  set (m1 := st16 (set_w (set_cfl m hdr (20 / 4)) hdr w) (hdr + 2) (k + 1)).
  assert (forall b, b < hdr \/ hdr + 4 <= b -> mread m1 b = mread m b) as M1.
  { intros b Hb'. unfold m1, set_w, set_cfl. byte_at. done. }
  assert (ld64 m1 (hdr + 8) = tbl) as T1 by (apply load_ext; intros j Hj; simpl in Hj; apply M1; lia).
  cbv zeta. rewrite T1. unfold sizeof_HBA_CMD_TBL, sizeof_HBA_PRDT_ENTRY. rewrite (u64_small (144 + k * 16)) by lia.
  set (m2 := memset m1 tbl 0 (144 + k * 16)).
  assert (forall b, tbl <= b < tbl + 144 + k * 16 -> mread m2 b = 0) as Z2 by (intros b Hb'; unfold m2; by rewrite memset_in by lia).
  assert (forall b, b < tbl \/ tbl + 144 + k * 16 <= b -> mread m2 b = mread m1 b) as M2 by (intros b Hb'; apply memset_out; lia).
  assert (forall j, 0 <= j <= k -> ld32 m2 (prdt_entry tbl j + 12) = 0) as Z3.
  { intros j Hj. unfold m2. apply load_memset_zero; unfold prdt_entry, sizeof_HBA_PRDT_ENTRY; simpl; lia. }
  destruct (prdt_loop_spec (Z.to_nat k) m2 tbl 0 buf count) as (m3 & E3 & S3 & M3); [lia|lia|lia| |].
  { intros j Hj. apply Z3. lia. }
  rewrite Z2Nat.id in E3, S3, M3 by lia. rewrite E3, Z2Nat.id by lia.
  unfold prdt_entry, sizeof_HBA_PRDT_ENTRY in M3. set (e := prdt_entry tbl k). unfold prdt_entry, sizeof_HBA_PRDT_ENTRY in e.
  assert (s32 ((count - 16 * k) ≪ 9) - 1 = 512 * (count - 16 * k) - 1) as ->.
  { rewrite Z.shiftl_mul_pow2 by lia. change (2 ^ 9) with 512. rewrite s32_small by lia. lia. }
  destruct (entry_filled m3 e (buf + 8192 * k) (512 * (count - 16 * k) - 1) last_i) as (F1 & F2 & F3).
  { rewrite <- (Z3 k) by lia. apply load_ext. intros j Hj. simpl in Hj. apply M3. unfold prdt_entry, sizeof_HBA_PRDT_ENTRY in *.
    unfold e. lia. }
  { change (2 ^ 64) with 18446744073709551616. lia. }
  { change (2 ^ 22) with 4194304. lia. }
  cbv zeta in F1, F2, F3. set (m4 := if last_i then _ else _) in *.
  assert (mread m4 (tbl + 1) = 0) as Z4 by (rewrite F3, M3 by (unfold e; lia); apply Z2; lia).
  destruct (set_fis_spec m4 tbl command start count Hcmd Hstart ltac:(lia) Z4) as (G1 & G2 & G3 & G4 & G5 & G6).
  set (m5 := set_fis m4 tbl command start count) in *.
  exists m5. split; [done|].
  assert (forall b, b < tbl \/ tbl + 256 <= b -> mread m5 b = mread m1 b) as M5.
  { intros b Hb'. rewrite G6, F3, M3, M2 by (unfold e; lia). done. }
  assert (ld64 m5 (hdr + 8) = tbl) as T5 by (rewrite <- T1; apply load_ext; intros j Hj; simpl in Hj; apply M5; lia).
  split_and!; [|done|intros b Hb1 Hb2; rewrite M5, M1 by done; done].
  constructor; rewrite ?T5; try done.
  - rewrite M5 by lia. unfold m1, set_w, set_cfl. byte_at. by apply header_byte, mread_range.
  - rewrite M5 by lia. unfold m1, set_w, set_cfl. byte_at. by apply header_byte, mread_range.
  - unfold segments. rewrite T5.
    assert (ld16 m5 (hdr + 2) = k + 1) as ->.
    { transitivity (ld16 m1 (hdr + 2)); [apply load_ext; intros j Hj; simpl in Hj; apply M5; lia|].
      unfold m1. rewrite ld16_st16. apply u16_small. lia. }
    assert (forall j, 0 <= j <= k -> ld64 m5 (prdt_entry tbl j) = ld64 m4 (prdt_entry tbl j) /\
      ld32 m5 (prdt_entry tbl j + 12) = ld32 m4 (prdt_entry tbl j + 12)) as L5.
    { intros j Hj. unfold prdt_entry, sizeof_HBA_PRDT_ENTRY.
      split; apply load_ext; intros x Hx; simpl in Hx; apply G6; lia. }
    replace (k + 1) with (Z.of_nat (Z.to_nat k) + 1) by lia. apply segments_chunks; rewrite Z2Nat.id by lia.
    + intros j Hj. rewrite <- (Z.sub_0_r j) at 2. rewrite <- S3 by lia. unfold segment.
      destruct (L5 j ltac:(lia)) as [-> ->]. unfold prdt_entry, sizeof_HBA_PRDT_ENTRY.
      f_equal; [|do 2 f_equal]; apply load_ext; intros x Hx; simpl in Hx; apply F3; unfold e; lia.
    + unfold segment. destruct (L5 k ltac:(lia)) as [-> ->]. fold e.
      unfold prdt_entry, sizeof_HBA_PRDT_ENTRY. fold e. rewrite F1, F2. f_equal. lia.
Qed.

(** ** The controller

    How many times the command register of a port was read since it was last
    written. *)
Fixpoint polls (ci : Z) (l : list access) : option nat :=
  match l with
  | [] => None
  | Wr a _ :: l => if a =? ci then Some 0%nat else polls ci l
  | Rd a _ :: l => if a =? ci then S <$> polls ci l else polls ci l
  end.

(** What was last written to a register. *)
Fixpoint written (r : Z) (l : list access) : option Z :=
  match l with
  | [] => None
  | Wr a v :: l => if a =? r then Some v else written r l
  | Rd _ _ :: l => written r l
  end.

(** A transfer from the medium into the segments, in order. *)
Fixpoint dma_in (medium : Z -> Z) (off : Z) (segs : list (Z * Z)) (m : mem) : mem :=
  match segs with
  | [] => m
  | (a, n) :: segs => dma_in medium (off + n) segs (mputs m a (map (fun i => medium (off + i)) (indices n)))
  end.

(** What the controller reads from the segments, in order. *)
Definition gather (m : mem) (segs : list (Z * Z)) : list Z :=
  concat (map (fun '(a, n) => mbytes m a (Z.to_nat n)) segs).

(** A drive: its sectors, byte by byte, and the data it identifies itself with. *)
Record drive := Drive { sectors : Z -> Z; identity : Z -> Z }.

(** The command in slot 0, executed: a read transfers sectors into memory, an
    identify command the drive's data; what a write does to the medium is not
    visible in memory. *)
Definition execute (dr : drive) (m : mem) (clb : Z) : mem :=
  let tbl := ld64 m (clb + 8) in
  if Z.testbit (mread m clb) 6 then m
  else if mread m (tbl + 2) =? ATA_CMD_READ_DMA_EX then dma_in (sectors dr) (512 * fis_lba m tbl) (segments m clb) m
  else if mread m (tbl + 2) =? ATA_CMD_IDENTIFY then dma_in (identity dr) 0 (segments m clb) m
  else m.

(** A port of the controller as documented, with an idle drive behind it.  The
    registers for the command list and the received FIS keep what is written;
    the command register keeps its start bits, and its running bits are clear
    when these are; an issued command is executed and its bit cleared at the
    read of the issue register after [lat] others; no errors. *)
Record sata_port_ok (e : env) (port : Z) (dr : drive) (lat : nat) : Prop := {
  sp_clb : forall l m v, written (port + PORT_CLB) l = Some v -> hba e l m (port + PORT_CLB) = (v, m);
  sp_fb : forall l m v, written (port + PORT_FB) l = Some v -> hba e l m (port + PORT_FB) = (v, m);
  sp_cmd : forall l m, exists v, hba e l m (port + PORT_CMD) = (v, m) /\
    forall w, written (port + PORT_CMD) l = Some w ->
      Z.land (u32 v) HBA_PxCMD_ST = Z.land w HBA_PxCMD_ST /\ Z.land (u32 v) HBA_PxCMD_FRE = Z.land w HBA_PxCMD_FRE /\
      (Z.land w HBA_PxCMD_ST = 0 -> Z.land (u32 v) HBA_PxCMD_CR = 0) /\ (Z.land w HBA_PxCMD_FRE = 0 -> Z.land (u32 v) HBA_PxCMD_FR = 0);
  sp_ssts : forall l m, exists v, hba e l m (port + PORT_SSTS) = (v, m) /\
    Z.land (u32 v) 0x0F = HBA_PORT_DET_PRESENT /\ Z.land (Z.shiftr (u32 v) 8) 0x0F = HBA_PORT_IPM_ACTIVE;
  sp_sig : forall l m, exists v, hba e l m (port + PORT_SIG) = (v, m) /\
    u32 v <> SATA_SIG_ATAPI /\ u32 v <> SATA_SIG_SEMB /\ u32 v <> SATA_SIG_PM;
  sp_sact : forall l m, hba e l m (port + PORT_SACT) = (0, m);
  sp_tfd : forall l m, exists v, hba e l m (port + PORT_TFD) = (v, m) /\ Z.land (u32 v) 0x88 = 0;
  sp_is : forall l m, exists v, hba e l m (port + PORT_IS) = (v, m) /\ Z.land (u32 v) HBA_PxIS_TFES = 0;
  sp_ci : forall l m clb, written (port + PORT_CLB) l = Some clb -> hba e l m (port + PORT_CI) =
    match polls (port + PORT_CI) l with
    | Some n => if (n <? lat)%nat then (1, m) else if (n =? lat)%nat then (0, execute dr m clb) else (0, m)
    | None => (0, m)
    end;
}.

(** The registers of a port. *)
Definition of_port (port r : Z) : Prop := port <= r < port + 0x80.

(** The driver has used the port for a command: memory and accesses changed, but
    no register of the port was written except the two of a command, and no
    other port was used. *)
Record kept (port : Z) (s s' : hst) : Prop := Kept {
  k_km : km s' = set_pm (km s) (ram s');
  k_slots : cmdslots s' = cmdslots s;
  k_drives : drives s' = drives s;
  k_last : last_disk_id s' = last_disk_id s;
  k_devices : ahci_devices s' = ahci_devices s;
  k_written : forall r, r <> port + PORT_IS -> r <> port + PORT_CI -> written r (accesses s') = written r (accesses s);
  k_polls : forall c, ~ of_port port c -> polls c (accesses s') = polls c (accesses s);
}.

Lemma kept_read port s m r v : of_port port r -> kept port s (add_access (set_ram s m) (Rd r v)).
Proof.
  intros Hr. split; try done. intros c Hc. cbn [accesses add_access set_ram set_km polls].
  destruct (Z.eqb_spec r c) as [->|]; [done|]. done.
Qed.

Lemma kept_write port s r v : r = port + PORT_IS \/ r = port + PORT_CI -> kept port s (add_access s (Wr r v)).
Proof.
  intros Hr. split; try done.
  - unfold ram. cbn [km add_access]. by destruct (km s).
  - intros x H1 H2. cbn [accesses add_access written]. destruct (Z.eqb_spec r x); [|done]. subst. by destruct Hr.
  - intros c Hc. cbn [accesses add_access polls]. destruct (Z.eqb_spec r c) as [->|]; [|done]. exfalso. apply Hc.
    unfold of_port, PORT_IS, PORT_CI in *. lia.
Qed.

Lemma kept_ram port s m : kept port s (set_ram s m).
Proof. done. Qed.

Lemma kept_trans port s1 s2 s3 : kept port s1 s2 -> kept port s2 s3 -> kept port s1 s3.
Proof.
  intros A B. split; rewrite ?(k_slots _ _ _ B), ?(k_drives _ _ _ B), ?(k_last _ _ _ B), ?(k_devices _ _ _ B); try apply A.
  - by rewrite (k_km _ _ _ B), (k_km _ _ _ A).
  - intros r H1 H2. by rewrite (k_written _ _ _ B), (k_written _ _ _ A).
  - intros c Hc. by rewrite (k_polls _ _ _ B), (k_polls _ _ _ A).
Qed.

(** The port has its command list at [clb] and no command is outstanding. *)
Record idle (port clb : Z) (lat : nat) (s : hst) : Prop := Idle {
  id_clb : written (port + PORT_CLB) (accesses s) = Some clb;
  id_polls : match polls (port + PORT_CI) (accesses s) with Some n => (lat < n)%nat | None => True end;
}.

Lemma idle_same port clb lat s s' : accesses s' = accesses s -> idle port clb lat s -> idle port clb lat s'.
Proof. intros E [H1 H2]. split; by rewrite E. Qed.

Ltac port_reg := unfold of_port, PORT_CLB, PORT_FB, PORT_IS, PORT_CMD, PORT_TFD, PORT_SIG, PORT_SSTS, PORT_SCTL, PORT_SACT, PORT_CI in *; lia.

Lemma kept_clb port s s' : kept port s s' -> written (port + PORT_CLB) (accesses s') = written (port + PORT_CLB) (accesses s).
Proof. intros K. apply (k_written _ _ _ K); port_reg. Qed.

Lemma chunks_S k buf n : chunks (S k) buf n = (buf, 8192) :: chunks k (buf + 8192) (n - 8192).
Proof. done. Qed.

Lemma dma_in_cons medium off a n segs m :
  dma_in medium off ((a, n) :: segs) m = dma_in medium (off + n) segs (mputs m a (map (fun i => medium (off + i)) (indices n))).
Proof. done. Qed.

Lemma dma_in_chunks medium k : forall off buf n m b, 8192 * Z.of_nat k < n ->
  mread (dma_in medium off (chunks k buf n) m) b =
  if (buf <=? b) && (b <? buf + n) then u8 (medium (off + (b - buf))) else mread m b.
Proof.
  assert (forall off a n m b, 0 <= n ->
    mread (mputs m a (map (fun i => medium (off + i)) (indices n))) b =
    if (a <=? b) && (b <? a + n) then u8 (medium (off + (b - a))) else mread m b) as Hput.
  { intros off a n m b Hn. destruct (Z.leb_spec a b), (Z.ltb_spec b (a + n)); cbn [andb].
    - replace b with (a + Z.of_nat (Z.to_nat (b - a))) at 1 by lia.
      erewrite mread_mputs_in; [reflexivity|]. rewrite list_lookup_fmap, indices_lookup by lia. simpl. do 3 f_equal. lia.
    - apply mread_mputs_out. unfold zlen. rewrite length_map. pose proof (indices_length n Hn). unfold zlen in *. lia.
    - apply mread_mputs_out. unfold zlen. rewrite length_map. pose proof (indices_length n Hn). unfold zlen in *. lia.
    - apply mread_mputs_out. unfold zlen. rewrite length_map. pose proof (indices_length n Hn). unfold zlen in *. lia. }
  induction k as [|k IH]; intros off buf n m b Hn.
  { apply Hput. lia. }
  rewrite chunks_S, dma_in_cons, IH, Hput by lia.
  destruct (Z.leb_spec buf b), (Z.ltb_spec b (buf + n)), (Z.leb_spec (buf + 8192) b), (Z.ltb_spec b (buf + 8192)),
    (Z.ltb_spec b (buf + 8192 + (n - 8192))); cbn [andb]; try lia; try done.
  do 2 f_equal. lia.
Qed.

Lemma gather_chunks m k : forall buf n, 8192 * Z.of_nat k < n -> gather m (chunks k buf n) = mbytes m buf (Z.to_nat n).
Proof.
  assert (forall a n p, mbytes m a (n + p) = mbytes m a n ++ mbytes m (a + Z.of_nat n) p) as Happ.
  { intros a n p. apply list_eq. intros i. destruct (Nat.lt_ge_cases i (n + p)).
    - rewrite lookup_mbytes by done. destruct (Nat.lt_ge_cases i n).
      + rewrite lookup_app_l by (rewrite length_mbytes; lia). by rewrite lookup_mbytes.
      + rewrite lookup_app_r by (rewrite length_mbytes; lia). rewrite length_mbytes, lookup_mbytes by lia. do 2 f_equal. lia.
    - rewrite !lookup_ge_None_2; [done| |]; rewrite ?length_app, ?length_mbytes; lia. }
  induction k as [|k IH]; intros buf n Hn; unfold gather in *.
  - cbn [chunks map concat]. by rewrite app_nil_r.
  - rewrite chunks_S. cbn [map concat]. rewrite IH by lia.
    replace (Z.to_nat n) with (Z.to_nat 8192 + Z.to_nat (n - 8192))%nat by lia. rewrite Happ. done.
Qed.

Section Controller.
Context (e : env) (port clb : Z) (dr : drive) (lat : nat) (Hsp : sata_port_ok e port dr lat).

(** The wait for completion ends with the command executed. *)
Lemma wait_done_run d : forall t s n, written (port + PORT_CLB) (accesses s) = Some clb ->
  polls (port + PORT_CI) (accesses s) = Some n -> (n + d = lat)%nat -> (d < t)%nat ->
  exists s', arun (wait_done t port 0) e s = Some (Done, s') /\ ram s' = execute dr (ram s) clb /\ idle port clb lat s' /\ kept port s s'.
Proof.
  induction d as [|d IH]; intros [|t] s n Hw Hp Hn Ht; try lia; cbn [wait_done]; rewrite arun_bind;
    pose proof (sp_ci _ _ _ _ Hsp (accesses s) (ram s) clb Hw) as Hci; rewrite Hp in Hci.
  - rewrite (proj2 (Nat.ltb_ge _ _)), (proj2 (Nat.eqb_eq _ _)) in Hci by lia.
    rewrite (arun_rd32 _ _ _ _ _ Hci). cbn [mbind option_bind]. change (Z.land (u32 0) (Z.shiftl 1 0) =? 0) with true.
    cbn iota. rewrite arun_ret. eexists. split; [reflexivity|]. split; [done|]. split; [|apply kept_read; port_reg].
    split; [exact Hw|]. cbn [accesses add_access polls]. rewrite Z.eqb_refl. cbn [set_ram set_km accesses]. rewrite Hp. simpl. lia.
  - rewrite (proj2 (Nat.ltb_lt _ _)) in Hci by lia.
    rewrite (arun_rd32 _ _ _ _ _ Hci). cbn [mbind option_bind]. change (Z.land (u32 1) (Z.shiftl 1 0) =? 0) with false.
    cbn iota. set (s1 := add_access _ _). destruct (sp_is _ _ _ _ Hsp (accesses s1) (ram s1)) as (v & Hv & Hz).
    rewrite arun_bind, (arun_rd32 _ _ _ _ _ Hv). cbn [mbind option_bind]. rewrite Hz. cbn iota.
    set (s2 := add_access _ _). change (negb (0 =? 0)) with false. cbn iota.
    destruct (IH t s2 (S n)) as (s' & H1 & H2 & H3 & H4); [exact Hw| |lia|lia|].
    { unfold s2, s1. cbn [accesses add_access set_ram set_km polls]. rewrite Z.eqb_refl.
      destruct (Z.eqb_spec (port + PORT_IS) (port + PORT_CI)) as [E|_]; [port_reg|]. by rewrite Hp. }
    exists s'. split; [exact H1|]. split; [exact H2|]. split; [exact H3|].
    eapply kept_trans; [|exact H4]. eapply kept_trans; apply kept_read; port_reg.
Qed.

(** An access to another register of the port. *)
Lemma idle_kept s s' : idle port clb lat s -> kept port s s' -> polls (port + PORT_CI) (accesses s') = polls (port + PORT_CI) (accesses s) ->
  idle port clb lat s'.
Proof. intros [H1 H2] K E. split; [by rewrite (kept_clb _ _ _ K)|by rewrite E]. Qed.

(** Slot 0 is free on an idle port. *)
Lemma find_cmdslot_run s : idle port clb lat s -> 1 <= cmdslots s ->
  exists s', arun (find_cmdslot port) e s = Some (0, s') /\ ram s' = ram s /\ kept port s s'.
Proof.
  intros [Hw Hi] Hc. unfold find_cmdslot. rewrite arun_bind, (arun_rd32 _ _ _ _ _ (sp_sact _ _ _ _ Hsp _ _)).
  cbn [mbind option_bind]. set (s1 := add_access _ _).
  assert (hba e (accesses s1) (ram s1) (port + PORT_CI) = (0, ram s)) as Hci.
  { rewrite (sp_ci _ _ _ _ Hsp (accesses s1) _ clb Hw). unfold s1. cbn [accesses add_access set_ram set_km polls].
    destruct (Z.eqb_spec (port + PORT_SACT) (port + PORT_CI)) as [E|_]; [port_reg|].
    destruct (polls _ _) as [n|]; [|done]. rewrite (proj2 (Nat.ltb_ge _ _)), (proj2 (Nat.eqb_neq _ _)) by lia. done. }
  rewrite arun_bind, (arun_rd32 _ _ _ _ _ Hci). cbn [mbind option_bind]. run_ahci.
  exists (add_access (set_ram s1 (ram s)) (Rd (port + PORT_CI) 0)).
  split; [|split; [done|eapply kept_trans; apply kept_read; port_reg]].
  do 2 f_equal. cbn [cmdslots add_access set_ram set_km s1]. destruct (Z.to_nat (cmdslots s)) eqn:E; [lia|]. done.
Qed.

(** The command phase. *)
Lemma run_command_run fuel s retry : written (port + PORT_CLB) (accesses s) = Some clb -> (lat < IDENTIFY_TIMEOUT)%nat ->
  exists s', arun (run_command fuel port 0 retry) e s = Some (true, s') /\
    ram s' = execute dr (ram s) clb /\ idle port clb lat s' /\ kept port s s'.
Proof.
  intros Hw Hlat. unfold run_command. rewrite arun_bind.
  destruct (sp_tfd _ _ _ _ Hsp (accesses s) (ram s)) as (v & Hv & Hz).
  assert (arun (wait_idle fuel port 0) e s = Some (tt, add_access (set_ram s (ram s)) (Rd (port + PORT_TFD) v))) as ->.
  { destruct fuel; cbn [wait_idle]; rewrite arun_bind, (arun_rd32 _ _ _ _ _ Hv); cbn [mbind option_bind];
      change (Z.lor ATA_DEV_BUSY ATA_DEV_DRQ) with 0x88; by rewrite Hz. }
  cbn [mbind option_bind]. rewrite arun_bind, arun_wr. cbn [mbind option_bind]. set (s1 := add_access _ _).
  assert (K1 : kept port s s1).
  { eapply kept_trans; [|apply kept_write; by right]. apply kept_read. port_reg. }
  destruct (wait_done_run lat IDENTIFY_TIMEOUT s1 0) as (s2 & E2 & R2 & I2 & C2); [by rewrite (kept_clb _ _ _ K1)| |done|done|].
  { unfold s1. cbn [accesses add_access polls]. by rewrite Z.eqb_refl. }
  rewrite arun_bind, E2. cbn [mbind option_bind].
  destruct (sp_is _ _ _ _ Hsp (accesses s2) (ram s2)) as (i & Hi & Hiz).
  rewrite arun_bind, (arun_rd32 _ _ _ _ _ Hi). cbn [mbind option_bind]. rewrite Hiz. eexists. split; [reflexivity|].
  assert (K3 : kept port s2 (add_access (set_ram s2 (ram s2)) (Rd (port + PORT_IS) i))) by (apply kept_read; port_reg).
  split; [exact R2|]. split; [|eapply kept_trans; [exact K1|]; eapply kept_trans; [exact C2|exact K3]].
  apply (idle_kept s2); [exact I2|exact K3|]. cbn [accesses add_access set_ram set_km polls].
  destruct (Z.eqb_spec (port + PORT_IS) (port + PORT_CI)) as [E|_]; [port_reg|done].
Qed.

(** The start of a command: pending bits cleared, a slot, the command list. *)
Lemma start_run {A} s (rest : Z -> Z -> ahci A) (none : ahci A) : idle port clb lat s -> 1 <= cmdslots s -> 0 <= clb < 2 ^ 64 ->
  exists s', arun (_ ← wr (port + PORT_IS) 0xFFFFFFFF; slot ← find_cmdslot port; if slot =? -1 then none else clb ← rd64 (port + PORT_CLB); rest slot clb) e s =
    arun (rest 0 clb) e s' /\ ram s' = ram s /\ kept port s s'.
Proof.
  intros Hi Hc Hclb. set (s1 := add_access s (Wr (port + PORT_IS) 0xFFFFFFFF)).
  assert (K1 : kept port s s1) by (apply kept_write; by left).
  assert (Hi1 : idle port clb lat s1).
  { apply (idle_kept s); [exact Hi|exact K1|]. cbn [accesses add_access s1 polls].
    destruct (Z.eqb_spec (port + PORT_IS) (port + PORT_CI)) as [E|_]; [port_reg|done]. }
  destruct (find_cmdslot_run s1 Hi1 Hc) as (s2 & E2 & R2 & K2).
  exists (add_access (set_ram s2 (ram s2)) (Rd (port + PORT_CLB) clb)).
  split; [|split; [exact R2|eapply kept_trans; [exact K1|]; eapply kept_trans; [exact K2|apply kept_read; port_reg]]].
  rewrite arun_bind, arun_wr. cbn [mbind option_bind]. fold s1. rewrite arun_bind, E2. cbn [mbind option_bind]. change (0 =? -1) with false. cbn iota.
  assert (Hw : written (port + PORT_CLB) (accesses s2) = Some clb) by (rewrite (kept_clb _ _ _ K2); apply Hi1).
  rewrite arun_bind, (arun_rd64 _ _ _ _ _ (sp_clb _ _ _ _ Hsp _ _ _ Hw)). cbn [mbind option_bind]. by rewrite u64_small by done.
Qed.

(** A transfer: the command is built, issued and executed. *)
Lemma transfer_run fuel w last_i command start count buf s :
  idle port clb lat s -> 1 <= cmdslots s -> (lat < IDENTIFY_TIMEOUT)%nat -> 0 <= clb < 2 ^ 64 ->
  exists s', arun (transfer_ahci fuel w last_i command port start count buf) e s = Some (true, s') /\
    ram s' = execute dr (fst (build_command (ram s) clb w last_i command start count buf)) clb /\
    idle port clb lat s' /\ kept port s s'.
Proof.
  intros Hi Hc Hlat Hclb. destruct (build_command (ram s) clb w last_i command start count buf) as [m' p] eqn:Eb.
  assert (Hrun : forall retry s1, ram s1 = ram s -> kept port s s1 -> exists s', arun (run_command fuel port 0 retry) e (set_ram s1 m') = Some (true, s') /\
    ram s' = execute dr m' clb /\ idle port clb lat s' /\ kept port s s').
  { intros retry s1 _ K1. destruct (run_command_run fuel (set_ram s1 m') retry) as (s' & H1 & H2 & H3 & H4);
      [change (accesses (set_ram s1 m')) with (accesses s1); rewrite (kept_clb _ _ _ K1); apply Hi|done|].
    exists s'. split; [exact H1|]. split; [exact H2|]. split; [exact H3|]. eapply kept_trans; [exact K1|]. eapply kept_trans; [apply kept_ram|exact H4]. }
  destruct fuel as [|fuel]; cbn [transfer_ahci];
    match goal with |- context [arun (_ ← wr _ _; slot ← _; if _ then ?n else clb ← _; @?r slot clb) e s] =>
      destruct (start_run s r n Hi Hc Hclb) as (s1 & E1 & R1 & K1) end;
    rewrite E1; cbv beta; rewrite arun_bind, arun_get; cbn [mbind option_bind]; rewrite R1, Z.mul_0_r, Z.add_0_r, Eb;
    rewrite arun_bind, arun_modify; cbn [mbind option_bind fst]; by apply Hrun.
Qed.

End Controller.

(** A read, from the request to the bytes in the buffer. *)
Lemma read_ahci_spec e port clb dr lat fuel start count buf s :
  sata_port_ok e port dr lat -> (lat < IDENTIFY_TIMEOUT)%nat -> 0 <= clb < 2 ^ 64 ->
  idle port clb lat s -> 1 <= cmdslots s ->
  0 <= start < 2 ^ 48 -> 1 <= count <= 128 -> 0 <= buf -> buf + 512 * count < 2 ^ 64 ->
  let tbl := ld64 (ram s) (clb + 8) in clb + 32 <= tbl \/ tbl + 256 <= clb ->
  exists s', arun (read_ahci fuel port start count buf) e s = Some (true, s') /\ idle port clb lat s' /\ kept port s s' /\
    (forall j, 0 <= j < 512 * count -> mread (ram s') (buf + j) = u8 (sectors dr (512 * start + j))) /\
    (forall b, b < buf \/ buf + 512 * count <= b -> b < clb \/ clb + 4 <= b -> b < tbl \/ tbl + 256 <= b ->
      mread (ram s') b = mread (ram s) b).
Proof.
  intros Hsp Hlat Hclb Hi Hcs Hst Hc Hb Hl tbl Hd.
  destruct (build_command_spec (ram s) clb false true ATA_CMD_READ_DMA_EX start count buf ltac:(done) Hst Hc Hb Hl Hd)
    as (m' & E & C & T & O).
  destruct (transfer_run e port clb dr lat Hsp fuel false true ATA_CMD_READ_DMA_EX start count buf s Hi Hcs Hlat Hclb)
    as (s' & R1 & R2 & R3 & R4).
  rewrite E in R2. cbn [fst] in R2. exists s'. split; [exact R1|]. split; [done|]. split; [done|].
  assert (ram s' = dma_in (sectors dr) (512 * start) (chunks (Z.to_nat ((count - 1) / 16)) buf (512 * count)) m') as Hram.
  { rewrite R2. unfold execute. rewrite T, (ca_w _ _ _ _ _ _ _ C). pose proof (ca_command _ _ _ _ _ _ _ C) as Hcmd.
    pose proof (ca_lba _ _ _ _ _ _ _ C) as Hlba. rewrite T in Hcmd, Hlba.
    rewrite Hcmd, Hlba, (ca_segments _ _ _ _ _ _ _ C). done. }
  split.
  - intros j Hj. rewrite Hram, dma_in_chunks by zlia.
    destruct (Z.leb_spec buf (buf + j)), (Z.ltb_spec (buf + j) (buf + 512 * count)); try lia. cbn [andb].
    do 2 f_equal. lia.
  - intros b Hb1 Hb2 Hb3. rewrite Hram, dma_in_chunks by zlia.
    destruct (Z.leb_spec buf b), (Z.ltb_spec b (buf + 512 * count)); try lia; cbn [andb]; by apply O.
Qed.

(** A write, from the request to the bytes the controller takes. *)
Lemma write_ahci_spec e port clb dr lat fuel start count buf s :
  sata_port_ok e port dr lat -> (lat < IDENTIFY_TIMEOUT)%nat -> 0 <= clb < 2 ^ 64 ->
  idle port clb lat s -> 1 <= cmdslots s ->
  0 <= start < 2 ^ 48 -> 1 <= count <= 128 -> 0 <= buf -> buf + 512 * count < 2 ^ 64 ->
  let tbl := ld64 (ram s) (clb + 8) in clb + 32 <= tbl \/ tbl + 256 <= clb ->
  buf + 512 * count <= clb \/ clb + 4 <= buf -> buf + 512 * count <= tbl \/ tbl + 256 <= buf ->
  exists s' segs, arun (write_ahci fuel port start count buf) e s = Some (true, s') /\ idle port clb lat s' /\ kept port s s' /\
    command_at (ram s') clb true ATA_CMD_WRITE_DMA_EX start count segs /\
    gather (ram s') segs = mbytes (ram s) buf (Z.to_nat (512 * count)) /\
    (forall b, b < clb \/ clb + 4 <= b -> b < tbl \/ tbl + 256 <= b -> mread (ram s') b = mread (ram s) b).
Proof.
  intros Hsp Hlat Hclb Hi Hcs Hst Hc Hb Hl tbl Hd Hd1 Hd2.
  destruct (build_command_spec (ram s) clb true false ATA_CMD_WRITE_DMA_EX start count buf ltac:(done) Hst Hc Hb Hl Hd)
    as (m' & E & C & T & O).
  destruct (transfer_run e port clb dr lat Hsp fuel true false ATA_CMD_WRITE_DMA_EX start count buf s Hi Hcs Hlat Hclb)
    as (s' & R1 & R2 & R3 & R4).
  rewrite E in R2. cbn [fst] in R2. exists s', (chunks (Z.to_nat ((count - 1) / 16)) buf (512 * count)).
  split; [exact R1|]. split; [done|]. split; [done|].
  assert (ram s' = m') as Hram by (rewrite R2; unfold execute; by rewrite (ca_w _ _ _ _ _ _ _ C)).
  rewrite Hram. split; [done|]. split; [|exact O]. rewrite gather_chunks by zlia. apply mbytes_ext. intros b Hb'. apply O; lia.
Qed.

(** ** Theorems *)

(** C35: the command build_command leaves in memory says exactly what was asked:
    for 1 to 128 sectors the register FIS carries the command, the 48-bit
    sector and the count, the header its length, direction and number of
    descriptors, and the descriptors cover the buffer without gap or overlap in
    pieces of at most 8192 bytes; memory outside the header and the 256-byte
    table is untouched.  A retry after a timeout is given the address of the
    last piece, not that of the buffer. *)
Theorem ahci_command_describes m hdr w last_i command start count buf :
  0 <= command < 256 -> 0 <= start < 2 ^ 48 -> 1 <= count <= 128 -> 0 <= buf -> buf + 512 * count < 2 ^ 64 ->
  let tbl := ld64 m (hdr + 8) in hdr + 32 <= tbl \/ tbl + 256 <= hdr ->
  exists m' segs, build_command m hdr w last_i command start count buf = (m', buf + 8192 * ((count - 1) / 16)) /\
    command_at m' hdr w command start count segs /\
    gather m' segs = mbytes m' buf (Z.to_nat (512 * count)) /\ Forall (fun '(_, n) => 512 <= n <= 8192) segs /\
    (forall b, b < hdr \/ hdr + 4 <= b -> b < tbl \/ tbl + 256 <= b -> mread m' b = mread m b).
Proof.
  intros Hcmd Hs Hc Hb Hl tbl Hd.
  destruct (build_command_spec m hdr w last_i command start count buf Hcmd Hs Hc Hb Hl Hd) as (m' & E & C & _ & O).
  exists m', (chunks (Z.to_nat ((count - 1) / 16)) buf (512 * count)). split_and!; try done.
  - apply gather_chunks. zlia.
  - apply list.Forall_forall. intros [a n] Hin. apply list_elem_of_lookup in Hin as [i Hi].
    rewrite chunks_lookup in Hi. repeat case_decide; simplify_eq; zlia.
Qed.

(** C16: against a controller that executes the commands it is given within the
    timeout, read_ahci of 1 to 128 sectors below sector 2^48 on an idle port
    returns true and the buffer holds the sectors asked for, byte for byte. The
    only other memory that may change is the first 4 bytes of the command header
    and the 256 bytes of the command table, which lie apart; the port is idle
    again, so that reads can follow each other. (More than 128 sectors overrun
    the command table, ahci.c, line 408; a count of 0 asks the drive for 65536.) *)
Theorem read_ahci_reads e port clb dr lat fuel start count buf s :
  sata_port_ok e port dr lat -> (lat < IDENTIFY_TIMEOUT)%nat -> 0 <= clb < 2 ^ 64 ->
  idle port clb lat s -> 1 <= cmdslots s ->
  0 <= start < 2 ^ 48 -> 1 <= count <= 128 -> 0 <= buf -> buf + 512 * count < 2 ^ 64 ->
  let tbl := ld64 (ram s) (clb + 8) in clb + 32 <= tbl \/ tbl + 256 <= clb ->
  exists s', arun (read_ahci fuel port start count buf) e s = Some (true, s') /\ idle port clb lat s' /\
    (forall j, 0 <= j < 512 * count -> mread (ram s') (buf + j) = u8 (sectors dr (512 * start + j))) /\
    (forall b, b < buf \/ buf + 512 * count <= b -> b < clb \/ clb + 4 <= b -> b < tbl \/ tbl + 256 <= b ->
      mread (ram s') b = mread (ram s) b).
Proof.
  intros Hsp Hlat Hclb Hi Hcs Hst Hc Hb Hl tbl Hd.
  destruct (read_ahci_spec e port clb dr lat fuel start count buf s) as (s' & R1 & R2 & _ & R3 & R4); try done. by exists s'.
Qed.

(** Fact: write_ahci returns true after the controller has executed exactly one
    command, which tells it to write the bytes of the caller's buffer, taken
    through the descriptors, to the sectors asked for. *)
Theorem write_ahci_writes e port clb dr lat fuel start count buf s :
  sata_port_ok e port dr lat -> (lat < IDENTIFY_TIMEOUT)%nat -> 0 <= clb < 2 ^ 64 ->
  idle port clb lat s -> 1 <= cmdslots s ->
  0 <= start < 2 ^ 48 -> 1 <= count <= 128 -> 0 <= buf -> buf + 512 * count < 2 ^ 64 ->
  let tbl := ld64 (ram s) (clb + 8) in clb + 32 <= tbl \/ tbl + 256 <= clb ->
  buf + 512 * count <= clb \/ clb + 4 <= buf -> buf + 512 * count <= tbl \/ tbl + 256 <= buf ->
  exists s' segs, arun (write_ahci fuel port start count buf) e s = Some (true, s') /\ idle port clb lat s' /\
    command_at (ram s') clb true ATA_CMD_WRITE_DMA_EX start count segs /\
    gather (ram s') segs = mbytes (ram s) buf (Z.to_nat (512 * count)).
Proof.
  intros Hsp Hlat Hclb Hi Hcs Hst Hc Hb Hl tbl Hd Hd1 Hd2.
  destruct (write_ahci_spec e port clb dr lat fuel start count buf s) as (s' & segs & R1 & R2 & _ & R3 & R4 & _); try done. by exists s', segs.
Qed.

(** ** Witnesses *)

(** A controller with a drive at one port. *)
Definition demo_hba (port : Z) (dr : drive) (lat : nat) (l : list access) (m : mem) (a : Z) : Z * mem :=
  if (a =? port + PORT_CLB) || (a =? port + PORT_FB) then (default 0 (written a l), m)
  else if a =? port + PORT_CMD then (Z.land (default 0 (written a l)) 0x11, m)
  else if a =? port + PORT_SSTS then (0x113, m)
  else if a =? port + PORT_SIG then (0x101, m)
  else if a =? port + PORT_CI then
    match written (port + PORT_CLB) l, polls (port + PORT_CI) l with
    | Some clb, Some n => if (n <? lat)%nat then (1, m) else if (n =? lat)%nat then (0, execute dr m clb) else (0, m)
    | _, _ => (0, m)
    end
  else (0, m).

Definition demo_drive : drive := Drive (fun i => i mod 251) (fun i => if i =? 120 then 128 else 0).
Definition demo_env : env := Env (fun _ _ _ => 0) (demo_hba 0xFEBF0100 demo_drive 3).

Lemma u32_land x : u32 x = Z.land x (Z.ones 32).
Proof. by rewrite Z.land_ones by lia. Qed.

Lemma land_bits w c d : Z.land c d = 0 -> Z.land (u32 (Z.land w c)) d = 0.
Proof.
  intros H. rewrite u32_land, <- !Z.land_assoc, (Z.land_comm _ d), (Z.land_assoc c), H. apply Z.land_0_r.
Qed.

Lemma land_bit w c d : Z.land c d = d -> 0 <= d < 2 ^ 32 -> Z.land (u32 (Z.land w c)) d = Z.land w d.
Proof.
  intros H Hd. by rewrite u32_land, <- !Z.land_assoc, (Z.land_comm _ d), Z.land_ones, Z.mod_small, H by lia.
Qed.

Lemma demo_hba_ok pio port dr lat : sata_port_ok (Env pio (demo_hba port dr lat)) port dr lat.
Proof.
  assert (R : forall a b, a <> b -> (port + a =? port + b) = false) by (intros a b H; apply Z.eqb_neq; lia).
  constructor; cbn [hba]; unfold demo_hba; intros l m.
  - intros v Hv. by rewrite Z.eqb_refl, Hv.
  - intros v Hv. by rewrite Z.eqb_refl, orb_true_r, Hv.
  - rewrite !R, Z.eqb_refl by done. cbn [orb]. eexists. split; [reflexivity|]. intros w ->. cbn [default].
    split_and!; [by apply land_bit|by apply land_bit|intros _; by apply land_bits|intros _; by apply land_bits].
  - rewrite !R, Z.eqb_refl by done. by exists 0x113.
  - rewrite !R, Z.eqb_refl by done. by exists 0x101.
  - by rewrite !R by done.
  - rewrite !R by done. by exists 0.
  - rewrite !R by done. by exists 0.
  - intros clb Hw. rewrite !R, Z.eqb_refl by done. cbn [orb]. rewrite Hw. by destruct (polls _ l).
Qed.

Lemma demo_port_ok : sata_port_ok demo_env 0xFEBF0100 demo_drive 3.
Proof. apply demo_hba_ok. Qed.

Definition demo_structures : mem := st64 ∅ (0x2400000 + 8) 0x2400800.

Definition demo_hst : hst := Hst (set_pm demo_state demo_structures) [Wr (0xFEBF0100 + PORT_CLB) 0x2400000] [] 32 0 [] [].

Lemma ahci_command_describes_witness :
  exists m' segs, build_command demo_structures 0x2400000 false true 0x25 70000 20 0x3000000 = (m', 0x3002000) /\
    command_at m' 0x2400000 false 0x25 70000 20 segs /\ gather m' segs = mbytes m' 0x3000000 (Z.to_nat (512 * 20)).
Proof.
  destruct (ahci_command_describes demo_structures 0x2400000 false true 0x25 70000 20 0x3000000)
    as (m' & segs & H1 & H2 & H3 & _); [lia|lia|lia|lia|lia|left; vm_compute; discriminate|].
  exists m', segs. exact (conj H1 (conj H2 H3)).
Defined.

Lemma read_ahci_reads_witness :
  exists s', arun (read_ahci 5 0xFEBF0100 4 20 0x3000000) demo_env demo_hst = Some (true, s') /\
    mread (ram s') (0x3000000 + 10000) = u8 ((512 * 4 + 10000) mod 251).
Proof.
  destruct (read_ahci_reads demo_env 0xFEBF0100 0x2400000 demo_drive 3 5 4 20 0x3000000 demo_hst demo_port_ok)
    as (s' & H1 & _ & H2 & _);
    [unfold IDENTIFY_TIMEOUT; lia|lia|by split|vm_compute; discriminate|lia|lia|lia|lia|left; vm_compute; discriminate|].
  exists s'. split; [exact H1|]. apply H2. lia.
Defined.

Lemma write_ahci_writes_witness :
  exists s' segs, arun (write_ahci 5 0xFEBF0100 4 20 0x3000000) demo_env demo_hst = Some (true, s') /\
    gather (ram s') segs = mbytes demo_structures 0x3000000 (Z.to_nat (512 * 20)).
Proof.
  destruct (write_ahci_writes demo_env 0xFEBF0100 0x2400000 demo_drive 3 5 4 20 0x3000000 demo_hst demo_port_ok)
    as (s' & segs & H1 & _ & _ & H2);
    [unfold IDENTIFY_TIMEOUT; lia|lia|by split|vm_compute; discriminate|lia|lia|lia|lia|left; vm_compute; discriminate|
     right; lia|right; vm_compute; discriminate|].
  exists s', segs. exact (conj H1 H2).
Defined.
