(* ===== verification/Tty.v ===== *)
(** * Tty: kernel/arch/x86_64/tty.c, kernel/include/arch/x86_64/vga.h and the
    putchar of libc/stdio

    The text screen: 25 rows of 80 cells of 16 bits at 0xB8000, a position in
    globals, and the cursor of the display controller behind two ports. *)

From S2P Require Import Prelude Mem Paging Device.

Definition VGA_WIDTH : Z := 80.
Definition VGA_HEIGHT : Z := 25.
Definition VGA_EXTENT : Z := 80 * 25.
Definition VGA_MEMORY : Z := 0xB8000.
Definition CURSOR_PORT_COMMAND : Z := 0x3D4.
Definition CURSOR_PORT_DATA : Z := 0x3D5.
Definition VGA_COLOR_BLACK : Z := 0.
Definition VGA_COLOR_LIGHT_GREEN : Z := 10.

Definition vga_entry_color (fg bg : Z) : Z := u8 (Z.lor fg (Z.shiftl bg 4)).
Definition vga_entry (uc color : Z) : Z := u16 (Z.lor uc (Z.shiftl color 8)).

(** The position and colour in globals, and the memory the screen is part of. *)
Record tty := Tty {
  terminal_row : Z;
  terminal_column : Z;
  terminal_color : Z;
  memory : mem;
}.

Definition set_pos (t : tty) (row column : Z) : tty := Tty row column (terminal_color t) (memory t).
Definition set_memory (t : tty) (m : mem) : tty := Tty (terminal_row t) (terminal_column t) (terminal_color t) m.

(** ** The cursor *)

Definition enable_cursor (cursor_start cursor_end : Z) : io unit :=
  _ ← outb CURSOR_PORT_COMMAND 0x0A;
  v ← inb CURSOR_PORT_DATA;
  _ ← outb CURSOR_PORT_DATA (Z.lor (Z.land v 0xC0) cursor_start);
  _ ← outb CURSOR_PORT_COMMAND 0x0B;
  v ← inb CURSOR_PORT_DATA;
  outb CURSOR_PORT_DATA (Z.lor (Z.land v 0xE0) cursor_end).

Definition disable_cursor : io unit :=
  _ ← outb CURSOR_PORT_COMMAND 0x0A;
  outb CURSOR_PORT_DATA 0x20.

Definition update_cursor (t : tty) (x y : Z) : io tty :=
  let x := s32 x in
  let y := s32 y in
  let pos := u16 ((y + 1) * VGA_WIDTH + x) in
  _ ← outb CURSOR_PORT_COMMAND 0x0F;
  _ ← outb CURSOR_PORT_DATA (u8 (Z.land pos 0xFF));
  _ ← outb CURSOR_PORT_COMMAND 0x0E;
  _ ← outb CURSOR_PORT_DATA (u8 (Z.land (Z.shiftr pos 8) 0xFF));
  mret (set_pos t y x).

Definition update_cursor_absolute (t : tty) (pos : Z) : io tty :=
  let t := set_pos t (pos / VGA_WIDTH) (pos mod VGA_WIDTH) in
  update_cursor t (terminal_column t) (terminal_row t).

Definition get_cursor_position : io Z :=
  _ ← outb CURSOR_PORT_COMMAND 0x0F;
  lo ← inb CURSOR_PORT_DATA;
  let pos := Z.lor 0 lo in
  _ ← outb CURSOR_PORT_COMMAND 0x0E;
  hi ← inb CURSOR_PORT_DATA;
  let pos := u16 (Z.lor pos (Z.shiftl hi 8)) in
  mret (u16 (pos - VGA_WIDTH)).

Definition reverse_cursor (t : tty) : io tty :=
  pos ← get_cursor_position;
  update_cursor_absolute t (u16 (pos - 1)).

(** ** Cells *)

Definition cell_addr (index : Z) : Z := VGA_MEMORY + 2 * index.

Definition terminal_putentryat (t : tty) (c color x y : Z) : tty :=
  let index := u64 (y * VGA_WIDTH + x) in
  set_memory t (st16 (memory t) (u64 (cell_addr index)) (vga_entry c color)).

(** The copy of row [i] to the row above, from column [j] on. *)
Fixpoint copy_row (k : nat) (m : mem) (i j : Z) : mem :=
  match k with
  | O => m
  | S k =>
      let to_pos := u16 (j + (i - 1) * VGA_WIDTH) in
      let from_pos := u16 (j + i * VGA_WIDTH) in
      copy_row k (st16 m (cell_addr to_pos) (ld16 m (cell_addr from_pos))) i (j + 1)
  end.

Fixpoint copy_rows (k : nat) (m : mem) (i : Z) : mem :=
  match k with
  | O => m
  | S k => copy_rows k (copy_row 80 m i 0) (i + 1)
  end.

Fixpoint fill_row (k : nat) (m : mem) (i j entry : Z) : mem :=
  match k with
  | O => m
  | S k => fill_row k (st16 m (cell_addr (u16 (j + i * VGA_WIDTH))) entry) i (j + 1) entry
  end.

Definition terminal_scroll_line_down (t : tty) : io tty :=
  let m := copy_rows 24 (memory t) 1 in
  let m := fill_row 80 m (VGA_HEIGHT - 1) 0 (vga_entry 32 (terminal_color t)) in
  update_cursor (set_memory t m) 0 (VGA_HEIGHT - 2).

Definition advance_cursor (t : tty) : io tty :=
  pos ← get_cursor_position;
  let pos := u16 (pos + 1) in
  t ← (if VGA_EXTENT <=? pos then terminal_scroll_line_down t else mret t);
  update_cursor_absolute t pos.

Fixpoint clear_rows (k : nat) (m : mem) (y entry : Z) : mem :=
  match k with
  | O => m
  | S k => clear_rows k (fill_row 80 m y 0 entry) (y + 1) entry
  end.

Definition terminal_clear (t : tty) : tty :=
  let color := vga_entry_color VGA_COLOR_LIGHT_GREEN VGA_COLOR_BLACK in
  Tty 0 0 color (clear_rows 25 (memory t) 0 (vga_entry 32 color)).

Definition terminal_initialize (s : mach) (kpid : Z) (t : tty) : io (mach * tty) :=
  s ← io_lift (map_memory_range s kpid VGA_MEMORY (VGA_MEMORY + 2 * (VGA_HEIGHT * VGA_WIDTH - 1)) VGA_MEMORY);
  _ ← enable_cursor 0 0;
  mret (s, terminal_clear t).

Definition terminal_setcolor (t : tty) (color : Z) : tty :=
  Tty (terminal_row t) (terminal_column t) color (memory t).

(** ** Characters *)

(** The end of terminal_putchar: the next column, the next row, or a scroll. *)
Definition next_column (t : tty) : io tty :=
  let t := set_pos t (terminal_row t) (terminal_column t + 1) in
  if terminal_column t =? VGA_WIDTH then
    let t := set_pos t (terminal_row t + 1) 0 in
    if terminal_row t =? VGA_HEIGHT - 1 then terminal_scroll_line_down t else mret t
  else mret t.

(** terminal_putchar for every character but the tab. *)
Definition putchar_no_tab (t : tty) (uc : Z) : io tty :=
  position ← get_cursor_position;
  t ← (if uc =? 10 then
         let current_row := u8 (u8 (position / VGA_WIDTH) + 1) in
         if VGA_HEIGHT - 1 <=? current_row then
           t ← terminal_scroll_line_down t;
           mret (set_pos t (terminal_row t) (-1))
         else update_cursor t (-1) current_row
       else if uc =? 8 then
         t ← reverse_cursor t;
         let t := terminal_putentryat t 32 (terminal_color t) (terminal_column t) (terminal_row t) in
         reverse_cursor t
       else if uc =? 13 then
         update_cursor t (-1) (u8 (position / VGA_WIDTH))
       else mret (terminal_putentryat t uc (terminal_color t) (terminal_column t) (terminal_row t)));
  next_column t.

(** The tab writes four spaces with the cursor behind them. *)
Definition terminal_putchar (t : tty) (c : Z) : io tty :=
  let uc := u8 c in
  if uc =? 9 then
    _ ← get_cursor_position;
    t ← io_fold (fun c t => putchar_no_tab t c) [32; 32; 32; 32] t;
    t ← update_cursor t (terminal_column t) (terminal_row t);
    next_column t
  else putchar_no_tab t uc.

Definition terminal_write (t : tty) (data : list Z) : io tty :=
  t ← io_fold (fun c t => terminal_putchar t c) data t;
  update_cursor t (terminal_column t) (terminal_row t).

(** putchar of libc/stdio in the kernel. *)
Definition putchar (t : tty) (ic : Z) : io tty := terminal_write t [s8 ic].

(** printf's print: putchar of a byte never answers EOF, so every byte is written. *)
Fixpoint print (length : nat) (t : tty) (data : Z) : io tty :=
  match length with
  | O => mret t
  | S length => t ← putchar t (mread (memory t) data); print length t (data + 1)
  end.

(** The bytes of a list, one putchar each. *)
Definition put_all (t : tty) (bytes : list Z) : io tty := io_fold (fun c t => putchar t c) bytes t.

(** ** The display controller

    A write to 0x3D4 selects a register, the data port 0x3D5 reads and writes
    the selected one; the registers 0x0E and 0x0F are the high and low byte of
    the cursor's cell. *)

Definition crtc_index (h : trace) : Z := default 0 (last_out h CURSOR_PORT_COMMAND).

Fixpoint crtc_reg (init : Z -> Z) (h : trace) (idx : Z) : Z :=
  match h with
  | [] => init idx
  | Out _ p v :: h => if (p =? CURSOR_PORT_DATA) && (crtc_index h =? idx) then v else crtc_reg init h idx
  | In _ _ _ :: h => crtc_reg init h idx
  end.

Definition crtc_device (init : Z -> Z) (dev : device) : Prop :=
  forall h, dev h 8 CURSOR_PORT_DATA = crtc_reg init h (crtc_index h).

Definition cursor (init : Z -> Z) (h : trace) : Z := u8 (crtc_reg init h 0x0F) + 256 * u8 (crtc_reg init h 0x0E).

(** ** The terminal it means to be

    24 rows of 80 cells (the last row stays blank: the cursor's line is the
    top scan line of the row below the text), and a position. *)

Record vt := Vt { vrow : Z; vcol : Z; vcell : Z -> Z }.

Definition blank (color : Z) : Z := vga_entry 32 color.

Definition vscroll (color : Z) (v : vt) : vt :=
  Vt (vrow v) (vcol v) (fun i => if i <? 24 * 80 then vcell v (i + 80) else blank color).

Definition vnewline (color : Z) (v : vt) : vt :=
  if vrow v + 1 <? 24 then Vt (vrow v + 1) 0 (vcell v)
  else vscroll color (Vt 23 0 (vcell v)).

Definition vadvance (color : Z) (v : vt) : vt :=
  if vcol v + 1 <? 80 then Vt (vrow v) (vcol v + 1) (vcell v) else vnewline color v.

Definition vpos (v : vt) : Z := vrow v * 80 + vcol v.

Definition vset (i e : Z) (v : vt) : vt := Vt (vrow v) (vcol v) (fun j => if j =? i then e else vcell v j).

Definition vput (color c : Z) (v : vt) : vt := vadvance color (vset (vpos v) (vga_entry c color) v).

Definition vback (color : Z) (v : vt) : vt :=
  let p := vpos v - 1 in vset p (blank color) (Vt (p / 80) (p mod 80) (vcell v)).

Definition vchar (color c : Z) (v : vt) : vt :=
  if c =? 10 then vnewline color v
  else if c =? 8 then vback color v
  else if c =? 13 then Vt (vrow v) 0 (vcell v)
  else if c =? 9 then vadvance color (vput color 32 (vput color 32 (vput color 32 (vput color 32 v))))
  else vput color c v.

Fixpoint vprint (color : Z) (bytes : list Z) (v : vt) : vt :=
  match bytes with [] => v | c :: bytes => vprint color bytes (vchar color c v) end.

(** A backspace needs two characters in front of the position. *)
Definition char_ok (c : Z) (v : vt) : bool := (0 <=? c) && (c <? 256) && (negb (c =? 8) || (2 <=? vpos v)).

Fixpoint bytes_ok (color : Z) (bytes : list Z) (v : vt) : bool :=
  match bytes with [] => true | c :: bytes => char_ok c v && bytes_ok color bytes (vchar color c v) end.

Definition cell (m : mem) (i : Z) : Z := ld16 m (cell_addr i).

Definition vt_ok (v : vt) : Prop := 0 <= vrow v < 24 /\ 0 <= vcol v < 80.

(** The terminal's globals and the screen show [v]. *)
Definition shows (color : Z) (t : tty) (v : vt) : Prop :=
  terminal_row t = vrow v /\ terminal_column t = vcol v /\ terminal_color t = color /\
  forall i, 0 <= i < VGA_EXTENT -> cell (memory t) i = vcell v i.

(** Only the screen changed. *)
Definition screen_only (m m' : mem) : Prop :=
  forall b, b < VGA_MEMORY \/ VGA_MEMORY + 2 * VGA_EXTENT <= b -> mread m' b = mread m b.

(** Run with the cursor register at [c], [x] returns [r] and leaves it at [c']. *)
Definition moves {A} (init : Z -> Z) (dev : device) (x : io A) (c : Z) (r : A) (c' : Z) : Prop :=
  forall h, cursor init h = c -> exists h', run x dev h = Some (r, h') /\ cursor init h' = c'.

(** ** Lemmas: cells *)

Lemma vga_entry_range c color : 0 <= vga_entry c color < 65536.
Proof. unfold vga_entry. ulia. Qed.

Lemma cell_range m i : 0 <= cell m i < 65536.
Proof. apply ld16_range. Qed.

Lemma cell_put m i j e : cell (st16 m (cell_addr j) e) i = if i =? j then u16 e else cell m i.
Proof.
  unfold cell. destruct (Z.eqb_spec i j) as [->|N]; [apply ld16_st16|].
  apply load_store_out. unfold cell_addr. lia.
Qed.

Lemma cell_put_only m j e : 0 <= j < VGA_EXTENT -> screen_only m (st16 m (cell_addr j) e).
Proof. intros H b Hb. apply mread_store_out. unfold cell_addr, VGA_EXTENT in *. lia. Qed.

Lemma screen_only_refl m : screen_only m m.
Proof. by intros b _. Qed.

Lemma screen_only_trans m1 m2 m3 : screen_only m1 m2 -> screen_only m2 m3 -> screen_only m1 m3.
Proof. intros H1 H2 b Hb. by rewrite H2, H1. Qed.

Lemma copy_row_spec k m i j : Z.of_nat k + j = 80 -> 1 <= i < 25 -> 0 <= j ->
  screen_only m (copy_row k m i j) /\
  forall n, 0 <= n < VGA_EXTENT ->
    cell (copy_row k m i j) n = if ((i - 1) * 80 + j <=? n) && (n <? i * 80) then cell m (n + 80) else cell m n.
Proof.
  revert m j. induction k as [|k IH]; intros m j Hk Hi Hj.
  - split; [apply screen_only_refl|]. intros n Hn. simpl.
    destruct (Z.leb_spec ((i - 1) * 80 + j) n), (Z.ltb_spec n (i * 80)); simpl; try done; lia.
  - cbn [copy_row]. unfold VGA_WIDTH, VGA_EXTENT in *.
    rewrite (u16_small (j + (i - 1) * 80)), (u16_small (j + i * 80)) by lia.
    destruct (IH (st16 m (cell_addr (j + (i - 1) * 80)) (ld16 m (cell_addr (j + i * 80)))) (j + 1)) as [S C]; [lia..|].
    split; [eapply screen_only_trans; [|exact S]; apply cell_put_only; unfold VGA_EXTENT; lia|].
    intros n Hn. rewrite C by lia. rewrite !cell_put.
    destruct (Z.leb_spec ((i - 1) * 80 + (j + 1)) n), (Z.leb_spec ((i - 1) * 80 + j) n), (Z.ltb_spec n (i * 80)),
      (Z.eqb_spec n (j + (i - 1) * 80)), (Z.eqb_spec (n + 80) (j + (i - 1) * 80)); simpl; try lia; try done.
    subst n. replace (j + (i - 1) * 80 + 80) with (j + i * 80) by lia.
    apply (u16_small (cell m (j + i * 80))). apply cell_range.
Qed.

Lemma copy_rows_spec k m i : Z.of_nat k + i = 25 -> 1 <= i ->
  screen_only m (copy_rows k m i) /\
  forall n, 0 <= n < VGA_EXTENT ->
    cell (copy_rows k m i) n = if ((i - 1) * 80 <=? n) && (n <? 24 * 80) then cell m (n + 80) else cell m n.
Proof.
  revert m i. induction k as [|k IH]; intros m i Hk Hi.
  - split; [apply screen_only_refl|]. intros n Hn. simpl.
    destruct (Z.leb_spec ((i - 1) * 80) n), (Z.ltb_spec n (24 * 80)); simpl; try done; lia.
  - cbn [copy_rows]. destruct (copy_row_spec 80 m i 0) as [S1 C1]; [lia..|].
    destruct (IH (copy_row 80 m i 0) (i + 1)) as [S2 C2]; [lia..|].
    split; [by eapply screen_only_trans|]. intros n Hn. rewrite C2 by done.
    destruct (Z.leb_spec ((i + 1 - 1) * 80) n), (Z.leb_spec ((i - 1) * 80) n), (Z.ltb_spec n (24 * 80));
      cbn [andb]; try lia; rewrite C1 by (unfold VGA_EXTENT in *; lia);
      repeat match goal with |- context [?a <=? ?b] => destruct (Z.leb_spec a b) | |- context [?a <? ?b] => destruct (Z.ltb_spec a b) end;
      cbn [andb]; try done; lia.
Qed.

Lemma fill_row_spec k m i j e : Z.of_nat k + j = 80 -> 0 <= i < 25 -> 0 <= j ->
  screen_only m (fill_row k m i j e) /\
  forall n, 0 <= n < VGA_EXTENT ->
    cell (fill_row k m i j e) n = if (i * 80 + j <=? n) && (n <? (i + 1) * 80) then u16 e else cell m n.
Proof.
  revert m j. induction k as [|k IH]; intros m j Hk Hi Hj.
  - split; [apply screen_only_refl|]. intros n Hn. simpl.
    destruct (Z.leb_spec (i * 80 + j) n), (Z.ltb_spec n ((i + 1) * 80)); simpl; try done; lia.
  - cbn [fill_row]. unfold VGA_WIDTH, VGA_EXTENT in *. rewrite (u16_small (j + i * 80)) by lia.
    destruct (IH (st16 m (cell_addr (j + i * 80)) e) (j + 1)) as [S C]; [lia..|].
    split; [eapply screen_only_trans; [|exact S]; apply cell_put_only; unfold VGA_EXTENT; lia|].
    intros n Hn. rewrite C by lia. rewrite cell_put.
    destruct (Z.leb_spec (i * 80 + (j + 1)) n), (Z.leb_spec (i * 80 + j) n), (Z.ltb_spec n ((i + 1) * 80)),
      (Z.eqb_spec n (j + i * 80)); simpl; try lia; done.
Qed.

Lemma clear_rows_spec k m y e : Z.of_nat k + y = 25 -> 0 <= y ->
  screen_only m (clear_rows k m y e) /\
  forall n, 0 <= n < VGA_EXTENT -> cell (clear_rows k m y e) n = if y * 80 <=? n then u16 e else cell m n.
Proof.
  revert m y. induction k as [|k IH]; intros m y Hk Hy.
  - split; [apply screen_only_refl|]. intros n Hn. simpl. unfold VGA_EXTENT in *. destruct (Z.leb_spec (y * 80) n); [lia|done].
  - cbn [clear_rows]. destruct (fill_row_spec 80 m y 0 e) as [S1 C1]; [lia..|].
    destruct (IH (fill_row 80 m y 0 e) (y + 1)) as [S2 C2]; [lia..|].
    split; [by eapply screen_only_trans|]. intros n Hn. rewrite C2, C1 by done.
    destruct (Z.leb_spec ((y + 1) * 80) n), (Z.leb_spec (y * 80 + 0) n), (Z.leb_spec (y * 80) n),
      (Z.ltb_spec n ((y + 1) * 80)); simpl; try lia; done.
Qed.

Definition scrolled (color : Z) (m : mem) : mem := fill_row 80 (copy_rows 24 m 1) (VGA_HEIGHT - 1) 0 (vga_entry 32 color).

Lemma scrolled_spec color m :
  screen_only m (scrolled color m) /\
  forall n, 0 <= n < VGA_EXTENT -> cell (scrolled color m) n = if n <? 24 * 80 then cell m (n + 80) else blank color.
Proof.
  destruct (copy_rows_spec 24 m 1) as [S1 C1]; [lia..|]. unfold VGA_HEIGHT.
  destruct (fill_row_spec 80 (copy_rows 24 m 1) (25 - 1) 0 (vga_entry 32 color)) as [S2 C2]; [lia..|].
  split; [by eapply screen_only_trans|]. intros n Hn. unfold scrolled, VGA_HEIGHT. rewrite C2, C1 by done.
  unfold VGA_EXTENT in *. rewrite (u16_small (vga_entry 32 color)) by apply vga_entry_range.
  destruct (Z.ltb_spec n (24 * 80)), (Z.leb_spec ((25 - 1) * 80 + 0) n), (Z.ltb_spec n ((25 - 1 + 1) * 80)),
    (Z.leb_spec ((1 - 1) * 80) n); simpl; try lia; done.
Qed.

#[local] Opaque copy_rows fill_row clear_rows.

(** ** Lemmas: the cursor *)

Lemma moves_ret {A} init dev (a : A) c : moves init dev (mret a) c a c.
Proof. intros h H. by exists h. Qed.

Lemma moves_bind {A B} init dev (x : io A) (f : A -> io B) c a c1 b c2 :
  moves init dev x c a c1 -> moves init dev (f a) c1 b c2 -> moves init dev (x ≫= f) c b c2.
Proof.
  intros Hx Hf h H. destruct (Hx h H) as (h1 & E1 & H1). destruct (Hf h1 H1) as (h2 & E2 & H2).
  exists h2. split; [|done]. by rewrite run_bind, E1.
Qed.

Lemma bytes_of_u16 p : u8 (u8 (Z.land (u16 p) 0xFF)) + 256 * u8 (u8 (Z.land (Z.shiftr (u16 p) 8) 0xFF)) = u16 p.
Proof.
  change 0xFF with (Z.ones 8). rewrite !Z.land_ones, Z.shiftr_div_pow2 by lia.
  change (2 ^ 8) with 256. ulia.
Qed.

Lemma update_cursor_moves init dev t x y c : -1 <= x <= 80 -> 0 <= y <= 65535 ->
  moves init dev (update_cursor t x y) c (set_pos t y x) (u16 ((y + 1) * 80 + x)).
Proof.
  intros Hx Hy h _. unfold update_cursor. rewrite (s32_small x), (s32_small y) by lia. run_io.
  eexists. split; [done|]. unfold cursor, VGA_WIDTH. cbn. rewrite !(u8_small 14), !(u8_small 15) by lia. cbn.
  rewrite !(u8_small (u8 (u8 _))) by ulia. apply bytes_of_u16.
Qed.

Lemma cursor_of_bytes lo hi : u16 (Z.lor (Z.lor 0 (u8 lo)) (Z.shiftl (u8 hi) 8)) = u8 lo + 256 * u8 hi.
Proof.
  rewrite Z.lor_0_l, (lor_add_disjoint _ _ 8); [ulia..].
Qed.

Lemma get_cursor_moves init dev c : crtc_device init dev ->
  moves init dev get_cursor_position c (u16 (c - 80)) c.
Proof.
  intros Hd h <-. unfold get_cursor_position. run_io. rewrite !Hd. eexists. split.
  - do 2 f_equal. rewrite cursor_of_bytes. done.
  - done.
Qed.

(** ** Lemmas: characters *)

(** [x] takes the terminal [t] to one that shows [v]. *)
Definition outputs (init : Z -> Z) (dev : device) (color : Z) (x : io tty) (c : Z) (t : tty) (v : vt) : Prop :=
  exists t' c', moves init dev x c t' c' /\ shows color t' v /\ screen_only (memory t) (memory t').

Lemma shows_ext color t v w : vrow v = vrow w -> vcol v = vcol w ->
  (forall i, 0 <= i < VGA_EXTENT -> vcell v i = vcell w i) -> shows color t v -> shows color t w.
Proof.
  intros Er Ec E (Hr & Hc & Hk & H). split; [congruence|]. split; [congruence|]. split; [done|].
  intros i Hi. by rewrite H, E.
Qed.

Lemma outputs_ret init dev color t v c : shows color t v -> outputs init dev color (mret t) c t v.
Proof. intros H. exists t, c. split; [apply moves_ret|]. split; [done|apply screen_only_refl]. Qed.

Lemma outputs_bind init dev color x f c t v w :
  outputs init dev color x c t v ->
  (forall t' c', shows color t' v -> outputs init dev color (f t') c' t' w) ->
  outputs init dev color (x ≫= f) c t w.
Proof.
  intros (t1 & c1 & M1 & S1 & F1) Hf. destruct (Hf t1 c1 S1) as (t2 & c2 & M2 & S2 & F2).
  exists t2, c2. split; [by eapply moves_bind|]. split; [done|by eapply screen_only_trans].
Qed.

Lemma outputs_moved init dev color x c t t' c' v :
  moves init dev x c t' c' -> memory t' = memory t -> shows color t' v -> outputs init dev color x c t v.
Proof. intros M E S. exists t', c'. split; [done|]. split; [done|]. rewrite E. apply screen_only_refl. Qed.

Lemma scroll_outputs init dev color t v c : shows color t v ->
  outputs init dev color (terminal_scroll_line_down t) c t (vscroll color (Vt 23 0 (vcell v))).
Proof.
  intros (Hr & Hc & Hk & Hv). destruct (scrolled_spec color (memory t)) as [F C].
  exists (set_pos (set_memory t (scrolled color (memory t))) 23 0), (u16 ((23 + 1) * 80 + 0)).
  split; [|split; [|done]].
  - unfold terminal_scroll_line_down, scrolled. rewrite Hk. cbv zeta. change (VGA_HEIGHT - 2) with 23.
    apply update_cursor_moves; lia.
  - do 3 (split; [done|]). intros i Hi. cbn [memory set_pos set_memory vcell vscroll]. rewrite C by done. unfold VGA_EXTENT in *.
    destruct (Z.ltb_spec i (24 * 80)); [|done]. apply Hv. lia.
Qed.

Lemma next_column_outputs init dev color t v c : 0 <= vrow v < 24 -> -1 <= vcol v < 80 -> shows color t v ->
  outputs init dev color (next_column t) c t (vadvance color v).
Proof.
  intros Br Bc S. pose proof S as (Hr & Hc & Hk & Hv). unfold next_column, vadvance, VGA_WIDTH, VGA_HEIGHT.
  cbn [terminal_column set_pos terminal_row]. rewrite Hr, Hc.
  destruct (Z.eqb_spec (vcol v + 1) 80) as [E|N], (Z.ltb_spec (vcol v + 1) 80); try lia.
  - unfold vnewline. cbn [terminal_row set_pos]. destruct (Z.eqb_spec (vrow v + 1) (25 - 1)), (Z.ltb_spec (vrow v + 1) 24); try lia.
    + apply (scroll_outputs init dev color (set_pos t (vrow v + 1) 0) (Vt (vrow v + 1) 0 (vcell v))).
      by repeat (split; [done|]).
    + eapply outputs_moved; [apply moves_ret|done|]. by repeat (split; [done|]).
  - eapply outputs_moved; [apply moves_ret|done|]. by repeat (split; [done|]).
Qed.

Definition put (t : tty) (uc : Z) : tty := terminal_putentryat t uc (terminal_color t) (terminal_column t) (terminal_row t).

Lemma put_shows color t v uc : vt_ok v -> shows color t v ->
  shows color (put t uc) (vset (vpos v) (vga_entry uc color) v) /\ screen_only (memory t) (memory (put t uc)).
Proof.
  intros [Br Bc] (Hr & Hc & Hk & Hv). unfold put, terminal_putentryat. rewrite Hr, Hc, Hk.
  rewrite (u64_small (vrow v * VGA_WIDTH + vcol v)) by (unfold VGA_WIDTH; lia).
  rewrite (u64_small (cell_addr _)) by (unfold cell_addr, VGA_MEMORY, VGA_WIDTH; lia). split.
  - do 3 (split; [done|]). intros i Hi. cbn. rewrite cell_put. unfold vpos, VGA_WIDTH.
    destruct (i =? _); [|by apply Hv]. apply u16_small, vga_entry_range.
  - apply cell_put_only. unfold VGA_WIDTH, VGA_EXTENT. lia.
Qed.

Lemma vset_ok i e v : vt_ok v -> vt_ok (vset i e v).
Proof. done. Qed.

Lemma vadvance_ok color v : 0 <= vrow v < 24 -> -1 <= vcol v < 80 -> vt_ok (vadvance color v).
Proof.
  intros Hr Hc. unfold vadvance, vnewline, vt_ok.
  destruct (Z.ltb_spec (vcol v + 1) 80); [cbn; lia|]. destruct (Z.ltb_spec (vrow v + 1) 24); cbn; lia.
Qed.

Lemma vnewline_ok color v : vt_ok v -> vt_ok (vnewline color v).
Proof. intros [Hr Hc]. unfold vnewline, vt_ok. destruct (Z.ltb_spec (vrow v + 1) 24); cbn; lia. Qed.

Lemma vput_ok color c v : vt_ok v -> vt_ok (vput color c v).
Proof. intros [Hr Hc]. apply vadvance_ok; cbn; lia. Qed.

Lemma vchar_ok color c v : char_ok c v = true -> vt_ok v -> vt_ok (vchar color c v).
Proof.
  unfold char_ok, vchar. intros H Hv. pose proof Hv as [Hr Hc].
  destruct (c =? 10); [by apply vnewline_ok|]. destruct (Z.eqb_spec c 8).
  - rewrite !andb_true_iff in H. destruct H as [_ H]. cbn in H. apply Z.leb_le in H.
    unfold vback, vt_ok, vpos in *. cbn. zlia.
  - destruct (c =? 13); [unfold vt_ok; cbn; lia|]. destruct (c =? 9); [|by apply vput_ok].
    assert (W : vt_ok (vput color 32 (vput color 32 (vput color 32 (vput color 32 v))))) by by do 4 apply vput_ok.
    revert W. generalize (vput color 32 (vput color 32 (vput color 32 (vput color 32 v)))).
    intros w [Hwr Hwc]. apply vadvance_ok; lia.
Qed.

(** The position the cursor register shows. *)
Lemma position_of_cursor p : 0 <= p < 24 * 80 -> u16 (u16 (p + 80) - 80) = p.
Proof. intros H. ulia. Qed.

Lemma get_position_outputs init dev c p (f : Z -> io tty) color t v : crtc_device init dev -> c = u16 (p + 80) ->
  0 <= p < 24 * 80 ->
  outputs init dev color (f p) c t v -> outputs init dev color (get_cursor_position ≫= f) c t v.
Proof.
  intros Hd -> Hp (t' & c' & M & S & F). exists t', c'. split; [|done]. eapply moves_bind; [by apply get_cursor_moves|].
  by rewrite position_of_cursor.
Qed.

(** A character that is drawn needs no cursor. *)
Lemma drawn_outputs init dev color t v c uc : crtc_device init dev -> vt_ok v -> shows color t v ->
  uc <> 10 -> uc <> 8 -> uc <> 13 -> outputs init dev color (putchar_no_tab t uc) c t (vput color uc v).
Proof.
  intros Hd Hv S N1 N2 N3. pose proof Hv as [Hr Hc]. unfold putchar_no_tab.
  assert (E : outputs init dev color
    (t ← mret (put t uc); next_column t) c t (vput color uc v)).
  { destruct (put_shows color t v uc Hv S) as [S1 F1]. eapply outputs_bind; [by exists (put t uc), c; split; [apply moves_ret|]|]. intros t' c' S'. apply next_column_outputs; cbn; [lia..|done]. }
  destruct E as (t' & c' & M & E). exists t', c'. split; [|done].
  eapply moves_bind; [by apply get_cursor_moves|]. cbv beta.
  rewrite (proj2 (Z.eqb_neq uc 10)), (proj2 (Z.eqb_neq uc 8)), (proj2 (Z.eqb_neq uc 13)) by done. exact M.
Qed.

Lemma reverse_moves_any init dev t c q : crtc_device init dev -> q = u16 (u16 (c - 80) - 1) ->
  moves init dev (reverse_cursor t) c (set_pos t (q / 80) (q mod 80)) (u16 (q + 80)).
Proof.
  intros Hd ->. unfold reverse_cursor. eapply moves_bind; [by apply get_cursor_moves|].
  set (q := u16 (u16 (c - 80) - 1)). assert (Hq : 0 <= q < 65536) by (unfold q; ulia).
  unfold update_cursor_absolute, VGA_WIDTH. cbn [terminal_column terminal_row set_pos].
  replace (u16 (q + 80)) with (u16 ((q / 80 + 1) * 80 + q mod 80)) by (f_equal; zlia).
  apply (update_cursor_moves init dev (set_pos t _ _)); zlia.
Qed.

Lemma reverse_moves init dev t c p : crtc_device init dev -> c = u16 (p + 80) -> 0 < p < 24 * 80 ->
  moves init dev (reverse_cursor t) c (set_pos t ((p - 1) / 80) ((p - 1) mod 80)) (u16 (p - 1 + 80)).
Proof.
  intros Hd -> Hp. apply reverse_moves_any; [done|]. rewrite position_of_cursor by lia. by rewrite (u16_small (p - 1)) by lia.
Qed.

(** A backspace anywhere, the wrap-around of the position included. *)
Lemma back_moves init dev t c q1 q2 : crtc_device init dev ->
  q1 = u16 (u16 (c - 80) - 1) -> q2 = u16 (q1 - 1) -> q2 mod 80 + 1 <> 80 ->
  moves init dev (putchar t 8) c
    (set_pos (put (set_pos t (q1 / 80) (q1 mod 80)) 32) (q2 / 80) (q2 mod 80 + 1)) (u16 ((q2 / 80 + 1) * 80 + (q2 mod 80 + 1))).
Proof.
  intros Hd H1 H2 N. assert (B : 0 <= q2 < 65536) by (subst; ulia).
  unfold putchar, terminal_write. cbn [io_fold]. unfold terminal_putchar. change (u8 (s8 8)) with 8.
  cbn [Z.eqb Pos.eqb]. unfold putchar_no_tab. cbn [Z.eqb Pos.eqb].
  pose proof (reverse_moves_any init dev t c q1 Hd H1) as M1.
  pose proof (reverse_moves_any init dev (put (set_pos t (q1 / 80) (q1 mod 80)) 32) (u16 (q1 + 80)) q2 Hd) as M2.
  specialize (M2 ltac:(rewrite H2; subst q1; ulia)).
  set (t2 := set_pos _ (q2 / 80) (q2 mod 80 + 1)). eapply (moves_bind _ _ _ _ _ t2); [|apply (update_cursor_moves init dev t2)].
  - eapply moves_bind; [|apply moves_ret]. eapply moves_bind; [by apply get_cursor_moves|].
    eapply moves_bind; [eapply moves_bind; [exact M1|exact M2]|].
    unfold next_column. cbn [terminal_column terminal_row set_pos]. unfold VGA_WIDTH.
    rewrite (proj2 (Z.eqb_neq _ _) N). apply moves_ret.
  - cbn. zlia.
  - cbn. zlia.
Qed.

Lemma vadvance_at color q cells : 0 <= q -> q + 1 < 24 * 80 ->
  vadvance color (Vt (q / 80) (q mod 80) cells) = Vt ((q + 1) / 80) ((q + 1) mod 80) cells.
Proof.
  intros H1 H2. unfold vadvance, vnewline. cbn.
  destruct (Z.ltb_spec (q mod 80 + 1) 80); [f_equal; zlia|].
  destruct (Z.ltb_spec (q / 80 + 1) 24); [f_equal; zlia|zlia].
Qed.

Lemma back_outputs init dev color t v c : crtc_device init dev -> vt_ok v -> shows color t v -> c = u16 (vpos v + 80) ->
  2 <= vpos v -> outputs init dev color (putchar_no_tab t 8) c t (vback color v).
Proof.
  intros Hd [Br Bc] S Ec Hp. assert (Hm : vpos v < 24 * 80) by (unfold vpos; lia).
  unfold putchar_no_tab. apply (get_position_outputs _ _ _ (vpos v)); [done..|lia|]. cbn [Z.eqb Pos.eqb].
  set (p := vpos v) in *. set (t1 := set_pos t ((p - 1) / 80) ((p - 1) mod 80)).
  destruct (put_shows color t1 (Vt ((p - 1) / 80) ((p - 1) mod 80) (vcell v)) 32) as [S2 F2].
  { unfold vt_ok. cbn. zlia. }
  { destruct S as (_ & _ & ? & ?). by repeat (split; [done|]). }
  eapply outputs_bind.
  - exists (set_pos (put t1 32) ((p - 1 - 1) / 80) ((p - 1 - 1) mod 80)), (u16 (p - 1 - 1 + 80)).
    split; [|split; [|exact F2]].
    + eapply moves_bind; [apply (reverse_moves init dev t c p); [done..|lia]|]. apply reverse_moves; [done..|lia].
    + destruct S2 as (_ & _ & K2 & C2).
      instantiate (1 := Vt ((p - 1 - 1) / 80) ((p - 1 - 1) mod 80) (vcell (vback color v))).
      do 3 (split; [done|]). intros i Hi. etransitivity; [apply (C2 i Hi)|]. cbn. unfold vpos at 1. cbn.
      replace ((p - 1) / 80 * 80 + (p - 1) mod 80) with (p - 1) by zlia. done.
  - intros t' c' S'. replace (vback color v) with (vadvance color (Vt ((p - 1 - 1) / 80) ((p - 1 - 1) mod 80) (vcell (vback color v)))).
    + apply next_column_outputs; [cbn; zlia..|done].
    + rewrite vadvance_at by lia. by replace (p - 1 - 1 + 1) with (p - 1) by lia.
Qed.

Lemma update_outputs init dev color t v c : 0 <= vrow v < 24 -> -1 <= vcol v < 80 -> shows color t v ->
  outputs init dev color (update_cursor t (terminal_column t) (terminal_row t)) c t v.
Proof.
  intros Hr Hc S. pose proof S as (Er & Ec & _). rewrite Er, Ec.
  eapply outputs_moved; [apply update_cursor_moves; lia|done|]. destruct S as (_ & _ & ? & ?). by repeat (split; [done|]).
Qed.

Lemma drawn_list_outputs init dev color l t v c : crtc_device init dev -> vt_ok v -> shows color t v ->
  Forall (fun uc => 32 <= uc) l ->
  outputs init dev color (io_fold (fun c t => putchar_no_tab t c) l t) c t (fold_left (fun v c => vput color c v) l v).
Proof.
  intros Hd Hv S Hl. revert t v c Hv S. induction Hl as [|uc l Hu _ IH]; intros t v c Hv S; [by apply outputs_ret|].
  cbn [io_fold fold_left]. eapply outputs_bind; [apply (drawn_outputs init dev color t v); [done..|lia|lia|lia]|].
  intros t' c' S'. apply IH; [by apply vput_ok|done].
Qed.

Lemma spaces_outputs init dev color t v c : crtc_device init dev -> vt_ok v -> shows color t v ->
  outputs init dev color (io_fold (fun c t => putchar_no_tab t c) [32; 32; 32; 32] t) c t
    (vput color 32 (vput color 32 (vput color 32 (vput color 32 v)))).
Proof. intros Hd Hv S. apply (drawn_list_outputs init dev color [32; 32; 32; 32]); [done..|]. by repeat constructor. Qed.

(** The row below, from the row the cursor register shows. *)
Lemma row_of_position v : vt_ok v -> u8 (vpos v / VGA_WIDTH) = vrow v.
Proof. intros [Br Bc]. unfold vpos, VGA_WIDTH. ulia. Qed.

Lemma newline_outputs init dev color t v c : vt_ok v -> shows color t v ->
  outputs init dev color
    (t ← (let current_row := u8 (u8 (vpos v / VGA_WIDTH) + 1) in
          if VGA_HEIGHT - 1 <=? current_row then
            t ← terminal_scroll_line_down t; mret (set_pos t (terminal_row t) (-1))
          else update_cursor t (-1) current_row); next_column t) c t (vnewline color v).
Proof.
  intros Hv S. pose proof Hv as [Br Bc]. rewrite row_of_position, (u8_small (vrow v + 1)) by (done || lia). cbv zeta.
  pose proof S as (_ & _ & Hk & Hcell). unfold VGA_HEIGHT, vnewline.
  destruct (Z.leb_spec (25 - 1) (vrow v + 1)), (Z.ltb_spec (vrow v + 1) 24); try lia.
  - eapply outputs_bind.
    + eapply outputs_bind; [by apply scroll_outputs|]. intros t' c' (Hr' & _ & Hk' & Hv').
      instantiate (1 := vscroll color (Vt 23 (-1) (vcell v))).
      eapply outputs_moved; [apply moves_ret|done|]. by repeat (split; [done|]).
    + intros t' c' S'.
      change (vscroll color (Vt 23 0 (vcell v))) with (vadvance color (vscroll color (Vt 23 (-1) (vcell v)))).
      apply next_column_outputs; cbn; [lia..|done].
  - eapply outputs_bind.
    + eapply (outputs_moved _ _ _ _ _ _ _ _ (Vt (vrow v + 1) (-1) (vcell v))); [apply update_cursor_moves; lia|done|].
      by repeat (split; [done|]).
    + intros t' c' S'. change (Vt (vrow v + 1) 0 (vcell v)) with (vadvance color (Vt (vrow v + 1) (-1) (vcell v))).
      apply next_column_outputs; cbn; [lia..|done].
Qed.

Lemma return_outputs init dev color t v c : vt_ok v -> shows color t v ->
  outputs init dev color (t ← update_cursor t (-1) (u8 (vpos v / VGA_WIDTH)); next_column t) c t (Vt (vrow v) 0 (vcell v)).
Proof.
  intros Hv S. pose proof Hv as [Br Bc]. rewrite row_of_position by done. pose proof S as (_ & _ & Hk & Hcell).
  eapply outputs_bind.
  - eapply (outputs_moved _ _ _ _ _ _ _ _ (Vt (vrow v) (-1) (vcell v))); [apply update_cursor_moves; lia|done|].
    by repeat (split; [done|]).
  - intros t' c' S'. change (Vt (vrow v) 0 (vcell v)) with (vadvance color (Vt (vrow v) (-1) (vcell v))).
    apply next_column_outputs; cbn; [lia..|done].
Qed.

(** terminal_putchar from a position the cursor register agrees with. *)
Lemma putchar_outputs init dev color t v c uc : crtc_device init dev -> vt_ok v -> shows color t v ->
  c = u16 (vpos v + 80) -> char_ok uc v = true ->
  outputs init dev color (terminal_putchar t (s8 uc)) c t (vchar color uc v).
Proof.
  intros Hd Hv S Ec Hc. pose proof Hv as [Br Bc]. unfold char_ok in Hc. rewrite !andb_true_iff, Z.leb_le, Z.ltb_lt in Hc.
  destruct Hc as [Hu H8]. unfold terminal_putchar. replace (u8 (s8 uc)) with uc by ulia. unfold vchar.
  assert (Hp : 0 <= vpos v < 24 * 80) by (unfold vpos; lia).
  destruct (Z.eqb_spec uc 9) as [->|N9]; [|destruct (Z.eqb_spec uc 10) as [->|N10]; [|destruct (Z.eqb_spec uc 8) as [->|N8];
    [|destruct (Z.eqb_spec uc 13) as [->|N13]]]].
  - apply (get_position_outputs _ _ _ (vpos v)); [done..|]. cbn [Z.eqb Pos.eqb].
    eapply outputs_bind; [by apply (spaces_outputs init dev color t v)|]. intros t4 c4 S4.
    set (w := vput color 32 _) in *. assert (W : vt_ok w) by by do 4 apply vput_ok. destruct W as [Wr Wc].
    eapply outputs_bind; [apply (update_outputs init dev color t4 w); [lia..|done]|]. intros. apply next_column_outputs; [lia..|done].
  - unfold putchar_no_tab. apply (get_position_outputs _ _ _ (vpos v)); [done..|]. cbn [Z.eqb Pos.eqb].
    by apply newline_outputs.
  - apply back_outputs; [done..|]. cbn in H8. by apply Z.leb_le.
  - unfold putchar_no_tab. apply (get_position_outputs _ _ _ (vpos v)); [done..|]. cbn [Z.eqb Pos.eqb].
    by apply return_outputs.
  - by apply drawn_outputs.
Qed.

(** The cursor register at the position, as every write leaves it. *)
Definition synced (v : vt) : Z := u16 (vpos v + 80).

Lemma write_one init dev color t c uc w : vt_ok w ->
  outputs init dev color (terminal_putchar t (s8 uc)) c t w ->
  exists t', moves init dev (putchar t uc) c t' (synced w) /\ shows color t' w /\ screen_only (memory t) (memory t').
Proof.
  intros [Wr Wc] (t1 & c1 & M & S & F). pose proof S as (Er & Ec & Ek & Ev).
  exists (set_pos t1 (vrow w) (vcol w)). split; [|split; [by repeat (split; [done|])|done]].
  unfold putchar, terminal_write. eapply moves_bind; [cbn [io_fold]; eapply moves_bind; [exact M|apply moves_ret]|].
  rewrite Er, Ec. unfold synced, vpos. replace (vrow w * 80 + vcol w + 80) with ((vrow w + 1) * 80 + vcol w) by lia.
  apply update_cursor_moves; lia.
Qed.

Lemma put_all_moves init dev color bytes t v : crtc_device init dev -> vt_ok v -> shows color t v ->
  bytes_ok color bytes v = true ->
  exists t', moves init dev (put_all t bytes) (synced v) t' (synced (vprint color bytes v)) /\
    shows color t' (vprint color bytes v) /\ vt_ok (vprint color bytes v) /\ screen_only (memory t) (memory t').
Proof.
  intros Hd. revert t v. induction bytes as [|uc bytes IH]; intros t v Hv S H.
  { exists t. split; [apply moves_ret|]. do 2 (split; [done|]). apply screen_only_refl. }
  cbn [bytes_ok] in H. apply andb_true_iff in H as [Hc Hb].
  pose proof (vchar_ok color uc v Hc Hv) as Hv1.
  destruct (write_one init dev color t (synced v) uc (vchar color uc v) Hv1) as (t1 & M1 & S1 & F1); [by apply putchar_outputs|].
  destruct (IH t1 (vchar color uc v) Hv1 S1 Hb) as (t2 & M2 & S2 & Hv2 & F2).
  exists t2. split; [by eapply moves_bind|]. do 2 (split; [done|]). by eapply screen_only_trans.
Qed.

(** The bytes [data, data + n) are not on the screen. *)
Definition off_screen (data n : Z) : Prop := data + n <= VGA_MEMORY \/ VGA_MEMORY + 2 * VGA_EXTENT <= data.

Lemma print_moves init dev color length t v data : crtc_device init dev -> vt_ok v -> shows color t v ->
  off_screen data (Z.of_nat length) -> bytes_ok color (mbytes (memory t) data length) v = true ->
  exists t', let w := vprint color (mbytes (memory t) data length) v in
    moves init dev (print length t data) (synced v) t' (synced w) /\
    shows color t' w /\ vt_ok w /\ screen_only (memory t) (memory t').
Proof.
  intros Hd. revert t v data. induction length as [|k IH]; intros t v data Hv S Ho H.
  { exists t. split; [apply moves_ret|]. do 2 (split; [done|]). apply screen_only_refl. }
  cbn [mbytes bytes_ok] in H. apply andb_true_iff in H as [Hc Hb]. set (uc := mread (memory t) data) in *.
  pose proof (vchar_ok color uc v Hc Hv) as Hv1.
  destruct (write_one init dev color t (synced v) uc (vchar color uc v) Hv1) as (t1 & M1 & S1 & F1); [by apply putchar_outputs|].
  assert (E : mbytes (memory t1) (data + 1) k = mbytes (memory t) (data + 1) k).
  { apply mbytes_ext. intros b B. apply F1. unfold off_screen in Ho. lia. }
  destruct (IH t1 (vchar color uc v) (data + 1) Hv1 S1) as (t2 & M2 & S2 & Hv2 & F2);
    [unfold off_screen in *; lia|by rewrite E|]. rewrite E in M2, S2, Hv2.
  exists t2. cbv zeta. split; [by eapply moves_bind|]. do 2 (split; [done|]). by eapply screen_only_trans.
Qed.

Definition vblank (color : Z) : vt := Vt 0 0 (fun _ => blank color).

Definition clear_color : Z := vga_entry_color VGA_COLOR_LIGHT_GREEN VGA_COLOR_BLACK.

Lemma clear_shows t : shows clear_color (terminal_clear t) (vblank clear_color) /\
  screen_only (memory t) (memory (terminal_clear t)).
Proof.
  destruct (clear_rows_spec 25 (memory t) 0 (vga_entry 32 clear_color)) as [F C]; [lia..|].
  split; [|exact F]. do 3 (split; [done|]). intros i Hi. etransitivity; [exact (C i Hi)|].
  destruct (Z.leb_spec (0 * 80) i); [|lia]. apply (u16_small (vga_entry 32 clear_color)), vga_entry_range.
Qed.

(** ** Theorems *)

(** C7: print (the loop of the kernel's printf, one putchar per byte) on bytes
    kept outside the screen, none of which is a backspace with fewer than two
    cells in front of the position (such a backspace writes outside the screen:
    [backspace_leaves_screen]), takes a terminal whose globals and screen show
    an abstract terminal, with the cursor register at its position, to one that
    shows the result of the abstract terminal on these bytes (characters drawn
    at the position, wrap and newline with scrolling, carriage return,
    backspace, tab as five columns), again with the cursor register at its
    position; the position stays on the first 24 rows, no byte of memory outside
    the screen changes, and the run does not fail. *)
Theorem print_refines_terminal init dev color t v h data length bytes :
  crtc_device init dev -> vt_ok v -> shows color t v -> cursor init h = synced v ->
  bytes = mbytes (memory t) data length -> off_screen data (Z.of_nat length) -> bytes_ok color bytes v = true ->
  exists t' h', run (print length t data) dev h = Some (t', h') /\
    shows color t' (vprint color bytes v) /\ cursor init h' = synced (vprint color bytes v) /\
    vt_ok (vprint color bytes v) /\ screen_only (memory t) (memory t').
Proof.
  intros Hd Hv S Hh -> Ho Hb. destruct (print_moves init dev color length t v data Hd Hv S Ho Hb) as (t' & M & S' & Hv' & F).
  destruct (M h Hh) as (h' & E & C). by exists t', h'.
Qed.

(** Fact: terminal_clear leaves the cursor register where it was, but a text that
    starts with a character that is drawn comes out on the cleared screen from
    its first cell on, whatever the register held. *)
Theorem clear_then_print init dev t h uc bytes :
  crtc_device init dev -> 32 <= uc < 256 -> bytes_ok clear_color bytes (vput clear_color uc (vblank clear_color)) = true ->
  exists t' h', run (put_all (terminal_clear t) (uc :: bytes)) dev h = Some (t', h') /\
    shows clear_color t' (vprint clear_color bytes (vput clear_color uc (vblank clear_color))) /\
    screen_only (memory t) (memory t').
Proof.
  intros Hd Hu Hb. destruct (clear_shows t) as [S0 F0]. set (color := clear_color) in *.
  assert (Hv0 : vt_ok (vblank color)) by (unfold vt_ok; cbn; lia).
  assert (Hv1 : vt_ok (vput color uc (vblank color))) by by apply vput_ok.
  destruct (write_one init dev color (terminal_clear t) (cursor init h) uc (vput color uc (vblank color)) Hv1)
    as (t1 & M1 & S1 & F1).
  { unfold terminal_putchar. replace (u8 (s8 uc)) with uc by ulia. rewrite (proj2 (Z.eqb_neq uc 9)) by lia.
    apply drawn_outputs; [done..|lia|lia|lia]. }
  destruct (put_all_moves init dev color bytes t1 (vput color uc (vblank color)) Hd Hv1 S1 Hb) as (t2 & M2 & S2 & _ & F2).
  destruct (moves_bind _ _ _ _ _ _ _ _ _ M1 M2 h eq_refl) as (h' & E & _).
  exists t2, h'. split; [exact E|]. split; [done|].
  eapply screen_only_trans; [exact F0|by eapply screen_only_trans].
Qed.

(** Fact: A backspace at the first cell draws its blank at cell 65535 of the screen,
    126 KiB behind the last one, and one at the second cell leaves the position
    at row 819. *)
Theorem backspace_leaves_screen init dev color t h :
  crtc_device init dev -> terminal_color t = color ->
  (cursor init h = 80 -> exists t' h', run (putchar t 8) dev h = Some (t', h') /\
     memory t' = st16 (memory t) (VGA_MEMORY + 2 * 65535) (blank color)) /\
  (cursor init h = 81 -> exists t' h', run (putchar t 8) dev h = Some (t', h') /\ terminal_row t' = 819).
Proof.
  intros Hd <-. split; intros Hc.
  - destruct (back_moves init dev t 80 65535 65534 Hd eq_refl eq_refl) with h as (h' & E & _); [done..|].
    by eexists _, h'.
  - destruct (back_moves init dev t 81 0 65535 Hd eq_refl eq_refl) with h as (h' & E & _); [done..|].
    by eexists _, h'.
Qed.

(** ** Witnesses *)

Definition reg0 : Z -> Z := fun idx => if idx =? 0x0F then 80 else 0.
Definition crtc0 : device := fun h _ _ => crtc_reg reg0 h (crtc_index h).
Definition tty0 : tty := Tty 0 0 10 ∅.
Definition vt0 : vt := Vt 0 0 (fun _ => 0).

Lemma tty0_cells i : cell ∅ i = 0.
Proof. by vm_compute. Qed.

(** A line longer than the screen is wide, a newline, a tab and a backspace. *)
Definition text0 : list Z := repeat 65 90 ++ [10; 66; 9; 67; 8; 13].

Lemma print_refines_terminal_witness :
  exists t' h', run (print 96 (Tty 0 0 10 (mputs ∅ 4096 text0)) 4096) crtc0 [] = Some (t', h') /\
    shows 10 t' (vprint 10 text0 vt0) /\ cursor reg0 h' = synced (vprint 10 text0 vt0) /\
    vt_ok (vprint 10 text0 vt0) /\ screen_only (mputs ∅ 4096 text0) (memory t').
Proof.
  apply (print_refines_terminal reg0 crtc0 10 (Tty 0 0 10 (mputs ∅ 4096 text0)) vt0 [] 4096 96 text0);
    [by intros h|by vm_compute| |done|by vm_compute|by left|by vm_compute].
  do 3 (split; [done|]). intros i Hi. etransitivity; [|exact (tty0_cells i)].
  apply load_ext. intros b Hb. apply mread_mputs_out. right. unfold cell_addr, VGA_MEMORY, VGA_EXTENT in *.
  change (zlen text0) with 96. lia.
Defined.

Lemma clear_then_print_witness :
  exists t' h', run (put_all (terminal_clear tty0) [72; 105; 10]) crtc0 [] = Some (t', h') /\
    shows clear_color t' (vprint clear_color [105; 10] (vput clear_color 72 (vblank clear_color))) /\
    screen_only ∅ (memory t').
Proof. apply (clear_then_print reg0 crtc0 tty0 [] 72 [105; 10]); [by intros h|lia|by vm_compute]. Defined.

Lemma backspace_leaves_screen_witness :
  exists t' h', run (putchar tty0 8) crtc0 [] = Some (t', h') /\
    memory t' = st16 ∅ (VGA_MEMORY + 2 * 65535) (blank 10).
Proof. apply (backspace_leaves_screen reg0 crtc0 10 tty0 []); [by intros h|done|done]. Defined.
