(* ===== verification/Printf.v ===== *)
(** * Printf: printf of libc/stdio/printf.c in the kernel

    The format is read from memory and the text goes to the terminal one
    conversion at a time.  The arguments are the 64-bit values va_arg walks
    over; asking for more than there are is undefined in C and fails here.
    The local arrays of a conversion live in a frame of 336 bytes. *)

From S2P Require Import Prelude Mem CString CStdlib Device Tty.

Definition INT_MAX : Z := 2147483647.

(** The amount of literal text: up to the next percent sign or the end. *)
Fixpoint literal_amount (fuel : nat) (m : mem) (format amount : Z) : option Z :=
  match fuel with
  | O => None
  | S fuel =>
      let c := mread m (format + amount) in
      if negb (c =? 0) && negb (c =? 37) then literal_amount fuel m format (amount + 1) else Some amount
  end.

(** The do-while loop of %b, which fills its array from the end; 64 digits are
    enough for an int64_t. *)
Fixpoint binary_loop (k : nat) (m : mem) (ptr i : Z) : option (mem * Z) :=
  match k with
  | O => None
  | S k =>
      let ptr := ptr - 1 in
      let m := mwrite m ptr (if Z.land i 1 =? 0 then 48 else 49) in
      let i := Z.shiftr i 1 in
      if 0 <? i then binary_loop k m ptr i else Some (m, ptr)
  end.

Section Printf.
Context (fuel : nat) (frame : Z).

Definition str : Z := frame.
Definition tmp : Z := frame + 264.

(** %d and %u: the address of the text. *)
Definition format_decimal (m : mem) (i : Z) : option (mem * Z) :=
  let m := memset m str 0 (64 + 1) in
  '(m, _) ← itoa m i str 10;
  Some (m, str).

(** %x and %p. *)
Definition format_hex (prefix : bool) (m : mem) (i : Z) : option (mem * Z) :=
  let m := memset m str 0 (64 + 2 + 1) in
  let m := memset m tmp 0 (64 + 1) in
  '(m, _) ← itoa m i tmp 16;
  let m := if prefix then mwrite (mwrite m str 48) (str + 1) 120 else m in
  len ← strlen fuel m tmp;
  Some (memmove m (if prefix then str + 2 else str) tmp (len + 1), str).

Definition format_binary (m : mem) (i : Z) : option (mem * Z) :=
  let ptr := str + 32 * 8 + 2 in
  let m := mwrite m ptr 0 in
  '(m, ptr) ← binary_loop 64 m ptr i;
  let m := mwrite m (ptr - 1) 98 in
  Some (mwrite m (ptr - 1 - 1) 48, ptr - 1 - 1).

Definition va_arg (args : list Z) : option (Z * list Z) :=
  match args with a :: args => Some (a, args) | [] => None end.

(** The text of a conversion that prints a string: the memory with the text
    and its address. *)
Definition convert (c : Z) (m : mem) (a : Z) : option (mem * Z) :=
  if c =? 115 then Some (m, a)
  else if c =? 100 then format_decimal m (s32 a)
  else if c =? 117 then format_decimal m (u32 a)
  else if c =? 120 then format_hex false m (s64 a)
  else if c =? 112 then format_hex true m (s64 a)
  else format_binary m (s64 a).

Definition is_conversion (c : Z) : bool :=
  (c =? 115) || (c =? 100) || (c =? 117) || (c =? 120) || (c =? 112) || (c =? 98).

Fixpoint printf_loop (k : nat) (t : tty) (format written : Z) (args : list Z) : io (tty * Z) :=
  match k with
  | O => io_fail
  | S k =>
      if mread (memory t) format =? 0 then mret (t, written)
      else
        let maxrem := u64 (INT_MAX - written) in
        if negb (mread (memory t) format =? 37) || (mread (memory t) (format + 1) =? 37) then
          let format := if mread (memory t) format =? 37 then format + 1 else format in
          amount ← io_lift (literal_amount fuel (memory t) format 1);
          if maxrem <? amount then mret (t, -1)
          else
            t ← print (Z.to_nat amount) t format;
            printf_loop k t (format + amount) (s32 (written + amount)) args
        else
          let format_begun_at := format in
          let format := format + 1 in
          let c := mread (memory t) format in
          if c =? 99 then
            '(a, args) ← io_lift (va_arg args);
            if maxrem =? 0 then mret (t, -1)
            else
              let t := set_memory t (mwrite (memory t) str (u8 a)) in
              t ← print 1 t str;
              printf_loop k t (format + 1) (s32 (written + 1)) args
          else if is_conversion c then
            '(a, args) ← io_lift (va_arg args);
            if negb (c =? 115) && (maxrem =? 0) then mret (t, -1)
            else
              '(m, ptr) ← io_lift (convert c (memory t) a);
              let t := set_memory t m in
              len ← io_lift (strlen fuel m ptr);
              if maxrem <? len then mret (t, -1)
              else
                t ← print (Z.to_nat len) t ptr;
                printf_loop k t (format + 1) (s32 (written + len)) args
          else
            len ← io_lift (strlen fuel (memory t) format_begun_at);
            if maxrem <? len then mret (t, -1)
            else
              t ← print (Z.to_nat len) t format_begun_at;
              printf_loop k t (format_begun_at + len) (s32 (written + len)) args
  end.

(** printf error: format is 0x0 *)
Definition err_msg : list Z :=
  [112; 114; 105; 110; 116; 102; 32; 101; 114; 114; 111; 114; 58; 32; 102; 111; 114; 109; 97; 116; 32;
   105; 115; 32; 48; 120; 48; 10].

Definition printf (t : tty) (format : Z) (args : list Z) : io (tty * Z) :=
  if format =? 0 then t ← put_all t err_msg; mret (t, -1)
  else printf_loop fuel t format 0 args.

End Printf.

(** ** What a format means *)

Inductive arg := Num (z : Z) | Str (s : list Z).

Fixpoint binary_text (k : nat) (z : Z) : list Z :=
  match k with
  | O => []
  | S k => (if 0 <? Z.shiftr z 1 then binary_text k (Z.shiftr z 1) else []) ++ [if Z.land z 1 =? 0 then 48 else 49]
  end.

Definition expand_directive (c : Z) (a : arg) : option (list Z) :=
  match a with
  | Str s => if c =? 115 then Some s else None
  | Num z =>
      if c =? 99 then Some [u8 z]
      else if c =? 100 then Some (number_text (s32 z) 10)
      else if c =? 117 then Some (number_text (u32 z) 10)
      else if s64 z =? - 2 ^ 63 then None
      else if c =? 120 then Some (number_text (s64 z) 16)
      else if c =? 112 then Some ([48; 120] ++ number_text (s64 z) 16)
      else if c =? 98 then Some ([48; 98] ++ binary_text 64 (s64 z))
      else None
  end.

(** The text of a format: after an unknown conversion the rest of the format
    is literal. *)
Fixpoint expand (fmt : list Z) (args : list arg) : option (list Z) :=
  match fmt with
  | [] => Some []
  | c :: fmt1 =>
      if c =? 37 then
        match fmt1 with
        | [] => Some fmt
        | d :: fmt2 =>
            if d =? 37 then out ← expand fmt2 args; Some (37 :: out)
            else if (d =? 99) || is_conversion d then
              match args with
              | a :: args => txt ← expand_directive d a; out ← expand fmt2 args; Some (txt ++ out)
              | [] => None
              end
            else Some fmt
        end
      else out ← expand fmt1 args; Some (c :: out)
  end.

(** ** Lemmas: the texts of the conversions *)

Lemma itoa_number m num str base : 2 <= base <= 36 -> - 2 ^ 63 < num < 2 ^ 63 ->
  exists m', itoa m num str base = Some (m', str) /\ cstr m' str (number_text num base) /\
    forall b, b < str \/ str + 66 <= b -> mread m' b = mread m b.
Proof.
  intros Hb Hn. unfold number_text. destruct (Z.eqb_spec num 0) as [->|N].
  - assert (E : itoa m 0 str base = Some (mwrite (mwrite m (str + 0) 48) (str + 1) 0, str)).
    { unfold itoa. destruct (Z.eqb_spec base 0); [lia|]. by destruct (Z.ltb_spec base 2), (Z.ltb_spec 36 base); try lia. }
    eexists. split; [exact E|]. split.
    + cbn. rewrite Z.add_0_r, mread_mwrite_ne, !mread_mwrite_eq by lia. by vm_compute.
    + intros b B. by eapply itoa_out.
  - destruct (itoa_spec m num str base Hb Hn N) as (m' & E & C). exists m'. split; [done|]. split; [done|].
    intros b B. by eapply itoa_out.
Qed.

Lemma number_text_length z base : (length (number_text z base) <= 65)%nat.
Proof.
  unfold number_text, itoa_text. destruct (z =? 0); [cbn; lia|]. pose proof (ldigits_length 64 base (Z.abs z)).
  rewrite length_app, length_reverse, length_map. destruct (_ && _); cbn [length]; lia.
Qed.

Lemma binary_text_length k z : (length (binary_text k z) <= k)%nat.
Proof.
  revert z. induction k as [|k IH]; intros z; cbn [binary_text length]; [lia|]. rewrite length_app. cbn [length].
  destruct (0 <? _); [|cbn [length]; lia]. specialize (IH (Z.shiftr z 1)). lia.
Qed.

Lemma binary_loop_spec k m ptr i rest : (0 < k)%nat -> i < 2 ^ Z.of_nat k -> cstr m ptr rest ->
  exists m' ptr', binary_loop k m ptr i = Some (m', ptr') /\ ptr' = ptr - zlen (binary_text k i) /\
    cstr m' ptr' (binary_text k i ++ rest) /\ forall b, b < ptr' \/ ptr <= b -> mread m' b = mread m b.
Proof.
  revert m ptr i rest. induction k as [|k IH]; intros m ptr i rest Hk Hi Hc; [lia|]. cbn [binary_loop binary_text].
  set (d := if Z.land i 1 =? 0 then 48 else 49). assert (Hd : 0 < d < 256) by (unfold d; destruct (_ =? 0); lia).
  assert (C1 : cstr (mwrite m (ptr - 1) d) (ptr - 1) (d :: rest)).
  { cbn. rewrite mread_mwrite_eq, u8_small by lia. split; [done|]. split; [lia|]. replace (ptr - 1 + 1) with ptr by lia.
    revert Hc. apply cstr_ext. intros b B. apply mread_mwrite_ne. lia. }
  destruct (Z.ltb_spec 0 (Z.shiftr i 1)) as [P|P].
  - rewrite Z.shiftr_div_pow2 in * by lia. change (2 ^ 1) with 2 in *. rewrite Nat2Z.inj_succ, Z.pow_succ_r in Hi by lia.
    destruct k as [|k]; [cbn in Hi; zlia|].
    destruct (IH (mwrite m (ptr - 1) d) (ptr - 1) (i / 2) (d :: rest)) as (m' & ptr' & E & Ep & C & F); [lia|zlia|done|].
    exists m', ptr'. split; [done|]. split; [rewrite zlen_app, Ep; unfold zlen; cbn [length]; lia|].
    split; [by rewrite <- app_assoc|]. pose proof (zlen_nonneg (binary_text (S k) (i / 2))).
    intros b B. rewrite F by lia. apply mread_mwrite_ne. lia.
  - exists (mwrite m (ptr - 1) d), (ptr - 1). split; [done|]. split; [done|]. split; [done|].
    intros b B. apply mread_mwrite_ne. lia.
Qed.

(** The arguments in memory: a string outside the frame and the screen. *)
Definition text_at (fuel : nat) (frame : Z) (m : mem) (a : Z) (s : list Z) : Prop :=
  cstr m a s /\ (length s < fuel)%nat /\ off_screen a (zlen s + 1) /\ (a + zlen s < frame \/ frame + 336 <= a).

Definition arg_at (fuel : nat) (frame : Z) (m : mem) (a : Z) (g : arg) : Prop :=
  match g with Num z => a = z | Str s => text_at fuel frame m a s end.

(** Memory outside the frame and the screen is as before. *)
Definition locals_only (frame : Z) (m m' : mem) : Prop :=
  forall b, b < frame \/ frame + 336 <= b -> b < VGA_MEMORY \/ VGA_MEMORY + 2 * VGA_EXTENT <= b -> mread m' b = mread m b.

Lemma text_at_ext fuel frame m m' a s : locals_only frame m m' -> text_at fuel frame m a s -> text_at fuel frame m' a s.
Proof.
  intros L (C & F & O & A). split; [|done]. revert C. apply cstr_ext. intros b B. unfold off_screen in O.
  apply L; lia.
Qed.

#[global] Arguments binary_text : simpl never.
#[global] Arguments binary_loop : simpl never.

Section Conversions.
Context (fuel : nat) (frame : Z) (Hfuel : (70 <= fuel)%nat) (Hframe : off_screen frame 336).

(** A conversion yields a text in the frame and changes nothing else. *)
Definition in_frame (m : mem) (r : option (mem * Z)) (txt : list Z) : Prop :=
  exists m' ptr, r = Some (m', ptr) /\ cstr m' ptr txt /\ (length txt < fuel)%nat /\
    off_screen ptr (zlen txt) /\ forall b, b < frame \/ frame + 336 <= b -> mread m' b = mread m b.

Lemma frame_off ptr n : frame <= ptr -> ptr + n <= frame + 336 -> off_screen ptr n.
Proof. unfold off_screen in *. lia. Qed.

Lemma format_decimal_spec m i : - 2 ^ 63 < i < 2 ^ 63 ->
  in_frame m (format_decimal frame m i) (number_text i 10).
Proof.
  intros Hi. destruct (itoa_number (memset m frame 0 (64 + 1)) i frame 10) as (m' & E & C & F); [lia..|].
  exists m', frame. unfold format_decimal, str. rewrite E. split; [done|]. split; [done|].
  pose proof (number_text_length i 10). split; [lia|]. split; [apply frame_off; unfold zlen; lia|].
  intros b B. rewrite F by lia. apply memset_out. lia.
Qed.

Lemma cstr_memmove m dst src s : cstr m src s -> cstr (memmove m dst src (zlen s + 1)) dst s.
Proof.
  intros C. assert (E : forall k, 0 <= k <= zlen s -> mread (memmove m dst src (zlen s + 1)) (dst + k) = mread m (src + k)).
  { intros k Hk. apply memmove_in. lia. }
  revert E. generalize (memmove m dst src (zlen s + 1)). intros m'. revert dst src C.
  induction s as [|c s IH]; intros dst src C E; cbn [cstr] in *.
  - specialize (E 0 ltac:(done)). rewrite !Z.add_0_r in E. by rewrite E.
  - rewrite zlen_cons in E. pose proof (zlen_nonneg s). destruct C as (C1 & C2 & C3).
    split; [|split; [done|]]. { specialize (E 0 ltac:(lia)). rewrite !Z.add_0_r in E. by rewrite E. }
    apply (IH _ (src + 1)); [done|]. intros k Hk. rewrite <- !Z.add_assoc. apply E. lia.
Qed.

Lemma format_hex_spec prefix m i : - 2 ^ 63 < i < 2 ^ 63 ->
  in_frame m (format_hex fuel frame prefix m i) ((if prefix then [48; 120] else []) ++ number_text i 16).
Proof.
  intros Hi. unfold format_hex, str, tmp. set (m1 := memset _ (frame + 264) 0 (64 + 1)).
  destruct (itoa_number m1 i (frame + 264) 16) as (m2 & E & C & F); [lia..|]. rewrite E. cbn [mbind option_bind].
  set (txt := number_text i 16) in *. pose proof (number_text_length i 16 : (length txt <= 65)%nat) as Ht.
  set (m3 := if prefix then _ else m2).
  assert (M3 : forall b, b < frame \/ frame + 2 <= b -> mread m3 b = mread m2 b).
  { intros b B. unfold m3. destruct prefix; [|done]. by rewrite !mread_mwrite_ne by lia. }
  assert (C3 : cstr m3 (frame + 264) txt). { revert C. apply cstr_ext. intros b B. apply M3. lia. }
  rewrite (strlen_spec fuel m3 (frame + 264) txt C3) by lia. cbn [mbind option_bind].
  set (dst := if prefix then frame + 2 else frame). assert (Hdst : frame <= dst <= frame + 2) by (unfold dst; destruct prefix; lia).
  pose proof (cstr_memmove m3 dst (frame + 264) txt C3) as C4.
  eexists _, frame. split; [done|]. split; [|split; [|split]].
  - unfold dst in *. destruct prefix; [|exact C4]. cbn [app cstr].
    rewrite !memmove_out by lia. unfold m3. rewrite mread_mwrite_ne, mread_mwrite_eq, mread_mwrite_eq by lia.
    split; [done|]. split; [done|]. split; [done|]. split; [done|]. by replace (frame + 1 + 1) with (frame + 2) by lia.
  - destruct prefix; cbn [app length]; lia.
  - apply frame_off; [lia|]. unfold zlen. destruct prefix; cbn [app length]; lia.
  - intros b B. rewrite memmove_out, M3, F; [|unfold zlen; lia..]. unfold m1. by rewrite !memset_out by lia.
Qed.

Lemma format_binary_spec m i : i < 2 ^ 63 -> in_frame m (format_binary frame m i) ([48; 98] ++ binary_text 64 i).
Proof.
  intros Hi. unfold format_binary, str. set (p := frame + 32 * 8 + 2). 
  destruct (binary_loop_spec 64 (mwrite m p 0) p i []) as (m' & ptr & E & Ep & C & F); [lia|lia|by cbn; rewrite mread_mwrite_eq|].
  rewrite E. cbn [mbind option_bind]. rewrite app_nil_r in C. pose proof (binary_text_length 64 i) as Ht.
  set (txt := binary_text 64 i) in *.
  eexists _, (ptr - 1 - 1). split; [done|]. unfold zlen in Ep. split; [|split; [|split]].
  - cbn [app cstr]. replace (ptr - 1 - 1 + 1) with (ptr - 1) by lia. replace (ptr - 1 + 1) with ptr by lia.
    rewrite mread_mwrite_eq, mread_mwrite_ne, mread_mwrite_eq by lia.
    split; [reflexivity|]. split; [lia|]. split; [reflexivity|]. split; [lia|].
    revert C. apply cstr_ext. intros b B. by rewrite !mread_mwrite_ne by lia.
  - cbn [app length]. lia.
  - apply frame_off; unfold zlen; cbn [app length]; lia.
  - intros b B. rewrite !mread_mwrite_ne, F, mread_mwrite_ne by lia. done.
Qed.

Lemma convert_spec c m a g txt : c <> 99 -> is_conversion c = true -> arg_at fuel frame m a g ->
  expand_directive c g = Some txt -> in_frame m (convert fuel frame c m a) txt.
Proof.
  intros N Hc Ha. unfold convert, expand_directive, is_conversion in *. destruct g as [z|s].
  - cbn in Ha. subst a. destruct (Z.eqb_spec c 99); [done|].
    destruct (c =? 115) eqn:E1; [apply Z.eqb_eq in E1; subst c; cbn; by destruct (s64 z =? - 2 ^ 63)|].
    destruct (c =? 100) eqn:E2; [intros [= <-]; apply format_decimal_spec; ulia|].
    destruct (c =? 117) eqn:E3; [intros [= <-]; apply format_decimal_spec; ulia|].
    destruct (Z.eqb_spec (s64 z) (- 2 ^ 63)); [done|]. assert (- 2 ^ 63 < s64 z < 2 ^ 63) by ulia.
    destruct (c =? 120) eqn:E4; [intros [= <-]; by apply (format_hex_spec false)|].
    destruct (c =? 112) eqn:E5; [intros [= <-]; by apply (format_hex_spec true)|].
    destruct (c =? 98) eqn:E6; [intros E%(inj Some); rewrite <- E; apply format_binary_spec; lia|intros [=]].
  - destruct (c =? 115) eqn:E1; [|done]. intros [= <-]. destruct Ha as (C & F & O & _).
    exists m, a. split; [done|]. split; [done|]. split; [done|]. split; [unfold off_screen in *; lia|done].
Qed.

End Conversions.

(** ** Lemmas: the loop *)

Lemma vprint_app color l1 l2 v : vprint color (l1 ++ l2) v = vprint color l2 (vprint color l1 v).
Proof. revert v. induction l1 as [|c l1 IH]; intros v; [done|]. apply IH. Qed.

Lemma bytes_ok_app color l1 l2 v :
  bytes_ok color (l1 ++ l2) v = bytes_ok color l1 v && bytes_ok color l2 (vprint color l1 v).
Proof. revert v. induction l1 as [|c l1 IH]; intros v; [done|]. cbn. by rewrite IH, andb_assoc. Qed.

Lemma cstr_bytes m a s t : cstr m a (s ++ t) -> mbytes m a (length s) = s.
Proof.
  revert a. induction s as [|c s IH]; intros a; [done|]. cbn. intros (-> & _ & C). by rewrite IH.
Qed.

(** Literal text: the characters up to the next percent sign. *)
Fixpoint literal (fmt : list Z) : list Z :=
  match fmt with [] => [] | c :: fmt => if c =? 37 then [] else c :: literal fmt end.

Fixpoint after_literal (fmt : list Z) : list Z :=
  match fmt with [] => [] | c :: fmt' => if c =? 37 then fmt else after_literal fmt' end.

Lemma literal_split fmt : literal fmt ++ after_literal fmt = fmt.
Proof. induction fmt as [|c fmt IH]; [done|]. cbn. destruct (c =? 37); [done|]. cbn. by rewrite IH. Qed.

Lemma expand_literal fmt args out : expand fmt args = Some out ->
  exists out', expand (after_literal fmt) args = Some out' /\ out = literal fmt ++ out'.
Proof.
  revert out. induction fmt as [|c fmt IH]; intros out H; [by exists out|]. cbn [literal after_literal].
  destruct (c =? 37) eqn:E; [by exists out|]. cbn [expand] in H. rewrite E in H.
  destruct (expand fmt args) as [o|]; [|done]. cbn in H. injection H as <-.
  destruct (IH o eq_refl) as (o' & E' & ->). by exists o'.
Qed.

Lemma literal_amount_spec fuel m format amount s : cstr m (format + amount) s -> (length s < fuel)%nat ->
  literal_amount fuel m format amount = Some (amount + zlen (literal s)).
Proof.
  revert fuel amount. induction s as [|c s IH]; intros [|fuel] amount C F; cbn [length] in F; try lia; cbn [literal_amount literal cstr] in *.
  - rewrite C. cbn. f_equal. unfold zlen. cbn. lia.
  - destruct C as (-> & N & C). destruct (Z.eqb_spec c 0); [done|]. destruct (c =? 37) eqn:E; cbn [negb andb].
    + f_equal. unfold zlen. cbn. lia.
    + rewrite IH; [rewrite zlen_cons; f_equal; lia| |lia]. by rewrite Z.add_assoc.
Qed.

Section Loop.
Context (init : Z -> Z) (dev : device) (color : Z) (fuel : nat) (frame : Z).
Context (Hdev : crtc_device init dev) (Hfuel : (70 <= fuel)%nat) (Hframe : off_screen frame 336).

(** [x] prints [out] and returns [r]. *)
Definition prints (x : io (tty * Z)) (t : tty) (v : vt) (out : list Z) (r : Z) : Prop :=
  exists t', let w := vprint color out v in
    moves init dev x (synced v) (t', r) (synced w) /\ shows color t' w /\ vt_ok w /\ locals_only frame (memory t) (memory t').

Lemma locals_trans m1 m2 m3 : locals_only frame m1 m2 -> locals_only frame m2 m3 -> locals_only frame m1 m3.
Proof. intros H1 H2 b B1 B2. by rewrite H2, H1. Qed.

Lemma screen_locals m m' : screen_only m m' -> locals_only frame m m'.
Proof. intros H b _ B. by apply H. Qed.

Lemma prints_text t t1 v ptr txt out r K :
  vt_ok v -> shows color t1 v -> locals_only frame (memory t) (memory t1) -> mbytes (memory t1) ptr (length txt) = txt ->
  off_screen ptr (zlen txt) -> bytes_ok color (txt ++ out) v = true ->
  (forall t2 w, vt_ok w -> shows color t2 w -> bytes_ok color out w = true -> locals_only frame (memory t) (memory t2) ->
    prints (K t2) t2 w out r) ->
  prints (t ← print (Z.to_nat (zlen txt)) t1 ptr; K t) t v (txt ++ out) r.
Proof.
  intros Hv S L E O B HK. rewrite bytes_ok_app, andb_true_iff in B. destruct B as [B1 B2].
  destruct (print_moves init dev color (length txt) t1 v ptr Hdev Hv S O) as (t2 & M & S2 & V2 & F); [by rewrite E|].
  rewrite E in M, S2, V2. apply screen_locals in F. unfold zlen. rewrite Nat2Z.id.
  destruct (HK t2 _ V2 S2 B2) as (t3 & M3 & S3 & V3 & F3); [by eapply locals_trans|].
  exists t3. unfold prints. rewrite vprint_app. split; [by eapply moves_bind|]. split; [done|]. split; [done|].
  eapply locals_trans; [|exact F3]. by eapply locals_trans.
Qed.

Lemma shows_locals t v m' : (forall b, b < frame \/ frame + 336 <= b -> mread m' b = mread (memory t) b) ->
  shows color t v -> shows color (set_memory t m') v.
Proof.
  intros F (Hr & Hc & Hk & Hv). do 3 (split; [done|]). intros i Hi. rewrite <- Hv by done.
  apply load_ext. intros b B. apply F. unfold off_screen, cell_addr, VGA_EXTENT in *. lia.
Qed.

Definition loop_ok (k : nat) : Prop := forall t v format fmt written raws args out,
  (length fmt < k)%nat -> vt_ok v -> shows color t v -> text_at fuel frame (memory t) format fmt ->
  Forall2 (arg_at fuel frame (memory t)) raws args -> expand fmt args = Some out ->
  0 <= written -> written + zlen out <= INT_MAX -> bytes_ok color out v = true ->
  prints (printf_loop fuel frame k t format written raws) t v out (written + zlen out).

Lemma args_ext m m' raws args : locals_only frame m m' ->
  Forall2 (arg_at fuel frame m) raws args -> Forall2 (arg_at fuel frame m') raws args.
Proof.
  intros L. apply Forall2_impl. intros a [z|s]; [done|]. by apply text_at_ext.
Qed.

(** The rest of a format is a format. *)
Lemma text_at_tail m a s t : text_at fuel frame m a (s ++ t) -> text_at fuel frame m (a + zlen s) t.
Proof.
  intros (C & F & O & A). apply cstr_app in C as [_ C]. rewrite length_app in F. rewrite zlen_app in *.
  pose proof (zlen_nonneg s). pose proof (zlen_nonneg t).
  split; [done|]. split; [lia|]. unfold off_screen in *. lia.
Qed.

Lemma maxrem_ok written n : 0 <= written -> 0 <= n -> written + n <= INT_MAX ->
  (u64 (INT_MAX - written) <? n) = false /\ s32 (written + n) = written + n.
Proof.
  unfold INT_MAX. intros. split; [|apply s32_small; lia]. rewrite u64_small by lia. apply Z.ltb_ge. lia.
Qed.

(** A text of the format is printed and the loop goes on behind it. *)
Lemma continue_literal k t v format s fmt written raws args out :
  loop_ok k -> (length fmt < k)%nat -> vt_ok v -> shows color t v -> text_at fuel frame (memory t) format (s ++ fmt) ->
  Forall2 (arg_at fuel frame (memory t)) raws args -> expand fmt args = Some out ->
  0 <= written -> written + zlen (s ++ out) <= INT_MAX -> bytes_ok color (s ++ out) v = true ->
  prints (t ← print (Z.to_nat (zlen s)) t format;
    printf_loop fuel frame k t (format + zlen s) (s32 (written + zlen s)) raws) t v (s ++ out) (written + zlen (s ++ out)).
Proof.
  intros IH Hk Hv S T A E Hw Hm B. rewrite zlen_app in *. pose proof (zlen_nonneg s). pose proof (zlen_nonneg out).
  pose proof T as (C & _ & O & _). rewrite zlen_app in O. pose proof (zlen_nonneg fmt).
  eapply prints_text; try done; [by eapply cstr_bytes|unfold off_screen in *; lia|].
  intros t2 w Hw2 S2 B2 L. rewrite Z.add_assoc. rewrite (proj2 (maxrem_ok written (zlen s) Hw ltac:(lia) ltac:(lia))).
  eapply IH; try done; [|by eapply args_ext|lia|lia]. apply (text_at_ext fuel frame (memory t)); [done|]. by apply text_at_tail.
Qed.

(** A converted argument is printed and the loop goes on. *)
Lemma continue_text k t m' v ptr txt format c d fmt written raws args out :
  loop_ok k -> (length fmt < k)%nat -> vt_ok v -> shows color t v -> text_at fuel frame (memory t) format (c :: d :: fmt) ->
  Forall2 (arg_at fuel frame (memory t)) raws args -> expand fmt args = Some out ->
  0 <= written -> written + zlen (txt ++ out) <= INT_MAX -> bytes_ok color (txt ++ out) v = true ->
  mbytes m' ptr (length txt) = txt -> off_screen ptr (zlen txt) ->
  (forall b, b < frame \/ frame + 336 <= b -> mread m' b = mread (memory t) b) ->
  prints (t ← print (Z.to_nat (zlen txt)) (set_memory t m') ptr;
    printf_loop fuel frame k t (format + 1 + 1) (s32 (written + zlen txt)) raws) t v (txt ++ out) (written + zlen (txt ++ out)).
Proof.
  intros IH Hk Hv S T A E Hw Hm B Eb O F. rewrite zlen_app in *. pose proof (zlen_nonneg txt). pose proof (zlen_nonneg out).
  eapply prints_text; try done; [by apply shows_locals|intros b B1 _; by apply F|].
  intros t2 w Hw2 S2 B2 L. rewrite Z.add_assoc. rewrite (proj2 (maxrem_ok written (zlen txt) Hw ltac:(lia) ltac:(lia))).
  eapply IH; try done; [|by eapply args_ext|lia|lia]. apply (text_at_ext fuel frame (memory t)); [done|].
  rewrite <- Z.add_assoc. by apply (text_at_tail _ _ [c; d]).
Qed.

Lemma lift_some {A B} (a : A) (f : A -> io B) : io_lift (Some a) ≫= f = f a.
Proof. done. Qed.

(** The branch that prints literal text, from [a] on. *)
Lemma literal_branch k t v a c fmt written raws args out :
  loop_ok k -> (length fmt < k)%nat -> vt_ok v -> shows color t v -> text_at fuel frame (memory t) a (c :: fmt) ->
  Forall2 (arg_at fuel frame (memory t)) raws args -> expand fmt args = Some out ->
  0 <= written -> written + zlen (c :: out) <= INT_MAX -> bytes_ok color (c :: out) v = true ->
  prints (amount ← io_lift (literal_amount fuel (memory t) a 1);
    if u64 (INT_MAX - written) <? amount then mret (t, -1)
    else t ← print (Z.to_nat amount) t a; printf_loop fuel frame k t (a + amount) (s32 (written + amount)) raws)
    t v (c :: out) (written + zlen (c :: out)).
Proof.
  intros IH Hk Hv S T A E Hw Hm B. pose proof T as (C & F & _). cbn [cstr length] in C, F. destruct C as (_ & _ & C).
  rewrite (literal_amount_spec fuel (memory t) a 1 fmt C) by lia. rewrite lift_some.
  destruct (expand_literal fmt args out E) as (out' & E' & ->). rewrite <- (literal_split fmt) in T, Hk.
  rewrite length_app in Hk. replace (1 + zlen (literal fmt)) with (zlen (c :: literal fmt)) by (rewrite zlen_cons; lia).
  rewrite (proj1 (maxrem_ok written (zlen (c :: literal fmt)) Hw ltac:(apply zlen_nonneg)
    ltac:(rewrite zlen_cons, zlen_app in *; pose proof (zlen_nonneg out'); lia))).
  apply (continue_literal k t v a (c :: literal fmt) (after_literal fmt) written raws args out'); try done; lia.
Qed.

Lemma rest_branch k t v a fmt written raws args :
  loop_ok k -> (0 < k)%nat -> vt_ok v -> shows color t v -> text_at fuel frame (memory t) a fmt ->
  Forall2 (arg_at fuel frame (memory t)) raws args ->
  0 <= written -> written + zlen fmt <= INT_MAX -> bytes_ok color fmt v = true ->
  prints (len ← io_lift (strlen fuel (memory t) a);
    if u64 (INT_MAX - written) <? len then mret (t, -1)
    else t ← print (Z.to_nat len) t a; printf_loop fuel frame k t (a + len) (s32 (written + len)) raws)
    t v fmt (written + zlen fmt).
Proof.
  intros IH Hk Hv S T A Hw Hm B. pose proof T as (C & F & _). rewrite (strlen_spec fuel (memory t) a fmt C) by lia.
  rewrite lift_some. rewrite (proj1 (maxrem_ok written (zlen fmt) Hw ltac:(apply zlen_nonneg) Hm)).
  pose proof (continue_literal k t v a fmt [] written raws args []) as P. rewrite !app_nil_r in P. by apply P.
Qed.

Lemma convert_branch k t v format c d fmt written a raws g args txt out :
  loop_ok k -> (length fmt < k)%nat -> vt_ok v -> shows color t v -> text_at fuel frame (memory t) format (c :: d :: fmt) ->
  arg_at fuel frame (memory t) a g -> Forall2 (arg_at fuel frame (memory t)) raws args ->
  expand fmt args = Some out -> expand_directive d g = Some txt -> d <> 99 -> is_conversion d = true ->
  0 <= written -> written + zlen (txt ++ out) <= INT_MAX -> bytes_ok color (txt ++ out) v = true ->
  (d <> 115 -> 0 < zlen txt) ->
  prints (if negb (d =? 115) && (u64 (INT_MAX - written) =? 0) then mret (t, -1)
    else
      '(m, ptr) ← io_lift (convert fuel frame d (memory t) a);
      let t := set_memory t m in
      len ← io_lift (strlen fuel m ptr);
      if u64 (INT_MAX - written) <? len then mret (t, -1)
      else t ← print (Z.to_nat len) t ptr; printf_loop fuel frame k t (format + 1 + 1) (s32 (written + len)) raws)
    t v (txt ++ out) (written + zlen (txt ++ out)).
Proof.
  intros IH Hk Hv S T Ha A E Ed N Hd Hw Hm B Hpos.
  pose proof Hm as Hm'. rewrite zlen_app in Hm'. pose proof (zlen_nonneg out). pose proof (zlen_nonneg txt).
  assert (Z0 : negb (d =? 115) && (u64 (INT_MAX - written) =? 0) = false).
  { destruct (Z.eqb_spec d 115); [done|]. cbn. rewrite u64_small by (unfold INT_MAX in *; lia). apply Z.eqb_neq. specialize (Hpos n). lia. }
  rewrite Z0. destruct (convert_spec fuel frame Hfuel Hframe d (memory t) a g txt N Hd Ha Ed) as (m' & ptr & Ec & C & F & O & L).
  rewrite Ec, lift_some. cbv zeta. rewrite (strlen_spec fuel m' ptr txt C F), lift_some.
  rewrite (proj1 (maxrem_ok written (zlen txt) Hw ltac:(lia) ltac:(lia))).
  apply (continue_text k t m' v ptr txt format c d fmt written raws args out); try done.
  apply (cstr_bytes m' ptr txt []). by rewrite app_nil_r.
Qed.

Lemma char_branch k t v format c d fmt written a raws args out :
  loop_ok k -> (length fmt < k)%nat -> vt_ok v -> shows color t v -> text_at fuel frame (memory t) format (c :: d :: fmt) ->
  Forall2 (arg_at fuel frame (memory t)) raws args -> expand fmt args = Some out ->
  0 <= written -> written + zlen (u8 a :: out) <= INT_MAX -> bytes_ok color (u8 a :: out) v = true ->
  prints (if u64 (INT_MAX - written) =? 0 then mret (t, -1)
    else t ← print 1 (set_memory t (mwrite (memory t) frame (u8 a))) frame;
      printf_loop fuel frame k t (format + 1 + 1) (s32 (written + 1)) raws)
    t v (u8 a :: out) (written + zlen (u8 a :: out)).
Proof.
  intros IH Hk Hv S T A E Hw Hm B. pose proof Hm as Hm'. rewrite zlen_cons in Hm'. pose proof (zlen_nonneg out).
  assert (Z0 : (u64 (INT_MAX - written) =? 0) = false).
  { rewrite u64_small by (unfold INT_MAX in *; lia). apply Z.eqb_neq. lia. }
  rewrite Z0.
  apply (continue_text k t (mwrite (memory t) frame (u8 a)) v frame [u8 a] format c d fmt written raws args out); try done.
  - cbn. rewrite mread_mwrite_eq. by rewrite u8_idemp.
  - unfold off_screen, zlen in *. cbn. lia.
  - intros b Hb. apply mread_mwrite_ne. lia.
Qed.

Lemma number_text_pos z base : 0 < zlen (number_text z base).
Proof.
  unfold number_text, itoa_text. destruct (Z.eqb_spec z 0); [done|].
  rewrite (ldigits_step 63 base (Z.abs z)) by lia. unfold zlen. rewrite length_app, length_reverse. cbn [map length]. lia.
Qed.

(** Every conversion but %s prints something. *)
Lemma expand_directive_nonempty d g txt : expand_directive d g = Some txt -> d <> 115 -> 0 < zlen txt.
Proof.
  unfold expand_directive. intros H N. destruct g as [z|s]; [|by destruct (Z.eqb_spec d 115)].
  repeat (match type of H with (if ?b then _ else _) = _ => destruct b end);
    try discriminate H; apply (inj Some) in H as <-; try apply number_text_pos; rewrite ?zlen_app; unfold zlen; cbn [length]; lia.
Qed.

Lemma printf_loop_ok k : loop_ok k.
Proof.
  induction k as [|k IH]; intros t v format fmt written raws args out Hk Hv S T A E Hw Hm B; [lia|].
  cbn [printf_loop]. pose proof T as (C & F & O & Ap). destruct fmt as [|c fmt1]; cbn [cstr length] in *.
  { rewrite C. injection E as <-. exists t. rewrite Z.add_0_r. split; [apply moves_ret|]. by do 2 (split; [done|]). }
  destruct C as (Hc & Nc & C). rewrite Hc. destruct (Z.eqb_spec c 0); [done|]. cbn [expand] in E. cbv zeta.
  destruct (c =? 37) eqn:Ec; cbn [negb orb].
  2: { destruct (expand fmt1 args) as [o|] eqn:Eo; [|done]. cbn in E. injection E as <-.
       apply (literal_branch k t v format c fmt1 written raws args o); try done; lia. }
  destruct fmt1 as [|d fmt2]; cbn [cstr] in C.
  { rewrite C. cbn [Z.eqb]. injection E as <-. by apply (rest_branch k t v format [c] written raws args); try done; lia. }
  destruct C as (Hd & Nd & C). rewrite Hd. cbn [length] in Hk. destruct (d =? 37) eqn:Ed.
  { apply Z.eqb_eq in Ed. subst d. destruct (expand fmt2 args) as [o|] eqn:Eo; [|done]. cbn in E. injection E as <-.
    apply (literal_branch k t v (format + 1) 37 fmt2 written raws args o); try done; try lia.
    by apply (text_at_tail _ _ [c]). }
  destruct (d =? 99) eqn:E99; [|destruct (is_conversion d) eqn:Eis]; cbn [orb] in E.
  - destruct args as [|g args]; [done|]. apply Forall2_cons_inv_r in A as (a & raws' & Ha & A' & ->). cbn [va_arg]. rewrite lift_some.
    destruct (expand_directive d g) as [txt|] eqn:Et; [|done]. destruct (expand fmt2 args) as [o|] eqn:Eo; [|done].
    cbn in E. injection E as <-. destruct g as [z|s]; cbn in Et, Ha; [|apply Z.eqb_eq in E99; by subst d].
    rewrite E99 in Et. injection Et as <-. subst a. apply (char_branch k t v format c d fmt2 written z raws' args o); try done; lia.
  - destruct args as [|g args]; [done|]. apply Forall2_cons_inv_r in A as (a & raws' & Ha & A' & ->). cbn [va_arg]. rewrite lift_some.
    destruct (expand_directive d g) as [txt|] eqn:Et; [|done]. destruct (expand fmt2 args) as [o|] eqn:Eo; [|done].
    cbn in E. injection E as <-.
    apply (convert_branch k t v format c d fmt2 written a raws' g args txt o); try done; [lia|by apply Z.eqb_neq|].
    by apply (expand_directive_nonempty d g txt).
  - injection E as <-. apply (rest_branch k t v format (c :: d :: fmt2) written raws args); try done; lia.
Qed.

End Loop.

Lemma printf_spec init dev color fuel frame t v h format fmt raws args out :
  crtc_device init dev -> (70 <= fuel)%nat -> off_screen frame 336 -> vt_ok v -> shows color t v -> cursor init h = synced v ->
  format <> 0 -> text_at fuel frame (memory t) format fmt -> Forall2 (arg_at fuel frame (memory t)) raws args ->
  expand fmt args = Some out -> zlen out <= INT_MAX -> bytes_ok color out v = true ->
  exists t' h', run (printf fuel frame t format raws) dev h = Some (t', zlen out, h') /\
    shows color t' (vprint color out v) /\ cursor init h' = synced (vprint color out v) /\
    locals_only frame (memory t) (memory t').
Proof.
  intros Hd Hf Hfr Hv S Hh Nf T A E Hm B. unfold printf. rewrite (proj2 (Z.eqb_neq format 0) Nf).
  destruct (printf_loop_ok init dev color fuel frame Hd Hf Hfr fuel t v format fmt 0 raws args out) as (t' & M & S' & _ & L);
    try done; [by destruct T as (_ & ? & _)|].
  destruct (M h Hh) as (h' & R & C). exists t', h'. by rewrite Z.add_0_l in R.
Qed.

(** ** Theorems *)

(** C8: printf of a format in memory, with arguments its conversions accept (%c,
    %s, %d, %u, %x, %p, %b), whose expanded text is at most INT_MAX characters
    long and contains no backspace with fewer than two cells of the screen in
    front of it (such a backspace writes outside the screen: tty.c, line 126),
    takes a terminal that shows an abstract terminal to one that shows it with
    the expanded text printed, returns the length of that text, and changes no
    memory but the screen and its own local arrays, which lie outside the
    screen; the loop ends within the length of the format. %x prints the digits
    alone, only %p prints 0x in front. *)
Theorem printf_prints init dev color fuel frame t v h format fmt raws args out :
  crtc_device init dev -> (70 <= fuel)%nat -> off_screen frame 336 -> vt_ok v -> shows color t v -> cursor init h = synced v ->
  format <> 0 -> text_at fuel frame (memory t) format fmt -> Forall2 (arg_at fuel frame (memory t)) raws args ->
  expand fmt args = Some out -> zlen out <= INT_MAX -> bytes_ok color out v = true ->
  exists t' h', run (printf fuel frame t format raws) dev h = Some (t', zlen out, h') /\
    shows color t' (vprint color out v) /\ cursor init h' = synced (vprint color out v) /\
    locals_only frame (memory t) (memory t').
Proof. apply printf_spec. Qed.

(** Fact: printf of a null format prints its error message and returns -1. *)
Theorem printf_null init dev color fuel frame t v h raws :
  crtc_device init dev -> vt_ok v -> shows color t v -> cursor init h = synced v ->
  exists t' h', run (printf fuel frame t 0 raws) dev h = Some (t', -1, h') /\
    shows color t' (vprint color err_msg v) /\ cursor init h' = synced (vprint color err_msg v).
Proof.
  intros Hd Hv S Hh. destruct (put_all_moves init dev color err_msg t v Hd Hv S) as (t' & M & S' & _ & _).
  - assert (Q : forall l w, forallb (fun c => (0 <=? c) && (c <? 256) && negb (c =? 8)) l = true -> bytes_ok color l w = true).
    { induction l as [|c l IH]; intros w H; [done|]. cbn in *. rewrite !andb_true_iff in *. unfold char_ok.
      destruct H as [[[-> ->] ->] H]. cbn. split; [done|]. by apply IH. }
    by apply Q.
  - destruct (M h Hh) as (h' & R & C). exists t', h'. split; [|done]. unfold printf. cbn [Z.eqb].
    rewrite run_bind, R. done.
Qed.

(** Fact: %x prints a negative number as its magnitude, without a sign, so that it
    cannot be told from the positive one, and %b prints a negative number as
    one digit. *)
Theorem negative_conversions fuel frame m z : (70 <= fuel)%nat -> off_screen frame 336 -> - 2 ^ 63 < z < 0 ->
  (exists m1 p1 m2 p2 txt, format_hex fuel frame false m z = Some (m1, p1) /\ cstr m1 p1 txt /\
     format_hex fuel frame false m (- z) = Some (m2, p2) /\ cstr m2 p2 txt) /\
  exists m1 p1, format_binary frame m z = Some (m1, p1) /\ cstr m1 p1 [48; 98; if Z.land z 1 =? 0 then 48 else 49].
Proof.
  intros Hf Hfr Hz. split.
  - destruct (format_hex_spec fuel frame Hf Hfr false m z) as (m1 & p1 & E1 & C1 & _); [lia|].
    destruct (format_hex_spec fuel frame Hf Hfr false m (- z)) as (m2 & p2 & E2 & C2 & _); [lia|].
    exists m1, p1, m2, p2, (number_text z 16). split; [done|]. split; [done|]. split; [done|].
    replace (number_text z 16) with (number_text (- z) 16); [done|].
    unfold number_text, itoa_text. rewrite (proj2 (Z.eqb_neq z 0)), (proj2 (Z.eqb_neq (- z) 0)), Z.abs_opp by lia.
    by rewrite !andb_false_r.
  - destruct (format_binary_spec fuel frame Hf Hfr m z) as (m1 & p1 & E1 & C1 & _); [lia|]. exists m1, p1. split; [done|].
    assert (N : (0 <? Z.shiftr z 1) = false). { apply Z.ltb_ge. pose proof (Z.shiftr_neg z 1). lia. }
    change (binary_text 64 z) with ((if 0 <? Z.shiftr z 1 then binary_text 63 (Z.shiftr z 1) else []) ++ [if Z.land z 1 =? 0 then 48 else 49]) in C1.
    by rewrite N in C1.
Qed.

(** ** Witnesses *)

(** "%s: %d%%", with a string and a negative number. *)
Definition demo_format : list Z := [37; 115; 58; 32; 37; 100; 37; 37].
Definition demo_memory : mem := mputs (mputs ∅ 4096 (demo_format ++ [0])) 4200 [102; 111; 111; 0].

Lemma demo_shows : shows 10 (Tty 0 0 10 demo_memory) vt0.
Proof.
  do 3 (split; [done|]). intros i Hi. etransitivity; [|exact (tty0_cells i)]. unfold cell. cbn [memory].
  apply load_ext. intros b Hb. unfold cell_addr, VGA_MEMORY, VGA_EXTENT, demo_memory in *.
  rewrite !mread_mputs_out; [done|right; change (zlen _) with 9; lia|right; change (zlen _) with 4; lia].
Qed.

Lemma printf_prints_witness :
  exists t' h', run (printf 70 8192 (Tty 0 0 10 demo_memory) 4096 [4200; -42]) crtc0 [] = Some (t', 9, h') /\
    shows 10 t' (vprint 10 [102; 111; 111; 58; 32; 45; 52; 50; 37] vt0) /\
    cursor reg0 h' = synced (vprint 10 [102; 111; 111; 58; 32; 45; 52; 50; 37] vt0) /\
    locals_only 8192 demo_memory (memory t').
Proof.
  apply (printf_prints reg0 crtc0 10 70 8192 (Tty 0 0 10 demo_memory) vt0 [] 4096 demo_format [4200; -42]
    [Str [102; 111; 111]; Num (-42)] [102; 111; 111; 58; 32; 45; 52; 50; 37]);
    [by intros h|lia|by left|by vm_compute|exact demo_shows|done|done| | |by vm_compute|by vm_compute|by vm_compute].
  - split; [by vm_compute|]. split; [cbn; lia|]. split; [by left|by left].
  - constructor; [|by constructor]. split; [by vm_compute|]. split; [cbn; lia|]. split; [by left|by left].
Defined.

Lemma printf_null_witness :
  exists t' h', run (printf 70 8192 (Tty 0 0 10 demo_memory) 0 []) crtc0 [] = Some (t', -1, h') /\
    shows 10 t' (vprint 10 err_msg vt0) /\ cursor reg0 h' = synced (vprint 10 err_msg vt0).
Proof.
  apply (printf_null reg0 crtc0 10 70 8192 (Tty 0 0 10 demo_memory) vt0 [] []); [by intros h|by vm_compute|exact demo_shows|done].
Defined.

Lemma negative_conversions_witness :
  exists m1 p1, format_binary 8192 ∅ (-6) = Some (m1, p1) /\ cstr m1 p1 [48; 98; 48].
Proof. apply (negative_conversions 70 8192 ∅ (-6)); [lia|by left|lia]. Defined.
