(* ===== verification/Wrappers.v ===== *)
(** * Wrappers: libc/kernel/kernel.c, libc/unistd, libc/stdio/puts.c, libc/stdlib/abort.c

    The kernel build of the library's one-line functions: each calls a routine
    of another component.  stdin_clear and stdin_insert are in Keyboard,
    keycode_ext_handler in Console. *)

From S2P Require Import Prelude Mem Paging Device Interrupts Net Tty Printf.

(** kernel/arch/x86_64/interrupts/interrupts.c *)
Definition qemu_shutdown : io unit := outw 0x604 0x2000.

Definition shutdown : io unit := qemu_shutdown.

Definition sleep (fuel : nat) (p : pit) (ms : Z) : option pit := pit_sleep fuel p ms.

Definition tty_init (s : mach) (kpid : Z) (t : tty) : io (mach * tty) := terminal_initialize s kpid t.

Definition send_dns_request (k fuel : nat) (m : mem) (start name delim packet rnd : Z) (mac : list Z) : option (mem * Z) :=
  send_dns k fuel m start name delim packet rnd mac.

(** "%s\n" and "kernel: panic: abort()\n"; their addresses are arguments. *)
Definition PUTS_FORMAT : list Z := [37; 115; 10].
Definition PANIC : list Z := [107; 101; 114; 110; 101; 108; 58; 32; 112; 97; 110; 105; 99; 58; 32; 97; 98; 111; 114; 116; 40; 41; 10].

Section Printing.
Context (fuel : nat) (frame : Z).

Definition puts (t : tty) (lit str : Z) : io (tty * Z) := printf fuel frame t lit [str].

(** [rounds] turns of the loop that abort ends in, which has no exit. *)
Fixpoint abort_loop (rounds : nat) (t : tty) : tty :=
  match rounds with O => t | S rounds => abort_loop rounds t end.

Definition abort (rounds : nat) (t : tty) (lit : Z) : io tty :=
  '(t, _) ← printf fuel frame t lit []; mret (abort_loop rounds t).

End Printing.

(** ** Theorems *)

Lemma abort_loop_id rounds t : abort_loop rounds t = t.
Proof. by induction rounds. Qed.

(** Fact: puts prints the string and a newline and returns the number of
    characters printed. *)
Theorem puts_prints init dev color fuel frame t v h lit str s :
  crtc_device init dev -> (70 <= fuel)%nat -> off_screen frame 336 -> vt_ok v -> shows color t v -> cursor init h = synced v ->
  lit <> 0 -> text_at fuel frame (memory t) lit PUTS_FORMAT -> text_at fuel frame (memory t) str s ->
  zlen s < INT_MAX -> bytes_ok color (s ++ [10]) v = true ->
  exists t' h', run (puts fuel frame t lit str) dev h = Some (t', zlen s + 1, h') /\
    shows color t' (vprint color (s ++ [10]) v) /\ cursor init h' = synced (vprint color (s ++ [10]) v) /\
    locals_only frame (memory t) (memory t').
Proof.
  intros Hd Hf Hfr Hv S Hh Nl Tl Ts Hm B.
  assert (zlen (s ++ [10]) = zlen s + 1) as El by (unfold zlen; rewrite length_app; cbn; lia). rewrite <- El.
  apply (printf_spec init dev color fuel frame t v h lit PUTS_FORMAT [str] [Str s] (s ++ [10])); try done; [|lia].
  by constructor.
Qed.

(** Fact: abort prints its message and is then, after any number of turns of its
    loop, where it was: nothing more is printed and nothing is returned. *)
Theorem abort_prints init dev color fuel frame rounds t v h lit :
  crtc_device init dev -> (70 <= fuel)%nat -> off_screen frame 336 -> vt_ok v -> shows color t v -> cursor init h = synced v ->
  lit <> 0 -> text_at fuel frame (memory t) lit PANIC -> bytes_ok color PANIC v = true ->
  exists t' h', run (abort fuel frame rounds t lit) dev h = Some (t', h') /\
    shows color t' (vprint color PANIC v) /\ cursor init h' = synced (vprint color PANIC v).
Proof.
  intros Hd Hf Hfr Hv S Hh Nl Tl B.
  destruct (printf_spec init dev color fuel frame t v h lit PANIC [] [] PANIC) as (t' & h' & R & S' & C & _); try done.
  exists t', h'. unfold abort. rewrite run_bind, R. cbn [mbind option_bind]. rewrite run_ret, abort_loop_id. done.
Qed.

(** ** Witnesses *)

Definition puts_memory : mem := mputs (mputs ∅ 4096 (PUTS_FORMAT ++ [0])) 4200 [102; 111; 111; 0].
Definition panic_memory : mem := mputs ∅ 4096 (PANIC ++ [0]).

(** An empty screen over memory that is used below it only. *)
Lemma empty_screen m : (forall b, VGA_MEMORY <= b -> mread m b = 0) -> shows 10 (Tty 0 0 10 m) vt0.
Proof.
  intros H. do 3 (split; [done|]). intros i Hi. etransitivity; [|exact (tty0_cells i)]. unfold cell. cbn [memory].
  apply load_ext. intros b Hb. rewrite H; [done|]. unfold cell_addr in Hb. lia.
Qed.

Lemma puts_prints_witness :
  exists t' h', run (puts 70 8192 (Tty 0 0 10 puts_memory) 4096 4200) crtc0 [] = Some (t', 4, h') /\
    shows 10 t' (vprint 10 [102; 111; 111; 10] vt0).
Proof.
  destruct (puts_prints reg0 crtc0 10 70 8192 (Tty 0 0 10 puts_memory) vt0 [] 4096 4200 [102; 111; 111]) as (t' & h' & R & S & _);
    [by intros h|lia|by left|by vm_compute| |done|done| | |by vm_compute|by vm_compute|exists t', h'; exact (conj R S)].
  - apply empty_screen. intros b Hb. unfold puts_memory, VGA_MEMORY in *.
    rewrite !mread_mputs_out; [done|right; change (zlen _) with 4; lia|right; change (zlen _) with 4; lia].
  - split; [by vm_compute|]. split; [cbn; lia|]. split; [by left|by left].
  - split; [by vm_compute|]. split; [cbn; lia|]. split; [by left|by left].
Defined.

Lemma abort_prints_witness :
  exists t' h', run (abort 70 8192 5 (Tty 0 0 10 panic_memory) 4096) crtc0 [] = Some (t', h') /\ shows 10 t' (vprint 10 PANIC vt0).
Proof.
  destruct (abort_prints reg0 crtc0 10 70 8192 5 (Tty 0 0 10 panic_memory) vt0 [] 4096) as (t' & h' & R & S & _);
    [by intros h|lia|by left|by vm_compute| |done|done| |by vm_compute|exists t', h'; exact (conj R S)].
  - apply empty_screen. intros b Hb. unfold panic_memory, VGA_MEMORY in *. rewrite mread_mputs_out; [done|right; change (zlen _) with 24; lia].
  - split; [by vm_compute|]. split; [cbn; lia|]. split; [by left|by left].
Defined.
