(* ===== verification/Stdio.v ===== *)
(** * Stdio: input and text helpers (libc/stdio/scanf.c, libc/stdio/stdio.c)

    gets_s edits a line with the keys getchar delivers (a list: the codes of
    Keyboard's wait_key in their order, the cancel code that stdin_clear puts
    into the buffer included) and echoes through printf, whose bytes are
    collected.  sscanf reads words and numbers out of a string in memory. *)

From S2P Require Import Prelude Mem CString CStdlib Keyboard Printf.

Definition INT32_MAX : Z := 2147483647.

(** ** scanf.c: lines *)

Definition ends_line (c : Z) : bool := (c =? 10) || (c =? EOF) || (c =? 0).

(** One key of gets_s: memory, index and echo after it.  Every branch that
    continues still meets the loop's condition, [ends_line]. *)
Definition gets_key (fuel : nat) (m : mem) (str size i c : Z) : option (mem * Z * list Z) :=
  if c =? CAN then
    len ← strlen fuel m str;
    Some (memset m str 0 len, 0, repeat 8 (Z.to_nat len))
  else if keycode KEYCODES_EXT_START <=? c then Some (m, i, [])
  else if c =? 0x1B then Some (m, i, [])
  else
    let type (m : mem) (i : Z) : mem * Z * list Z :=
      if u64 (size - 1) <=? i then (m, i, [])
      else if negb (ends_line c) && negb (c =? 8) then (mwrite m (str + i) (u8 c), u32 (i + 1), [u8 c])
      else (m, i, [u8 c]) in
    if c =? 8 then
      if 0 <? i then Some (type (mwrite m (str + (i - 1)) 0) (i - 1))
      else if negb (mread m (str + i) =? 0) then Some (type (mwrite m (str + i) 0) i)
      else Some (m, i, [])
    else Some (type m i).

(** The do-while loop; it fails when the keys run out, where the code waits. *)
Fixpoint gets_loop (fuel : nat) (keys : list Z) (m : mem) (str size i : Z) (echo : list Z) :
    option (mem * Z * Z * list Z * list Z) :=
  match keys with
  | [] => None
  | c :: keys =>
      '(m, i, e) ← gets_key fuel m str size i c;
      if ends_line c then Some (m, i, c, echo ++ e, keys) else gets_loop fuel keys m str size i (echo ++ e)
  end.

(** Memory, result, echo and the keys left. *)
Definition gets_s (fuel : nat) (m : mem) (str size : Z) (keys : list Z) : option (mem * Z * list Z * list Z) :=
  '(m, i, c, echo, keys) ← gets_loop fuel keys m str size 0 [];
  if (c =? EOF) || (i =? 0) then Some (m, NULL, echo, keys)
  else Some (memset m (str + i) 0 (size - i), str, echo, keys).

Definition fgets (fuel : nat) (m : mem) (str n : Z) (keys : list Z) : option (mem * Z * list Z * list Z) :=
  gets_s fuel m str (u64 (s32 n)) keys.

Definition gets (fuel : nat) (m : mem) (str : Z) (keys : list Z) : option (mem * Z * list Z * list Z) :=
  gets_s fuel m str INT32_MAX keys.

(** ** scanf.c: words *)

Definition is_valid_char (c : Z) : bool := (33 <=? c) && (c <=? 126).

Fixpoint valid_idx_loop (k : nat) (m : mem) (str i : Z) : Z :=
  match k with
  | O => -1
  | S k => if is_valid_char (mread m (str + i)) then i else valid_idx_loop k m str (i + 1)
  end.

Definition get_next_valid_char_idx (m : mem) (str size : Z) : Z := valid_idx_loop (Z.to_nat (s32 size)) m str 0.

(** The for loop: memory, index and the source behind the last character. *)
Fixpoint copy_word (k : nat) (m : mem) (str dst i len : Z) : mem * Z * Z :=
  match k with
  | O => (m, i, str)
  | S k =>
      let idx := get_next_valid_char_idx m str len in
      if idx =? -1 then (m, i, str)
      else
        let m := mwrite m (dst + i) (mread m (str + idx)) in
        let is_next_valid := is_valid_char (mread m (str + (idx + 1))) in
        let str := str + idx + 1 in
        if negb is_next_valid then (m, i, str) else copy_word k m str dst (u32 (i + 1)) len
  end.

Fixpoint skip_valid (fuel : nat) (m : mem) (str : Z) : option Z :=
  match fuel with
  | O => None
  | S fuel => if is_valid_char (mread m str) then skip_valid fuel m (str + 1) else Some str
  end.

Definition get_next_valid_string (fuel : nat) (m : mem) (str len dst : Z) : option (mem * Z) :=
  let base_str := str in
  let '(m, i, str) := copy_word (Z.to_nat len) m str dst 0 len in
  str ← skip_valid fuel m str;
  let m := if negb (i =? 0) && (1 <? len) then mwrite m (dst + u32 (i + 1)) 0 else m in
  Some (m, s32 (str - base_str)).

(** The loop of sscanf_args; [dst_str] is its local array. *)
Fixpoint sscanf_loop (k fuel : nat) (dst_str : Z) (m : mem) (str format written : Z) (args : list Z) : option (mem * Z) :=
  match k with
  | O => None
  | S k =>
      if mread m format =? 0 then Some (m, written)
      else
        let maxrem := u64 (INT_MAX - written) in
        if negb (mread m format =? 37) || (mread m (format + 1) =? 37) then
          let format := if mread m format =? 37 then format + 1 else format in
          amount ← literal_amount fuel m format 1;
          if maxrem <? amount then Some (m, -1)
          else sscanf_loop k fuel dst_str m str (format + amount) written args
        else
          let format := format + 1 in
          let c := mread m format in
          if c =? 99 then
            '(p, args) ← va_arg args;
            if maxrem =? 0 then Some (m, -1)
            else
              '(m, next_idx) ← get_next_valid_string fuel m str 1 p;
              sscanf_loop k fuel dst_str m (str + next_idx) (format + 1) (s32 (written + (if 0 <? next_idx then 1 else 0))) args
          else if c =? 115 then
            '(dst, args) ← va_arg args;
            len ← strlen fuel m dst;
            if maxrem <? len then Some (m, -1)
            else
              slen ← strlen fuel m str;
              '(m, next_idx) ← get_next_valid_string fuel m str slen dst;
              sscanf_loop k fuel dst_str m (str + next_idx) (format + 1) (s32 (written + (if 0 <? next_idx then 1 else 0))) args
          else if c =? 100 then
            '(dst, args) ← va_arg args;
            '(m, _) ← itoa m (s32 (ld32 m dst)) dst_str 10;
            slen ← strlen fuel m str;
            '(m, next_idx) ← get_next_valid_string fuel m str slen dst_str;
            v ← atoi fuel m dst_str;
            sscanf_loop k fuel dst_str (st32 m dst (u32 v)) (str + next_idx) (format + 1)
              (s32 (written + (if 0 <? next_idx then 1 else 0))) args
          else sscanf_loop k fuel dst_str m str format written args
  end.

Definition sscanf (fuel : nat) (dst_str : Z) (m : mem) (str format : Z) (args : list Z) : option (mem * Z) :=
  sscanf_loop fuel fuel dst_str m str format 0 args.

Definition scanf (fuel : nat) (buf dst_str : Z) (m : mem) (format : Z) (args : list Z) (keys : list Z) :
    option (mem * Z * list Z * list Z) :=
  '(m, _, echo, keys) ← gets_s fuel m buf BUFFER_SIZE keys;
  '(m, res) ← sscanf fuel dst_str m buf format args;
  Some (m, res, echo, keys).

(** ** stdio.c *)

Fixpoint trim_end (k : nat) (m : mem) (s e : Z) : Z :=
  match k with
  | O => e
  | S k => if (s <? e) && isspace (mread m e) then trim_end k m s (e - 1) else e
  end.

Definition trimwhitespace (fuel : nat) (m : mem) (s : Z) : option (mem * Z) :=
  s ← atoi_skip fuel m s;
  if mread m s =? 0 then Some (m, s)
  else
    len ← strlen fuel m s;
    let e := trim_end (Z.to_nat len) m s (s + len - 1) in
    Some (mwrite m (e + 1) 0, s).

Fixpoint rm_loop (fuel : nat) (m : mem) (s i j : Z) : option (mem * Z) :=
  match fuel with
  | O => None
  | S fuel =>
      let c := mread m (s + i) in
      if c =? 0 then Some (m, j)
      else if negb (isspace c) then rm_loop fuel (mwrite m (s + j) c) s (i + 1) (j + 1)
      else rm_loop fuel m s (i + 1) j
  end.

Definition rmwhitespace (fuel : nat) (m : mem) (s : Z) : option (mem * Z) :=
  '(m, j) ← rm_loop fuel m s 0 0;
  Some (mwrite m (s + j) 0, s).

Fixpoint ftrim_loop (fuel : nat) (m : mem) (s i j : Z) (sf : bool) : option (mem * Z) :=
  match fuel with
  | O => None
  | S fuel =>
      let c := mread m (s + i) in
      if c =? 0 then Some (m, j)
      else if negb (c =? 32) then ftrim_loop fuel (mwrite m (s + j) c) s (i + 1) (j + 1) false
      else if negb sf then ftrim_loop fuel (mwrite m (s + j) 32) s (i + 1) (j + 1) true
      else ftrim_loop fuel m s (i + 1) j sf
  end.

Definition ftrimwhitespace (fuel : nat) (m : mem) (s : Z) : option (mem * Z) :=
  '(m, j) ← ftrim_loop fuel m s 0 0 false;
  Some (mwrite m (s + j) 0, s).

(** ** Lemmas: lines *)

(** The editor gets_s means to be: the line so far and what was echoed. *)
Definition edit (size : Z) (s : list Z * list Z) (c : Z) : list Z * list Z :=
  let '(line, echo) := s in
  if c =? CAN then ([], echo ++ repeat 8 (length line))
  else if (keycode KEYCODES_EXT_START <=? c) || (c =? 0x1B) then (line, echo)
  else if c =? 8 then
    match line with [] => (line, echo) | _ => (take (length line - 1) line, echo ++ [8]) end
  else if zlen line <? size - 1 then (line ++ [c], echo ++ [c]) else (line, echo).

(** The buffer holds the line and zeros behind it. *)
Definition holds (m : mem) (str size : Z) (line : list Z) : Prop :=
  zlen line < size /\ Forall (fun c => 0 < c < 256) line /\
  (forall k c, line !! k = Some c -> mread m (str + Z.of_nat k) = c) /\
  forall b, str + zlen line <= b < str + size -> mread m b = 0.

Lemma holds_cstr m str size line : holds m str size line -> cstr m str line.
Proof.
  intros (Hl & Hc & Hb & Hz). rewrite <- (app_nil_r line). apply cstr_app. split.
  - intros k c Hk. split; [by apply Hb|]. pose proof (list.Forall_lookup_1 _ _ _ _ Hc Hk). cbn in *. lia.
  - cbn. apply Hz. lia.
Qed.

Lemma holds_snoc m str size line c : holds m str size line -> 0 < c < 256 -> zlen line < size - 1 ->
  holds (mwrite m (str + zlen line) c) str size (line ++ [c]).
Proof.
  intros (Hl & Hc & Hb & Hz) Hr Hs. unfold holds. rewrite zlen_app. change (zlen [c]) with 1.
  split; [lia|]. split; [by apply Forall_app; split; [|constructor]|]. split.
  - intros k d Hk. apply lookup_app_Some in Hk as [Hk|[Hk1 Hk2]].
    + pose proof (lookup_lt_Some _ _ _ Hk). rewrite mread_mwrite_ne by (unfold zlen; lia). by apply Hb.
    + apply list_lookup_singleton_Some in Hk2 as [Hk2 <-]. assert (k = length line) as -> by lia.
      unfold zlen. rewrite mread_mwrite_eq. apply u8_small; lia.
  - intros b B. rewrite mread_mwrite_ne by lia. apply Hz. lia.
Qed.

Lemma holds_take m str size line n : holds m str size line -> (n <= length line)%nat ->
  holds (memset m (str + Z.of_nat n) 0 (zlen line - Z.of_nat n)) str size (take n line).
Proof.
  intros (Hl & Hc & Hb & Hz) Hn. unfold holds, zlen in *. rewrite length_take, Nat.min_l by lia.
  split; [lia|]. split; [by apply list.Forall_take|]. split.
  - intros k c Hk. apply lookup_take_Some in Hk as [Hk Hlt]. rewrite memset_out by lia. by apply Hb.
  - intros b B. destruct (Z.lt_ge_cases b (str + zlen line)); unfold zlen in *.
    + by rewrite memset_in by lia.
    + rewrite memset_out by lia. apply Hz. lia.
Qed.

Lemma holds_same m m' str size line : (forall b, str <= b < str + size -> mread m' b = mread m b) ->
  holds m str size line -> holds m' str size line.
Proof.
  intros E (Hl & Hc & Hb & Hz). split; [done|]. split; [done|]. split.
  - intros k c Hk. pose proof (lookup_lt_Some _ _ _ Hk). unfold zlen in *. rewrite E by lia. by apply Hb.
  - intros b B. pose proof (zlen_nonneg line). rewrite E by lia. by apply Hz.
Qed.

(** Only the buffer changes. *)
Definition buffer_only (str size : Z) (m m' : mem) : Prop :=
  forall b, b < str \/ str + size <= b -> mread m' b = mread m b.

(** A key that does not end the line is one step of the editor. *)
Lemma gets_key_spec fuel m str size line echo c :
  holds m str size line -> 1 <= size < 2 ^ 32 -> size <= Z.of_nat fuel -> 0 < c -> ends_line c = false ->
  exists m' e, gets_key fuel m str size (zlen line) c = Some (m', zlen (edit size (line, echo) c).1, e) /\
    holds m' str size (edit size (line, echo) c).1 /\ (edit size (line, echo) c).2 = echo ++ e /\
    buffer_only str size m m'.
Proof.
  intros H Hs Hf Hc Hend. pose proof H as (Hl & Hch & Hb & Hz). pose proof (zlen_nonneg line) as Hn.
  unfold gets_key, edit. destruct (c =? CAN).
  { rewrite (strlen_spec fuel m str line (holds_cstr _ _ _ _ H)) by (unfold zlen in *; lia). cbn [mbind option_bind fst snd].
    eexists _, _. split; [done|]. unfold zlen at 2. rewrite Nat2Z.id. split; [|split; [done|]].
    - pose proof (holds_take m str size line 0 H ltac:(lia)) as T. by rewrite Z.add_0_r, Z.sub_0_r in T.
    - intros b B. apply memset_out. lia. }
  destruct (keycode KEYCODES_EXT_START <=? c) eqn:Ex; cbn [orb].
  { exists m, []. rewrite app_nil_r. by repeat (split; [done|]). }
  destruct (c =? 27). { exists m, []. rewrite app_nil_r. by repeat (split; [done|]). }
  apply Z.leb_gt in Ex. cbn in Ex. rewrite (u64_small (size - 1)) by lia.
  destruct (Z.eqb_spec c 8) as [->|N8].
  - destruct line as [|x l] eqn:El.
    { cbn in Hz. change (zlen []) with 0 in *. cbn [Z.ltb Z.compare]. rewrite Hz by lia. cbn.
      exists m, []. rewrite app_nil_r. by repeat (split; [done|]). }
    rewrite <- El in *. assert (Hpos : 0 < zlen line) by (rewrite El, zlen_cons; pose proof (zlen_nonneg l); lia).
    destruct (Z.ltb_spec 0 (zlen line)); [|lia]. destruct (Z.leb_spec (size - 1) (zlen line - 1)); [lia|].
    change (negb (ends_line 8) && negb (8 =? 8)) with false. cbv iota. cbn [fst snd].
    assert (Et : zlen line - 1 = zlen (take (length line - 1) line)) by (unfold zlen in *; rewrite length_take; lia).
    eexists _, _. rewrite Et. split; [done|]. rewrite <- Et. split; [|split; [done|]].
    + pose proof (holds_take m str size line (length line - 1) H ltac:(lia)) as T. revert T. apply holds_same.
      intros b B. unfold zlen in *. replace (Z.of_nat (length line) - Z.of_nat (length line - 1)) with 1 by lia.
      replace (Z.of_nat (length line - 1)) with (Z.of_nat (length line) - 1) by lia.
      unfold memset. change (Z.to_nat 1) with 1%nat. cbn [memset_loop]. by rewrite Z.add_0_r.
    + intros b B. apply mread_mwrite_ne. lia.
  - rewrite Hend. cbn [negb andb].
    destruct (Z.leb_spec (size - 1) (zlen line)), (Z.ltb_spec (zlen line) (size - 1)); try lia.
    + exists m, []. rewrite app_nil_r. by repeat (split; [done|]).
    + rewrite (u8_small c), (u32_small (zlen line + 1)) by lia. eexists _, _. cbn [fst snd]. rewrite zlen_app.
      split; [done|]. split; [by apply holds_snoc|]. split; [done|]. intros b B. apply mread_mwrite_ne. lia.
Qed.

(** The line before the key that ends it, and its echo. *)
Lemma gets_loop_spec fuel keys m str size line echo0 c rest line' echo' :
  holds m str size line -> 1 <= size < 2 ^ 32 -> size <= Z.of_nat fuel ->
  Forall (fun k => 0 < k /\ ends_line k = false) keys -> ends_line c = true ->
  fold_left (edit size) keys (line, echo0) = (line', echo') ->
  exists m', gets_loop fuel (keys ++ c :: rest) m str size (zlen line) echo0 =
      Some (m', zlen line', c, echo' ++ (if zlen line' <? size - 1 then [u8 c] else []), rest) /\
    holds m' str size line' /\ buffer_only str size m m'.
Proof.
  intros H Hs Hf Hk Hc. revert m line echo0 H. induction Hk as [|k keys [Hk1 Hk2] _ IH]; intros m line echo0 H E.
  - cbn in E. injection E as <- <-. exists m. split; [|done]. cbn [app gets_loop].
    destruct H as (Hl & _). assert (Kc : c = 10 \/ c = -1 \/ c = 0).
    { unfold ends_line, EOF in Hc. destruct (Z.eqb_spec c 10), (Z.eqb_spec c (-1)), (Z.eqb_spec c 0); try done; lia. }
    unfold gets_key. assert ((c =? CAN) = false /\ (keycode KEYCODES_EXT_START <=? c) = false /\ (c =? 27) = false /\ (c =? 8) = false)
      as (-> & -> & -> & ->) by (destruct Kc as [->|[->| ->]]; done).
    rewrite (u64_small (size - 1)) by lia. rewrite Hc. cbn [negb andb].
    destruct (Z.leb_spec (size - 1) (zlen line)), (Z.ltb_spec (zlen line) (size - 1)); try lia; cbn [mbind option_bind];
      by rewrite ?Hc, ?app_nil_r.
  - cbn [fold_left] in E. destruct (gets_key_spec fuel m str size line echo0 k H Hs Hf Hk1 Hk2) as (m1 & e & E1 & H1 & H2 & F1).
    destruct (edit size (line, echo0) k) as [line1 echo1] eqn:Ek. cbn [fst snd] in *. subst echo1.
    destruct (IH m1 line1 (echo0 ++ e) H1 E) as (m2 & E2 & H3 & F2).
    exists m2. split; [|split; [done|]].
    + cbn [app gets_loop]. rewrite E1. cbn [mbind option_bind]. by rewrite Hk2.
    + intros b B. by rewrite F2, F1.
Qed.

(** ** Lemmas: printable text *)

Definition printable (c : Z) : Prop := 32 <= c < 127.

Lemma edit_key size c line echo : printable c -> edit size (line, echo) c =
  (if zlen line <? size - 1 then line ++ [c] else line, if zlen line <? size - 1 then echo ++ [c] else echo).
Proof.
  intros Hc. unfold printable in Hc. unfold edit, CAN, keycode. rewrite (proj2 (Z.eqb_neq c 0x18)) by lia.
  destruct (Z.leb_spec 0x100 c); [lia|]. rewrite (proj2 (Z.eqb_neq c 0x1B)), (proj2 (Z.eqb_neq c 8)) by lia. cbn [orb].
  by destruct (zlen line <? size - 1).
Qed.

(** The editor on printable text: what fits is appended. *)
Lemma edit_printable size w line echo : Forall printable w -> zlen line <= size - 1 ->
  (fold_left (edit size) w (line, echo)).1 = line ++ take (Z.to_nat (size - 1 - zlen line)) w.
Proof.
  intros Hw. revert line echo. induction Hw as [|c w Hc _ IH]; intros line echo Hl; cbn [fold_left]; [by rewrite take_nil, app_nil_r|].
  rewrite edit_key by done.
  pose proof (zlen_nonneg line). destruct (Z.ltb_spec (zlen line) (size - 1)).
  - rewrite IH by (rewrite zlen_app; change (zlen [c]) with 1; lia). rewrite zlen_app. change (zlen [c]) with 1.
    replace (Z.to_nat (size - 1 - zlen line)) with (S (Z.to_nat (size - 1 - (zlen line + 1)))) by lia.
    cbn [take]. by rewrite <- app_assoc.
  - rewrite IH by lia. replace (Z.to_nat (size - 1 - zlen line)) with 0%nat by lia. done.
Qed.

(** Text that fits is appended and echoed. *)
Lemma edit_fits size w line echo : Forall printable w -> zlen line + zlen w <= size - 1 ->
  fold_left (edit size) w (line, echo) = (line ++ w, echo ++ w).
Proof.
  intros Hw. revert line echo. induction Hw as [|c w Hc _ IH]; intros line echo Hl; cbn [fold_left]; [by rewrite !app_nil_r|].
  rewrite zlen_cons in Hl. pose proof (zlen_nonneg w). rewrite edit_key by done.
  destruct (Z.ltb_spec (zlen line) (size - 1)); [|lia].
  rewrite IH by (rewrite zlen_app; change (zlen [c]) with 1; lia). by rewrite <- !app_assoc.
Qed.

Lemma holds_cleared m str size line : holds m str size line -> holds (memset m (str + zlen line) 0 (size - zlen line)) str size line.
Proof.
  intros (Hl & Hc & Hb & Hz). pose proof (zlen_nonneg line). split; [done|]. split; [done|]. split.
  - intros k c Hk. pose proof (lookup_lt_Some _ _ _ Hk). unfold zlen in *. rewrite memset_out by lia. by apply Hb.
  - intros b B. by rewrite memset_in by lia.
Qed.

(** The cancel code clears the line whatever the index was. *)
Lemma gets_loop_cancel fuel keys m str size line i :
  holds m str size line -> 1 <= size < 2 ^ 32 -> size <= Z.of_nat fuel ->
  exists m', gets_loop fuel (CAN :: keys) m str size i [] = gets_loop fuel keys m' str size 0 (repeat 8 (length line)) /\
    holds m' str size [] /\ buffer_only str size m m'.
Proof.
  intros H Hs Hf. destruct (gets_key_spec fuel m str size line [] CAN H Hs Hf) as (m1 & e & E & H1 & He & B); [done|done|].
  exists m1. split; [|done]. cbn in He. cbn [gets_loop]. change (gets_key fuel m str size i CAN) with (gets_key fuel m str size (zlen line) CAN).
  rewrite E. cbn [mbind option_bind]. change (ends_line CAN) with false. by rewrite He.
Qed.

(** A printable line that fits, behind the cancel code. *)
Lemma gets_s_text fuel m str size prev w rest :
  holds m str size prev -> 1 <= size < 2 ^ 32 -> size <= Z.of_nat fuel -> Forall printable w -> w <> [] -> zlen w < size - 1 ->
  exists m', gets_s fuel m str size (CAN :: w ++ 10 :: rest) = Some (m', str, repeat 8 (length prev) ++ w ++ [10], rest) /\
    holds m' str size w /\ buffer_only str size m m'.
Proof.
  intros H Hs Hf Hw Hne Hl. destruct (gets_loop_cancel fuel (w ++ 10 :: rest) m str size prev 0 H Hs Hf) as (m1 & E1 & H1 & B1).
  destruct (gets_loop_spec fuel w m1 str size [] (repeat 8 (length prev)) 10 rest w (repeat 8 (length prev) ++ w) H1 Hs Hf) as (m2 & E2 & H2 & B2).
  { eapply list.Forall_impl; [exact Hw|]. unfold printable, ends_line, EOF. intros c Hc. split; [lia|].
    by rewrite !(proj2 (Z.eqb_neq _ _)) by lia. }
  { done. }
  { apply edit_fits; [done|]. change (zlen []) with 0. lia. }
  change (zlen []) with 0 in E2. unfold gets_s. rewrite E1, E2. cbn [mbind option_bind].
  assert (zlen w <> 0) by (destruct w; [done|rewrite zlen_cons; pose proof (zlen_nonneg w); lia]).
  change (10 =? EOF) with false. rewrite (proj2 (Z.eqb_neq (zlen w) 0)), (proj2 (Z.ltb_lt (zlen w) (size - 1))) by done.
  cbn [orb]. eexists. split; [by rewrite <- app_assoc|]. split; [by apply holds_cleared|].
  intros b B. pose proof (zlen_nonneg w). rewrite memset_out by lia. by rewrite B2, B1.
Qed.

(** ** Lemmas: stdio.c *)

Fixpoint drop_space (l : list Z) : list Z :=
  match l with [] => [] | c :: l' => if isspace c then drop_space l' else l end.

Definition strip (l : list Z) : list Z := reverse (drop_space (reverse (drop_space l))).

Fixpoint squeeze (sf : bool) (l : list Z) : list Z :=
  match l with
  | [] => []
  | c :: l => if negb (c =? 32) then c :: squeeze false l else if sf then squeeze sf l else 32 :: squeeze true l
  end.

Lemma skip_space fuel m s l : cstr m s l -> (length l < fuel)%nat ->
  exists n, atoi_skip fuel m s = Some (s + n) /\ 0 <= n /\ n + zlen (drop_space l) = zlen l /\ cstr m (s + n) (drop_space l).
Proof.
  revert s fuel. induction l as [|c l IH]; intros s [|fuel] C F; cbn [length] in F; try lia; cbn [atoi_skip drop_space cstr] in *.
  - exists 0. rewrite C, Z.add_0_r. split; [done|]. split; [lia|]. by split.
  - destruct C as (E & N & C). rewrite E. destruct (isspace c) eqn:Es.
    + destruct (IH (s + 1) fuel C ltac:(lia)) as (n & E1 & Hn & Hz & Cn). exists (n + 1).
      replace (s + (n + 1)) with (s + 1 + n) by lia. rewrite zlen_cons. split; [done|]. split; [lia|]. split; [lia|done].
    + exists 0. rewrite Z.add_0_r. split; [done|]. split; [lia|]. split; [lia|]. by cbn.
Qed.

Lemma drop_space_suffix l : exists q, l = q ++ drop_space l.
Proof.
  induction l as [|c l [q IH]]; [by exists []|]. cbn. destruct (isspace c); [|by exists []].
  exists (c :: q). cbn. congruence.
Qed.

Lemma strip_end_prefix l : exists q, l = reverse (drop_space (reverse l)) ++ q.
Proof.
  destruct (drop_space_suffix (reverse l)) as [q E]. exists (reverse q).
  rewrite <- reverse_app, <- E. by rewrite reverse_involutive.
Qed.

(** The scan back over trailing space. *)
Lemma trim_end_spec m s c t k : isspace c = false ->
  (forall i d, (c :: t) !! i = Some d -> mread m (s + Z.of_nat i) = d) -> (length t <= k)%nat ->
  trim_end k m s (s + zlen t) = s + zlen (reverse (drop_space (reverse (c :: t)))) - 1.
Proof.
  intros Hc. revert k. induction t as [|d t IH] using rev_ind; intros k H Hk.
  - change (zlen []) with 0. rewrite Z.add_0_r. assert (E : trim_end k m s s = s) by (destruct k; cbn; [done|by rewrite Z.ltb_irrefl]).
    rewrite E. change (reverse [c]) with [c]. cbn [drop_space]. rewrite Hc. change (reverse [c]) with [c]. change (zlen [c]) with 1. lia.
  - rewrite length_app in Hk. cbn [length] in Hk. destruct k as [|k]; [lia|]. cbn [trim_end].
    assert (Hd : mread m (s + zlen (t ++ [d])) = d).
    { rewrite zlen_app. change (zlen [d]) with 1. unfold zlen. specialize (H (S (length t)) d).
      replace (Z.of_nat (length t) + 1) with (Z.of_nat (S (length t))) by lia. apply H. cbn. by apply list_lookup_middle. }
    rewrite Hd. pose proof (zlen_nonneg t). assert (Hl : zlen (t ++ [d]) = zlen t + 1) by by rewrite zlen_app.
    destruct (Z.ltb_spec s (s + zlen (t ++ [d]))); [|lia]. cbn [andb].
    change (c :: t ++ [d]) with ((c :: t) ++ [d]). rewrite reverse_snoc. cbn [drop_space]. destruct (isspace d).
    + replace (s + zlen (t ++ [d]) - 1) with (s + zlen t) by lia. apply IH; [|lia].
      intros i e Hi. apply H. change (c :: t ++ [d]) with ((c :: t) ++ [d]). by apply lookup_app_l_Some.
    + rewrite Hl. unfold zlen. rewrite reverse_cons, reverse_involutive, length_app. cbn [length]. lia.
Qed.

Lemma cstr_cut m s p q : cstr m s (p ++ q) -> cstr (mwrite m (s + zlen p) 0) s p.
Proof.
  intros C. rewrite <- (app_nil_r p). apply cstr_app in C as [C _]. apply cstr_app. rewrite app_nil_r. split.
  - intros i c Hi. pose proof (lookup_lt_Some _ _ _ Hi). rewrite mread_mwrite_ne by (unfold zlen; lia). by apply C.
  - cbn. by rewrite mread_mwrite_eq.
Qed.

Lemma cstr_lookup m s l i d : cstr m s l -> l !! i = Some d -> mread m (s + Z.of_nat i) = d.
Proof. rewrite <- (app_nil_r l) at 1. intros C%cstr_app H. by apply (proj1 C). Qed.

Lemma trim_spec fuel m s l : cstr m s l -> (length l < fuel)%nat ->
  exists m' p, trimwhitespace fuel m s = Some (m', p) /\ s <= p /\ cstr m' p (strip l) /\
    forall b, b < s \/ s + zlen l < b -> mread m' b = mread m b.
Proof.
  intros C F. destruct (skip_space fuel m s l C F) as (n & E & Hn & Hz & Cn). unfold trimwhitespace, strip. rewrite E.
  cbn [mbind option_bind]. set (l1 := drop_space l) in *. assert (Hns : match l1 with c :: _ => isspace c = false | [] => True end).
  { unfold l1. clear. induction l as [|c l IH]; [done|]. cbn. by destruct (isspace c) eqn:Ec. }
  destruct l1 as [|c t] eqn:El1; [cbn in Cn; rewrite Cn; eexists _, _; split; [done|]; split; [lia|]; by split|].
  pose proof Cn as Cn'. cbn [cstr] in Cn. destruct Cn as (Hc & Nc & _). rewrite Hc, (proj2 (Z.eqb_neq c 0) Nc).
  rewrite (strlen_spec fuel m (s + n) (c :: t) Cn') by (unfold zlen in *; cbn [length] in *; lia). cbn [mbind option_bind].
  replace (s + n + zlen (c :: t) - 1) with (s + n + zlen t) by (rewrite zlen_cons; lia).
  rewrite (trim_end_spec m (s + n) c t) by (done || (intros; by eapply cstr_lookup) || (unfold zlen; cbn [length]; lia)).
  destruct (strip_end_prefix (c :: t)) as [q Eq]. set (p := reverse (drop_space (reverse (c :: t)))) in *.
  replace (s + n + zlen p - 1 + 1) with (s + n + zlen p) by lia.
  eexists _, _. split; [done|]. split; [lia|]. split; [apply (cstr_cut _ _ _ q); by rewrite <- Eq|].
  intros b B. apply mread_mwrite_ne. assert (zlen (c :: t) = zlen p + zlen q) by (by rewrite Eq at 1; rewrite zlen_app).
  pose proof (zlen_nonneg q). pose proof (zlen_nonneg p). lia.
Qed.

(** In-place compaction: a kept character goes to the front of what is left. *)
Lemma compact_write m s i j c l : j <= i -> cstr m (s + i) (c :: l) -> cstr (mwrite m (s + j) c) (s + (i + 1)) l.
Proof.
  intros Hj (_ & _ & C). rewrite Z.add_assoc. revert C. apply cstr_ext. intros b B. apply mread_mwrite_ne. lia.
Qed.

(** What a compaction of [l] from index [i] to [j] leaves. *)
Definition compacted (m m' : mem) (s i j j' : Z) (l kept : list Z) : Prop :=
  j' = j + zlen kept /\ (forall k c, kept !! k = Some c -> mread m' (s + j + Z.of_nat k) = c) /\
  forall b, b < s + j \/ s + i + zlen l <= b -> mread m' b = mread m b.

Lemma compacted_keep m m' s i j j' c l kept : 0 <= c < 256 -> j <= i ->
  compacted (mwrite m (s + j) c) m' s (i + 1) (j + 1) j' l kept -> compacted m m' s i j j' (c :: l) (c :: kept).
Proof.
  intros Hc Hj (E & K & F). unfold compacted. rewrite !zlen_cons. pose proof (zlen_nonneg l). split; [lia|]. split.
  - intros [|k] d Hd; [injection Hd as <-|].
    + rewrite Z.add_0_r, F, mread_mwrite_eq by lia. by apply u8_small.
    + replace (s + j + Z.of_nat (S k)) with (s + (j + 1) + Z.of_nat k) by lia. by apply K.
  - intros b B. rewrite F by lia. apply mread_mwrite_ne. lia.
Qed.

Lemma compacted_skip m m' s i j j' c l kept : compacted m m' s (i + 1) j j' l kept -> compacted m m' s i j j' (c :: l) kept.
Proof.
  intros (E & K & F). split; [done|]. split; [done|]. intros b B. apply F. rewrite zlen_cons in B. pose proof (zlen_nonneg l). lia.
Qed.

Lemma compacted_nil m s i j : compacted m m s i j j [] [].
Proof. split; [unfold zlen; cbn; lia|]. split; [done|done]. Qed.

Definition not_space (c : Z) : bool := negb (isspace c).

Lemma rm_loop_spec fuel m s i j l : cstr m (s + i) l -> (length l < fuel)%nat -> j <= i ->
  exists m' j', rm_loop fuel m s i j = Some (m', j') /\ compacted m m' s i j j' l (List.filter not_space l).
Proof.
  revert fuel m i j. induction l as [|c l IH]; intros [|fuel] m i j C F Hj; cbn [length] in F; try lia; cbn [rm_loop List.filter].
  - cbn in C. rewrite C. eexists _, _. split; [done|]. apply compacted_nil.
  - pose proof (cstr_chars _ _ _ C) as Hch. apply list.Forall_cons in Hch as [Hc _].
    pose proof C as (-> & N & C1). rewrite (proj2 (Z.eqb_neq c 0) N). unfold not_space at 1. destruct (isspace c); cbn [negb].
    + rewrite <- Z.add_assoc in C1. destruct (IH fuel m (i + 1) j C1) as (m' & j' & E & K); [lia..|].
      exists m', j'. split; [done|]. by apply compacted_skip.
    + destruct (IH fuel (mwrite m (s + j) c) (i + 1) (j + 1) (compact_write _ _ _ _ _ _ Hj C)) as (m' & j' & E & K); [lia..|].
      exists m', j'. split; [done|]. apply compacted_keep; [lia|lia|done].
Qed.

Lemma ftrim_loop_spec fuel m s i j sf l : cstr m (s + i) l -> (length l < fuel)%nat -> j <= i ->
  exists m' j', ftrim_loop fuel m s i j sf = Some (m', j') /\ compacted m m' s i j j' l (squeeze sf l).
Proof.
  revert fuel m i j sf. induction l as [|c l IH]; intros [|fuel] m i j sf C F Hj; cbn [length] in F; try lia; cbn [ftrim_loop squeeze].
  - cbn in C. rewrite C. eexists _, _. split; [done|]. apply compacted_nil.
  - pose proof (cstr_chars _ _ _ C) as Hch. apply list.Forall_cons in Hch as [Hc _].
    pose proof C as (E0 & N & C1). rewrite E0, (proj2 (Z.eqb_neq c 0) N). destruct (Z.eqb_spec c 32) as [->|N32]; cbn [negb].
    + destruct sf; cbn [negb].
      * rewrite <- Z.add_assoc in C1. destruct (IH fuel m (i + 1) j true C1) as (m' & j' & E & K); [lia..|].
        exists m', j'. split; [done|]. by apply compacted_skip.
      * destruct (IH fuel (mwrite m (s + j) 32) (i + 1) (j + 1) true (compact_write _ _ _ _ _ _ Hj C)) as (m' & j' & E & K); [lia..|].
        exists m', j'. split; [done|]. apply compacted_keep; [lia|lia|done].
    + destruct (IH fuel (mwrite m (s + j) c) (i + 1) (j + 1) false (compact_write _ _ _ _ _ _ Hj C)) as (m' & j' & E & K); [lia..|].
      exists m', j'. split; [done|]. apply compacted_keep; [lia|lia|done].
Qed.

Lemma compacted_cstr m m' s j' l kept : cstr m s l -> (forall c, In c kept -> In c l) ->
  compacted m m' s 0 0 j' l kept -> zlen kept <= zlen l ->
  cstr (mwrite m' (s + j') 0) s kept /\ forall b, b < s \/ s + zlen l < b -> mread (mwrite m' (s + j') 0) b = mread m b.
Proof.
  intros C Hin (-> & K & F) Hle. pose proof (cstr_chars _ _ _ C) as Hch. rewrite !Z.add_0_r, Z.add_0_l in *.
  pose proof (zlen_nonneg kept). split.
  - rewrite <- (app_nil_r kept) at 2. apply cstr_app. split; [|cbn; by rewrite mread_mwrite_eq].
    intros k c Hk. pose proof (lookup_lt_Some _ _ _ Hk). rewrite mread_mwrite_ne by (unfold zlen; lia). split; [by apply K|].
    rewrite List.Forall_forall in Hch. specialize (Hch c (Hin c (proj1 (list_elem_of_In _ _) (list_elem_of_lookup_2 _ _ _ Hk)))). lia.
  - intros b B. rewrite mread_mwrite_ne by lia. apply F. lia.
Qed.

(** ** Lemmas: words *)

Lemma valid_idx_spec m str n : is_valid_char (mread m (str + n)) = true ->
  (forall j, 0 <= j < n -> is_valid_char (mread m (str + j)) = false) ->
  forall k i, 0 <= i <= n -> n < i + Z.of_nat k -> valid_idx_loop k m str i = n.
Proof.
  intros Hv Hb. induction k as [|k IH]; intros i Hi Hk; [lia|]. cbn [valid_idx_loop].
  destruct (Z.eq_dec i n) as [->|N]; [by rewrite Hv|]. rewrite Hb by lia. apply IH; lia.
Qed.

(** The loop copies the word that starts behind [n] blanks. *)
Lemma copy_word_spec len dst : 1 <= s32 len ->
  forall w c n m str i k, 0 <= n < s32 len ->
  (forall j, 0 <= j < n -> is_valid_char (mread m (str + j)) = false) ->
  (forall j d, (c :: w) !! j = Some d -> mread m (str + n + Z.of_nat j) = d /\ is_valid_char d = true) ->
  is_valid_char (mread m (str + n + 1 + zlen w)) = false ->
  (length w < k)%nat -> 0 <= i -> i + zlen w < 2 ^ 32 ->
  dst + i + zlen w < str \/ str + n + 1 + zlen w < dst + i ->
  exists m', copy_word k m str dst i len = (m', i + zlen w, str + n + 1 + zlen w) /\
    (forall j d, (c :: w) !! j = Some d -> mread m' (dst + i + Z.of_nat j) = d) /\
    forall b, b < dst + i \/ dst + i + zlen w < b -> mread m' b = mread m b.
Proof.
  intros HL. induction w as [|d w IH]; intros c n m str i k Hn Hb Hw He Hk Hi Hi2 Hdis; (destruct k as [|k]; [cbn in Hk; lia|]).
  - change (zlen []) with 0 in *. rewrite !Z.add_0_r in *. destruct (Hw 0%nat c eq_refl) as [Hc Hv]. rewrite Z.add_0_r in Hc.
    cbn [copy_word]. unfold get_next_valid_char_idx. rewrite (valid_idx_spec m str n) by (rewrite ?Hc; done || lia).
    destruct (Z.eqb_spec n (-1)); [lia|]. rewrite Hc. rewrite mread_mwrite_ne by lia. rewrite Z.add_assoc, He. cbn [negb].
    pose proof (mread_range m (str + n)). eexists. split; [done|]. split.
    + intros [|j] d Hd; [|done]. injection Hd as <-. rewrite Z.add_0_r, mread_mwrite_eq. apply u8_small. lia.
    + intros b B. apply mread_mwrite_ne. lia.
  - rewrite zlen_cons in *. pose proof (zlen_nonneg w) as Hw0. destruct (Hw 0%nat c eq_refl) as [Hc Hv]. rewrite Z.add_0_r in Hc.
    destruct (Hw 1%nat d eq_refl) as [Hd Hvd].
    cbn [copy_word]. unfold get_next_valid_char_idx. rewrite (valid_idx_spec m str n) by (rewrite ?Hc; done || lia).
    destruct (Z.eqb_spec n (-1)); [lia|]. rewrite Hc. set (m1 := mwrite m (dst + i) c).
    assert (M1 : forall b, str + n <= b <= str + n + 2 + zlen w -> mread m1 b = mread m b)
      by (intros b B; apply mread_mwrite_ne; lia).
    rewrite M1 by lia. rewrite Z.add_assoc. change (Z.of_nat 1) with 1 in Hd. rewrite Hd, Hvd. cbn [negb]. rewrite (u32_small (i + 1)) by lia.
    destruct (IH d 0 m1 (str + n + 1) (i + 1) k) as (m' & E & K & F); try lia.
    + intros j e Hj. pose proof (lookup_lt_Some _ _ _ Hj) as Lj. cbn [length] in Lj. rewrite M1 by (unfold zlen in *; lia).
      replace (str + n + 1 + 0 + Z.of_nat j) with (str + n + Z.of_nat (S j)) by lia. by apply Hw.
    + rewrite M1 by lia. replace (str + n + 1 + 0 + 1 + zlen w) with (str + n + 1 + (1 + zlen w)) by lia. done.
    + cbn in Hk. lia.
    + exists m'. rewrite E. pose proof (mread_range m (str + n)). split; [f_equal; [f_equal|]; lia|]. split.
      * intros [|j] e Hj; [injection Hj as <-|].
        -- rewrite Z.add_0_r, F by lia. unfold m1. rewrite mread_mwrite_eq. apply u8_small. lia.
        -- replace (dst + i + Z.of_nat (S j)) with (dst + (i + 1) + Z.of_nat j) by lia. by apply K.
      * intros b B. rewrite F by lia. apply mread_mwrite_ne. lia.
Qed.

Definition invalid (c : Z) : Prop := is_valid_char c = false.
Definition valid (c : Z) : Prop := is_valid_char c = true.

Lemma next_word fuel m str dst blanks c w tail :
  cstr m str (blanks ++ (c :: w) ++ tail) -> zlen (blanks ++ (c :: w) ++ tail) < 2 ^ 31 ->
  Forall invalid blanks -> Forall valid (c :: w) -> match tail with d :: _ => invalid d | [] => True end ->
  dst + zlen w + 1 < str \/ str + zlen (blanks ++ (c :: w) ++ tail) < dst -> (0 < fuel)%nat ->
  exists m', get_next_valid_string fuel m str (zlen (blanks ++ (c :: w) ++ tail)) dst = Some (m', zlen blanks + 1 + zlen w) /\
    (forall j d, (c :: w) !! j = Some d -> mread m' (dst + Z.of_nat j) = d) /\
    (w <> [] -> mread m' (dst + 1 + zlen w) = 0) /\
    forall b, b < dst \/ dst + 1 + zlen w < b \/ (w = [] /\ b <> dst) -> mread m' b = mread m b.
Proof.
  intros C HL Hb Hw Ht Hdis Hf. set (text := blanks ++ (c :: w) ++ tail) in *. set (len := zlen text) in *.
  assert (Hlen : len = zlen blanks + 1 + zlen w + zlen tail) by (unfold len, text; rewrite !zlen_app, zlen_cons; lia).
  pose proof (zlen_nonneg blanks). pose proof (zlen_nonneg w). pose proof (zlen_nonneg tail).
  assert (Hs : s32 len = len) by (apply s32_small; lia).
  assert (Hend : is_valid_char (mread m (str + zlen blanks + 1 + zlen w)) = false).
  { unfold text in C. apply cstr_app in C as [_ C]. apply cstr_app in C as [_ C]. rewrite zlen_cons in C.
    replace (str + zlen blanks + (1 + zlen w)) with (str + zlen blanks + 1 + zlen w) in C by lia.
    destruct tail as [|d tail]; cbn in C; [by rewrite C|]. by rewrite (proj1 C). }
  destruct (copy_word_spec len dst) with (w := w) (c := c) (n := zlen blanks) (m := m) (str := str) (i := 0) (k := Z.to_nat len)
    as (m1 & E & K & F); try done; try lia.
  - intros j Hj. pose proof (lookup_lt_is_Some_2 blanks (Z.to_nat j)) as [d Hd]; [unfold zlen in *; lia|].
    pose proof (list.Forall_lookup_1 _ _ _ _ Hb Hd) as Hi. unfold invalid in Hi. rewrite <- (Z2Nat.id j) by lia.
    rewrite (cstr_lookup m str text (Z.to_nat j) d); [done|done|]. by apply lookup_app_l_Some.
  - intros j d Hd. pose proof (list.Forall_lookup_1 _ _ _ _ Hw Hd). split; [|done].
    rewrite <- Z.add_assoc. unfold zlen. rewrite <- Nat2Z.inj_add. apply (cstr_lookup m str text); [done|].
    unfold text. rewrite lookup_app_r by lia. replace (length blanks + j - length blanks)%nat with j by lia. by apply lookup_app_l_Some.
  - unfold zlen in *. lia.
  - rewrite !Z.add_0_r in *. unfold get_next_valid_string. cbv zeta. fold len. rewrite E. destruct fuel as [|fuel]; [lia|]. cbn [skip_valid].
    rewrite F by lia. rewrite Hend. cbn [mbind option_bind].
    replace (str + zlen blanks + 1 + zlen w - str) with (zlen blanks + 1 + zlen w) by lia. rewrite (s32_small (zlen blanks + 1 + zlen w)) by lia.
    rewrite !Z.add_0_l, (u32_small (zlen w + 1)) by lia. eexists. split; [done|].
    destruct w as [|d w]; [|destruct (Z.eqb_spec (zlen (d :: w)) 0) as [E0|_]; [rewrite zlen_cons in E0; pose proof (zlen_nonneg w); lia|]].
    + cbn. split; [done|]. split; [done|]. intros b B. apply F. change (zlen []) with 0 in *. lia.
    + destruct (Z.ltb_spec 1 len); [|rewrite zlen_cons in *; pose proof (zlen_nonneg w); lia]. cbn [negb andb].
      split; [|split].
      * intros j e Hj. pose proof (lookup_lt_Some _ _ _ Hj) as Lj. cbn [length] in Lj.
        rewrite mread_mwrite_ne by (unfold zlen; cbn [length]; lia). by apply K.
      * intros _. replace (dst + 1 + zlen (d :: w)) with (dst + (zlen (d :: w) + 1)) by lia. by rewrite mread_mwrite_eq.
      * intros b [B|[B|[B _]]]; [| |done]; rewrite mread_mwrite_ne by lia; apply F; lia.
Qed.

Lemma decimal_valid z : Forall valid (itoa_text z 10).
Proof.
  unfold itoa_text. apply list.Forall_app. split; [destruct (_ && _); repeat constructor|].
  eapply list.Forall_impl; [apply (dec_digits (Z.abs z)); lia|]. intros c Hc. cbn in Hc. unfold valid, is_valid_char.
  destruct (Z.leb_spec 33 c), (Z.leb_spec c 126); try lia; done.
Qed.

(** [a, a + n) and [b, b + k) have no byte in common. *)
Definition disjoint_ranges (a n b k : Z) : Prop := a + n <= b \/ b + k <= a.

(** One %d, from the results of the calls it makes. *)
Lemma sscanf_step fuel dst_str m m1 m2 str format dst text n z :
  (2 <= fuel)%nat -> cstr m format [37; 100] -> itoa m (s32 (ld32 m dst)) dst_str 10 = Some (m1, dst_str) ->
  cstr m1 str text -> (length text < fuel)%nat -> get_next_valid_string fuel m1 str (zlen text) dst_str = Some (m2, n) -> 0 < n ->
  atoi fuel m2 dst_str = Some z -> mread m2 (format + 1 + 1) = 0 -> format + 3 <= dst \/ dst + 4 <= format ->
  sscanf fuel dst_str m str format [dst] = Some (st32 m2 dst (u32 z), 1).
Proof.
  intros Hf Cf E1 Cs1 Hl E2 Hn Ea C2 D. unfold sscanf. destruct fuel as [|[|fuel]]; [lia..|].
  destruct Cf as (Cf0 & _ & Cf1 & _ & Cf2). cbn [sscanf_loop]. rewrite Cf0, Cf1.
  cbn [Z.eqb Pos.eqb negb orb va_arg mbind option_bind]. rewrite E1. cbn [mbind option_bind].
  rewrite (strlen_spec _ m1 str text Cs1) by lia. cbn [mbind option_bind].
  rewrite E2. cbn [mbind option_bind]. rewrite Ea. cbn [mbind option_bind].
  rewrite mread_store_out, C2 by lia. cbn [Z.eqb]. by destruct (Z.ltb_spec 0 n); [|lia].
Qed.

(** ** Theorems *)

(** C10: gets_s edits a line: with a zeroed buffer of [size] bytes and keys that end
    with a newline (or a null or end-of-file code), it returns with the line
    that an editor makes of the keys - characters appended while there is
    room, a backspace removes the last one, the cancel code all, escape and
    extended keys are ignored - zeros behind it in the buffer, the matching
    echo, and the buffer's address, or NULL for an empty line or end of file;
    nothing outside the buffer is written and the keys behind the newline are
    left. *)
Theorem gets_s_edits fuel m str size keys c rest line echo :
  1 <= size < 2 ^ 32 -> size <= Z.of_nat fuel -> holds m str size [] ->
  Forall (fun k => 0 < k /\ ends_line k = false) keys -> ends_line c = true ->
  fold_left (edit size) keys ([], []) = (line, echo) ->
  exists m', gets_s fuel m str size (keys ++ c :: rest) =
      Some (m', if (c =? EOF) || (zlen line =? 0) then NULL else str,
        echo ++ (if zlen line <? size - 1 then [u8 c] else []), rest) /\
    holds m' str size line /\ buffer_only str size m m'.
Proof.
  intros Hs Hf H Hk Hc E. destruct (gets_loop_spec fuel keys m str size [] [] c rest line echo H Hs Hf Hk Hc E) as (m1 & E1 & H1 & F1).
  unfold gets_s. change (zlen []) with 0 in E1. rewrite E1. cbn [mbind option_bind].
  destruct ((c =? EOF) || (zlen line =? 0)); [by exists m1|]. eexists. split; [done|].
  pose proof H1 as (Hl & _ & _ & Hz). pose proof (zlen_nonneg line). split.
  - revert H1. apply holds_same. intros b B. destruct (Z.lt_ge_cases b (str + zlen line)); [by rewrite memset_out by lia|].
    rewrite memset_in, Hz by lia. done.
  - intros b B. rewrite memset_out by lia. by apply F1.
Qed.

(** Fact: The three whitespace helpers, in place: trimwhitespace returns the string
    without the white space at its ends, rmwhitespace the string without any,
    ftrimwhitespace the string with every run of spaces reduced to one; none
    writes outside the string, and each ends within its length. *)
Theorem whitespace_helpers fuel m s l : cstr m s l -> (length l < fuel)%nat ->
  (exists m' p, trimwhitespace fuel m s = Some (m', p) /\ s <= p /\ cstr m' p (strip l) /\
     forall b, b < s \/ s + zlen l < b -> mread m' b = mread m b) /\
  (exists m', rmwhitespace fuel m s = Some (m', s) /\ cstr m' s (List.filter not_space l) /\
     forall b, b < s \/ s + zlen l < b -> mread m' b = mread m b) /\
  (exists m', ftrimwhitespace fuel m s = Some (m', s) /\ cstr m' s (squeeze false l) /\
     forall b, b < s \/ s + zlen l < b -> mread m' b = mread m b).
Proof.
  intros C F. assert (C0 : cstr m (s + 0) l) by by rewrite Z.add_0_r. split; [by apply trim_spec|]. split.
  - destruct (rm_loop_spec fuel m s 0 0 l C0 F ltac:(lia)) as (m' & j & E & K). unfold rmwhitespace. rewrite E.
    eexists. split; [done|]. apply (compacted_cstr m m' s j l); [done| |done|].
    + intros c Hc. by apply List.filter_In in Hc as [? _].
    + clear. unfold zlen. induction l as [|c l IH]; [done|]. cbn [List.filter]. destruct (not_space c); cbn [length]; lia.
  - destruct (ftrim_loop_spec fuel m s 0 0 false l C0 F ltac:(lia)) as (m' & j & E & K). unfold ftrimwhitespace. rewrite E.
    eexists. split; [done|]. apply (compacted_cstr m m' s j l); [done| |done|].
    + clear. generalize false. induction l as [|d l IH]; intros sf c; [done|]. cbn [squeeze].
      destruct (Z.eqb_spec d 32) as [->|]; cbn [negb]; [destruct sf|]; cbn [In]; try (intros [|?]; [by left|]); right; by eapply IH.
    + clear. unfold zlen. generalize false. induction l as [|c l IH]; intros sf; [done|]. cbn [squeeze].
      destruct (c =? 32); cbn [negb]; [destruct sf|]; cbn [length]; specialize (IH true) as I1; specialize (IH false) as I2; lia.
Qed.

(** Fact: sscanf with the format %d reads back the decimal text of an int of at
    least two characters: it stores the number, returns 1 and writes nothing
    but the destination and its local array. *)
Theorem sscanf_reads_number fuel dst_str m str format dst z text :
  - 2 ^ 31 <= z < 2 ^ 31 -> z <> 0 -> text = itoa_text z 10 -> 2 <= zlen text -> (70 <= fuel)%nat ->
  cstr m str text -> cstr m format [37; 100] ->
  disjoint_ranges str (zlen text + 1) dst_str 67 -> disjoint_ranges str (zlen text + 1) dst 4 ->
  disjoint_ranges format 3 dst_str 67 -> disjoint_ranges format 3 dst 4 -> disjoint_ranges dst 4 dst_str 67 ->
  exists m', sscanf fuel dst_str m str format [dst] = Some (m', 1) /\ s32 (ld32 m' dst) = z /\
    forall b, b < dst_str \/ dst_str + 67 <= b -> b < dst \/ dst + 4 <= b -> mread m' b = mread m b.
Proof.
  intros Hz Hz0 Et H2 Hf Cs Cf D1 D2 D3 D4 D5. unfold disjoint_ranges in *.
  pose proof (decimal_valid z) as Hv. rewrite <- Et in Hv. destruct text as [|c w]; [done|]. rewrite zlen_cons in *.
  assert (Hlen : zlen (c :: w) <= 65).
  { rewrite Et. pose proof (number_text_length z 10) as L. unfold number_text in L. rewrite (proj2 (Z.eqb_neq z 0) Hz0) in L.
    unfold zlen. lia. }
  rewrite zlen_cons in Hlen. pose proof (zlen_nonneg w).
  destruct (itoa_number m (s32 (ld32 m dst)) dst_str 10) as (m1 & E1 & _ & F1); [lia|ulia|].
  assert (Cs1 : cstr m1 str (c :: w)). { revert Cs. apply cstr_ext. intros b B. rewrite zlen_cons in B. apply F1. lia. }
  destruct (next_word fuel m1 str dst_str [] c w []) as (m2 & E2 & K2 & T2 & F2); rewrite ?app_nil_r, ?app_nil_l, ?zlen_cons; try done; try lia.
  rewrite app_nil_l, app_nil_r in E2. change (zlen []) with 0 in E2. rewrite Z.add_0_l in E2.
  assert (C2 : cstr m2 dst_str (c :: w)).
  { apply cstr_intro; [|rewrite zlen_cons, Z.add_assoc; apply T2; intros ->; unfold zlen in *; cbn in *; lia].
    intros j d Hd. split; [by apply K2|]. pose proof (list.Forall_lookup_1 _ _ _ _ Hv Hd) as Hd'. intros ->. done. }
  assert (Ea : atoi fuel m2 dst_str = Some z) by (apply atoi_text; [lia|done|by rewrite <- Et|lia]).
  assert (M2 : forall b, b < dst_str \/ dst_str + 67 <= b -> mread m2 b = mread m b).
  { intros b B. rewrite F2, F1 by lia. done. }
  exists (st32 m2 dst (u32 z)). split; [|split].
  - apply (sscanf_step fuel dst_str m m1 m2 str format dst (c :: w) (1 + zlen w) z); try done; try lia.
    + unfold zlen in *. cbn [length]. lia.
    + rewrite M2 by lia. by destruct Cf as (_ & _ & _ & _ & ?).
  - rewrite ld32_st32. ulia.
  - intros b B1 B2. rewrite mread_store_out by lia. by apply M2.
Qed.

(** Fact: A number of one digit does not replace the old value of its destination:
    the digit is not followed by a terminator in the local array, which holds
    the old value's text, so that reading 7 into a variable that holds 42
    stores 72. *)
Theorem sscanf_keeps_old_digits m : cstr m 4096 [55] -> cstr m 4112 [37; 100] -> ld32 m 4128 = 42 ->
  exists m', sscanf 70 8192 m 4096 4112 [4128] = Some (m', 1) /\ ld32 m' 4128 = 72.
Proof.
  intros Cs Cf Hold. destruct (itoa_number m 42 8192 10) as (m1 & E1 & C1 & F1); [lia|lia|].
  assert (Cs1 : cstr m1 4096 [55]). { revert Cs. apply cstr_ext. intros b B. change (zlen [55]) with 1 in B. apply F1. lia. }
  destruct (next_word 70 m1 4096 8192 [] 55 [] []) as (m2 & E2 & K2 & _ & F2); try done; [by repeat constructor|right; by vm_compute|lia|].
  change (number_text 42 10) with [52; 50] in C1. destruct C1 as (_ & _ & C11 & _ & C12).
  assert (C2 : cstr m2 8192 (itoa_text 72 10)).
  { change (itoa_text 72 10) with [55; 50]. split; [apply (K2 0%nat); done|]. split; [done|].
    cbn. rewrite !F2 by (right; right; split; [done|lia]). done. }
  exists (st32 m2 4128 (u32 72)). split; [|by rewrite ld32_st32].
  apply (sscanf_step 70 8192 m m1 m2 4096 4112 4128 [55] 1 72); try done; try lia.
  - by rewrite Hold.
  - cbn. lia.
  - apply atoi_text; [lia|done|done|lia].
  - rewrite F2, F1 by lia. by destruct Cf as (_ & _ & _ & _ & ?).
Qed.

(** ** Witnesses *)

(** "ab", a backspace, "c", an extended key and a newline, into 4 bytes. *)
Lemma gets_s_edits_witness :
  exists m', gets_s 16 ∅ 4096 4 [97; 98; 8; 99; 0x101; 10; 65] = Some (m', 4096, [97; 98; 8; 99; 10], [65]) /\
    holds m' 4096 4 [97; 99] /\ buffer_only 4096 4 ∅ m'.
Proof.
  apply (gets_s_edits 16 ∅ 4096 4 [97; 98; 8; 99; 0x101] 10 [65] [97; 99] [97; 98; 8; 99]); [lia|lia| |by repeat constructor|done|done].
  split; [done|]. split; [done|]. split; [done|]. intros b _. by vm_compute.
Defined.

Definition demo_text : mem := st32 (mputs (mputs ∅ 4096 [45; 49; 50; 0]) 4112 [37; 100; 0]) 4128 5.

Lemma whitespace_helpers_witness :
  exists m', rmwhitespace 10 (mputs ∅ 4096 [32; 97; 32; 32; 98; 0]) 4096 = Some (m', 4096) /\ cstr m' 4096 [97; 98] /\
    forall b, b < 4096 \/ 4096 + 5 < b -> mread m' b = mread (mputs ∅ 4096 [32; 97; 32; 32; 98; 0]) b.
Proof. apply (whitespace_helpers 10 (mputs ∅ 4096 [32; 97; 32; 32; 98; 0]) 4096 [32; 97; 32; 32; 98]); [by vm_compute|cbn; lia]. Defined.

Lemma sscanf_reads_number_witness :
  exists m', sscanf 70 8192 demo_text 4096 4112 [4128] = Some (m', 1) /\ s32 (ld32 m' 4128) = -12 /\
    forall b, b < 8192 \/ 8192 + 67 <= b -> b < 4128 \/ 4128 + 4 <= b -> mread m' b = mread demo_text b.
Proof.
  apply (sscanf_reads_number 70 8192 demo_text 4096 4112 4128 (-12) [45; 49; 50]); try lia; try (by vm_compute);
    unfold disjoint_ranges, zlen; cbn [length]; lia.
Defined.

Lemma sscanf_keeps_old_digits_witness :
  exists m', sscanf 70 8192 (st32 (mputs (mputs ∅ 4096 [55; 0]) 4112 [37; 100; 0]) 4128 42) 4096 4112 [4128] = Some (m', 1) /\
    ld32 m' 4128 = 72.
Proof. apply sscanf_keeps_old_digits; by vm_compute. Defined.
