(* ===== verification/Bc.v ===== *)
(** * Bc: the shell's calculator (user/shell/bc.c)

    A recursive descent parser that evaluates as it reads: eval, term, factor
    and number over the characters in memory, with a position and an error
    flag.  Numbers are ints; the division instruction traps on the one
    quotient that is no int.  bc_main reads lines with fgets until exit or quit
    and prints an answer for each. *)

From S2P Require Import Prelude Mem CString CStdlib Keyboard Stdio.

(** The outcome of a call: out of fuel (or of keys), a divide error of the
    processor, or a value. *)
Inductive run_result (A : Type) :=
  | NoFuel
  | DivideError
  | Val (a : A).
Arguments NoFuel {A}.
Arguments DivideError {A}.
Arguments Val {A} _.

#[export] Instance run_result_ret : MRet run_result := fun A a => Val a.
#[export] Instance run_result_bind : MBind run_result := fun A B f x =>
  match x with Val a => f a | NoFuel => NoFuel | DivideError => DivideError end.

Definition of_option {A} (x : option A) : run_result A := match x with Some a => Val a | None => NoFuel end.

Record expr_t := Expr { exp : Z; err : Z }.

Definition ERR_NONE : Z := 0.
Definition ERR_SYNTAX : Z := 1.
Definition ERR_DIVISION_BY_ZERO : Z := 2.

Section Bc.
Context (n : nat) (m : mem).

(** The loops over hexadecimal and decimal digits; [n] bounds a scan. *)
Fixpoint hex_digits (k : nat) (p acc : Z) : option (Z * Z) :=
  match k with
  | O => None
  | S k =>
      let c := mread m p in
      if isxdigit c then hex_digits k (p + 1) (s32 (acc * 16 + (if c <=? 57 then c - 48 else tolower c - 97 + 10)))
      else Some (acc, p)
  end.

Fixpoint dec_digits_loop (k : nat) (p acc : Z) : option (Z * Z) :=
  match k with
  | O => None
  | S k =>
      let c := mread m p in
      if isdigit c then dec_digits_loop k (p + 1) (s32 (acc * 10 + (c - 48))) else Some (acc, p)
  end.

Definition number (e : expr_t) : option (Z * expr_t) :=
  let neg := mread m (exp e) =? 45 in
  let p := if neg then exp e + 1 else exp e in
  '(v, p) ← (if (mread m p =? 48) && (mread m (p + 1) =? 120) then hex_digits n (p + 2) 0 else dec_digits_loop n p 0);
  Some (if neg then s32 (- v) else v, Expr p (err e)).

Fixpoint skip_loop (k : nat) (p : Z) : option Z :=
  match k with
  | O => None
  | S k => if mread m p =? 32 then skip_loop k (p + 1) else Some p
  end.

Definition skip (e : expr_t) : option expr_t := p ← skip_loop n (exp e); Some (Expr p (err e)).

Definition advance (e : expr_t) : expr_t := Expr (exp e + 1) (err e).

(** The int quotient; the processor traps when it is out of range. *)
Definition divide (a b : Z) : run_result Z := if Z.quot a b =? 2 ^ 31 then DivideError else Val (Z.quot a b).

Fixpoint eval (fuel : nat) (e : expr_t) : run_result (Z * expr_t) :=
  match fuel with
  | O => NoFuel
  | S fuel =>
      '(res, e) ← term fuel e;
      e ← of_option (skip e);
      eval_loop fuel e res
  end
with eval_loop (fuel : nat) (e : expr_t) (res : Z) : run_result (Z * expr_t) :=
  match fuel with
  | O => NoFuel
  | S fuel =>
      let op := mread m (exp e) in
      if (op =? 43) || (op =? 45) then
        '(num, e) ← term fuel (advance e);
        let res := if op =? 43 then s32 (res + num) else s32 (res - num) in
        e ← of_option (skip e);
        eval_loop fuel e res
      else Val (res, e)
  end
with term (fuel : nat) (e : expr_t) : run_result (Z * expr_t) :=
  match fuel with
  | O => NoFuel
  | S fuel =>
      '(res, e) ← factor fuel e;
      e ← of_option (skip e);
      term_loop fuel e res
  end
with term_loop (fuel : nat) (e : expr_t) (res : Z) : run_result (Z * expr_t) :=
  match fuel with
  | O => NoFuel
  | S fuel =>
      let op := mread m (exp e) in
      if (op =? 42) || (op =? 47) then
        '(num, e) ← factor fuel (advance e);
        if op =? 42 then
          e ← of_option (skip e);
          term_loop fuel e (s32 (res * num))
        else if num =? 0 then Val (0, Expr (exp e) ERR_DIVISION_BY_ZERO)
        else
          q ← divide res num;
          e ← of_option (skip e);
          term_loop fuel e q
      else Val (res, e)
  end
with factor (fuel : nat) (e : expr_t) : run_result (Z * expr_t) :=
  match fuel with
  | O => NoFuel
  | S fuel =>
      e ← of_option (skip e);
      if mread m (exp e) =? 40 then
        '(result, e) ← eval fuel (advance e);
        e ← of_option (skip e);
        if mread m (exp e) =? 41 then Val (result, advance e)
        else Val (result, Expr (exp e) 1)
      else of_option (number e)
  end.

(** One line of bc_main: what it prints. *)
Inductive answer := Number (z : Z) | SyntaxError | DivisionByZero | Nothing.

Definition bc_line (fuel : nat) (input : Z) : run_result answer :=
  '(res, e) ← eval fuel (Expr input ERR_NONE);
  Val (if err e =? ERR_NONE then Number res
       else if err e =? ERR_SYNTAX then SyntaxError
       else if err e =? ERR_DIVISION_BY_ZERO then DivisionByZero
       else Nothing).

End Bc.

(** "> ", "Syntax error", "Division by zero": what printf sends out. *)
Definition PROMPT : list Z := [62; 32].

Definition answer_text (a : answer) : list Z :=
  match a with
  | Number z => number_text z 10 ++ [10]
  | SyntaxError => [83; 121; 110; 116; 97; 120; 32; 101; 114; 114; 111; 114; 10]
  | DivisionByZero => [68; 105; 118; 105; 115; 105; 111; 110; 32; 98; 121; 32; 122; 101; 114; 111; 10]
  | Nothing => []
  end.

(** The loop on lines: [input] is the array, [lexit] and [lquit] are the two
    literals; [k] bounds the lines and [n] the scans of one.  The result has the
    memory, what was printed and the keys left. *)
Fixpoint bc_main (k n : nat) (input lexit lquit : Z) (m : mem) (keys : list Z) : run_result (mem * list Z * list Z) :=
  match k with
  | O => NoFuel
  | S k =>
      '(m, p, echo, keys) ← of_option (fgets n m input BUFFER_SIZE keys);
      if p =? NULL then Val (m, PROMPT ++ echo, keys)
      else
        d ← of_option (strcmp n m input lexit);
        if d =? 0 then Val (m, PROMPT ++ echo, keys)
        else
          d ← of_option (strcmp n m input lquit);
          if d =? 0 then Val (m, PROMPT ++ echo, keys)
          else
            a ← bc_line n m (3 * n) input;
            '(m, out, keys) ← bc_main k n input lexit lquit m keys;
            Val (m, PROMPT ++ echo ++ answer_text a ++ out, keys)
  end.

(** ** Equations *)

Lemma eval_S n m fuel e : eval n m (S fuel) e =
  '(res, e) ← term n m fuel e; e ← of_option (skip n m e); eval_loop n m fuel e res.
Proof. done. Qed.

Lemma eval_loop_S n m fuel e res : eval_loop n m (S fuel) e res =
  let op := mread m (exp e) in
  if (op =? 43) || (op =? 45) then
    '(num, e) ← term n m fuel (advance e);
    e ← of_option (skip n m e);
    eval_loop n m fuel e (if op =? 43 then s32 (res + num) else s32 (res - num))
  else Val (res, e).
Proof. done. Qed.

Lemma term_S n m fuel e : term n m (S fuel) e =
  '(res, e) ← factor n m fuel e; e ← of_option (skip n m e); term_loop n m fuel e res.
Proof. done. Qed.

Lemma term_loop_S n m fuel e res : term_loop n m (S fuel) e res =
  let op := mread m (exp e) in
  if (op =? 42) || (op =? 47) then
    '(num, e) ← factor n m fuel (advance e);
    if op =? 42 then e ← of_option (skip n m e); term_loop n m fuel e (s32 (res * num))
    else if num =? 0 then Val (0, Expr (exp e) ERR_DIVISION_BY_ZERO)
    else q ← divide res num; e ← of_option (skip n m e); term_loop n m fuel e q
  else Val (res, e).
Proof. done. Qed.

Lemma factor_S n m fuel e : factor n m (S fuel) e =
  e ← of_option (skip n m e);
  if mread m (exp e) =? 40 then
    '(result, e) ← eval n m fuel (advance e);
    e ← of_option (skip n m e);
    if mread m (exp e) =? 41 then Val (result, advance e) else Val (result, Expr (exp e) 1)
  else of_option (number n m e).
Proof. done. Qed.

(** ** Lemmas: scanning *)

Section Scan.
Context (n : nat) (m : mem).

(** The rest of the input at the position of [e]. *)
Definition rest (e : expr_t) (l : list Z) : Prop := cstr m (exp e) l /\ (length l < n)%nat.

Lemma rest_advance e c l : rest e (c :: l) -> rest (advance e) l.
Proof. intros [(_ & _ & C) F]. cbn [length] in F. split; [done|lia]. Qed.

Fixpoint drop_blank (l : list Z) : list Z :=
  match l with [] => [] | c :: l' => if c =? 32 then drop_blank l' else l end.

Lemma drop_blank_length l : (length (drop_blank l) <= length l)%nat.
Proof. induction l as [|c l IH]; [done|]. cbn. destruct (c =? 32); cbn; lia. Qed.

Lemma skip_loop_spec k p l : cstr m p l -> (length l < k)%nat ->
  exists p', skip_loop m k p = Some p' /\ cstr m p' (drop_blank l).
Proof.
  revert p k. induction l as [|c l IH]; intros p [|k] C F; cbn [length] in F; try lia; cbn [skip_loop drop_blank cstr] in *.
  - rewrite C. cbn. by exists p.
  - pose proof C as (-> & N & C1). destruct (c =? 32); [apply IH; [done|lia]|by exists p].
Qed.

Lemma skip_spec e l : rest e l -> exists e', skip n m e = Some e' /\ err e' = err e /\ rest e' (drop_blank l).
Proof.
  intros [C F]. destruct (skip_loop_spec n (exp e) l C F) as (p & E & C'). exists (Expr p (err e)). unfold skip. rewrite E.
  split; [done|]. split; [done|]. split; [done|]. pose proof (drop_blank_length l). lia.
Qed.

(** The digits at the front and what is behind them. *)
Fixpoint digits_of (f : Z -> bool) (l : list Z) : list Z :=
  match l with [] => [] | c :: l => if f c then c :: digits_of f l else [] end.

Definition dec_number (l : list Z) : Z := fold_left (fun acc c => s32 (acc * 10 + (c - 48))) l 0.

Lemma dec_loop_spec k p l acc : cstr m p l -> (length l < k)%nat ->
  exists l', dec_digits_loop m k p acc = Some (fold_left (fun acc c => s32 (acc * 10 + (c - 48))) (digits_of isdigit l) acc,
      p + zlen (digits_of isdigit l)) /\
    l = digits_of isdigit l ++ l' /\ cstr m (p + zlen (digits_of isdigit l)) l'.
Proof.
  revert p k acc. induction l as [|c l IH]; intros p [|k] acc C F; cbn [length] in F; try lia; cbn [dec_digits_loop digits_of cstr] in *.
  - rewrite C. cbn. exists []. change (zlen []) with 0. rewrite Z.add_0_r. done.
  - pose proof C as (-> & N & C1). destruct (isdigit c).
    + destruct (IH (p + 1) k (s32 (acc * 10 + (c - 48))) C1 ltac:(lia)) as (l' & E & E' & C'). exists l'.
      rewrite zlen_cons, Z.add_assoc. split; [done|]. split; [cbn; congruence|done].
    + exists (c :: l). change (zlen []) with 0. rewrite Z.add_0_r. done.
Qed.

Lemma hex_loop_spec k p l acc : cstr m p l -> (length l < k)%nat ->
  exists v p' l', hex_digits m k p acc = Some (v, p') /\ cstr m p' l' /\ (length l' <= length l)%nat.
Proof.
  revert p k acc. induction l as [|c l IH]; intros p [|k] acc C F; cbn [length] in F; try lia; cbn [hex_digits cstr] in *.
  - rewrite C. cbn. by eexists _, _, [].
  - pose proof C as (-> & N & C1). destruct (isxdigit c); [|by eexists _, _, (c :: l)].
    destruct (IH (p + 1) k (s32 (acc * 16 + (if c <=? 57 then c - 48 else tolower c - 97 + 10))) C1 ltac:(lia)) as (v & p' & l' & E & C' & L').
    exists v, p', l'. split; [done|]. split; [done|]. cbn [length]. lia.
Qed.

Lemma number_total e l : rest e l ->
  exists v e' l', number n m e = Some (v, e') /\ rest e' l' /\ (length l' <= length l)%nat.
Proof.
  intros [C F]. unfold number.
  assert (K : exists l1, cstr m (if mread m (exp e) =? 45 then exp e + 1 else exp e) l1 /\ (length l1 <= length l)%nat).
  { destruct (Z.eqb_spec (mread m (exp e)) 45) as [E|]; [|by exists l]. destruct l as [|c l]; cbn in C; [congruence|].
    exists l. split; [by destruct C as (_ & _ & ?)|cbn; lia]. }
  destruct K as (l1 & C1 & L1). set (p := if mread m (exp e) =? 45 then exp e + 1 else exp e) in *.
  destruct ((mread m p =? 48) && (mread m (p + 1) =? 120)) eqn:Eh.
  - apply andb_true_iff in Eh as [E1%Z.eqb_eq E2%Z.eqb_eq]. destruct l1 as [|c l1]; cbn in C1; [congruence|].
    destruct l1 as [|d l1]; cbn in C1; [destruct C1 as (_ & _ & C1); congruence|]. destruct C1 as (_ & _ & _ & _ & C1).
    cbn [length] in L1. replace (p + 1 + 1) with (p + 2) in C1 by lia.
    destruct (hex_loop_spec n (p + 2) l1 0 C1 ltac:(lia)) as (v & p' & l' & E & C' & L'). rewrite E. cbn [mbind option_bind].
    eexists _, _, l'. split; [done|]. split; [split; [done|lia]|lia].
  - destruct (dec_loop_spec n p l1 0 C1 ltac:(lia)) as (l' & E & E' & C'). rewrite E. cbn [mbind option_bind].
    eexists _, _, l'. assert (length l' <= length l1)%nat by (pose proof (f_equal length E') as Q; rewrite length_app in Q; lia).
    split; [done|]. split; [split; [done|lia]|lia].
Qed.

(** ** Lemmas: termination *)

(** The call returns, or traps, at a position not before where it started. *)
Definition ends_in (l : list Z) (r : run_result (Z * expr_t)) : Prop :=
  r = DivideError \/ exists v e' l', r = Val (v, e') /\ rest e' l' /\ (length l' <= length l)%nat.

Lemma ends_bind l l2 r f : ends_in l r -> (length l <= length l2)%nat ->
  (forall v e' l', rest e' l' -> (length l' <= length l)%nat -> ends_in l2 (f (v, e'))) -> ends_in l2 (r ≫= f).
Proof.
  intros [->|(v & e' & l' & -> & R & L)] Hl Hf; [by left|]. cbn. by apply (Hf v e' l').
Qed.

Lemma ends_skip e l l2 f : rest e l -> (forall e' l', rest e' l' -> (length l' <= length l)%nat -> ends_in l2 (f e')) ->
  ends_in l2 (of_option (skip n m e) ≫= f).
Proof.
  intros R Hf. destruct (skip_spec e l R) as (e' & E & _ & R'). rewrite E. cbn. apply (Hf e' (drop_blank l)); [done|apply drop_blank_length].
Qed.

Lemma bc_ends fuel :
  (forall e l, rest e l -> (3 * length l + 3 <= fuel)%nat -> ends_in l (eval n m fuel e)) /\
  (forall e l res, rest e l -> (3 * length l + 1 <= fuel)%nat -> ends_in l (eval_loop n m fuel e res)) /\
  (forall e l, rest e l -> (3 * length l + 2 <= fuel)%nat -> ends_in l (term n m fuel e)) /\
  (forall e l res, rest e l -> (3 * length l + 1 <= fuel)%nat -> ends_in l (term_loop n m fuel e res)) /\
  (forall e l, rest e l -> (3 * length l + 1 <= fuel)%nat -> ends_in l (factor n m fuel e)).
Proof.
  induction fuel as [|fuel (IE & IEL & IT & ITL & IF)]; [by repeat split; intros; lia|].
  assert (Here : forall e l (v : Z), rest e l -> ends_in l (Val (v, e))) by (intros; right; eexists _, _, l; done).
  assert (Op : forall e l c, rest e l -> (mread m (exp e) =? c) = true -> c <> 0 -> exists l', l = c :: l' /\ rest (advance e) l').
  { intros e l c R E Nc. apply Z.eqb_eq in E. destruct l as [|d l]; destruct R as [C F]; cbn in C; [congruence|].
    exists l. assert (d = c) as -> by (destruct C as (? & _); congruence). split; [done|]. by apply (rest_advance e c). }
  assert (Le : forall e l l2 r, rest e l -> (length l <= length l2)%nat -> ends_in l r -> ends_in l2 r).
  { intros e l l2 r _ L [->|(v & e' & l' & -> & R & L')]; [by left|]. right. exists v, e', l'. split; [done|]. split; [done|lia]. }
  split; [|split; [|split; [|split]]].
  - intros e l R F. rewrite eval_S. eapply ends_bind; [apply (IT e l R); lia|done|]. intros v e1 l1 R1 L1.
    eapply ends_skip; [exact R1|]. intros e2 l2 R2 L2. apply (Le e2 l2); [done|lia|]. apply IEL; [done|lia].
  - intros e l res R F. rewrite eval_loop_S; cbv zeta. destruct ((mread m (exp e) =? 43) || (mread m (exp e) =? 45)) eqn:Eo; [|by apply Here].
    assert (K : exists c l', l = c :: l' /\ rest (advance e) l').
    { apply orb_true_iff in Eo as [Eo|Eo]; destruct (Op e l _ R Eo) as (l' & ? & ?); [done| |done|]; by eexists _, l'. }
    destruct K as (c & l' & -> & R'). cbn [length] in *. eapply ends_bind; [apply (IT _ l' R'); lia|cbn; lia|]. intros v e1 l1 R1 L1.
    eapply ends_skip; [exact R1|]. intros e2 l2 R2 L2. apply (Le e2 l2); [done|cbn; lia|]. apply IEL; [done|lia].
  - intros e l R F. rewrite term_S. eapply ends_bind; [apply (IF e l R); lia|done|]. intros v e1 l1 R1 L1.
    eapply ends_skip; [exact R1|]. intros e2 l2 R2 L2. apply (Le e2 l2); [done|lia|]. apply ITL; [done|lia].
  - intros e l res R F. rewrite term_loop_S; cbv zeta. destruct ((mread m (exp e) =? 42) || (mread m (exp e) =? 47)) eqn:Eo; [|by apply Here].
    assert (K : exists c l', l = c :: l' /\ rest (advance e) l').
    { apply orb_true_iff in Eo as [Eo|Eo]; destruct (Op e l _ R Eo) as (l' & ? & ?); [done| |done|]; by eexists _, l'. }
    destruct K as (c & l' & -> & R'). cbn [length] in *. eapply ends_bind; [apply (IF _ l' R'); lia|cbn; lia|]. intros v e1 l1 R1 L1.
    destruct (_ =? 42).
    + eapply ends_skip; [exact R1|]. intros e2 l2 R2 L2. apply (Le e2 l2); [done|cbn; lia|]. apply ITL; [done|lia].
    + destruct (v =? 0); [right; eexists _, _, l1; split; [done|]; split; [done|cbn; lia]|].
      unfold divide. destruct (_ =? 2 ^ 31); [by left|]. cbn [mbind run_result_bind].
      eapply ends_skip; [exact R1|]. intros e2 l2 R2 L2. apply (Le e2 l2); [done|cbn; lia|]. apply ITL; [done|lia].
  - intros e l R F. rewrite factor_S. eapply ends_skip; [exact R|]. intros e1 l1 R1 L1.
    destruct (mread m (exp e1) =? 40) eqn:E40.
    + destruct (Op e1 l1 40 R1 E40) as (l2 & -> & R2); [done|]. cbn [length] in *.
      eapply ends_bind; [apply (IE _ l2 R2); lia|lia|]. intros v e3 l3 R3 L3.
      eapply ends_skip; [exact R3|]. intros e4 l4 R4 L4. destruct (mread m (exp e4) =? 41) eqn:E41.
      * destruct (Op e4 l4 41 R4 E41) as (l5 & -> & R5); [done|]. cbn [length] in *. right. eexists _, _, l5. split; [done|]. split; [done|lia].
      * right. eexists _, _, l4. split; [done|]. split; [done|lia].
    + destruct (number_total e1 l1 R1) as (v & e2 & l2 & -> & R2 & L2). right. eexists _, _, l2. split; [done|]. split; [done|lia].
Qed.

End Scan.

(** ** Expressions and their text *)

Inductive binop := Add | Sub | Mul | Div.

Inductive ast := Lit (z : Z) | Bin (o : binop) (a b : ast).

Definition apply_op (o : binop) (x y : Z) : option Z :=
  match o with
  | Add => Some (s32 (x + y))
  | Sub => Some (s32 (x - y))
  | Mul => Some (s32 (x * y))
  | Div => if (y =? 0) || (Z.quot x y =? 2 ^ 31) then None else Some (Z.quot x y)
  end.

Fixpoint value (a : ast) : option Z :=
  match a with
  | Lit z => if (- 2 ^ 31 <? z) && (z <? 2 ^ 31) then Some z else None
  | Bin o a b => x ← value a; y ← value b; apply_op o x y
  end.

Definition op_char (o : binop) : Z := match o with Add => 43 | Sub => 45 | Mul => 42 | Div => 47 end.
Definition is_sum (o : binop) : bool := match o with Add | Sub => true | _ => false end.

Definition parens (b : bool) (l : list Z) : list Z := if b then [40] ++ l ++ [41] else l.

(** The text at a level (0 sums, 1 products, 2 factors), with the parentheses
    that are needed. *)
Fixpoint show (p : nat) (a : ast) : list Z :=
  match a with
  | Lit z => number_text z 10
  | Bin o a b =>
      if is_sum o then parens (1 <=? p)%nat (show 0 a ++ [op_char o] ++ show 1 b)
      else parens (2 <=? p)%nat (show 1 a ++ [op_char o] ++ show 2 b)
  end.

(** ** Lemmas: reading a text *)

Definition head_in (cs l : list Z) : Prop := match l with [] => True | c :: _ => c ∈ cs end.

(** What may follow a factor, and what may follow a sum. *)
Definition follow1 (r : list Z) : Prop := head_in [41; 43; 45; 42; 47] r.
Definition follow0 (r : list Z) : Prop := head_in [41; 43; 45] r.

Section Reads.
Context (n : nat) (m : mem).

Definition moved (e : expr_t) (w : list Z) : expr_t := Expr (exp e + zlen w) (err e).

Definition readsF (w : list Z) (v : Z) : Prop := forall fuel e r, rest n m e (w ++ r) -> follow1 r ->
  (3 * length (w ++ r) + 1 <= fuel)%nat -> factor n m fuel e = Val (v, moved e w).

Definition readsT (w : list Z) (v : Z) : Prop := forall fuel e r, rest n m e (w ++ r) -> follow1 r ->
  (3 * length (w ++ r) + 2 <= fuel)%nat ->
  exists f, (3 * length r + 1 <= f)%nat /\ term n m fuel e = term_loop n m f (moved e w) v.

Definition readsE (w : list Z) (v : Z) : Prop := forall fuel e r, rest n m e (w ++ r) -> follow0 r ->
  (3 * length (w ++ r) + 3 <= fuel)%nat ->
  exists f, (3 * length r + 1 <= f)%nat /\ eval n m fuel e = eval_loop n m f (moved e w) v.

Lemma rest_moved e w r : rest n m e (w ++ r) -> rest n m (moved e w) r.
Proof. intros [C F]. apply cstr_app in C as [_ C]. rewrite length_app in F. split; [done|lia]. Qed.

Lemma moved_app e w1 w2 : moved (moved e w1) w2 = moved e (w1 ++ w2).
Proof. unfold moved. cbn. rewrite zlen_app. f_equal. lia. Qed.

Lemma advance_moved e c : advance e = moved e [c].
Proof. done. Qed.

Lemma skip_none e r : rest n m e r -> match r with c :: _ => c <> 32 | [] => True end -> skip n m e = Some e.
Proof.
  intros [C F] H. unfold skip. destruct n as [|k]; [lia|]. cbn [skip_loop]. destruct e as [p er]. cbn [exp err] in *.
  destruct r as [|c r]; cbn in C; [by rewrite C|]. destruct C as (-> & _). by rewrite (proj2 (Z.eqb_neq c 32) H).
Qed.

Lemma head_read e r : rest n m e r -> mread m (exp e) = match r with [] => 0 | c :: _ => c end.
Proof. intros [C _]. by destruct r; [|destruct C]. Qed.

Lemma follow1_skip e r : rest n m e r -> follow1 r -> skip n m e = Some e.
Proof.
  intros R H. apply (skip_none e r R). destruct r as [|c r]; [done|]. cbn in H. rewrite !elem_of_cons, elem_of_nil in H. intros ->. lia.
Qed.

Lemma follow01 r : follow0 r -> follow1 r.
Proof. destruct r; [done|]. cbn. rewrite !elem_of_cons, !elem_of_nil. lia. Qed.

Lemma term_loop_stop f e r v : rest n m e r -> follow0 r -> (1 <= f)%nat -> term_loop n m f e v = Val (v, e).
Proof.
  intros R H Hf. destruct f as [|f]; [lia|]. rewrite term_loop_S; cbv zeta. rewrite (head_read e r R). destruct r as [|c r]; [done|].
  cbn in H. rewrite !elem_of_cons in H. destruct H as [->|[->|[->|H]]]; try done. by apply elem_of_nil in H.
Qed.

Lemma eval_loop_stop f e r v : rest n m e r -> head_in [41] r -> (1 <= f)%nat -> eval_loop n m f e v = Val (v, e).
Proof.
  intros R H Hf. destruct f as [|f]; [lia|]. rewrite eval_loop_S; cbv zeta. rewrite (head_read e r R). destruct r as [|c r]; [done|].
  cbn in H. by apply list_elem_of_singleton in H as ->.
Qed.

Lemma reads_factor_term w v : readsF w v -> readsT w v.
Proof.
  intros HF fuel e r R H Hf. rewrite length_app in Hf. destruct fuel as [|fuel]; [lia|]. exists fuel. split; [lia|]. rewrite term_S.
  rewrite (HF fuel e r R H) by (rewrite length_app; lia). cbn [mbind run_result_bind].
  by rewrite (follow1_skip (moved e w) r) by (done || by apply rest_moved).
Qed.

Lemma reads_term_eval w v : readsT w v -> readsE w v.
Proof.
  intros HT fuel e r R H Hf. rewrite length_app in Hf. destruct fuel as [|fuel]; [lia|]. exists fuel. split; [lia|]. rewrite eval_S.
  destruct (HT fuel e r R (follow01 r H)) as (f & Lf & E); [rewrite length_app; lia|]. rewrite E.
  rewrite (term_loop_stop f (moved e w) r) by (done || (by apply rest_moved) || lia). cbn [mbind run_result_bind].
  by rewrite (follow1_skip (moved e w) r) by ((by apply follow01) || by apply rest_moved).
Qed.

Lemma reads_paren w v : readsE w v -> readsF ([40] ++ w ++ [41]) v.
Proof.
  intros HE fuel e r R H Hf. assert (Ew : ([40] ++ w ++ [41]) ++ r = 40 :: w ++ (41 :: r)) by (cbn; by rewrite <- app_assoc).
  rewrite Ew in *. cbn [length] in Hf. destruct fuel as [|fuel]; [lia|]. rewrite factor_S. rewrite (skip_none e _ R) by done.
  cbn [of_option mbind run_result_bind]. rewrite (head_read e _ R). cbn [Z.eqb Pos.eqb].
  pose proof (rest_advance n m e 40 _ R) as R1.
  destruct (HE fuel (advance e) (41 :: r) R1) as (f & Lf & E); [by cbn; left|lia|]. rewrite E. cbn [length] in Lf.
  pose proof (rest_moved (advance e) w (41 :: r) R1) as R2.
  rewrite (eval_loop_stop f _ (41 :: r)) by (done || (by left) || lia). cbn [mbind run_result_bind].
  rewrite (skip_none _ _ R2) by done. cbn [of_option mbind run_result_bind]. rewrite (head_read _ _ R2). cbn [Z.eqb Pos.eqb].
  rewrite (advance_moved _ 41), (advance_moved e 40), !moved_app. done.
Qed.

Lemma reads_product o wa va wb vb v : is_sum o = false -> readsT wa va -> readsF wb vb -> apply_op o va vb = Some v ->
  readsT (wa ++ [op_char o] ++ wb) v.
Proof.
  intros Ho HA HB Ev fuel e r R H Hf. rewrite <- !app_assoc in *. cbn [app] in *.
  destruct (HA fuel e (op_char o :: wb ++ r) R) as (f & Lf & E); [destruct o; cbn; rewrite ?elem_of_cons; done || lia|lia|].
  cbn [length] in Lf. destruct f as [|f]; [lia|]. exists f. rewrite length_app in Lf. split; [lia|]. rewrite E. rewrite term_loop_S; cbv zeta.
  pose proof (rest_moved e wa _ R) as R1. rewrite (head_read _ _ R1). pose proof (rest_advance _ _ _ _ _ R1) as R2.
  rewrite (HB f _ r R2 H) by (rewrite length_app; lia). pose proof (rest_moved _ _ _ R2) as R3.
  rewrite (advance_moved _ (op_char o)), !moved_app in *. cbn [app] in *.
  destruct o; try done; cbn [op_char Z.eqb Pos.eqb orb mbind run_result_bind] in *; cbn [apply_op] in Ev.
  - injection Ev as <-. rewrite (follow1_skip _ r R3 H). done.
  - destruct (vb =? 0); [done|]. unfold divide. cbn [orb] in Ev. destruct (_ =? 2 ^ 31); [done|]. injection Ev as <-.
    cbn [mbind run_result_bind]. rewrite (follow1_skip _ r R3 H). done.
Qed.

Lemma reads_sum o wa va wb vb v : is_sum o = true -> readsE wa va -> readsT wb vb -> apply_op o va vb = Some v ->
  readsE (wa ++ [op_char o] ++ wb) v.
Proof.
  intros Ho HA HB Ev fuel e r R H Hf. rewrite <- !app_assoc in *. cbn [app] in *.
  destruct (HA fuel e (op_char o :: wb ++ r) R) as (f & Lf & E); [destruct o; cbn; rewrite ?elem_of_cons; done || lia|lia|].
  cbn [length] in Lf. destruct f as [|f]; [lia|]. exists f. rewrite length_app in Lf. split; [lia|]. rewrite E. rewrite eval_loop_S; cbv zeta.
  pose proof (rest_moved e wa _ R) as R1. rewrite (head_read _ _ R1). pose proof (rest_advance _ _ _ _ _ R1) as R2.
  destruct (HB f _ r R2 (follow01 r H)) as (f2 & Lf2 & E2); [rewrite length_app; lia|]. pose proof (rest_moved _ _ _ R2) as R3.
  rewrite (term_loop_stop f2 _ r) in E2 by (done || lia). rewrite E2.
  rewrite (advance_moved _ (op_char o)), !moved_app in *. cbn [app] in *.
  destruct o; try done; cbn [op_char Z.eqb Pos.eqb orb mbind run_result_bind] in *; cbn [apply_op] in Ev; injection Ev as <-;
    rewrite (follow1_skip _ r R3 (follow01 r H)); done.
Qed.

End Reads.

(** ** Lemmas: literals *)

(** The decimal text of a number: a sign and its digits. *)
Lemma number_text_dec z : - 2 ^ 63 < z < 2 ^ 63 ->
  exists ds, number_text z 10 = (if z <? 0 then [45] else []) ++ ds /\ Forall (fun c => 48 <= c <= 57) ds /\
    ds <> [] /\ dec_value ds = Z.abs z.
Proof.
  intros Hz. unfold number_text. destruct (Z.eqb_spec z 0) as [->|N].
  { exists [48]. split; [done|]. split; [repeat constructor; lia|]. by split. }
  exists (reverse (map dchar (ldigits 64 10 (Z.abs z)))). unfold itoa_text. rewrite andb_true_r. split; [done|].
  assert (Hv : dec_value (reverse (map dchar (ldigits 64 10 (Z.abs z)))) = Z.abs z).
  { rewrite lvalue_dec by (apply ldigits_range; lia). apply lvalue_ldigits; [lia|]. simpl Z.of_nat. lia. }
  split; [apply dec_digits; lia|]. split; [|done]. intros E. rewrite E in Hv. unfold dec_value in Hv. cbn in Hv. lia.
Qed.

Lemma digits_all ds r : Forall (fun c => 48 <= c <= 57) ds -> follow1 r -> digits_of isdigit (ds ++ r) = ds.
Proof.
  intros Hd Hr. induction Hd as [|c ds Hc _ IH].
  - destruct r as [|c r]; [done|]. cbn in Hr. rewrite !elem_of_cons, elem_of_nil in Hr. cbn [app digits_of].
    unfold isdigit. destruct (Z.leb_spec 48 c); [lia|done].
  - cbn [app digits_of]. unfold isdigit at 1. destruct (Z.leb_spec 48 c), (Z.leb_spec c 57); try lia. cbn [andb]. by rewrite IH.
Qed.

Lemma dec_fold_s32 ds a : fold_left (fun acc c => s32 (acc * 10 + (c - 48))) ds (s32 a) =
  s32 (fold_left (fun v c => v * 10 + (c - 48)) ds a).
Proof.
  revert a. induction ds as [|c ds IH]; intros a; [done|]. cbn [fold_left]. rewrite <- IH. f_equal. ulia.
Qed.

Section Literals.
Context (n : nat) (m : mem).

Lemma number_lit e z r : rest n m e (number_text z 10 ++ r) -> follow1 r -> - 2 ^ 31 < z < 2 ^ 31 ->
  number n m e = Some (z, moved e (number_text z 10)).
Proof.
  intros R Hr Hz. destruct (number_text_dec z) as (ds & Et & Hd & Nd & Hv); [lia|]. rewrite Et in *.
  destruct ds as [|d ds]; [done|]. pose proof Hd as [Hd0 Hds]%list.Forall_cons.
  assert (Hnx : match ds ++ r with c :: _ => c <> 120 | [] => True end).
  { destruct ds as [|c ds]; [|apply list.Forall_cons in Hds as [? _]; cbn; lia]. destruct r as [|c r]; [done|].
    cbn in *. rewrite !elem_of_cons, elem_of_nil in Hr. lia. }
  assert (K : forall p, rest n m (Expr p (err e)) ((d :: ds) ++ r) ->
    (if (mread m p =? 48) && (mread m (p + 1) =? 120) then hex_digits m n (p + 2) 0 else dec_digits_loop m n p 0) =
      Some (s32 (Z.abs z), p + zlen (d :: ds))).
  { intros p Rp. pose proof Rp as [C F]. cbn [exp] in C.
    assert (Ex : (mread m (p + 1) =? 120) = false).
    { apply Z.eqb_neq. pose proof (head_read n m _ _ (rest_advance n m (Expr p (err e)) d (ds ++ r) Rp)) as Hh. cbn in Hh.
      rewrite Hh. by destruct (ds ++ r). }
    rewrite Ex, andb_false_r. destruct (dec_loop_spec m n p ((d :: ds) ++ r) 0 C F) as (l' & E & _). rewrite E.
    rewrite (digits_all (d :: ds) r Hd Hr). change 0 with (s32 0) at 1. by rewrite dec_fold_s32, <- Hv. }
  unfold number. destruct (Z.ltb_spec z 0).
  - cbn [app] in R. pose proof (head_read n m _ _ R) as Hh. rewrite Hh. cbn [Z.eqb Pos.eqb].
    rewrite (K (exp e + 1)) by exact (rest_advance n m e 45 _ R). cbn [mbind option_bind].
    unfold moved. cbn [app]. rewrite (zlen_cons 45), Z.add_assoc. f_equal. f_equal. ulia.
  - cbn [app] in R. pose proof (head_read n m _ _ R) as Hh. rewrite Hh. destruct (Z.eqb_spec d 45); [lia|].
    rewrite (K (exp e)) by (destruct e; exact R). cbn [mbind option_bind app]. unfold moved. f_equal. f_equal. ulia.
Qed.

Lemma lit_head z : - 2 ^ 31 < z < 2 ^ 31 -> exists c w, number_text z 10 = c :: w /\ c <> 32 /\ c <> 40.
Proof.
  intros Hz. destruct (number_text_dec z) as (ds & -> & Hd & Nd & _); [lia|]. destruct ds as [|d ds]; [done|].
  apply list.Forall_cons in Hd as [Hd _]. destruct (z <? 0); cbn [app]; eexists _, _; (split; [done|]); lia.
Qed.

Lemma reads_lit z : - 2 ^ 31 < z < 2 ^ 31 -> readsF n m (number_text z 10) z.
Proof.
  intros Hz fuel e r R Hr Hf. destruct fuel as [|fuel]; [lia|]. rewrite factor_S. destruct (lit_head z Hz) as (c & w & E & N1 & N2).
  rewrite (skip_none n m e _ R) by by rewrite E. cbn [of_option mbind run_result_bind].
  rewrite (head_read n m e _ R), E. cbn [app]. rewrite (proj2 (Z.eqb_neq c 40) N2), <- E.
  by rewrite (number_lit e z r R Hr Hz).
Qed.

(** The three levels of the parser read the three levels of the printer. *)
Lemma reads_ast a v : value a = Some v -> readsF n m (show 2 a) v /\ readsT n m (show 1 a) v /\ readsE n m (show 0 a) v.
Proof.
  revert v. induction a as [z|o a IHa b IHb]; intros v Hv.
  - cbn [value] in Hv. destruct ((- 2 ^ 31 <? z) && (z <? 2 ^ 31)) eqn:Ez; [|done]. injection Hv as <-.
    apply andb_true_iff in Ez as [E1%Z.ltb_lt E2%Z.ltb_lt]. pose proof (reads_lit z ltac:(lia)) as HF.
    pose proof (reads_factor_term n m _ _ HF) as HT. split; [done|]. split; [done|]. by apply reads_term_eval.
  - cbn [value] in Hv. destruct (value a) as [x|] eqn:Ea; [|done]. destruct (value b) as [y|] eqn:Eb; [|done]. cbn in Hv.
    destruct (IHa x eq_refl) as (_ & Ta & Ea'). destruct (IHb y eq_refl) as (Fb & Tb & _).
    destruct (is_sum o) eqn:Eo; cbn [show]; rewrite Eo; cbn [Nat.leb parens].
    + pose proof (reads_sum n m o _ x _ y v Eo Ea' Tb Hv) as HE. pose proof (reads_paren n m _ _ HE) as HF.
      split; [done|]. split; [by apply reads_factor_term|done].
    + pose proof (reads_product n m o _ x _ y v Eo Ta Fb Hv) as HT. pose proof (reads_term_eval n m _ _ HT) as HE.
      split; [by apply reads_paren|done].
Qed.

End Literals.

(** ** Lemmas: a session *)

Lemma bc_line_value n m input a v fuel : value a = Some v -> cstr m input (show 0 a) -> (length (show 0 a) < n)%nat ->
  (3 * length (show 0 a) + 3 <= fuel)%nat -> bc_line n m fuel input = Val (Number v).
Proof.
  intros Hv C F Hf. destruct (reads_ast n m a v Hv) as (_ & _ & HE). set (e := Expr input ERR_NONE).
  assert (R : rest n m e (show 0 a ++ [])) by (by rewrite app_nil_r).
  destruct (HE fuel e [] R) as (f & Lf & E); [done|rewrite app_nil_r; lia|]. unfold bc_line. fold e. rewrite E.
  rewrite (eval_loop_stop n m f _ []); [done|exact (rest_moved n m e _ [] R)|done|cbn in Lf; lia].
Qed.

(** The characters of an expression, which no word has. *)
Lemma show_chars p a v : value a = Some v -> Forall (fun c => 40 <= c <= 57) (show p a) /\ show p a <> [].
Proof.
  revert p v. induction a as [z|o a IHa b IHb]; intros p v Hv; cbn [value show] in *.
  - destruct ((- 2 ^ 31 <? z) && (z <? 2 ^ 31)) eqn:Ez; [|done]. apply andb_true_iff in Ez as [E1%Z.ltb_lt E2%Z.ltb_lt].
    destruct (number_text_dec z) as (ds & -> & Hd & Nd & _); [lia|]. split; [|by destruct (z <? 0)].
    apply Forall_app. split; [by destruct (z <? 0); repeat constructor|]. eapply list.Forall_impl; [exact Hd|cbn; lia].
  - destruct (value a) as [x|]; [|done]. destruct (value b) as [y|]; [|done]. pose proof (fun p => IHa p x eq_refl) as Ha.
    pose proof (fun p => IHb p y eq_refl) as Hb.
    assert (K : forall p q, Forall (fun c => 40 <= c <= 57) (show p a ++ [op_char o] ++ show q b) /\ show p a ++ [op_char o] ++ show q b <> []).
    { intros q r. split; [|by destruct (show q a)]. apply Forall_app. split; [apply Ha|]. apply Forall_app. split; [|apply Hb].
      by destruct o; repeat constructor. }
    assert (P : forall c w, Forall (fun c => 40 <= c <= 57) w /\ w <> [] -> Forall (fun c => 40 <= c <= 57) (parens c w) /\ parens c w <> []).
    { intros [] w [H N]; [|done]. cbn. split; [|done]. constructor; [lia|]. apply Forall_app. by repeat constructor. }
    by destruct (is_sum o); apply P, K.
Qed.

Definition EXIT : list Z := [101; 120; 105; 116].
Definition QUIT : list Z := [113; 117; 105; 116].

Lemma show_not_word p a v : value a = Some v -> show p a <> EXIT /\ show p a <> QUIT.
Proof.
  intros Hv. destruct (show_chars p a v Hv) as [H _]. split; intros E; rewrite E in H; apply list.Forall_cons in H as [H _]; lia.
Qed.

Lemma strcmp_word n m a b s t d : cstr m a s -> cstr m b t -> (length s < n)%nat -> strcmp n m a b = Some d -> (d =? 0) = bool_decide (s = t).
Proof.
  intros Hs Ht Hn. rewrite (strcmp_diff n m a b s t) by done. intros [= <-].
  pose proof (str_diff_zero s t (cstr_chars _ _ _ Hs) (cstr_chars _ _ _ Ht)).
  case_bool_decide; destruct (Z.eqb_spec (str_diff s t) 0); try done; tauto.
Qed.

(** What is typed for expressions and the word that ends the session, and what
    is printed; [prev] is what the array held. *)
Definition typed (es : list ast) (w rest : list Z) : list Z :=
  foldr (fun a l => CAN :: show 0 a ++ 10 :: l) (CAN :: w ++ 10 :: rest) es.

Fixpoint printed (prev : list Z) (es : list ast) (vs : list Z) (w : list Z) : list Z :=
  match es, vs with
  | a :: es, v :: vs => PROMPT ++ (repeat 8 (length prev) ++ show 0 a ++ [10]) ++ (number_text v 10 ++ [10]) ++ printed (show 0 a) es vs w
  | _, _ => PROMPT ++ repeat 8 (length prev) ++ w ++ [10]
  end.

Section Session.
Context (n : nat) (input lexit lquit : Z).
Hypothesis Hn : (256 <= n)%nat.
Hypothesis Hin : 0 < input.

(** The two literals, outside the array. *)
Definition words (m : mem) : Prop :=
  cstr m lexit EXIT /\ cstr m lquit QUIT /\
  (lexit + 4 < input \/ input + 256 <= lexit) /\ (lquit + 4 < input \/ input + 256 <= lquit).

Lemma words_same m m' : buffer_only input 256 m m' -> words m -> words m'.
Proof.
  intros B (C1 & C2 & D1 & D2). split_and!; [| |done|done]; (eapply cstr_ext; [|eassumption]); intros b Hb;
    change (zlen EXIT) with 4 in *; change (zlen QUIT) with 4 in *; apply B; lia.
Qed.

(** One line: what is read, and which way the loop goes. *)
Lemma bc_main_line k m prev w rest : holds m input 256 prev -> words m -> Forall printable w -> w <> [] -> zlen w < 255 ->
  exists m', holds m' input 256 w /\ words m' /\ buffer_only input 256 m m' /\
    bc_main (S k) n input lexit lquit m (CAN :: w ++ 10 :: rest) =
      if bool_decide (w = EXIT \/ w = QUIT) then Val (m', PROMPT ++ repeat 8 (length prev) ++ w ++ [10], rest)
      else a ← bc_line n m' (3 * n) input;
           '(m'', out, keys) ← bc_main k n input lexit lquit m' rest;
           Val (m'', PROMPT ++ (repeat 8 (length prev) ++ w ++ [10]) ++ answer_text a ++ out, keys).
Proof.
  intros H W Hw Ne Hl. destruct (gets_s_text n m input 256 prev w rest H) as (m1 & E & H1 & B); [lia|lia|done|done|lia|].
  pose proof (words_same m m1 B W) as W1. exists m1. split_and!; [done|done|done|]. cbn [bc_main].
  unfold fgets. change (u64 (s32 BUFFER_SIZE)) with 256. rewrite E. cbn [of_option mbind run_result_bind].
  rewrite (proj2 (Z.eqb_neq input NULL)) by (unfold NULL; lia). destruct W1 as (C1 & C2 & _). pose proof (holds_cstr _ _ _ _ H1) as C.
  assert (L : (length w < n)%nat) by (unfold zlen in Hl; lia).
  rewrite (strcmp_diff n m1 input lexit w EXIT) by done. cbn [of_option mbind run_result_bind].
  rewrite (strcmp_word n m1 input lexit w EXIT) by (done || by apply strcmp_diff).
  rewrite (strcmp_diff n m1 input lquit w QUIT) by done. cbn [of_option mbind run_result_bind].
  rewrite (strcmp_word n m1 input lquit w QUIT) by (done || by apply strcmp_diff).
  repeat case_bool_decide; first [done | exfalso; tauto].
Qed.

Lemma bc_main_session es vs : Forall2 (fun a v => value a = Some v /\ zlen (show 0 a) < 255) es vs ->
  forall k m prev w rest, holds m input 256 prev -> words m -> w = EXIT \/ w = QUIT -> (length es < k)%nat ->
  exists m', bc_main k n input lexit lquit m (typed es w rest) = Val (m', printed prev es vs w, rest) /\
    buffer_only input 256 m m'.
Proof.
  induction 1 as [|a v es vs [Hv Hl] _ IH]; intros [|k] m prev w rest H W Hw Hk; cbn [length] in Hk; try lia; cbn [typed foldr printed].
  - destruct (bc_main_line k m prev w rest H W) as (m1 & _ & _ & B & E);
      [by destruct Hw as [-> | ->]; repeat constructor|by destruct Hw as [-> | ->]|by destruct Hw as [-> | ->]|].
    exists m1. by rewrite E, bool_decide_true.
  - destruct (show_chars 0 a v Hv) as [Hc Ne]. destruct (show_not_word 0 a v Hv) as [N1 N2].
    destruct (bc_main_line k m prev (show 0 a) (typed es w rest) H W) as (m1 & H1 & W1 & B & E); [|done|done|].
    { eapply list.Forall_impl; [exact Hc|unfold printable; cbn; lia]. }
    destruct (IH k m1 (show 0 a) w rest H1 W1 Hw) as (m2 & E2 & B2); [lia|]. exists m2. split; [|intros b Hb; by rewrite B2, B].
    unfold typed in *. rewrite E, bool_decide_false by (intros [?|?]; done).
    rewrite (bc_line_value n m1 input a v) by (done || (by apply holds_cstr in H1) || (unfold zlen in Hl; lia)).
    cbn [mbind run_result_bind]. by rewrite E2.
Qed.

End Session.

(** ** Theorems *)

(** C17: The calculator evaluates what it is given: for every expression over the
    four operations with a value (no division by zero, no trapping quotient),
    written with the parentheses its structure needs, bc answers with exactly
    that value, in int arithmetic; 3 units of fuel per character are enough. *)
Theorem bc_evaluates n m input a v text :
  text = show 0 a -> value a = Some v -> cstr m input text -> (length text < n)%nat ->
  bc_line n m (3 * length text + 3) input = Val (Number v).
Proof.
  intros -> Hv C F. by apply (bc_line_value n m input a v).
Qed.

(** C32: The calculator ends on every input line: with 3 units of fuel per
    character it answers, or the processor traps on the quotient
    INT_MIN / -1. *)
Theorem bc_terminates n m input text : cstr m input text -> (length text < n)%nat ->
  bc_line n m (3 * length text + 3) input = DivideError \/ exists r, bc_line n m (3 * length text + 3) input = Val r.
Proof.
  intros C F. destruct (proj1 (bc_ends n m (3 * length text + 3)) (Expr input ERR_NONE) text) as [E|(v & e' & l' & E & _)].
  - by split.
  - lia.
  - left. unfold bc_line. by rewrite E.
  - right. unfold bc_line. rewrite E. by eexists.
Qed.

(** C18: a session of the calculator: for any expressions with a value, each
    shorter than 255 characters, typed one per line and then exit or quit, with
    a line buffer that starts as a string followed by zeros, the calculator
    prints for each line the prompt, the echo and exactly the value of the
    expression, ends at the word, leaves what is typed behind it and writes
    nothing but its line buffer. *)
Theorem bc_session n k input lexit lquit m prev es vs w rest :
  (256 <= n)%nat -> 0 < input -> (length es < k)%nat ->
  Forall2 (fun a v => value a = Some v /\ zlen (show 0 a) < 255) es vs -> w = EXIT \/ w = QUIT ->
  holds m input 256 prev -> words input lexit lquit m ->
  exists m', bc_main k n input lexit lquit m (typed es w rest) = Val (m', printed prev es vs w, rest) /\
    buffer_only input 256 m m'.
Proof. intros. by apply bc_main_session. Qed.

(** Fact: Error reports that are wrong or missing: a division by zero inside
    parentheses that is followed by a further operator is reported as a syntax
    error, since the rest of the term is left unread, and text behind an
    expression is ignored without an error. *)
Theorem bc_misreports :
  bc_line 64 (mputs ∅ 4096 [40; 49; 47; 48; 42; 51; 41; 0]) 64 4096 = Val SyntaxError /\
  bc_line 64 (mputs ∅ 4096 [49; 47; 48; 0]) 64 4096 = Val DivisionByZero /\
  bc_line 64 (mputs ∅ 4096 [49; 32; 120; 0]) 64 4096 = Val (Number 1).
Proof. by vm_compute. Qed.

(** ** Witnesses *)

(** (1-2)*-30/4 *)
Definition demo_ast : ast := Bin Div (Bin Mul (Bin Sub (Lit 1) (Lit 2)) (Lit (-30))) (Lit 4).

Lemma bc_evaluates_witness : bc_line 64 (mputs ∅ 4096 (show 0 demo_ast ++ [0])) 36 4096 = Val (Number 7).
Proof. apply (bc_evaluates 64 _ 4096 demo_ast 7 (show 0 demo_ast)); [done|by vm_compute|by vm_compute|vm_compute; lia]. Defined.

Lemma bc_terminates_witness :
  bc_line 64 (mputs ∅ 4096 [40; 40; 43; 0]) 12 4096 = DivideError \/ exists r, bc_line 64 (mputs ∅ 4096 [40; 40; 43; 0]) 12 4096 = Val r.
Proof. apply (bc_terminates 64 _ 4096 [40; 40; 43]); [by vm_compute|cbn; lia]. Defined.

(** "(1-2)*-30/4" and "8" with the literals behind the array, then quit. *)
Lemma bc_session_witness :
  let m := mputs (mputs ∅ 8192 (EXIT ++ [0])) 8200 (QUIT ++ [0]) in
  exists m', bc_main 3 256 4096 8192 8200 m (typed [demo_ast; Lit 8] QUIT [65]) =
    Val (m', printed [] [demo_ast; Lit 8] [7; 8] QUIT, [65]) /\ buffer_only 4096 256 m m'.
Proof.
  apply (bc_session 256 3 4096 8192 8200); [lia|lia|cbn; lia|by repeat constructor; vm_compute|by right| |].
  - split; [done|]. split; [done|]. split; [done|]. intros b Hb. change (zlen []) with 0 in Hb. rewrite !mread_mputs_out by (cbn; lia). done.
  - split_and!; [by vm_compute|by vm_compute|lia|lia].
Defined.
