(* ===== verification/Files.v ===== *)
(** * Files: file descriptors (libc/file_op) over a file layer

    open, close, read, write and lseek of the kernel on the table of
    descriptors.  [FileLayer] is what they call below: the VFS by path;
    [file_law] is what it promises for one file, and [vfs_layer] is the VFS as
    an instance.  A descriptor keeps the copy of its path that open makes; the
    copy has no terminator, and the bytes behind it in the heap, up to the next
    zero, are the argument [tail]: none where the block that malloc cleared ends
    behind the path. *)

From S2P Require Import Prelude Mem CStdlib Path Disk Ext2 Vfs.

Definition MAX_NUM_OF_FILE_DESCRIPTORS : nat := 256.
Definition O_RDONLY : Z := 0.
Definition O_WRONLY : Z := 1.
Definition O_RDWR : Z := 2.

Inductive LSEEK_OP := SEEK_SET | SEEK_CUR | SEEK_END.

Class FileLayer := {
  layer_exists : list Z -> option Z;
  layer_read : list Z -> Z -> Z -> option (list Z * Z);
  layer_write : list Z -> Z -> Z -> Z;
  layer_size : list Z -> option Z;
}.

Record fdp := Fdp { file_path : option (list Z); current_offset : Z; flags : Z }.

Definition init_fdp_arr : list fdp := replicate MAX_NUM_OF_FILE_DESCRIPTORS (Fdp None 0 0).

(** The first free slot from [i] on. *)
Fixpoint free_slot (fds : list fdp) (i : nat) : option nat :=
  match fds with
  | [] => None
  | f :: fds => if bool_decide (file_path f = None) then Some i else free_slot fds (S i)
  end.

Section Files.
Context `{FileLayer} (tail : nat -> list Z).

Definition open (fdp_arr : list fdp) (path : list Z) (fl : Z) : option (list fdp * Z) :=
  e ← layer_exists path;
  if e =? 0 then Some (fdp_arr, -1)
  else match free_slot fdp_arr 0 with
       | Some i => Some (<[i := Fdp (Some path) 0 fl]> fdp_arr, Z.of_nat i)
       | None => Some (fdp_arr, -1)
       end.

(** A descriptor outside the table is outside the array. *)
Definition slot (fdp_arr : list fdp) (fd : Z) : option fdp := if fd <? 0 then None else fdp_arr !! Z.to_nat fd.

Definition set_slot (fdp_arr : list fdp) (fd : Z) (f : fdp) : list fdp := <[Z.to_nat fd := f]> fdp_arr.

(** After a successful close no value is returned. *)
Definition close (fdp_arr : list fdp) (fd : Z) : option (list fdp * option Z) :=
  f ← slot fdp_arr fd;
  match file_path f with
  | None => Some (fdp_arr, Some (-1))
  | Some _ => Some (set_slot fdp_arr fd (Fdp None (current_offset f) (flags f)), None)
  end.

Definition path_string (fd : Z) (p : list Z) : list Z := p ++ tail (Z.to_nat fd).

(** The table, the bytes read into the buffer and the result. *)
Definition read (fdp_arr : list fdp) (fd cnt : Z) : option (list fdp * list Z * Z) :=
  f ← slot fdp_arr fd;
  if negb ((flags f =? O_RDONLY) || (flags f =? O_RDWR)) then Some (fdp_arr, [], -3)
  else match file_path f with
       | None => Some (fdp_arr, [], -1)
       | Some p =>
           '(out, n) ← layer_read (path_string fd p) (current_offset f) cnt;
           let cnt_read := u64 n in
           Some (set_slot fdp_arr fd (Fdp (file_path f) (u64 (current_offset f + (cnt_read - 1))) (flags f)), out, s64 cnt_read)
       end.

Definition write (fdp_arr : list fdp) (fd cnt : Z) : option (list fdp * Z) :=
  f ← slot fdp_arr fd;
  if negb ((flags f =? O_WRONLY) || (flags f =? O_RDWR)) then Some (fdp_arr, -3)
  else match file_path f with
       | None => Some (fdp_arr, -1)
       | Some p =>
           let cnt_wrote := u64 (layer_write (path_string fd p) (current_offset f) cnt) in
           Some (set_slot fdp_arr fd (Fdp (file_path f) (u64 (current_offset f + (cnt_wrote - 1))) (flags f)), s64 cnt_wrote)
       end.

(** The comparison of SEEK_END is between unsigned numbers. *)
Definition lseek (fdp_arr : list fdp) (fd offset : Z) (whence : LSEEK_OP) : option (list fdp * Z) :=
  f ← slot fdp_arr fd;
  match file_path f with
  | None => Some (fdp_arr, -1)
  | Some p =>
      sz ← layer_size (path_string fd p);
      let file_size := u64 sz in
      let moved o := Some (set_slot fdp_arr fd (Fdp (file_path f) o (flags f)), s64 o) in
      match whence with
      | SEEK_SET => if offset <? file_size then moved offset else Some (fdp_arr, -3)
      | SEEK_CUR =>
          if u64 (offset + current_offset f) <? file_size then moved (u64 (current_offset f + offset)) else Some (fdp_arr, -3)
      | SEEK_END =>
          if 0 <=? u64 (file_size - offset - 1) then moved (u64 (file_size - offset - 1)) else Some (fdp_arr, -3)
      end
  end.

End Files.

(** ** What the file layer promises *)

(** A read at a block boundary, or inside one sector. *)
Definition fits (bs off n : Z) : Prop := off mod bs = 0 \/ off mod 512 + n <= 512.

Definition file_part (c : list Z) (off n : Z) : list Z := take (Z.to_nat n) (drop (Z.to_nat off) c).

(** The file at [p] has the content [c]. *)
Record file_law `{FileLayer} (bs : Z) (p c : list Z) : Prop := {
  fl_exists : layer_exists p = Some 2;
  fl_size : layer_size p = Some (zlen c);
  fl_bound : zlen c < 2 ^ 62;
  fl_read : forall off cnt, 0 <= off < zlen c -> 0 < cnt < 2 ^ 62 ->
    let n := Z.min (zlen c) (off + cnt) - off in fits bs off n ->
    layer_read p off cnt = Some (file_part c off n, n);
}.

(** ** The VFS as a file layer *)

(** A call that releases its path wrongly has no defined result. *)
Definition released {A} (x : option (A * release)) : option A :=
  '(a, r) ← x; match r with Released => Some a | _ => None end.

Definition vfs_layer (list_drives : list disk) (sl : Z -> Z) (behind : list Z) (fuel : nat) (v : vfs) (after : list (list Z)) : FileLayer := {|
  layer_exists p := released (vfs_path_exists list_drives sl behind fuel v p after);
  layer_read p off cnt := released (vfs_read list_drives sl behind fuel v p after off cnt);
  layer_write p off cnt := vfs_write p off cnt;
  layer_size p := released (vfs_get_file_size list_drives sl behind fuel v p after);
|}.

(** ** Lemmas *)

Lemma free_slot_spec fds k i : free_slot fds k = Some i ->
  (k <= i)%nat /\ (exists f, fds !! (i - k)%nat = Some f /\ file_path f = None) /\
  forall j f, (k <= j < i)%nat -> fds !! (j - k)%nat = Some f -> file_path f <> None.
Proof.
  revert k. induction fds as [|g fds IH]; intros k; cbn [free_slot]; [done|]. case_bool_decide as E.
  - intros [= <-]. split; [lia|]. rewrite Nat.sub_diag. split; [by exists g|]. intros j f Hj. lia.
  - intros K. destruct (IH (S k) K) as (Hk & (f & Hf & Hn) & Hall). split; [lia|]. split.
    + exists f. split; [|done]. by replace (i - k)%nat with (S (i - S k)) by lia.
    + intros j f' Hj Hjf. destruct (Nat.eq_dec j k) as [->|]; [rewrite Nat.sub_diag in Hjf; cbn in Hjf; congruence|].
      apply (Hall j f'); [lia|]. by replace (j - k)%nat with (S (j - S k)) in Hjf by lia.
Qed.

Lemma free_slot_none fds k : free_slot fds k = None <-> Forall (fun f => file_path f <> None) fds.
Proof.
  revert k. induction fds as [|f fds IH]; intros k; cbn [free_slot]; [done|]. rewrite list.Forall_cons, <- (IH (S k)).
  case_bool_decide; [split; [done|by intros [? _]]|split; [by intros ?; split|by intros [_ ?]]].
Qed.

Lemma free_slot_put_from fds k i f : free_slot fds k = Some i -> file_path f = None ->
  free_slot (<[(i - k)%nat := f]> fds) k = Some i.
Proof.
  revert k. induction fds as [|g fds IH]; intros k Hi Hf; [done|]. cbn [free_slot] in Hi. case_bool_decide as E.
  - injection Hi as <-. rewrite Nat.sub_diag. cbn. by rewrite bool_decide_eq_true_2.
  - destruct (free_slot_spec _ _ _ Hi) as (Hk & _). replace (i - k)%nat with (S (i - S k)) by lia. cbn.
    rewrite bool_decide_eq_false_2 by done. by apply IH.
Qed.

Lemma free_slot_put fds i f : free_slot fds 0 = Some i -> file_path f = None -> free_slot (<[i := f]> fds) 0 = Some i.
Proof. intros Hi Hf. pose proof (free_slot_put_from fds 0 i f Hi Hf) as P. by rewrite Nat.sub_0_r in P. Qed.

Lemma slot_set (fdp_arr : list fdp) fd f g : slot fdp_arr fd = Some f -> slot (set_slot fdp_arr fd g) fd = Some g.
Proof.
  unfold slot, set_slot. destruct (Z.ltb_spec fd 0); [done|]. intros Hs. apply list_lookup_insert_eq. by eapply lookup_lt_Some.
Qed.

Lemma slot_set_ne (fdp_arr : list fdp) fd fd' g : 0 <= fd -> fd <> fd' -> slot (set_slot fdp_arr fd g) fd' = slot fdp_arr fd'.
Proof.
  intros H0 N. unfold slot, set_slot. destruct (Z.ltb_spec fd' 0); [done|]. apply list_lookup_insert_ne. lia.
Qed.

Lemma zlen_part c off n : 0 <= off -> 0 <= n -> off + n <= zlen c -> zlen (file_part c off n) = n.
Proof. intros. unfold file_part, zlen in *. rewrite length_take, length_drop. lia. Qed.

Lemma part_map {f : Z -> Z} size off n : 0 <= off -> 0 <= n -> off + n <= size ->
  file_part (map f (indices size)) off n = map (fun j => f (off + j)) (indices n).
Proof.
  intros Ho Hn Hs. unfold file_part. apply list_eq. intros i. destruct (Nat.lt_ge_cases i (Z.to_nat n)) as [Hi|Hi].
  - rewrite lookup_take_lt, lookup_drop, !list_lookup_fmap, !indices_lookup by lia. cbn. do 2 f_equal. lia.
  - rewrite lookup_take_ge by done. symmetry. apply lookup_ge_None. unfold indices. rewrite !length_map, length_seq. done.
Qed.

Section Law.
Context `{FileLayer} (tail : nat -> list Z) (bs : Z) (p c : list Z) (Hlaw : file_law bs p c).

(** One read through a descriptor. *)
Lemma read_step fdp_arr fd off fl cnt n :
  slot fdp_arr fd = Some (Fdp (Some p) off fl) -> tail (Z.to_nat fd) = [] -> fl = O_RDONLY \/ fl = O_RDWR ->
  0 <= off < zlen c -> 0 < cnt < 2 ^ 62 -> n = Z.min (zlen c) (off + cnt) - off -> fits bs off n ->
  read tail fdp_arr fd cnt = Some (set_slot fdp_arr fd (Fdp (Some p) (off + n - 1) fl), file_part c off n, n).
Proof.
  intros Hs Ht Hfl Ho Hc -> Hfit. unfold read. rewrite Hs. cbn [mbind option_bind file_path current_offset flags].
  assert (negb ((fl =? O_RDONLY) || (fl =? O_RDWR)) = false) as -> by (destruct Hfl as [-> | ->]; done).
  unfold path_string. rewrite Ht, app_nil_r, (fl_read _ _ _ Hlaw off cnt Ho Hc Hfit). cbn [mbind option_bind].
  pose proof (fl_bound _ _ _ Hlaw). rewrite (u64_small (Z.min _ _ - _)) by lia. rewrite u64_small, s64_small by lia.
  by rewrite Z.add_sub_assoc.
Qed.

Lemma lseek_set_step fdp_arr fd off fl o :
  slot fdp_arr fd = Some (Fdp (Some p) off fl) -> tail (Z.to_nat fd) = [] -> 0 <= o < zlen c ->
  lseek tail fdp_arr fd o SEEK_SET = Some (set_slot fdp_arr fd (Fdp (Some p) o fl), o).
Proof.
  intros Hs Ht Ho. pose proof (fl_bound _ _ _ Hlaw). unfold lseek. rewrite Hs. cbn [mbind option_bind file_path flags].
  unfold path_string. rewrite Ht, app_nil_r, (fl_size _ _ _ Hlaw). cbn [mbind option_bind].
  rewrite (u64_small (zlen c)) by lia. rewrite (proj2 (Z.ltb_lt o (zlen c))), s64_small by lia. done.
Qed.

(** From the end, inside the file: the last byte is at distance 0. *)
Lemma lseek_end_step fdp_arr fd off fl o :
  slot fdp_arr fd = Some (Fdp (Some p) off fl) -> tail (Z.to_nat fd) = [] -> 0 <= o < zlen c ->
  lseek tail fdp_arr fd o SEEK_END = Some (set_slot fdp_arr fd (Fdp (Some p) (zlen c - o - 1) fl), zlen c - o - 1).
Proof.
  intros Hs Ht Ho. pose proof (fl_bound _ _ _ Hlaw). unfold lseek. rewrite Hs. cbn [mbind option_bind file_path flags].
  unfold path_string. rewrite Ht, app_nil_r, (fl_size _ _ _ Hlaw). cbn [mbind option_bind].
  rewrite (u64_small (zlen c)), (u64_small (zlen c - o - 1)) by lia.
  rewrite (proj2 (Z.leb_le 0 (zlen c - o - 1))), s64_small by lia. done.
Qed.

Lemma open_step fdp_arr i fl : free_slot fdp_arr 0 = Some i ->
  open fdp_arr p fl = Some (<[i := Fdp (Some p) 0 fl]> fdp_arr, Z.of_nat i).
Proof. intros Hi. unfold open. rewrite (fl_exists _ _ _ Hlaw). cbn. by rewrite Hi. Qed.

End Law.

(** ** Lemmas: the table of descriptors *)

Inductive file_op :=
  | FOpen (path : list Z) (fl : Z) | FClose (fd : Z) | FRead (fd cnt : Z) | FWrite (fd cnt : Z)
  | FLseek (fd offset : Z) (whence : LSEEK_OP).

(** An offset is a size_t. *)
Definition file_op_ok (op : file_op) : Prop := match op with FLseek _ o _ => 0 <= o < 2 ^ 64 | _ => True end.

Section Table.
Context `{FileLayer} (tail : nat -> list Z).

Definition file_step (arr : list fdp) (op : file_op) : option (list fdp * option Z) :=
  match op with
  | FOpen p fl => '(arr, r) ← open arr p fl; Some (arr, Some r)
  | FClose fd => close arr fd
  | FRead fd cnt => '(arr, _, r) ← read tail arr fd cnt; Some (arr, Some r)
  | FWrite fd cnt => '(arr, r) ← write tail arr fd cnt; Some (arr, Some r)
  | FLseek fd o w => '(arr, r) ← lseek tail arr fd o w; Some (arr, Some r)
  end.

Fixpoint file_run (arr : list fdp) (ops : list file_op) : option (list fdp * list (option Z)) :=
  match ops with
  | [] => Some (arr, [])
  | op :: ops => '(arr, r) ← file_step arr op; '(arr, rs) ← file_run arr ops; Some (arr, r :: rs)
  end.

(** What the table is: 256 entries, each with a 64-bit offset. *)
Definition table_ok (arr : list fdp) : Prop :=
  length arr = MAX_NUM_OF_FILE_DESCRIPTORS /\ Forall (fun f => 0 <= current_offset f < 2 ^ 64) arr.

Definition is_open (arr : list fdp) (i : Z) : Prop := exists f, slot arr i = Some f /\ file_path f <> None.

(** The open descriptors as a set: open adds the least that is not in it, or
    fails; close removes; the others leave it alone. *)
Definition opens (s : gset Z) (op : file_op) (r : option Z) (s' : gset Z) : Prop :=
  match op with
  | FOpen _ _ => (r = Some (-1) /\ s' = s) \/
      exists i, r = Some i /\ 0 <= i < 256 /\ (i ∉ s) /\ (forall j, 0 <= j < i -> j ∈ s) /\ s' = {[i]} ∪ s
  | FClose fd => s' = s ∖ {[fd]}
  | _ => s' = s
  end.

Inductive opens_run : gset Z -> list file_op -> list (option Z) -> gset Z -> Prop :=
  | ORNil s : opens_run s [] [] s
  | ORCons s op r s1 ops rs s2 : opens s op r s1 -> opens_run s1 ops rs s2 -> opens_run s (op :: ops) (r :: rs) s2.

Lemma slot_range arr fd f : slot arr fd = Some f -> 0 <= fd /\ arr !! Z.to_nat fd = Some f.
Proof. unfold slot. destruct (Z.ltb_spec fd 0); [done|]. by split. Qed.

Lemma table_ok_set arr fd f g : table_ok arr -> slot arr fd = Some f -> 0 <= current_offset g < 2 ^ 64 -> table_ok (set_slot arr fd g).
Proof.
  intros [Hl Hf] _ Hg. unfold set_slot. split; [by rewrite length_insert|]. by apply list.Forall_insert.
Qed.

Lemma is_open_set arr fd f g i : slot arr fd = Some f -> is_open (set_slot arr fd g) i <-> (i = fd /\ file_path g <> None) \/ (i <> fd /\ is_open arr i).
Proof.
  intros Hs. destruct (slot_range _ _ _ Hs) as [H0 _]. unfold is_open. destruct (Z.eq_dec i fd) as [->|N].
  - rewrite (slot_set _ _ f g Hs). split; [intros (h & [= <-] & ?); by left|]. intros [[_ ?]|[? _]]; [by exists g|done].
  - rewrite slot_set_ne by done. split; [by right|]. intros [[-> _]|[_ ?]]; done.
Qed.

(** Writing back an entry that stays open changes no membership. *)
Lemma is_open_keep arr fd f g i : slot arr fd = Some f -> file_path g = file_path f -> is_open (set_slot arr fd g) i <-> is_open arr i.
Proof.
  intros Hs Hg. rewrite (is_open_set _ _ f g i Hs), Hg. split.
  - intros [[-> Hn]|[_ Ho]]; [by exists f|done].
  - intros Ho. destruct (Z.eq_dec i fd) as [->|]; [left|by right]. destruct Ho as (h & Hh & Hn). split; [done|]. congruence.
Qed.

Lemma open_opens arr path fl arr' r (s : gset Z) : open arr path fl = Some (arr', r) -> table_ok arr -> (forall i, (i ∈ s) <-> is_open arr i) ->
  table_ok arr' /\ exists s', opens s (FOpen path fl) (Some r) s' /\ forall i, (i ∈ s') <-> is_open arr' i.
Proof.
  unfold open. intros E Ht Hs. apply bind_Some in E as (e & _ & E).
  destruct (e =? 0); [injection E as <- <-; split; [done|]; exists s; split; [by left|done]|].
  destruct (free_slot arr 0) as [n|] eqn:En; [|injection E as <- <-; split; [done|]; exists s; split; [by left|done]].
  injection E as <- <-. destruct (free_slot_spec _ _ _ En) as (_ & (f & Hf & Hfn) & Hlow). rewrite Nat.sub_0_r in Hf.
  assert (Hsl : slot arr (Z.of_nat n) = Some f) by (unfold slot; destruct (Z.ltb_spec (Z.of_nat n) 0); [lia|by rewrite Nat2Z.id]).
  pose proof (lookup_lt_Some _ _ _ Hf) as Hlt. destruct Ht as [Hl Hok]. rewrite Hl in Hlt. unfold MAX_NUM_OF_FILE_DESCRIPTORS in Hlt.
  assert (Eset : <[n:=Fdp (Some path) 0 fl]> arr = set_slot arr (Z.of_nat n) (Fdp (Some path) 0 fl)) by (unfold set_slot; by rewrite Nat2Z.id).
  rewrite Eset. split; [apply (table_ok_set arr _ f); [by split|done|cbn; lia]|].
  exists ({[Z.of_nat n]} ∪ s). split.
  - right. exists (Z.of_nat n). split; [done|]. split; [lia|]. split; [|split; [|done]].
    + rewrite Hs. intros (g & Hg & Hn). congruence.
    + intros j Hj. rewrite Hs. destruct (lookup_lt_is_Some_2 arr (Z.to_nat j)) as [g Hg]; [rewrite Hl; unfold MAX_NUM_OF_FILE_DESCRIPTORS; lia|].
      exists g. split; [unfold slot; destruct (Z.ltb_spec j 0); [lia|done]|]. apply (Hlow (Z.to_nat j)); [lia|by rewrite Nat.sub_0_r].
  - intros i. rewrite (is_open_set _ _ f _ i Hsl), elem_of_union, elem_of_singleton, Hs. cbn [file_path].
    assert (Some path <> None) by done. destruct (Z.eq_dec i (Z.of_nat n)); tauto.
Qed.

Lemma file_step_opens arr op arr' r (s : gset Z) : file_step arr op = Some (arr', r) -> file_op_ok op -> table_ok arr -> (forall i, (i ∈ s) <-> is_open arr i) ->
  table_ok arr' /\ exists s', opens s op r s' /\ forall i, (i ∈ s') <-> is_open arr' i.
Proof.
  intros E Hop Ht Hs.
  assert (Keep : forall fd f o, slot arr fd = Some f -> 0 <= o < 2 ^ 64 -> let a := set_slot arr fd (Fdp (file_path f) o (flags f)) in
    table_ok a /\ exists s', s' = s /\ forall i, (i ∈ s') <-> is_open a i).
  { intros fd f o Hf Ho. split; [by apply (table_ok_set arr fd f)|]. exists s. split; [done|]. intros i. by rewrite (is_open_keep arr fd f) by done. }
  assert (Same : table_ok arr /\ exists s', s' = s /\ forall i, (i ∈ s') <-> is_open arr i) by (split; [done|by exists s]).
  destruct op as [path fl|fd|fd cnt|fd cnt|fd o w]; cbn [file_step opens] in *.
  - apply bind_Some in E as ([a r0] & E & [= <- <-]). by apply (open_opens arr path fl a r0).
  - unfold close in E. apply bind_Some in E as (f & Hf & E). destruct (file_path f) eqn:Ef; injection E as <- <-.
    + split; [apply (table_ok_set arr fd f); [done|done|]|].
      { destruct Ht as [_ Ht]. destruct (slot_range _ _ _ Hf) as [_ Hl]. exact (list.Forall_lookup_1 _ _ _ _ Ht Hl). }
      eexists. split; [reflexivity|]. intros i. rewrite (is_open_set _ _ f _ i Hf), elem_of_difference, elem_of_singleton, Hs. cbn [file_path].
      assert (@None (list Z) = None) by done. tauto.
    + split; [done|]. eexists. split; [reflexivity|]. intros i. rewrite elem_of_difference, elem_of_singleton, Hs. split; [by intros []|].
      intros Ho. split; [done|]. intros ->. destruct Ho as (g & Hg & Hn). congruence.
  - apply bind_Some in E as ([[a out] r0] & E & [= <- <-]). unfold read in E. apply bind_Some in E as (f & Hf & E).
    destruct (negb _); [by injection E as <- _ _|]. destruct (file_path f) as [p|] eqn:Ef; [|by injection E as <- _ _].
    apply bind_Some in E as ([o n] & _ & E). injection E as <- _ _. rewrite <- Ef. apply (Keep fd f); [done|apply u64_range].
  - apply bind_Some in E as ([a r0] & E & [= <- <-]). unfold write in E. apply bind_Some in E as (f & Hf & E).
    destruct (negb _); [by injection E as <- _|]. destruct (file_path f) as [p|] eqn:Ef; [|by injection E as <- _].
    injection E as <- _. rewrite <- Ef. apply (Keep fd f); [done|apply u64_range].
  - apply bind_Some in E as ([a r0] & E & [= <- <-]). unfold lseek in E. apply bind_Some in E as (f & Hf & E).
    destruct (file_path f) as [p|] eqn:Ef; [|by injection E as <- _]. apply bind_Some in E as (sz & _ & E).
    assert (M : forall o1, 0 <= o1 < 2 ^ 64 -> Some (set_slot arr fd (Fdp (Some p) o1 (flags f)), s64 o1) = Some (a, r0) ->
      table_ok a /\ exists s', s' = s /\ forall i, (i ∈ s') <-> is_open a i) by (intros o1 Ho1 Q; injection Q as <- _; rewrite <- Ef; by apply Keep).
    destruct w; (destruct (_ : bool); [eapply M; [|exact E]; exact Hop || apply u64_range|by injection E as <- _]).
Qed.

End Table.

Lemma init_table_ok : table_ok init_fdp_arr.
Proof. split; [done|]. by apply Forall_replicate. Qed.

Lemma init_open i : (i ∈ (∅ : gset Z)) <-> is_open init_fdp_arr i.
Proof.
  split; [set_solver|]. intros (f & Hf & Hn). destruct (slot_range _ _ _ Hf) as [_ Hl]. by apply lookup_replicate in Hl as [-> _].
Qed.

Lemma file_run_opens `{FileLayer} tail ops arr arr' rs (s : gset Z) : file_run tail arr ops = Some (arr', rs) -> Forall file_op_ok ops ->
  table_ok arr -> (forall i, (i ∈ s) <-> is_open arr i) -> table_ok arr' /\ exists s', opens_run s ops rs s' /\ forall i, (i ∈ s') <-> is_open arr' i.
Proof.
  intros E Hops. revert arr rs s E. induction Hops as [|op ops Hop _ IH]; intros arr rs s E Ht Hs; cbn [file_run] in E.
  { injection E as <- <-. split; [done|]. exists s. split; [constructor|done]. }
  apply bind_Some in E as ([a1 r] & E1 & E). apply bind_Some in E as ([a2 rs'] & E2 & E). injection E as <- <-.
  destruct (file_step_opens tail arr op a1 r s E1 Hop Ht Hs) as (T1 & s1 & O1 & S1).
  destruct (IH a1 rs' s1 E2 T1 S1) as (T2 & s2 & O2 & S2). split; [done|]. exists s2. split; [by econstructor|done].
Qed.

(** ** Lemmas: the VFS as a layer *)

Lemma vfs_layer_law l sl behind fuel v after p r nd nm fs s_block ino inode d blocks size :
  vfs_get_node v p after = Some r -> found_node r = Some nd ->
  nodes v !! nd = Some (Node VFS_NODE_TYPE_FILE_SYSTEM nm (Mounted fs)) -> continues r = true -> path_searched r = Live ->
  fs_type fs = FILESYSTEM_TYPE_EXT2 -> ext2_read_super_block l sl fs = Some s_block ->
  ext2_get_inode_number_at_path l sl behind fuel fs s_block (fs_path r) = Some ino -> ino <> 0 ->
  ext2_read_inode_metadata l sl fs s_block ino = Some inode -> Z.land (i_mode inode) EXT2_S_IFMT = EXT2_S_IFREG ->
  inode_file_size inode = size -> 0 <= size < 2 ^ 62 ->
  on_disk l fs s_block d inode blocks ((size - 1) / s_block_get_block_size s_block) ->
  size <= Z.of_nat fuel * s_block_get_block_size s_block -> (1 <= fuel)%nat ->
  @file_law (vfs_layer l sl behind fuel v after) (s_block_get_block_size s_block) p
    (map (file_byte fs s_block d blocks) (indices size)).
Proof.
  intros Hr Hf Hn Hc Hp Ht Hsb Hino N0 Him Hmode Hsz Hb Hod Hfuel Hf1.
  assert (Hlen : zlen (map (file_byte fs s_block d blocks) (indices size)) = size)
    by (unfold zlen; rewrite length_map; apply indices_length; lia).
  split; [| |rewrite Hlen; lia|]; cbn [layer_exists layer_size layer_read vfs_layer].
  - unfold vfs_path_exists. rewrite Hr. cbn [mbind option_bind]. rewrite Hf, Hn. cbn [mbind option_bind type data].
    rewrite Ht, Z.eqb_refl, Hsb. cbn [mbind option_bind]. rewrite Hino. cbn [mbind option_bind].
    rewrite (proj2 (Z.eqb_neq ino 0) N0), Him. cbn [mbind option_bind]. rewrite Hmode, Hp. done.
  - rewrite Hlen. unfold vfs_get_file_size. rewrite Hr. cbn [mbind option_bind]. rewrite Hf, Hn. cbn [mbind option_bind type data].
    rewrite Hc. cbn [negb]. rewrite Ht, Z.eqb_refl, Hsb. cbn [mbind option_bind]. rewrite Hino. cbn [mbind option_bind].
    rewrite (proj2 (Z.eqb_neq ino 0) N0). unfold ext2_get_inode_size. rewrite Him. cbn [mbind option_bind].
    fold (inode_file_size inode). rewrite Hsz, Hp, s64_small by lia. done.
  - rewrite Hlen. intros off cnt Ho Hcnt. set (n := Z.min size (off + cnt) - off). intros Hfit. unfold vfs_read. rewrite Hr. cbn [mbind option_bind]. rewrite Hf, Hn.
    cbn [mbind option_bind type data]. rewrite Hc. cbn [negb]. rewrite Ht, Z.eqb_refl, Hsb. cbn [mbind option_bind].
    rewrite Hino. cbn [mbind option_bind]. rewrite (proj2 (Z.eqb_neq ino 0) N0).
    assert (E : ext2_read_inode l sl fuel fs s_block ino off cnt =
      Some (map (fun j => file_byte fs s_block d blocks (off + j)) (indices n), n)).
    { destruct (block_size_range _ (vo_ok _ _ _ _ (od_volume _ _ _ _ _ _ _ Hod))) as (Hbr & Hbm & _).
      destruct Hfit as [Hal|Hsec]; [|by apply (read_inode_small l sl fs s_block d ino inode blocks size fuel off cnt); try lia].
      rewrite (read_inode_spec l sl fs s_block d ino inode blocks size);
        [|done|done|lia|done|done|by apply (sector_of_block _ _ Hbr Hbm)|done|done].
      do 2 f_equal. apply map_indices_ext. intros j Hj. by eapply chunk_byte_aligned. }
    rewrite E. cbn [mbind option_bind]. rewrite Hp, s64_small by lia. unfold released. cbn. by rewrite part_map by lia.
Qed.

(** ** Theorems *)

(** Fact: open of a path that exists takes the least free descriptor, puts the path,
    offset 0 and the flags there and leaves every other descriptor as it was;
    with no free descriptor, or a path that does not exist, it returns -1 and
    changes nothing. *)
Theorem open_least_free `{FileLayer} fdp_arr path fl e :
  layer_exists path = Some e ->
  (e = 0 \/ Forall (fun f => file_path f <> None) fdp_arr -> open fdp_arr path fl = Some (fdp_arr, -1)) /\
  (e <> 0 -> (exists j f, fdp_arr !! j = Some f /\ file_path f = None) ->
   exists i arr, open fdp_arr path fl = Some (arr, Z.of_nat i) /\ (i < length fdp_arr)%nat /\
     (forall j f, (j < i)%nat -> fdp_arr !! j = Some f -> file_path f <> None) /\
     (exists f, fdp_arr !! i = Some f /\ file_path f = None) /\
     arr !! i = Some (Fdp (Some path) 0 fl) /\ forall j, j <> i -> arr !! j = fdp_arr !! j).
Proof.
  intros He. unfold open. rewrite He. cbn [mbind option_bind]. split.
  - intros [->|Hall]; [done|]. apply (free_slot_none _ 0) in Hall. rewrite Hall. by destruct (e =? 0).
  - intros Ne (j & f & Hj & Hf). rewrite (proj2 (Z.eqb_neq e 0) Ne). destruct (free_slot fdp_arr 0) as [i|] eqn:Ei.
    + destruct (free_slot_spec _ _ _ Ei) as (_ & (g & Hg & Hgn) & Hall). rewrite Nat.sub_0_r in Hg.
      pose proof (lookup_lt_Some _ _ _ Hg) as Hlt. eexists i, _. split; [done|]. split; [done|]. split.
      { intros k h Hk Hkh. apply (Hall k h); [lia|]. by rewrite Nat.sub_0_r. }
      split; [by exists g|]. split; [by apply list_lookup_insert_eq|]. intros k Hk. by apply list_lookup_insert_ne.
    + apply free_slot_none in Ei. rewrite list.Forall_forall in Ei. exfalso.
      apply (Ei f); [by eapply list_elem_of_lookup_2|done].
Qed.


(** Fact: The position after a read is one byte short: after open, a read of [a]
    bytes and a read of [b] bytes of the first sector the second one starts
    with the last byte of the first. *)
Theorem read_twice_overlaps `{FileLayer} tail bs p c fdp_arr i a b :
  file_law bs p c -> free_slot fdp_arr 0 = Some i -> tail i = [] -> 0 < a -> 0 < b -> a + b <= Z.min 512 (zlen c) ->
  exists a1 a2 a3, open fdp_arr p O_RDONLY = Some (a1, Z.of_nat i) /\
    read tail a1 (Z.of_nat i) a = Some (a2, file_part c 0 a, a) /\
    read tail a2 (Z.of_nat i) b = Some (a3, file_part c (a - 1) b, b).
Proof.
  intros Hlaw Hi Ht Ha Hb Hab. destruct (free_slot_spec _ _ _ Hi) as (_ & (g & Hg & _) & _). rewrite Nat.sub_0_r in Hg.
  pose proof (lookup_lt_Some _ _ _ Hg) as Hlt. set (a1 := <[i := Fdp (Some p) 0 O_RDONLY]> fdp_arr).
  assert (S1 : slot a1 (Z.of_nat i) = Some (Fdp (Some p) 0 O_RDONLY)).
  { unfold slot. destruct (Z.ltb_spec (Z.of_nat i) 0); [lia|]. rewrite Nat2Z.id. by apply list_lookup_insert_eq. }
  assert (Ht' : tail (Z.to_nat (Z.of_nat i)) = []) by by rewrite Nat2Z.id.
  pose proof (slot_set a1 (Z.of_nat i) _ (Fdp (Some p) (0 + a - 1) O_RDONLY) S1) as S2.
  exists a1. do 2 eexists. split; [by apply (open_step bs p c)|].
  split; [apply (read_step tail bs p c Hlaw _ _ 0 O_RDONLY a a); [done|done|by left|lia|lia|lia|right; rewrite Z.mod_0_l by lia; lia]|].
  replace (a - 1) with (0 + a - 1) by lia. apply (read_step tail bs p c Hlaw _ _ (0 + a - 1) O_RDONLY b b);
    [done|done|by left|lia|lia|lia|]. right. rewrite Z.mod_small by lia. lia.
Qed.

(** Fact: lseek from the end never refuses: the test compares unsigned numbers, so
    that an offset at or behind the start of the file leaves a position near
    2^64. *)
Theorem lseek_end_unchecked `{FileLayer} tail bs p c fdp_arr fd off fl o :
  file_law bs p c -> slot fdp_arr fd = Some (Fdp (Some p) off fl) -> tail (Z.to_nat fd) = [] ->
  zlen c <= o < 2 ^ 62 ->
  lseek tail fdp_arr fd o SEEK_END =
    Some (set_slot fdp_arr fd (Fdp (Some p) (2 ^ 64 + zlen c - o - 1) fl), zlen c - o - 1).
Proof.
  intros Hlaw Hs Ht Ho. pose proof (fl_bound _ _ _ Hlaw). pose proof (zlen_nonneg c). unfold lseek. rewrite Hs.
  cbn [mbind option_bind file_path flags]. unfold path_string. rewrite Ht, app_nil_r, (fl_size _ _ _ Hlaw). cbn [mbind option_bind].
  rewrite (u64_small (zlen c)) by lia. assert (u64 (zlen c - o - 1) = 2 ^ 64 + zlen c - o - 1) as -> by ulia.
  destruct (Z.leb_spec 0 (2 ^ 64 + zlen c - o - 1)); [|lia]. do 2 f_equal. ulia.
Qed.


(** C34: The descriptor table keeps its type and is a set of open descriptors:
    through every sequence of open, close, read, write and lseek, errors and
    repeated closes included, it has 256 entries with 64-bit offsets, open
    returns the least descriptor that is not open (or -1), close takes its
    descriptor out, and the other calls open and close nothing. *)
Theorem descriptors_typed `{FileLayer} tail ops arr rs :
  file_run tail init_fdp_arr ops = Some (arr, rs) -> Forall file_op_ok ops ->
  table_ok arr /\ exists s, opens_run ∅ ops rs s /\ forall i, (i ∈ s) <-> is_open arr i.
Proof. intros E Hops. eapply file_run_opens; [exact E|done|exact init_table_ok|exact init_open]. Qed.

(** ** Witnesses *)

(** A layer with one file. *)
Definition one_file (p c : list Z) : FileLayer := {|
  layer_exists q := Some (if bool_decide (q = p) then 2 else 0);
  layer_read q off cnt :=
    let n := Z.min (zlen c) (off + cnt) - off in Some (if bool_decide (q = p) then (file_part c off n, n) else ([], -1));
  layer_write q off cnt := 0;
  layer_size q := Some (if bool_decide (q = p) then zlen c else -1);
|}.

Lemma one_file_law p c : zlen c < 2 ^ 62 -> @file_law (one_file p c) 1024 p c.
Proof.
  intros Hc. split; cbn; try done; try (by rewrite bool_decide_eq_true_2).
Qed.

Definition demo_path : list Z := [47; 102].
Definition demo_content : list Z := [1; 2; 3; 4; 5; 6].

Lemma open_least_free_witness :
  exists i arr, @open (one_file demo_path demo_content) init_fdp_arr demo_path 0 = Some (arr, Z.of_nat i) /\
    (i < 256)%nat /\ (forall j f, (j < i)%nat -> init_fdp_arr !! j = Some f -> file_path f <> None) /\
    (exists f, init_fdp_arr !! i = Some f /\ file_path f = None) /\
    arr !! i = Some (Fdp (Some demo_path) 0 0) /\ forall j, j <> i -> arr !! j = init_fdp_arr !! j.
Proof.
  apply (@open_least_free (one_file demo_path demo_content) init_fdp_arr demo_path 0 2); [done|done|].
  by exists 0%nat, (Fdp None 0 0).
Defined.


Lemma read_twice_overlaps_witness : let L := one_file demo_path demo_content in
  exists a1 a2 a3, @open L init_fdp_arr demo_path O_RDONLY = Some (a1, 0) /\
    @read L (fun _ => []) a1 0 3 = Some (a2, [1; 2; 3], 3) /\ @read L (fun _ => []) a2 0 2 = Some (a3, [3; 4], 2).
Proof.
  apply (@read_twice_overlaps (one_file demo_path demo_content) (fun _ => []) 1024 demo_path demo_content init_fdp_arr 0 3 2);
    [by apply one_file_law|done|done|lia|lia|done].
Defined.

Lemma lseek_end_unchecked_witness :
  @lseek (one_file demo_path demo_content) (fun _ => []) [Fdp (Some demo_path) 0 0] 0 9 SEEK_END =
    Some ([Fdp (Some demo_path) (2 ^ 64 - 4) 0], -4).
Proof.
  apply (@lseek_end_unchecked (one_file demo_path demo_content) (fun _ => []) 1024 demo_path demo_content [Fdp (Some demo_path) 0 0] 0 0 0 9);
    [by apply one_file_law|done|done|done].
Defined.

(** The ext2 image of Ext2's witnesses with its file marked as a regular one,
    mounted on /m: the file /m/ab. *)
Definition reg_image : mem := mputs demo_image (2048 + 1280) [0; 0x80].
Definition reg_disk : disk := Disk 0 AHCI_SATA 65536 reg_image.
Definition reg_sb : ext2_super_block := parse_super_block (mbytes reg_image 0 104).
Definition reg_inode : ext2_inode := parse_inode (mbytes reg_image 3328 128).
Definition reg_vfs : vfs :=
  match run_ops init_vfs [OpMkdir [47; 109]; OpMount [47; 109] 0 0 0] with Some (v, _) => v | None => init_vfs end.
Definition reg_path : list Z := [47; 109; 47; 97; 98].

Lemma reg_on_disk : on_disk [reg_disk] demo_fs reg_sb reg_disk reg_inode demo_blocks 1.
Proof.
  constructor; [by constructor; vm_compute|apply words_ok; by vm_compute|].
  intros n Hn. assert (n = 0 \/ n = 1) as [->| ->] by lia; vm_compute; done.
Qed.


(** Two opens, a close twice, an open again, a seek behind the end. *)
Lemma descriptors_typed_witness : let L := one_file demo_path demo_content in
  exists arr rs, @file_run L (fun _ => []) init_fdp_arr
      [FOpen demo_path 0; FOpen demo_path 0; FClose 0; FClose 0; FOpen demo_path 0; FRead 1 4; FLseek 1 9 SEEK_SET] = Some (arr, rs) /\
    rs = [Some 0; Some 1; None; Some (-1); Some 0; Some 4; Some (-3)] /\ table_ok arr.
Proof.
  cbv zeta. eexists _, _. split; [vm_compute; reflexivity|]. split; [reflexivity|].
  refine (proj1 (@descriptors_typed (one_file demo_path demo_content) (fun _ => [])
    [FOpen demo_path 0; FOpen demo_path 0; FClose 0; FClose 0; FOpen demo_path 0; FRead 1 4; FLseek 1 9 SEEK_SET] _ _ _ _));
    [vm_compute; reflexivity|by repeat constructor].
Defined.
