(* ===== verification/Elf.v ===== *)
(** * Elf: the program loader (kernel/process/elf.c)

    readelf opens a file, checks the header, reads the first program header and
    the segment it names, and copies the segment to its destination.  Buffers
    are byte lists; [fresh n] is what an allocated block of [n] bytes holds
    before it is filled (zeros, since malloc clears it), and shows where a read
    comes short.  The listing of the header on the screen is left out. *)

From S2P Require Import Prelude Mem Ext2 Files.

(** elf.h: the structures by their offsets. *)
Definition sizeof_Elf64_Ehdr : Z := 64.
Definition sizeof_Elf64_Phdr : nat := 56.
Definition ELFMAG : list Z := [0x7F; 69; 76; 70].
Definition SELFMAG : nat := 4.
Definition EI_CLASS : Z := 4.
Definition ELFCLASS64 : Z := 2.
Definition EI_DATA : Z := 5.
Definition ELFDATA2LSB : Z := 1.
Definition PT_LOAD : Z := 1.

Definition e_phoff (ehdr : list Z) : Z := field ehdr 32 8.
Definition e_phentsize (ehdr : list Z) : Z := field ehdr 54 2.
Definition p_type (phdr : list Z) : Z := field phdr 0 4.
Definition p_offset (phdr : list Z) : Z := field phdr 8 8.
Definition p_filesz (phdr : list Z) : Z := field phdr 32 8.

(** A block after a read put [out] at its front. *)
Definition fill (block out : list Z) : list Z := out ++ drop (length out) block.

(** The checks of readelf_header. *)
Definition header_ok (ehdr : list Z) : bool :=
  bool_decide (take SELFMAG ehdr = ELFMAG) && (nthZ ehdr EI_CLASS =? ELFCLASS64) && (nthZ ehdr EI_DATA =? ELFDATA2LSB).

Section Elf.
Context `{FileLayer} (tail : nat -> list Z) (fresh : Z -> list Z).

Definition readelf_header (fdp_arr : list fdp) (fd : Z) : option (list fdp * option (list Z)) :=
  '(fdp_arr, _) ← lseek tail fdp_arr fd 0 SEEK_SET;
  '(fdp_arr, out, _) ← read tail fdp_arr fd sizeof_Elf64_Ehdr;
  let elf_ehdr := fill (fresh sizeof_Elf64_Ehdr) out in
  Some (fdp_arr, if header_ok elf_ehdr then Some elf_ehdr else None).

(** Fields behind the end of the allocated block are not defined. *)
Definition readelf_ps (elf_ehdr : list Z) (fdp_arr : list fdp) (fd : Z) : option (list fdp * option (list Z)) :=
  '(fdp_arr, _) ← lseek tail fdp_arr fd (e_phoff elf_ehdr) SEEK_SET;
  '(fdp_arr, out, _) ← read tail fdp_arr fd (e_phentsize elf_ehdr);
  let elf_phdr := fill (fresh (e_phentsize elf_ehdr)) out in
  if (length elf_phdr <? sizeof_Elf64_Phdr)%nat then None
  else if negb (p_type elf_phdr =? PT_LOAD) then Some (fdp_arr, None)
  else
    '(fdp_arr, _) ← lseek tail fdp_arr fd (p_offset elf_phdr) SEEK_SET;
    '(fdp_arr, out, _) ← read tail fdp_arr fd (p_filesz elf_phdr);
    let block := drop (length elf_phdr) (fresh (u64 (e_phentsize elf_ehdr + p_filesz elf_phdr))) in
    Some (fdp_arr, Some (elf_phdr ++ fill block out)).

(** The table and what is copied to the destination. *)
Definition readelf (fdp_arr : list fdp) (path : list Z) : option (list fdp * option (list Z)) :=
  '(fdp_arr, fd) ← open fdp_arr path O_RDONLY;
  '(fdp_arr, elf_ehdr) ← readelf_header fdp_arr fd;
  match elf_ehdr with
  | None => Some (fdp_arr, None)
  | Some elf_ehdr =>
      '(fdp_arr, elf_ps) ← readelf_ps elf_ehdr fdp_arr fd;
      match elf_ps with
      | None => Some (fdp_arr, None)
      | Some elf_ps =>
          let dst := take (Z.to_nat (p_filesz elf_ps)) (drop (Z.to_nat (e_phentsize elf_ehdr)) elf_ps) in
          '(fdp_arr, _) ← close fdp_arr fd;
          Some (fdp_arr, Some dst)
      end
  end.

End Elf.

(** ** Lemmas *)

Lemma field_part c off n o k : 0 <= off -> (o + k <= Z.to_nat n)%nat ->
  field (file_part c off n) o k = field (drop (Z.to_nat off) c) o k.
Proof.
  intros Ho Hk. unfold field, file_part. f_equal. rewrite skipn_firstn_comm, take_take. by rewrite Nat.min_l by lia.
Qed.

Lemma fill_full block out : (length block <= length out)%nat -> fill block out = out.
Proof. intros Hl. unfold fill. by rewrite drop_ge, app_nil_r. Qed.

Section Steps.
Context `{FileLayer} (tail : nat -> list Z) (bs : Z) (p c : list Z) (Hlaw : file_law bs p c) (i : nat) (Ht : tail i = []).

(** The table with descriptor [i] open on the file. *)
Definition opened (arr0 arr : list fdp) : Prop :=
  exists o, arr = <[i := Fdp (Some p) o O_RDONLY]> arr0 /\ (i < length arr0)%nat.

(** A seek and a read that stay inside the file. *)
Lemma seek_read arr0 arr off n : opened arr0 arr -> 0 <= off -> 0 < n < 2 ^ 62 -> off + n <= zlen c -> fits bs off n ->
  exists arr1 arr2, lseek tail arr (Z.of_nat i) off SEEK_SET = Some (arr1, off) /\
    read tail arr1 (Z.of_nat i) n = Some (arr2, file_part c off n, n) /\ opened arr0 arr2.
Proof.
  intros (o & -> & Hi) Ho Hn Hle Hfit. set (arr := <[i := _]> arr0).
  assert (S0 : slot arr (Z.of_nat i) = Some (Fdp (Some p) o O_RDONLY)).
  { unfold slot. destruct (Z.ltb_spec (Z.of_nat i) 0); [lia|]. rewrite Nat2Z.id. by apply list_lookup_insert_eq. }
  assert (Ht' : tail (Z.to_nat (Z.of_nat i)) = []) by by rewrite Nat2Z.id.
  pose proof (slot_set arr (Z.of_nat i) _ (Fdp (Some p) off O_RDONLY) S0) as S1.
  eexists _, _. split; [apply (lseek_set_step tail bs p c Hlaw _ _ o O_RDONLY off S0 Ht'); lia|].
  split; [apply (read_step tail bs p c Hlaw _ _ off O_RDONLY n n S1 Ht'); [by left|lia|lia|lia|done]|].
  unfold set_slot, arr. rewrite Nat2Z.id, !list_insert_insert_eq. by eexists.
Qed.

End Steps.

(** What a loadable file looks like. *)
Record loadable (bs : Z) (c : list Z) (off sz : Z) : Prop := {
  ld_bs : 0 < bs;
  ld_size : 64 <= zlen c;
  ld_header : header_ok (take 64 c) = true;
  ld_phent : 56 <= e_phentsize c;
  ld_phdr : e_phoff c + e_phentsize c <= zlen c;
  ld_phfit : fits bs (e_phoff c) (e_phentsize c);
  ld_type : p_type (drop (Z.to_nat (e_phoff c)) c) = PT_LOAD;
  ld_off : p_offset (drop (Z.to_nat (e_phoff c)) c) = off;
  ld_filesz : p_filesz (drop (Z.to_nat (e_phoff c)) c) = sz;
  ld_bytes : Forall (fun b => 0 <= b < 256) c;
  ld_sz : 0 < sz < 2 ^ 62;
  ld_seg : off + sz <= zlen c;
  ld_fit : fits bs off sz;
}.

Lemma le_list_range l : Forall (fun b => 0 <= b < 256) l -> 0 <= le_list l < 256 ^ zlen l.
Proof.
  intros Hl. induction Hl as [|b l Hb _ IH]; [done|]. cbn [le_list]. rewrite zlen_cons, Z.pow_add_r by (done || apply zlen_nonneg). lia.
Qed.

Lemma field_range c o k : Forall (fun b => 0 <= b < 256) c -> 0 <= field c o k < 256 ^ Z.of_nat k.
Proof.
  intros Hc. unfold field. pose proof (le_list_range (take k (drop o c)) ltac:(by apply list.Forall_take, list.Forall_drop)) as R.
  assert (zlen (take k (drop o c)) <= Z.of_nat k) by (unfold zlen; rewrite length_take; lia).
  pose proof (Z.pow_le_mono_r 256 (zlen (take k (drop o c))) (Z.of_nat k)). lia.
Qed.

Section Loads.
Context `{FileLayer} (tail : nat -> list Z) (fresh : Z -> list Z) (bs : Z) (p c : list Z) (Hlaw : file_law bs p c).
Context (i : nat) (Ht : tail i = []) (Hfresh : forall n, 0 <= n -> zlen (fresh n) = n).

Lemma fill_read off n : 0 <= off -> 0 <= n -> off + n <= zlen c -> fill (fresh n) (file_part c off n) = file_part c off n.
Proof.
  intros Ho Hn Hle. apply fill_full. pose proof (zlen_part c off n Ho Hn Hle). specialize (Hfresh n Hn). unfold zlen in *. lia.
Qed.

(** The header of a file of at least 64 bytes. *)
Lemma header_step arr0 arr : opened p i arr0 arr -> 0 < bs -> 64 <= zlen c ->
  exists arr', opened p i arr0 arr' /\
    readelf_header tail fresh arr (Z.of_nat i) = Some (arr', if header_ok (take 64 c) then Some (file_part c 0 64) else None).
Proof.
  intros Ho Hbs Hc. destruct (seek_read tail bs p c Hlaw i Ht arr0 arr 0 64 Ho) as (a1 & a2 & E1 & E2 & O2); [lia|lia|lia|by left|].
  exists a2. split; [done|]. unfold readelf_header, sizeof_Elf64_Ehdr. rewrite E1. cbn [mbind option_bind]. rewrite E2.
  cbn [mbind option_bind]. rewrite fill_read by lia. done.
Qed.

Lemma ps_step arr0 arr off sz : opened p i arr0 arr -> loadable bs c off sz ->
  exists arr', opened p i arr0 arr' /\
    readelf_ps tail fresh (file_part c 0 64) arr (Z.of_nat i) =
      Some (arr', Some (file_part c (e_phoff c) (e_phentsize c) ++ file_part c off sz)).
Proof.
  intros Ho [Hbs Hsize Hh Hpe Hpd Hpf Hty Hoff Hsz Hby Hszr Hseg Hfit].
  assert (Eo : e_phoff (file_part c 0 64) = e_phoff c) by (unfold e_phoff; by rewrite field_part by (cbn; lia)).
  assert (En : e_phentsize (file_part c 0 64) = e_phentsize c) by (unfold e_phentsize; by rewrite field_part by (cbn; lia)).
  pose proof (field_range c 32 8 Hby : 0 <= e_phoff c < _) as R1. pose proof (field_range c 54 2 Hby : 0 <= e_phentsize c < 65536) as R2.
  pose proof (field_range (drop (Z.to_nat (e_phoff c)) c) 8 8 ltac:(by apply list.Forall_drop)) as R3.
  fold (p_offset (drop (Z.to_nat (e_phoff c)) c)) in R3. rewrite Hoff in R3.
  destruct (seek_read tail bs p c Hlaw i Ht arr0 arr (e_phoff c) (e_phentsize c) Ho) as (a1 & a2 & E1 & E2 & O2); [lia|lia|lia|done|].
  destruct (seek_read tail bs p c Hlaw i Ht arr0 a2 off sz O2) as (a3 & a4 & E3 & E4 & O4); [lia|lia|lia|done|].
  exists a4. split; [done|]. unfold readelf_ps. rewrite Eo, En, E1. cbn [mbind option_bind]. rewrite E2. cbn [mbind option_bind].
  rewrite fill_read by lia. set (phdr := file_part c (e_phoff c) (e_phentsize c)).
  pose proof (zlen_part c (e_phoff c) (e_phentsize c) ltac:(lia) ltac:(lia) ltac:(lia)) as Lp. fold phdr in Lp.
  destruct (Nat.ltb_spec (length phdr) sizeof_Elf64_Phdr) as [Hlt|_]; [unfold sizeof_Elf64_Phdr, zlen in *; lia|].
  assert (F : forall o k, (o + k <= 56)%nat -> field phdr o k = field (drop (Z.to_nat (e_phoff c)) c) o k)
    by (intros o k Hok; apply field_part; lia).
  unfold p_type, p_offset, p_filesz in *. rewrite !F by lia. rewrite Hty, Hoff, Hsz. cbn [negb Z.eqb Pos.eqb PT_LOAD].
  rewrite E3. cbn [mbind option_bind]. rewrite E4. cbn [mbind option_bind]. do 4 f_equal. apply fill_full.
  rewrite length_drop. pose proof (zlen_part c off sz ltac:(lia) ltac:(lia) ltac:(lia)) as Ls.
  specialize (Hfresh (u64 (e_phentsize c + sz)) ltac:(rewrite u64_small; lia)). rewrite u64_small in * by lia. unfold zlen in *. lia.
Qed.

End Loads.

(** The whole of readelf on a good file. *)
Lemma readelf_spec `{FileLayer} tail fresh bs p c fdp_arr i off sz :
  file_law bs p c -> loadable bs c off sz -> free_slot fdp_arr 0 = Some i -> tail i = [] ->
  (forall n, 0 <= n -> zlen (fresh n) = n) ->
  exists arr, readelf tail fresh fdp_arr p = Some (arr, Some (file_part c off sz)) /\
    free_slot arr 0 = Some i /\ forall j, j <> i -> arr !! j = fdp_arr !! j.
Proof.
  intros Hlaw Hload Hi Ht Hfresh. destruct (free_slot_spec _ _ _ Hi) as (_ & (g & Hg & _) & _). rewrite Nat.sub_0_r in Hg.
  pose proof (lookup_lt_Some _ _ _ Hg) as Hlt. pose proof Hload as [Hbs Hsize Hh Hpe Hpd Hpf Hty Hoff Hsz Hby Hszr Hseg Hfit].
  unfold readelf. rewrite (open_step bs p c Hlaw fdp_arr i O_RDONLY Hi). cbn [mbind option_bind].
  assert (O0 : opened p i fdp_arr (<[i := Fdp (Some p) 0 O_RDONLY]> fdp_arr)) by (by exists 0).
  destruct (header_step tail fresh bs p c Hlaw i Ht Hfresh fdp_arr _ O0 Hbs Hsize) as (a1 & O1 & E1). rewrite E1, Hh. cbn [mbind option_bind].
  destruct (ps_step tail fresh bs p c Hlaw i Ht Hfresh fdp_arr a1 off sz O1 Hload) as (a2 & O2 & E2). rewrite E2. cbn [mbind option_bind].
  destruct O2 as (o & -> & _).
  assert (En : e_phentsize (file_part c 0 64) = e_phentsize c) by (unfold e_phentsize; by rewrite field_part by (cbn; lia)).
  pose proof (field_range c 32 8 Hby : 0 <= e_phoff c < _) as R1.
  pose proof (field_range (drop (Z.to_nat (e_phoff c)) c) 8 8 ltac:(by apply list.Forall_drop)) as R3.
  fold (p_offset (drop (Z.to_nat (e_phoff c)) c)) in R3. rewrite Hoff in R3.
  set (phdr := file_part c (e_phoff c) (e_phentsize c)).
  pose proof (zlen_part c (e_phoff c) (e_phentsize c) ltac:(lia) ltac:(lia) ltac:(lia)) as Lp. fold phdr in Lp.
  assert (Ef : p_filesz (phdr ++ file_part c off sz) = sz).
  { unfold p_filesz, field. unfold zlen in Lp. rewrite drop_app_le, take_app_le by (rewrite ?length_drop; lia).
    fold (field phdr 32 8). unfold phdr. rewrite field_part by lia. done. }
  rewrite Ef, En. unfold close, slot. destruct (Z.ltb_spec (Z.of_nat i) 0); [lia|]. rewrite Nat2Z.id, list_lookup_insert_eq by done.
  cbn [mbind option_bind file_path current_offset flags]. unfold set_slot. rewrite Nat2Z.id, list_insert_insert_eq.
  pose proof (zlen_part c off sz ltac:(lia) ltac:(lia) ltac:(lia)) as Ls.
  assert (Ed : take (Z.to_nat sz) (drop (Z.to_nat (e_phentsize c)) (phdr ++ file_part c off sz)) = file_part c off sz).
  { rewrite drop_app_length' by (unfold zlen in *; lia). apply take_ge. unfold zlen in *. lia. }
  rewrite Ed. eexists. split; [done|]. split; [by apply free_slot_put|]. intros j Hj. by rewrite list_lookup_insert_ne.
Qed.

(** ** Theorems *)

(** C20: readelf loads a program: for a file with a valid 64-bit little-endian
    header whose first program header is of type PT_LOAD and describes a non-
    empty segment inside the file, where program header and segment each start
    on a block boundary of the file system or lie inside one sector (the reads
    of the ext2 driver return other bytes for requests that cross: ext2.c, line
    164), and with a descriptor free whose path copy has a zero behind it in
    memory, it returns exactly the bytes of the segment (p_filesz bytes of the
    file from p_offset on), and the descriptor it used is free again and every
    other one as before. *)
Theorem readelf_loads `{FileLayer} tail fresh bs p c fdp_arr i off sz :
  file_law bs p c -> loadable bs c off sz -> free_slot fdp_arr 0 = Some i -> tail i = [] ->
  (forall n, 0 <= n -> zlen (fresh n) = n) ->
  exists arr, readelf tail fresh fdp_arr p = Some (arr, Some (file_part c off sz)) /\
    free_slot arr 0 = Some i /\ forall j, j <> i -> arr !! j = fdp_arr !! j.
Proof. apply readelf_spec. Qed.

(** Fact: A file that is refused is never closed: when the header check fails,
    readelf returns NULL with the descriptor still open, so that every failed
    load uses one up. *)
Theorem readelf_leaks_descriptor `{FileLayer} tail fresh bs p c fdp_arr i :
  file_law bs p c -> 0 < bs -> 64 <= zlen c -> header_ok (take 64 c) = false -> free_slot fdp_arr 0 = Some i -> tail i = [] ->
  (forall n, 0 <= n -> zlen (fresh n) = n) ->
  exists arr f, readelf tail fresh fdp_arr p = Some (arr, None) /\ arr !! i = Some f /\ file_path f = Some p.
Proof.
  intros Hlaw Hbs Hc Hh Hi Ht Hfresh. destruct (free_slot_spec _ _ _ Hi) as (_ & (g & Hg & _) & _). rewrite Nat.sub_0_r in Hg.
  pose proof (lookup_lt_Some _ _ _ Hg) as Hlt. unfold readelf. rewrite (open_step bs p c Hlaw fdp_arr i O_RDONLY Hi). cbn [mbind option_bind].
  assert (O0 : opened p i fdp_arr (<[i := Fdp (Some p) 0 O_RDONLY]> fdp_arr)) by (by exists 0).
  destruct (header_step tail fresh bs p c Hlaw i Ht Hfresh fdp_arr _ O0 Hbs Hc) as (a1 & O1 & E1). rewrite E1, Hh. cbn [mbind option_bind].
  destruct O1 as (o & -> & _). eexists _, _. split; [done|]. split; [by apply list_lookup_insert_eq|done].
Qed.

(** ** Witnesses *)

(** A header, one program header at 64 and a segment of three bytes at 120. *)
Definition demo_elf : list Z :=
  ELFMAG ++ [2; 1] ++ repeat 0 26 ++ le_bytes 8 64 ++ repeat 0 14 ++ le_bytes 2 56 ++ repeat 0 8 ++
  le_bytes 4 1 ++ repeat 0 4 ++ le_bytes 8 120 ++ repeat 0 16 ++ le_bytes 8 3 ++ repeat 0 16 ++ [0x90; 0x90; 0xC3].

Lemma readelf_loads_witness : exists arr,
  @readelf (one_file demo_path demo_elf) (fun _ => []) (fun n => repeat 7 (Z.to_nat n)) init_fdp_arr demo_path =
    Some (arr, Some [0x90; 0x90; 0xC3]) /\
  free_slot arr 0 = Some 0%nat /\ forall j, j <> 0%nat -> arr !! j = init_fdp_arr !! j.
Proof.
  apply (@readelf_loads (one_file demo_path demo_elf) (fun _ => []) (fun n => repeat 7 (Z.to_nat n)) 1024 demo_path demo_elf
    init_fdp_arr 0 120 3); [by apply one_file_law| |done|done|].
  - split; try (by vm_compute); try lia; try (right; by vm_compute). apply List.Forall_forall. intros b Hb. vm_compute in Hb. lia.
  - intros n Hn. unfold zlen. rewrite repeat_length. lia.
Defined.

Lemma readelf_leaks_descriptor_witness : exists arr f,
  @readelf (one_file demo_path (repeat 0 64)) (fun _ => []) (fun n => repeat 7 (Z.to_nat n)) init_fdp_arr demo_path =
    Some (arr, None) /\ arr !! 0%nat = Some f /\ file_path f = Some demo_path.
Proof.
  apply (@readelf_leaks_descriptor (one_file demo_path (repeat 0 64)) (fun _ => []) (fun n => repeat 7 (Z.to_nat n)) 1024 demo_path
    (repeat 0 64) init_fdp_arr 0); [by apply one_file_law|lia|done|done|done|done|].
  intros n Hn. unfold zlen. rewrite repeat_length. lia.
Defined.
