(* ===== verification/Shell.v ===== *)
(** * Shell: user/shell (shell.c, fs.c, print.c, extkey.c, misc.c, net.c)

    The line shell: a command line becomes an argument vector in a ring of
    remembered commands, is looked up by name and run; the cursor keys recall
    remembered commands; cd, ls and cat work on paths relative to the working
    directory.  Strings are lists of characters.  An argument is a block of the
    heap, 32 bytes that malloc has cleared; the arrays of pointers and the
    buffers strjoin appends to are cleared as well.  The file operations are
    those of Files, the listing of a directory is an argument, and what a
    command does outside the shell is a list of [output]. *)

From S2P Require Import Prelude Mem CString CStdlib Path Printf Stdio Files.

Definition MAX_CMDS_CACHE : Z := 0x10.
Definition MAX_CMDS : Z := 0x100.
Definition ARG_MAX : nat := 0x10.
Definition MAX_PATH_SIZE : Z := 0x100.
Definition ARGV_DELIM : list Z := [32].
Definition PROMPT : list Z := [62; 32].
Definition SHELL_NAME : list Z := [98; 105; 111; 115; 104; 101; 108; 108].

(** A slot of the cache holds the blocks of the arguments ever stored there;
    [cargc] says how many belong to the command.  [curr_wd] is the string in the
    array of [MAX_PATH_SIZE] characters. *)
Record shell := ShellState {
  cache : list (list (list Z));
  cargc : list Z;
  ci : Z;
  tci : Z;
  curr_wd : list Z;
  alive : bool;
  active : bool;
}.

Definition shell_start : shell := ShellState (replicate 16 []) (replicate 16 0) 0 0 [PATH_SEPERATOR] true true.

Definition set_tci (t : shell) (i : Z) : shell := ShellState (cache t) (cargc t) (ci t) i (curr_wd t) (alive t) (active t).
Definition set_active (t : shell) (b : bool) : shell := ShellState (cache t) (cargc t) (ci t) (tci t) (curr_wd t) (alive t) b.
Definition set_wd (t : shell) (p : list Z) : shell := ShellState (cache t) (cargc t) (ci t) (tci t) p (alive t) (active t).
Definition set_alive (t : shell) (b : bool) : shell := ShellState (cache t) (cargc t) (ci t) (tci t) (curr_wd t) b (active t).

(** The string in a block. *)
Fixpoint cstring (b : list Z) : list Z :=
  match b with [] => [] | c :: b => if c =? 0 then [] else c :: cstring b end.

(** ** shell.c *)

(** The copy of a token into its block.  The last store is one byte behind the
    place of the terminator. *)
Definition store_arg (ptr token : list Z) : list Z :=
  let len := Nat.min (length token) (ARG_MAX - 1) in
  let old := length (cstring ptr) in
  let ptr := replicate old 0 ++ drop old ptr in
  let ptr := take len token ++ drop len ptr in
  <[S len := 0]> ptr.

(** The tokens of a line: at most 16. *)
Definition line_tokens (line : list Z) : list (list Z) := take ARG_MAX (tokens ARGV_DELIM [] (squeeze false line)).

(** What malloc returns for an argument: it clears the whole block, and the
    smallest block has 32 bytes. *)
Definition fresh_block : list Z := replicate 32 0.

Fixpoint store_args (slot : list (list Z)) (toks : list (list Z)) : list (list Z) :=
  match toks with
  | [] => slot
  | token :: toks =>
      match slot with
      | [] => store_arg fresh_block token :: store_args [] toks
      | ptr :: slot => store_arg ptr token :: store_args slot toks
      end
  end.

(** [line] is what fgets left in the buffer; the result is the index used. *)
Definition get_cmd (t : shell) (line : list Z) : shell * Z :=
  let toks := line_tokens line in
  let i := Z.to_nat (ci t) in
  let t := ShellState (cache t) (<[i := 0]> (cargc t)) (ci t) (tci t) (curr_wd t) (alive t) (active t) in
  match toks with
  | [] => (t, ci t)
  | _ =>
      let next := (ci t + 1) mod MAX_CMDS_CACHE in
      (ShellState (<[i := store_args (default [] (cache t !! i)) toks]> (cache t)) (<[i := zlen toks]> (cargc t)) next next
         (curr_wd t) (alive t) (active t), ci t)
  end.

(** The strings the slot points to, and the command line it remembers. *)
Definition slot_args (t : shell) (i : Z) : list (list Z) := map cstring (default [] (cache t !! Z.to_nat i)).

Definition remembered (t : shell) (i : Z) : list (list Z) := take (Z.to_nat (nthZ (cargc t) i)) (slot_args t i).

(** The text put into the input, if any. *)
Definition traverse_cache (t : shell) (offset : Z) : shell * option (list Z) :=
  let i := tci t + offset in
  let i := if i <? 0 then MAX_CMDS_CACHE + i else i in
  let i := Z.rem i MAX_CMDS_CACHE in
  if (i =? ci t) || bool_decide (default [] (cache t !! Z.to_nat i) = []) then (t, None)
  else (set_tci t i, Some (join ARGV_DELIM (remembered t i))).

(** extkey.c *)
Definition cuph (t : shell) : shell * option (list Z) := if active t then traverse_cache t (-1) else (t, None).
Definition cdownh (t : shell) : shell * option (list Z) := if active t then traverse_cache t 1 else (t, None).

(** ** The commands *)

Inductive shcmd :=
  | shcmd_echo | shcmd_printf | shcmd_pwd | shcmd_shutdown | shcmd_exit | shcmd_bc | shcmd_clear | shcmd_nslookup
  | shcmd_cd | shcmd_ls | shcmd_cat | shcmd_notfound.

#[export] Instance shcmd_eq : EqDecision shcmd.
Proof. solve_decision. Defined.

Definition shcmd_str : list (list Z) :=
  [[101; 99; 104; 111]; [112; 114; 105; 110; 116; 102]; [112; 119; 100]; [115; 104; 117; 116; 100; 111; 119; 110];
   [101; 120; 105; 116]; [98; 99]; [99; 108; 101; 97; 114]; [110; 115; 108; 111; 111; 107; 117; 112]; [99; 100]; [108; 115];
   [99; 97; 116]].

Definition shcmd_table : list shcmd :=
  [shcmd_echo; shcmd_printf; shcmd_pwd; shcmd_shutdown; shcmd_exit; shcmd_bc; shcmd_clear; shcmd_nslookup; shcmd_cd; shcmd_ls; shcmd_cat].

(** The search through the two tables; entries without a function are skipped. *)
Fixpoint find_cmd (table : list shcmd) (strs : list (list Z)) (cmd : list Z) : shcmd :=
  match table, strs with
  | c :: table, s :: strs => if bool_decide (cmd = s) then c else find_cmd table strs cmd
  | _, _ => shcmd_notfound
  end.

(** ** fs.c *)

(** The shell's own preprocess_path is the routine of the VFS. *)
Definition shell_preprocess_path (s : list Z) : option (list Z) := preprocess_path s.

(** The path an argument names, from the working directory. *)
Definition resolve (wd arg : list Z) : option (list Z) :=
  if default 0 (head arg) =? PATH_SEPERATOR then shell_preprocess_path arg
  else shell_preprocess_path (wd ++ [PATH_SEPERATOR] ++ arg).

(** What a command does: it prints a text or one of its messages, starts the
    calculator, clears the screen, asks for a name, ends the machine. *)
Inductive output :=
  | Text (s : list Z) | NoPathGiven | NoSuchPath | IsDirectory | NotDirectory | InvalidConversion (s : list Z)
  | NotNumeric (s : list Z) | Usage (s : list Z) | Calculator | ClearScreen | DnsRequest (s : list Z) | PowerOff.

Definition PERCENT_S : list Z := [37; 115].
Definition PERCENT_D : list Z := [37; 100].
Definition PERCENT_X : list Z := [37; 120].

(** strjoin of the arguments from [offset] on.  It always copies the one before
    the end of the array, also when that lies before [offset]. *)
Definition joined (delim : list Z) (offset argc : Z) (argv : list (list Z)) : list Z :=
  if offset <? argc then join delim (take (Z.to_nat (argc - offset)) (drop (Z.to_nat offset) argv))
  else default [] (argv !! Z.to_nat (argc - 1)).

Section Commands.
Context `{FileLayer} (tail : nat -> list Z) (list_dir : list Z -> option (list (list Z))).

(** [argv] is the whole array; behind [argc] it still holds what earlier
    commands stored in the slot. *)
Definition cmd_pwd (t : shell) (argc : Z) : list output :=
  Text (curr_wd t) :: (if argc =? 0 then [] else [Text [10]]).

(** cd: without an argument the code goes on with argv[1].  The path is copied
    into the array without a look at its length: [None] when it and its
    terminator do not fit, and the copy goes on behind the array. *)
Definition cmd_cd (t : shell) (argc : Z) (argv : list (list Z)) : option (shell * list output) :=
  let msg := if argc <=? 1 then [NoPathGiven] else [] in
  arg ← argv !! 1%nat;
  p ← resolve (curr_wd t) arg;
  e ← layer_exists p;
  if e =? 1 then if zlen p + 1 <=? MAX_PATH_SIZE then Some (set_wd t p, msg) else None
  else if e =? 2 then Some (t, msg ++ [NotDirectory])
  else Some (t, msg ++ [NoSuchPath]).

Definition cmd_ls (t : shell) (argc : Z) (argv : list (list Z)) : option (list output) :=
  p ← (if argc <=? 1 then shell_preprocess_path (curr_wd t) else arg ← argv !! 1%nat; resolve (curr_wd t) arg);
  e ← layer_exists p;
  if e =? 1 then l ← list_dir p; Some (map (fun s => Text (s ++ [10])) l)
  else if e =? 0 then Some [NoSuchPath]
  else Some [NotDirectory].

(** cat: without an argument the code goes on with a null path.  The text is
    what read put into the buffer; printf goes on to the next zero byte. *)
Definition cmd_cat (t : shell) (argc : Z) (argv : list (list Z)) (fdp_arr : list fdp) : option (list fdp * list output) :=
  arg ← (if argc <=? 1 then None else argv !! 1%nat);
  p ← resolve (curr_wd t) arg;
  e ← layer_exists p;
  if e =? 2 then
    '(fdp_arr, fd) ← open fdp_arr p O_RDONLY;
    '(fdp_arr, size) ← lseek tail fdp_arr fd 0 SEEK_END;
    '(fdp_arr, _) ← lseek tail fdp_arr fd 0 SEEK_SET;
    '(fdp_arr, buff, _) ← read tail fdp_arr fd size;
    '(fdp_arr, _) ← close fdp_arr fd;
    Some (fdp_arr, [Text buff])
  else if e =? 0 then Some (fdp_arr, [NoSuchPath])
  else Some (fdp_arr, [IsDirectory]).

(** ** print.c, misc.c and net.c *)

Definition cmd_echo (argc : Z) (argv : list (list Z)) : list output :=
  if argc =? 0 then []
  else if argc =? 1 then [Text [10]]
  else match argv !! 1%nat with
       | None | Some [] => [Text [10]]
       | _ => [Text (joined ARGV_DELIM 1 argc argv ++ [10])]
       end.

(** printf: the number of arguments is not looked at. *)
Definition cmd_printf (argc : Z) (argv : list (list Z)) : option (list output) :=
  match argv !! 1%nat with
  | None => Some []
  | Some format =>
      if bool_decide (format = PERCENT_S) then
        match argv !! 2%nat with
        | None | Some [] => Some []
        | _ => Some [Text (joined [] 2 argc argv); Text [10]]
        end
      else if negb (bool_decide (format = PERCENT_D)) && negb (bool_decide (format = PERCENT_X)) then
        Some [if default 0 (head format) =? 37 then InvalidConversion format else Text (format ++ [10])]
      else match argv !! 2%nat with
           | None => Some [Text [48; 10]]
           | Some s =>
               let s := strip s in
               if negb (forallb isdigit s) then Some [NotNumeric s]
               else if 2 ^ 63 <=? dec_value s then None
               else txt ← expand format [Num (dec_value s)]; Some [Text txt; Text [10]]
           end
  end.

Definition cmd_notfound (argv : list (list Z)) : option (list output) :=
  cmd ← head argv;
  Some [Text (SHELL_NAME ++ [58; 32] ++ cmd ++ [58; 32; 99; 111; 109; 109; 97; 110; 100; 32; 110; 111; 116; 32; 102; 111; 117; 110; 100; 10])].

Definition cmd_nslookup (argc : Z) (argv : list (list Z)) : option (list output) :=
  if argc <? 2 then s ← head argv; Some [Usage s] else s ← argv !! 1%nat; Some [DnsRequest s].

(** ** Running a command *)

Definition run_cmd (c : shcmd) (t : shell) (fds : list fdp) (argc : Z) (argv : list (list Z)) : option (shell * list fdp * list output) :=
  match c with
  | shcmd_echo => Some (t, fds, cmd_echo argc argv)
  | shcmd_printf => o ← cmd_printf argc argv; Some (t, fds, o)
  | shcmd_pwd => Some (t, fds, cmd_pwd t argc)
  | shcmd_shutdown => Some (t, fds, [PowerOff])
  | shcmd_exit => Some (set_alive t false, fds, [])
  | shcmd_bc => Some (t, fds, [Calculator])
  | shcmd_clear => Some (t, fds, [ClearScreen])
  | shcmd_nslookup => o ← cmd_nslookup argc argv; Some (t, fds, o)
  | shcmd_cd => '(t, o) ← cmd_cd t argc argv; Some (t, fds, o)
  | shcmd_ls => o ← cmd_ls t argc argv; Some (t, fds, o)
  | shcmd_cat => '(fds, o) ← cmd_cat t argc argv fds; Some (t, fds, o)
  | shcmd_notfound => o ← cmd_notfound argv; Some (t, fds, o)
  end.

Definition parse_cmd (t : shell) (fds : list fdp) (argc : Z) (argv : list (list Z)) : option (shell * list fdp * list output) :=
  if argc =? 0 then Some (t, fds, [])
  else
    cmd ← head argv;
    '(t, fds, o) ← run_cmd (find_cmd shcmd_table shcmd_str cmd) (set_active t false) fds argc argv;
    Some (set_active t true, fds, o).

Definition print_prompt (t : shell) : list output := cmd_pwd t 0 ++ [Text PROMPT].

(** The loop of shell_init, on the lines that are typed. *)
Fixpoint shell_loop (t : shell) (fds : list fdp) (lines : list (list Z)) : option (shell * list fdp * list output) :=
  match lines with
  | [] => Some (t, fds, [])
  | line :: lines =>
      if negb (alive t) then Some (t, fds, [])
      else
        let prompt := print_prompt t in
        let '(t, i) := get_cmd t line in
        '(t, fds, o) ← parse_cmd t fds (nthZ (cargc t) i) (slot_args t i);
        '(t, fds, os) ← shell_loop t fds lines;
        Some (t, fds, prompt ++ o ++ os)
  end.

End Commands.

(** ** Lemmas: the arguments *)

(** A block with the string [s], cleared behind it. *)
Definition padded (s : list Z) : list Z := s ++ replicate (32 - length s) 0.

Definition typed (s : list Z) : Prop := Forall (fun c => c <> 0) s.

Definition word_ok (s : list Z) : Prop := typed s /\ (length s <= 15)%nat.

(** The argument vector of a line. *)
Definition arguments (line : list Z) : list (list Z) := map (take 15) (line_tokens line).

Lemma cstring_pad s k : typed s -> cstring (s ++ replicate k 0) = s.
Proof.
  induction 1 as [|c s Hc _ IH]; cbn [app cstring]; [by destruct k|]. by rewrite (proj2 (Z.eqb_neq c 0) Hc), IH.
Qed.

Lemma typed_take k s : typed s -> typed (take k s).
Proof. apply list.Forall_take. Qed.

Lemma word_ok_take s : typed s -> word_ok (take 15 s).
Proof. intros. split; [by apply typed_take|]. rewrite length_take. lia. Qed.

Lemma drop_zeros (j : nat) : drop j (replicate 32 0) = replicate (32 - j) 0.
Proof. apply drop_replicate. Qed.

(** A block that is cleared behind its string stays so. *)
Lemma store_padded s token : word_ok s -> typed token -> store_arg (padded s) token = padded (take 15 token).
Proof.
  intros [Ht Hl] Htok. unfold store_arg, padded at 1 2 3, ARG_MAX. rewrite cstring_pad by done. rewrite drop_app_length.
  rewrite <- replicate_add. replace (length s + (32 - length s))%nat with 32%nat by lia. rewrite drop_zeros.
  assert (E : take (Nat.min (length token) (16 - 1)) token = take 15 token).
  { destruct (Nat.le_gt_cases (length token) 15); [rewrite Nat.min_l, !take_ge by lia; done|by rewrite Nat.min_r by lia]. }
  rewrite E. assert (El : length (take 15 token) = Nat.min (length token) (16 - 1)) by (rewrite length_take; lia).
  unfold padded. rewrite El. set (n := Nat.min _ _) in *.
  apply list_eq. intros i. destruct (Nat.eq_dec i (S n)) as [->|Ni]; [|by rewrite list_lookup_insert_ne by done].
  destruct (Nat.lt_ge_cases (S n) 32) as [H|H].
  - rewrite list_lookup_insert_eq by (rewrite length_app, length_replicate; lia).
    rewrite lookup_app_r, El by lia. symmetry. apply lookup_replicate_2. lia.
  - rewrite !lookup_ge_None_2; [done|..]; rewrite ?length_insert, length_app, length_replicate; lia.
Qed.

Lemma store_args_spec ss toks : Forall word_ok ss -> Forall typed toks ->
  store_args (map padded ss) toks = map padded (map (take 15) toks ++ drop (length toks) ss).
Proof.
  intros Hs Ht. revert ss Hs. induction Ht as [|token toks Htok _ IH]; intros ss Hs; [done|].
  destruct Hs as [|s ss H Hs]; cbn [map store_args length drop app].
  - change fresh_block with (padded []) at 1. rewrite store_padded by (done || by split; [constructor|cbn; lia]).
    f_equal. pose proof (IH [] (list.Forall_nil_2 _)) as E. cbn [map] in E. by rewrite E, drop_nil.
  - rewrite store_padded by done. f_equal. by apply IH.
Qed.

Lemma tokens_typed d acc s : typed acc -> typed s -> Forall typed (tokens d acc s).
Proof.
  intros Ha Hs. revert acc Ha. induction Hs as [|c s Hc _ IH]; intros acc Ha; cbn [tokens].
  - destruct acc; repeat constructor; by inversion Ha.
  - case_bool_decide.
    + destruct acc; constructor; [done|]. apply IH. constructor.
    + apply IH. apply Forall_app. split; [done|by repeat constructor].
Qed.

Lemma squeeze_typed b s : typed s -> typed (squeeze b s).
Proof.
  intros Hs. revert b. induction Hs as [|c s Hc _ IH]; intros b; cbn [squeeze]; [constructor|].
  destruct (negb (c =? 32)); [constructor; [done|apply IH]|]. destruct b; [apply IH|]. constructor; [done|apply IH].
Qed.

Lemma line_tokens_typed line : typed line -> Forall typed (line_tokens line).
Proof. intros H. apply list.Forall_take, tokens_typed; [constructor|by apply squeeze_typed]. Qed.

(** ** Lemmas: the history *)

(** The slot of the command given [k] commands ago. *)
Definition back (i k : Z) : Z := (i - 1 - k) mod 16.

(** The ring remembers the commands [cmds], newest first; [strs] are the
    strings of its blocks. *)
Record remembers (t : shell) (strs : list (list (list Z))) (cmds : list (list (list Z))) : Prop := {
  re_cache : cache t = map (map padded) strs;
  re_words : Forall (Forall word_ok) strs;
  re_slots : length strs = 16%nat;
  re_cargc : length (cargc t) = 16%nat;
  re_ci : 0 <= ci t < 16;
  re_active : active t = true;
  re_used : forall k c, cmds !! k = Some c -> (k < 15)%nat -> c <> [] /\ let i := back (ci t) (Z.of_nat k) in
    exists rest, strs !! Z.to_nat i = Some (c ++ rest) /\ cargc t !! Z.to_nat i = Some (zlen c);
}.

Lemma remembers_start : remembers shell_start (replicate 16 []) [].
Proof. split; try done. repeat constructor. Qed.

Lemma back_range i k : 0 <= back i k < 16.
Proof. unfold back. zlia. Qed.

Lemma back_next i k : 0 <= i < 16 -> 0 <= k -> back ((i + 1) mod 16) (k + 1) = back i k.
Proof. intros. unfold back. zlia. Qed.

Lemma back_zero i : 0 <= i < 16 -> back ((i + 1) mod 16) 0 = i.
Proof. intros. unfold back. zlia. Qed.

Lemma back_ne i k : 0 <= i < 16 -> 0 <= k < 15 -> back i k <> i.
Proof. intros. unfold back. zlia. Qed.

Lemma slot_args_strs t strs cmds i : remembers t strs cmds -> slot_args t i = default [] (strs !! Z.to_nat i).
Proof.
  intros R. unfold slot_args. rewrite (re_cache _ _ _ R), list_lookup_fmap.
  destruct (strs !! Z.to_nat i) as [ss|] eqn:E; [|done]. cbn [fmap option_fmap option_map from_option id].
  pose proof (Forall_lookup_1 _ _ _ _ (re_words _ _ _ R) E) as H.
  change (map cstring (map padded ss) = ss). rewrite map_map. rewrite <- (map_id ss) at 2.
  apply map_ext_in. intros s Hs. apply list_elem_of_In in Hs.
  destruct (proj1 (list.Forall_forall _ _) H s Hs) as [Ht _]. by apply cstring_pad.
Qed.

(** A line with at least one word becomes the newest command. *)
Lemma get_cmd_remembers t strs cmds line : remembers t strs cmds -> typed line -> arguments line <> [] ->
  let '(t', i) := get_cmd t line in
  i = ci t /\ curr_wd t' = curr_wd t /\ tci t' = ci t' /\ nthZ (cargc t') i = zlen (arguments line) /\
  exists strs', remembers t' strs' (arguments line :: cmds) /\
    exists rest, strs' !! Z.to_nat i = Some (arguments line ++ rest).
Proof.
  intros [Hc Hw Hs Hcc Hci Hact Hu] Hl Hne. unfold get_cmd. pose proof (line_tokens_typed line Hl) as Htok.
  unfold arguments in *. destruct (line_tokens line) as [|t0 ts] eqn:Et; [done|]. rewrite <- Et in *. clear Et.
  set (toks := line_tokens line) in *. set (i := Z.to_nat (ci t)). assert (Hi : (i < 16)%nat) by lia.
  destruct (lookup_lt_is_Some_2 strs i ltac:(lia)) as [ss Hss].
  pose proof (Forall_lookup_1 _ _ _ _ Hw Hss) as Hssw.
  assert (El : cache t !! i = Some (map padded ss)) by (rewrite Hc; change (map (map padded) strs) with (map padded <$> strs);
    by rewrite list_lookup_fmap, Hss).
  cbn [cache cargc ci tci curr_wd alive active]. rewrite El. change (default [] (Some (map padded ss))) with (map padded ss). rewrite store_args_spec by done.
  set (c := map (take 15) toks) in *. set (new := c ++ drop (length toks) ss).
  assert (Lc : zlen toks = zlen c) by (unfold zlen, c; by rewrite length_map).
  assert (N : nthZ (<[i := zlen toks]> (<[i := 0]> (cargc t))) (ci t) = zlen c).
  { unfold nthZ. destruct (Z.ltb_spec (ci t) 0); [lia|]. fold i. rewrite list_lookup_insert_eq by (rewrite length_insert; lia). done. }
  cbn [curr_wd tci cargc]. split_and!; try done. exists (<[i := new]> strs). split.
  2: { exists (drop (length toks) ss). by apply list_lookup_insert_eq; lia. }
  split; cbn [cache cargc ci active]; rewrite ?length_insert; try done.
  - rewrite Hc. symmetry. apply (list_fmap_insert (map padded)).
  - apply Forall_insert; [done|]. apply Forall_app. split; [|by apply list.Forall_drop].
    apply Forall_map. eapply list.Forall_impl; [exact Htok|]. intros. by apply word_ok_take.
  - unfold MAX_CMDS_CACHE. zlia.
  - intros [|k] d Hk Hlt.
    + injection Hk as <-. change (Z.of_nat 0) with 0. rewrite back_zero by done. fold i. split; [done|].
      exists (drop (length toks) ss). rewrite !list_lookup_insert_eq by (rewrite ?length_insert; lia). by rewrite Lc.
    + change MAX_CMDS_CACHE with 16. replace (Z.of_nat (S k)) with (Z.of_nat k + 1) by lia. rewrite back_next by lia.
      pose proof (back_ne (ci t) (Z.of_nat k) Hci ltac:(lia)). pose proof (back_range (ci t) (Z.of_nat k)).
      destruct (Hu k d Hk ltac:(lia)) as (H1 & rest & H2 & H3). split; [done|]. exists rest.
      rewrite !list_lookup_insert_ne by lia. done.
Qed.

(** A blank line changes only the count of the slot that is written next. *)
Lemma get_cmd_blank t strs cmds line : remembers t strs cmds -> arguments line = [] ->
  let '(t', i) := get_cmd t line in
  remembers t' strs cmds /\ ci t' = ci t /\ tci t' = tci t /\ curr_wd t' = curr_wd t /\ nthZ (cargc t') i = 0.
Proof.
  intros [Hc Hw Hs Hcc Hci Hact Hu] Hl. unfold get_cmd, arguments in *. destruct (line_tokens line); [|done].
  cbn [cargc ci tci curr_wd]. split_and!; try done.
  2: { unfold nthZ. destruct (Z.ltb_spec (ci t) 0); [lia|]. by rewrite list_lookup_insert_eq by lia. }
  split; cbn [cache cargc ci active]; rewrite ?length_insert; try done. intros k c Hk Hlt.
  destruct (Hu k c Hk Hlt) as (H1 & rest & H2 & H3). split; [done|]. exists rest. split; [done|].
  pose proof (back_ne (ci t) (Z.of_nat k) Hci ltac:(lia)). pose proof (back_range (ci t) (Z.of_nat k)).
  by rewrite list_lookup_insert_ne by lia.
Qed.

Lemma set_tci_remembers t strs cmds i : remembers t strs cmds -> remembers (set_tci t i) strs cmds.
Proof. by intros []. Qed.

(** One press of the key, from the command [k] back (or the empty line). *)
Lemma up_step t strs cmds k c : remembers t strs cmds -> tci t = (ci t - Z.of_nat k) mod 16 -> (k < 15)%nat -> cmds !! k = Some c ->
  cuph t = (set_tci t (back (ci t) (Z.of_nat k)), Some (join ARGV_DELIM c)).
Proof.
  intros R Ht Hk Hc. pose proof (re_ci _ _ _ R) as Hci. unfold cuph. rewrite (re_active _ _ _ R). unfold traverse_cache, MAX_CMDS_CACHE.
  set (j := Z.rem _ 16). assert (Ej : j = back (ci t) (Z.of_nat k)).
  { unfold j, back. rewrite Ht. destruct (Z.ltb_spec ((ci t - Z.of_nat k) mod 16 + -1) 0); rewrite Z.rem_mod_nonneg by zlia; zlia. }
  rewrite Ej. clear j Ej. set (j := back _ _). destruct (re_used _ _ _ R k c Hc ltac:(lia)) as (H1 & rest & H2 & H3). fold j in H2, H3.
  assert (N : j <> ci t) by (apply back_ne; lia). assert (0 <= j < 16) by apply back_range. rewrite (proj2 (Z.eqb_neq _ _) N).
  assert (default [] (cache t !! Z.to_nat j) <> []) as Hne.
  { rewrite (re_cache _ _ _ R), list_lookup_fmap, H2. by destruct c. }
  rewrite bool_decide_eq_false_2 by done. cbn [orb]. unfold remembered. rewrite (slot_args_strs _ _ _ _ R), H2. unfold nthZ.
  destruct (Z.ltb_spec j 0); [lia|]. rewrite H3. cbn [from_option id]. unfold zlen. by rewrite Nat2Z.id, take_app_length.
Qed.

(** Presses of the cursor-up key: the texts recalled. *)
Fixpoint presses (k : nat) (t : shell) : shell * list (option (list Z)) :=
  match k with
  | O => (t, [])
  | S k => let '(t, r) := cuph t in let '(t, rs) := presses k t in (t, r :: rs)
  end.

Lemma presses_recall t strs cmds k i : remembers t strs cmds -> tci t = (ci t - Z.of_nat i) mod 16 -> (i + k <= 15)%nat ->
  (i + k <= length cmds)%nat ->
  (presses k t).2 = map (fun c => Some (join ARGV_DELIM c)) (take k (drop i cmds)).
Proof.
  revert t i. induction k as [|k IH]; intros t i Hr Ht H15 Hlen; cbn [presses]; [done|].
  pose proof (lookup_lt_is_Some_2 cmds i ltac:(lia)) as [c Hc]. rewrite (up_step t strs cmds i c Hr Ht ltac:(lia) Hc).
  pose proof (IH (set_tci t (back (ci t) (Z.of_nat i))) (S i)) as E.
  destruct (presses k _) as [t' rs]. cbn [fst snd] in *.
  rewrite E by (by apply set_tci_remembers || (cbn; unfold back; f_equal; lia) || lia).
  by rewrite (drop_S cmds c i Hc).
Qed.

(** ** Lemmas: the session *)

Definition same_ring (t t' : shell) : Prop :=
  cache t' = cache t /\ cargc t' = cargc t /\ ci t' = ci t /\ tci t' = tci t /\ active t' = active t.

Lemma same_ring_remembers t t' strs cmds : same_ring t t' -> remembers t strs cmds -> remembers t' strs cmds.
Proof. intros (E1 & E2 & E3 & _ & E5) []. split; rewrite ?E1, ?E2, ?E3, ?E5; done. Qed.

(** The commands that ran: the lines with at least one word. *)
Definition commands (lines : list (list Z)) : list (list (list Z)) := filter (fun c => c <> []) (map arguments lines).

Section Session.
Context `{FileLayer} (tail : nat -> list Z) (list_dir : list Z -> option (list (list Z))).

(** What a command does to the shell: it moves to a directory that exists, or
    ends the shell. *)
Lemma run_cmd_effect c t fds argc argv t' fds' o :
  run_cmd tail list_dir c t fds argc argv = Some (t', fds', o) ->
  same_ring t t' /\ (alive t = false -> alive t' = false) /\
  (curr_wd t' = curr_wd t \/ exists arg, resolve (curr_wd t) arg = Some (curr_wd t') /\ layer_exists (curr_wd t') = Some 1 /\
    zlen (curr_wd t') < MAX_PATH_SIZE).
Proof.
  unfold run_cmd, same_ring, cmd_cd. intros R. destruct c; simplify_option_eq; try (split_and!; by auto).
  all: match goal with x : _ * _ |- _ => destruct x end; simplify_option_eq; try (split_and!; by auto).
  match goal with E : (if ?e =? 1 then _ else _) = _ |- _ => destruct (Z.eqb_spec e 1) as [->|]; [|destruct (e =? 2)] end;
    repeat match goal with E : (if ?n <=? ?k then _ else _) = _ |- _ => destruct (Z.leb_spec n k); [|done] end;
    simplify_option_eq; split_and!; try done; [right; eexists; split_and!; [done|done|lia]|by left..].
Qed.

Lemma parse_cmd_effect t fds argc argv t' fds' o : active t = true ->
  parse_cmd tail list_dir t fds argc argv = Some (t', fds', o) ->
  same_ring t t' /\ (alive t = false -> alive t' = false) /\
  (curr_wd t' = curr_wd t \/ exists arg, resolve (curr_wd t) arg = Some (curr_wd t') /\ layer_exists (curr_wd t') = Some 1 /\
    zlen (curr_wd t') < MAX_PATH_SIZE).
Proof.
  intros Ha. unfold parse_cmd. destruct (argc =? 0); [intros [= <- <- <-]; unfold same_ring; auto 10|].
  intros (cmd & Hc & R)%bind_Some. apply bind_Some in R as ([[t1 fds1] o1] & R & [= <- <- <-]).
  destruct (run_cmd_effect _ _ _ _ _ _ _ _ R) as ((E1 & E2 & E3 & E4 & _) & Hal & Hwd). by split_and!.
Qed.

Abbreviation loop := (shell_loop tail list_dir).

Lemma shell_loop_step t fds line lines t' fds' os : alive t' = true -> loop t fds (line :: lines) = Some (t', fds', os) ->
  alive t = true /\ let '(t1, i) := get_cmd t line in exists t2 fds2 o os',
    parse_cmd tail list_dir t1 fds (nthZ (cargc t1) i) (slot_args t1 i) = Some (t2, fds2, o) /\
    loop t2 fds2 lines = Some (t', fds', os').
Proof.
  intros Ha R. cbn [shell_loop] in R. destruct (alive t) eqn:Et; cbn [negb] in R; [|injection R as -> _ _; congruence].
  split; [done|]. destruct (get_cmd t line) as [t1 i]. apply bind_Some in R as ([[t2 fds2] o] & P & R).
  apply bind_Some in R as ([[t3 fds3] os'] & L & [= <- <- _]). by exists t2, fds2, o, os'.
Qed.

Lemma shell_loop_remembers lines t strs cmds fds t' fds' os : remembers t strs cmds -> tci t = ci t -> Forall typed lines ->
  loop t fds lines = Some (t', fds', os) -> alive t' = true ->
  exists strs', remembers t' strs' (reverse (commands lines) ++ cmds) /\ tci t' = ci t'.
Proof.
  intros R T Hl. revert t strs cmds fds os R T. induction Hl as [|line lines Hline _ IH]; intros t strs cmds fds os R T L Ha.
  { injection L as <- _ _. by exists strs. }
  destruct (shell_loop_step _ _ _ _ _ _ _ Ha L) as [_ S]. unfold commands in *. cbn [map]. rewrite filter_cons.
  case_decide as Hne.
  - pose proof (get_cmd_remembers t strs cmds line R Hline Hne) as G. destruct (get_cmd t line) as [t1 i].
    destruct G as (_ & _ & T1 & _ & strs1 & R1 & _). destruct S as (t2 & fds2 & o & os' & P & L').
    destruct (parse_cmd_effect _ _ _ _ _ _ _ (re_active _ _ _ R1) P) as (E & _). pose proof E as (_ & _ & E3 & E4 & _).
    destruct (IH t2 strs1 (arguments line :: cmds) fds2 os') as (strs' & R' & T'); try done;
      [by eapply same_ring_remembers|congruence|].
    exists strs'. split; [|done]. by rewrite reverse_cons, <- app_assoc.
  - pose proof (get_cmd_blank t strs cmds line R Hne) as G.
    destruct (get_cmd t line) as [t1 i]. destruct G as (R1 & G1 & G2 & _). destruct S as (t2 & fds2 & o & os' & P & L').
    destruct (parse_cmd_effect _ _ _ _ _ _ _ (re_active _ _ _ R1) P) as (E & _). pose proof E as (_ & _ & E3 & E4 & _).
    apply (IH t2 strs cmds fds2 os'); try done; [by eapply same_ring_remembers|congruence].
Qed.

End Session.

(** ** Lemmas: paths *)
Lemma segments_join_rest segs rest : Forall segment_ok segs ->
  segments [] (join [PATH_SEPERATOR] segs ++ PATH_SEPERATOR :: rest) = segs ++ segments [] rest.
Proof.
  induction 1 as [|s segs Hs Hsegs IH]; [done|]. destruct segs as [|s' segs].
  - cbn [join app]. by rewrite segments_close.
  - change (join [PATH_SEPERATOR] (s :: s' :: segs)) with (s ++ PATH_SEPERATOR :: join [PATH_SEPERATOR] (s' :: segs)).
    rewrite <- app_assoc. cbn [app]. rewrite segments_close by done. cbn [app] in *. by rewrite IH.
Qed.

Lemma word_app s t : Forall (fun c => isspace c = false) s -> word (s ++ t) = s ++ word t.
Proof. induction 1 as [|c s Hc _ IH]; cbn [app word]; [done|]. by rewrite Hc, IH. Qed.

(** Where a path leads from a working directory. *)
Definition target (wd : list (list Z)) (arg : list Z) : list (list Z) :=
  (if default 0 (head arg) =? PATH_SEPERATOR then [] else wd) ++ segments [] (word arg).

Lemma target_ok wd arg : Forall segment_ok wd -> Forall segment_ok (target wd arg).
Proof.
  intros H. apply Forall_app. split; [by destruct (_ =? _)|]. apply segments_ok; [apply word_no_space|by left].
Qed.

Lemma resolve_target wd arg : Forall segment_ok wd ->
  resolve (canonical [PATH_SEPERATOR] wd) arg = Some (canonical [PATH_SEPERATOR] (target wd arg)).
Proof.
  intros Hwd. unfold resolve, target, shell_preprocess_path. destruct (Z.eqb_spec (default 0 (head arg)) PATH_SEPERATOR) as [E|E].
  - destruct arg as [|c arg]; [done|]. cbn in E. subst c. rewrite preprocess_spec by done. cbn [word].
    change (isspace PATH_SEPERATOR) with false. done.
  - rewrite preprocess_spec by done. f_equal. unfold canonical. rewrite <- app_assoc. rewrite (app_assoc (join _ _)).
    change ([PATH_SEPERATOR] ++ ?x) with (PATH_SEPERATOR :: x). cbn [app word]. change (isspace PATH_SEPERATOR) with false. cbn [lead].
    rewrite Z.eqb_refl. f_equal. rewrite <- app_assoc, word_app by by apply join_no_space. cbn [app word].
    change (isspace PATH_SEPERATOR) with false. cbn [segments]. rewrite Z.eqb_refl. by rewrite segments_join_rest.
Qed.

(** ** Lemmas: the working directory *)

(** An absolute path in canonical form that is a directory and fits its array. *)
Definition good_wd `{FileLayer} (wd : list Z) : Prop :=
  layer_exists wd = Some 1 /\ zlen wd < MAX_PATH_SIZE /\ exists segs, Forall segment_ok segs /\ wd = canonical [PATH_SEPERATOR] segs.

Lemma get_cmd_wd t line : curr_wd (get_cmd t line).1 = curr_wd t /\ active (get_cmd t line).1 = active t.
Proof. unfold get_cmd. by destruct (line_tokens line). Qed.

Lemma shell_loop_wd `{FileLayer} tail list_dir lines t fds t' fds' os : active t = true -> good_wd (curr_wd t) ->
  shell_loop tail list_dir t fds lines = Some (t', fds', os) -> good_wd (curr_wd t').
Proof.
  revert t fds os. induction lines as [|line lines IH]; intros t fds os Ha Hwd L; cbn [shell_loop] in L; [by injection L as <- _ _|].
  destruct (negb (alive t)); [by injection L as <- _ _|]. pose proof (get_cmd_wd t line) as [W A].
  destruct (get_cmd t line) as [t1 i]. cbn [fst] in W, A. apply bind_Some in L as ([[t2 fds2] o] & P & L).
  apply bind_Some in L as ([[t3 fds3] os'] & L & [= <- <- _]).
  destruct (parse_cmd_effect tail list_dir t1 fds _ _ t2 fds2 o ltac:(congruence) P) as ((_ & _ & _ & _ & A2) & _ & Hw).
  apply (IH t2 fds2 os'); [congruence| |done]. rewrite W in Hw. destruct Hw as [-> | (arg & R & E & Hlen)]; [done|].
  split; [done|]. split; [done|]. destruct Hwd as (_ & _ & segs & Hs & Ewd). rewrite Ewd, resolve_target in R by done.
  injection R as <-. exists (target segs arg). split; [by apply target_ok|done].
Qed.

(** ** Theorems *)

(** C23: The history: after any session of the shell that is still running, the
    cursor-up key recalls the commands that were given, the newest first, one
    per press, for up to 15 of them; lines without a word are not remembered. *)
Theorem history_recalled `{FileLayer} tail list_dir fds lines t' fds' os k :
  Forall typed lines ->
  shell_loop tail list_dir shell_start fds lines = Some (t', fds', os) -> alive t' = true ->
  (k <= 15)%nat -> (k <= length (commands lines))%nat ->
  (presses k t').2 = map (fun c => Some (join ARGV_DELIM c)) (take k (reverse (commands lines))).
Proof.
  intros Hl L Ha Hk Hlen.
  destruct (shell_loop_remembers tail list_dir lines shell_start _ [] fds t' fds' os remembers_start) as (strs & R & T); try done.
  rewrite app_nil_r in R. rewrite (presses_recall t' strs (reverse (commands lines)) k 0); try done.
  - rewrite T. pose proof (re_ci _ _ _ R). zlia.
  - rewrite length_reverse. lia.
Qed.


(** C22: The working directory: through every session that starts in the root and
    in which no cd goes to a directory whose path has 256 characters or more
    (there the model stops, because the code writes past its array: see
    [cd_overflows]), the shell's working directory is an absolute path in
    canonical form, shorter than its array, which the file system says is a
    directory. *)
Theorem working_directory_exists `{FileLayer} tail list_dir fds lines t' fds' os :
  layer_exists [PATH_SEPERATOR] = Some 1 ->
  shell_loop tail list_dir shell_start fds lines = Some (t', fds', os) ->
  layer_exists (curr_wd t') = Some 1 /\ zlen (curr_wd t') < MAX_PATH_SIZE /\
  exists segs, Forall segment_ok segs /\ curr_wd t' = canonical [PATH_SEPERATOR] segs.
Proof.
  intros Hroot L. apply (shell_loop_wd tail list_dir lines shell_start fds t' fds' os); [done| |done].
  split; [done|]. split; [done|]. by exists [].
Qed.

(** Fact: cd into a directory whose path has 256 characters or more leaves the
    array: the model does not go on. *)
Theorem cd_overflows `{FileLayer} t segs argc cmd arg argv :
  Forall segment_ok segs -> curr_wd t = canonical [PATH_SEPERATOR] segs ->
  layer_exists (canonical [PATH_SEPERATOR] (target segs arg)) = Some 1 ->
  MAX_PATH_SIZE <= zlen (canonical [PATH_SEPERATOR] (target segs arg)) ->
  cmd_cd t argc (cmd :: arg :: argv) = None.
Proof.
  intros Hs Hw He Hl. unfold cmd_cd. cbn [lookup list_lookup mbind option_bind]. rewrite Hw, resolve_target by done.
  cbn [mbind option_bind]. rewrite He. cbn [mbind option_bind]. cbn [Z.eqb Pos.eqb].
  by destruct (Z.leb_spec (zlen (canonical [PATH_SEPERATOR] (target segs arg)) + 1) MAX_PATH_SIZE); [lia|].
Qed.

(** Fact: cd with an argument: an absolute one names the directory itself, a relative
    one is taken from the working directory, segment by segment; the shell
    moves there exactly when the path is a directory, and otherwise says which
    of the two reasons it has and stays. *)
Theorem cd_moves `{FileLayer} t segs argc cmd arg argv e :
  Forall segment_ok segs -> curr_wd t = canonical [PATH_SEPERATOR] segs -> 1 < argc ->
  layer_exists (canonical [PATH_SEPERATOR] (target segs arg)) = Some e ->
  zlen (canonical [PATH_SEPERATOR] (target segs arg)) < MAX_PATH_SIZE ->
  cmd_cd t argc (cmd :: arg :: argv) =
    Some (if e =? 1 then (set_wd t (canonical [PATH_SEPERATOR] (target segs arg)), [])
          else if e =? 2 then (t, [NotDirectory]) else (t, [NoSuchPath])).
Proof.
  intros Hs Hw Ha He Hl. unfold cmd_cd. cbn [lookup list_lookup mbind option_bind]. rewrite Hw, resolve_target by done.
  cbn [mbind option_bind]. rewrite He. cbn [mbind option_bind]. destruct (Z.leb_spec argc 1); [lia|].
  destruct (Z.leb_spec (zlen (canonical [PATH_SEPERATOR] (target segs arg)) + 1) MAX_PATH_SIZE); [|lia].
  destruct (e =? 1); [done|]. by destruct (e =? 2).
Qed.

(** Fact: cat leaves out the last byte: it takes for the size what lseek returns for
    the end of the file, the position of the last byte, so that of a file of at
    least two bytes it prints all but the last; the descriptor is given back. *)
Theorem cat_drops_last_byte `{FileLayer} tail bs t segs argc cmd arg argv c fds i :
  Forall segment_ok segs -> curr_wd t = canonical [PATH_SEPERATOR] segs -> 1 < argc ->
  file_law bs (canonical [PATH_SEPERATOR] (target segs arg)) c -> 2 <= zlen c -> 0 < bs ->
  free_slot fds 0 = Some i -> tail i = [] ->
  exists fds', cmd_cat tail t argc (cmd :: arg :: argv) fds = Some (fds', [Text (file_part c 0 (zlen c - 1))]) /\
    free_slot fds' 0 = Some i /\ forall j, j <> i -> fds' !! j = fds !! j.
Proof.
  intros Hs Hw Ha Hlaw Hc Hbs Hi Ht. pose proof (fl_bound _ _ _ Hlaw) as Hb. set (p := canonical _ (target segs arg)) in *.
  destruct (free_slot_spec _ _ _ Hi) as (_ & (g & Hg & _) & _). rewrite Nat.sub_0_r in Hg.
  pose proof (lookup_lt_Some _ _ _ Hg) as Hlt. set (a1 := <[i := Fdp (Some p) 0 O_RDONLY]> fds).
  assert (S1 : slot a1 (Z.of_nat i) = Some (Fdp (Some p) 0 O_RDONLY)).
  { unfold slot. destruct (Z.ltb_spec (Z.of_nat i) 0); [lia|]. rewrite Nat2Z.id. by apply list_lookup_insert_eq. }
  assert (Ht' : tail (Z.to_nat (Z.of_nat i)) = []) by by rewrite Nat2Z.id.
  pose proof (slot_set a1 (Z.of_nat i) _ (Fdp (Some p) (zlen c - 1) O_RDONLY) S1) as S2.
  pose proof (slot_set _ (Z.of_nat i) _ (Fdp (Some p) 0 O_RDONLY) S2) as S3.
  pose proof (slot_set _ (Z.of_nat i) _ (Fdp (Some p) (0 + (zlen c - 1) - 1) O_RDONLY) S3) as S4.
  exists (<[i := Fdp None (0 + (zlen c - 1) - 1) O_RDONLY]> fds). split; [|split].
  - unfold cmd_cat. destruct (Z.leb_spec argc 1); [lia|]. change ((cmd :: arg :: argv) !! 1%nat) with (Some arg).
    cbn [mbind option_bind]. rewrite Hw, resolve_target by done. fold p. cbn [mbind option_bind]. rewrite (fl_exists _ _ _ Hlaw). cbn [mbind option_bind]. rewrite Z.eqb_refl.
    rewrite (open_step bs p c Hlaw fds i) by done. fold a1. cbn [mbind option_bind].
    rewrite (lseek_end_step tail bs p c Hlaw a1 (Z.of_nat i) 0 O_RDONLY 0) by (done || lia). rewrite Z.sub_0_r. cbn [mbind option_bind].
    rewrite (lseek_set_step tail bs p c Hlaw _ _ (zlen c - 1) O_RDONLY 0) by (done || lia). cbn [mbind option_bind].
    rewrite (read_step tail bs p c Hlaw _ _ 0 O_RDONLY (zlen c - 1) (zlen c - 1)) by
      (done || lia || (left; apply Z.mod_0_l; lia) || by left).
    cbn [mbind option_bind]. unfold close. rewrite S4. cbn [mbind option_bind file_path current_offset flags].
    do 2 f_equal. unfold set_slot, a1. by rewrite Nat2Z.id, !list_insert_insert_eq.
  - by apply free_slot_put.
  - intros j Hj. by rewrite list_lookup_insert_ne.
Qed.

(** ** Witnesses *)

(** The root holds the directory "d" and nothing else. *)
Definition one_dir : FileLayer := {|
  layer_exists p := Some (if bool_decide (p = [47]) || bool_decide (p = [47; 100]) then 1 else 0);
  layer_read _ _ _ := None;
  layer_write _ _ _ := 0;
  layer_size _ := None;
|}.

(** "pwd", " ", "cd d", "pwd". *)
Definition demo_lines : list (list Z) := [[112; 119; 100]; [32]; [99; 100; 32; 100]; [112; 119; 100]].

Definition no_listing (p : list Z) : option (list (list Z)) := None.

Definition demo_session : option (shell * list fdp * list output) :=
  @shell_loop one_dir (fun _ => []) no_listing shell_start init_fdp_arr demo_lines.

Definition demo_end : shell * list fdp * list output := default (shell_start, [], []) demo_session.

Lemma demo_session_ends : demo_session = Some demo_end.
Proof. vm_compute. reflexivity. Qed.

Lemma history_recalled_witness :
  (presses 2 demo_end.1.1).2 = [Some [112; 119; 100]; Some [99; 100; 32; 100]].
Proof.
  pose proof (@history_recalled one_dir (fun _ => []) no_listing init_fdp_arr demo_lines
    demo_end.1.1 demo_end.1.2 demo_end.2 2) as P.
  rewrite P; [vm_compute; reflexivity|repeat constructor; lia|vm_compute; reflexivity|vm_compute; reflexivity|lia|].
  apply Nat.leb_le. vm_compute. reflexivity.
Defined.

Lemma working_directory_exists_witness : @layer_exists one_dir (curr_wd demo_end.1.1) = Some 1 /\ curr_wd demo_end.1.1 = [47; 100].
Proof.
  split; [|vm_compute; reflexivity].
  apply (@working_directory_exists one_dir (fun _ => []) no_listing init_fdp_arr demo_lines
    demo_end.1.1 demo_end.1.2 demo_end.2); vm_compute; reflexivity.
Defined.

Lemma cd_moves_witness :
  @cmd_cd one_dir shell_start 2 [[99; 100]; [47; 47; 100; 47]] = Some (set_wd shell_start [47; 100], []).
Proof.
  exact (@cd_moves one_dir shell_start [] 2 [99; 100] [47; 47; 100; 47] [] 1 (list.Forall_nil_2 _) eq_refl ltac:(lia) eq_refl eq_refl).
Defined.

Lemma cat_drops_last_byte_witness : let L := one_file demo_path demo_content in
  exists fds', @cmd_cat L (fun _ => []) shell_start 2 [[99; 97; 116]; [102]] init_fdp_arr = Some (fds', [Text [1; 2; 3; 4; 5]]).
Proof.
  intros L. destruct (@cat_drops_last_byte L (fun _ => []) 1024 shell_start [] 2 [99; 97; 116] [102] [] demo_content init_fdp_arr 0)
    as (fds' & E & _); [constructor|done|lia|by apply one_file_law|vm_compute; discriminate|lia|done|done|by exists fds'].
Defined.
