(* ===== verification/Console.v ===== *)
(** * Console: from the keyboard to the shell's line

    getchar of the user build (libc/stdio/getchar.c), the handler of cursor keys
    (libc/kernel/kernel.c) and gets_s on top of them: the interrupts fill the
    keyboard ring, wait_key empties it, a cursor key makes the shell put a
    remembered command into the ring, and gets_s edits the line.  The theorem
    composes Keyboard, Shell and Stdio: what is typed is what the shell reads.
    The system calls on the way only carry the call into the kernel. *)

From S2P Require Import Prelude Mem CString CStdlib Device Interrupts Keyboard Printf Stdio Files Shell.

(** The keyboard, the shell, and the scan codes that are still to arrive. *)
Record console := Console { kb : keyboard_t; sh : shell; pending : list Z }.

(** What traverse_cache does to the input. *)
Definition put_text (k : keyboard_t) (txt : option (list Z)) : option keyboard_t :=
  match txt with
  | None => Some k
  | Some s => k ← stdin_clear k; stdin_insert k s
  end.

(** The handlers of the left and right key are empty. *)
Definition keycode_ext_handler (k : keyboard_t) (t : shell) (c : Z) : option (keyboard_t * shell) :=
  if c =? keycode CURSOR_UP then let '(t, txt) := cuph t in k ← put_text k txt; Some (k, t)
  else if c =? keycode CURSOR_LEFT then Some (k, t)
  else if c =? keycode CURSOR_RIGHT then Some (k, t)
  else if c =? keycode CURSOR_DOWN then let '(t, txt) := cdownh t in k ← put_text k txt; Some (k, t)
  else Some (k, t).

Definition getchar (s : console) : io (console * Z) :=
  '(k, ic, codes) ← wait_key (kb s) (pending s);
  '(k, t) ← io_lift (keycode_ext_handler k (sh s) ic);
  mret (Console k t codes, ic).

(** gets_s with getchar in its loop; [n] bounds the characters read. *)
Fixpoint gets_chars (n fuel : nat) (s : console) (m : mem) (str size i : Z) (echo : list Z) : io (console * mem * Z * Z * list Z) :=
  match n with
  | O => io_fail
  | S n =>
      '(s, c) ← getchar s;
      '(m, i, e) ← io_lift (gets_key fuel m str size i c);
      if ends_line c then mret (s, m, i, c, echo ++ e) else gets_chars n fuel s m str size i (echo ++ e)
  end.

Definition gets_console (n fuel : nat) (s : console) (m : mem) (str size : Z) : io (console * mem * Z * list Z) :=
  k ← io_lift (stdin_clear (kb s));
  '(s, m, i, c, echo) ← gets_chars n fuel (Console k (sh s) (pending s)) m str size 0 [];
  mret (if (c =? EOF) || (i =? 0) then (s, m, NULL, echo) else (s, memset m (str + i) 0 (size - i), str, echo)).

(** ** The editor with a history *)

(** A key: a character with its scan code, or one of the cursor keys. *)
Inductive key := Char (scan c : Z) | Up | Down.

(** The codes of pressing and releasing it. *)
Definition key_codes (e : key) : list Z :=
  match e with Char s _ => [s; s + 0x80] | Up => [0xE0; 0x48; 0xE0; 0xC8] | Down => [0xE0; 0x50; 0xE0; 0xD0] end.

Definition recalled (size : Z) (line : list Z) (r : shell * option (list Z)) : list Z * shell :=
  (match r.2 with Some w => take (Z.to_nat (size - 1)) w | None => line end, r.1).

Definition keystroke (size : Z) (a : list Z * shell) (e : key) : list Z * shell :=
  match e with
  | Char _ c => (if zlen a.1 <? size - 1 then a.1 ++ [c] else a.1, a.2)
  | Up => recalled size a.1 (cuph a.2)
  | Down => recalled size a.1 (cdownh a.2)
  end.

(** A recalled command fits the ring together with the cancel code. *)
Definition text_ok (txt : option (list Z)) : Prop :=
  match txt with Some w => Forall printable w /\ zlen w <= 254 | None => True end.

(** The key [s] types [c] in the state [st], and its release does nothing. *)
Definition types (st : keyboard_state) (s c : Z) : Prop :=
  special_key_press st s = st /\ special_key_press st (s + 0x80) = st /\
  scs1_to_ascii s (lshift st || rshift st) (caps st) = c /\
  scs1_to_ascii (s + 0x80) (lshift st || rshift st) (caps st) = 0.

Fixpoint keys_ok (st : keyboard_state) (t : shell) (es : list key) : Prop :=
  match es with
  | [] => True
  | Char s c :: es => types st s c /\ printable c /\ keys_ok st t es
  | Up :: es => text_ok (cuph t).2 /\ keys_ok st (cuph t).1 es
  | Down :: es => text_ok (cdownh t).2 /\ keys_ok st (cdownh t).1 es
  end.

(** ** Lemmas: the ring *)

Lemma stdin_insert_ring k q w : ring k q -> Forall printable w -> zlen q + zlen w <= 255 ->
  exists k', stdin_insert k w = Some k' /\ ks k' = ks k /\ ring k' (q ++ w).
Proof.
  intros R Hw. revert k q R. induction Hw as [|c w Hc _ IH]; intros k q R Hl; cbn [stdin_insert].
  { exists k. by rewrite app_nil_r. }
  rewrite zlen_cons in Hl. pose proof (zlen_nonneg w). unfold printable in Hc.
  destruct (ring_put k q c R) as (k1 & E1 & S1 & R1). rewrite (proj2 (Z.ltb_lt _ _)), u8_small in R1 by lia.
  destruct (IH k1 (q ++ [c]) R1) as (k2 & E2 & S2 & R2); [rewrite zlen_app; change (zlen [c]) with 1; lia|].
  exists k2. rewrite E1. cbn [mbind option_bind]. split; [done|]. split; [congruence|]. by rewrite <- app_assoc in R2.
Qed.

(** What a cursor key leaves in the empty ring. *)
Lemma put_text_ring k txt : ring k [] -> text_ok txt ->
  exists k', put_text k txt = Some k' /\ ks k' = ks k /\ ring k' (match txt with Some w => CAN :: w | None => [] end).
Proof.
  intros R Ht. destruct txt as [w|]; [|by exists k]. destruct Ht as [Hw Hl]. cbn [put_text].
  destruct (ring_put k [] CAN R) as (k1 & E1 & S1 & R1). change (zlen [] <? 255) with true in R1. cbn [app] in R1.
  change (u8 CAN) with CAN in R1. destruct (stdin_insert_ring k1 [CAN] w R1 Hw) as (k2 & E2 & S2 & R2).
  { change (zlen [CAN]) with 1. lia. }
  exists k2. unfold stdin_clear. rewrite E1. cbn [mbind option_bind]. split; [done|]. split; [congruence|done].
Qed.

Lemma ring_eq k : ring k [] -> (buffer_head k =? buffer_tail k) = true.
Proof. intros [_ Hh Ht Hs _]. apply Z.eqb_eq. unfold zlen in Hs. simpl in Hs. zlia. Qed.

(** ** Lemmas: getchar *)

Section Getchar.
Context (dev : device) (Hdev : pic_device dev).

(** wait_key once its loop has ended. *)
Lemma wait_key_run k codes k1 codes1 k2 c h : wait_not_empty k codes = Some (k1, codes1) -> buffer_get k1 = Some (k2, c) ->
  c <> EOF -> exists h', run (wait_key k codes) dev h = Some (k2, c, codes1, h').
Proof.
  intros Hw Hg Hc. destruct (irq_clear_mask_run dev h IRQ_KEYBOARD 0) as (h1 & E1 & _); [done|done|done|].
  destruct (irq_set_mask_run dev h1 IRQ_KEYBOARD 0) as (h2 & E2 & _); [done|done|done|]. exists h2.
  unfold wait_key. rewrite run_bind, E1. cbn [mbind option_bind]. rewrite run_bind, run_io_lift, Hw.
  cbn [mbind option_bind]. rewrite run_bind, run_io_lift, Hg. cbn [mbind option_bind].
  rewrite run_bind, E2. cbn [mbind option_bind]. by rewrite (proj2 (Z.eqb_neq _ _) Hc).
Qed.

(** A character below the extended codes goes through unchanged. *)
Lemma getchar_plain s codes1 k1 k2 c h : wait_not_empty (kb s) (pending s) = Some (k1, codes1) -> buffer_get k1 = Some (k2, c) ->
  c <> EOF -> c < 256 -> exists h', run (getchar s) dev h = Some ((Console k2 (sh s) codes1, c), h').
Proof.
  intros Hw Hg Hc Hlt. destruct (wait_key_run _ _ _ _ _ _ h Hw Hg Hc) as (h1 & E1). exists h1. unfold getchar.
  rewrite run_bind, E1. cbn [mbind option_bind]. rewrite run_bind, run_io_lift.
  assert (keycode_ext_handler k2 (sh s) c = Some (k2, sh s)) as ->; [|done].
  unfold keycode_ext_handler. cbn [keycode]. rewrite !(proj2 (Z.eqb_neq _ _)) by lia. done.
Qed.

(** A character that waits in the ring. *)
Lemma getchar_queued s c q h : ring (kb s) (c :: q) -> 0 < c < 128 -> c <> 8 ->
  exists k' h', run (getchar s) dev h = Some ((Console k' (sh s) (pending s), c), h') /\ ks k' = ks (kb s) /\ ring k' q.
Proof.
  intros R Hc H8. assert (E8 : s8 c = c) by ulia. destruct (ring_get (kb s) c q R) as (k2 & G & S2 & R2); [lia|]. rewrite E8 in G.
  destruct (getchar_plain s (pending s) (kb s) k2 c h) as (h' & E); [|done|unfold EOF; lia|lia|by exists k2, h'].
  destruct (pending s); cbn [wait_not_empty]; by rewrite (ring_not_empty _ _ _ R).
Qed.

(** Codes that leave an idle keyboard as it is: the release of a key. *)
Inductive releases (st : keyboard_state) : list Z -> Prop :=
  | RelNone : releases st []
  | RelKey s : special_key_press st s = st -> scs1_to_ascii s (lshift st || rshift st) (caps st) = 0 -> releases st [s]
  | RelUp : releases st [0xE0; 0xC8]
  | RelDown : releases st [0xE0; 0xD0].

Lemma plain_fields st : plain_state st = true -> exists cp ls rs, st = KeyboardState cp ls false false false false rs false false false false false.
Proof.
  destruct st as [cp ls lc la ag rc rs ex u d l r]. unfold plain_state. simpl.
  destruct lc, rc, la, ag, ex, u, d, l, r; try done. by exists cp, ls, rs.
Qed.

(** A code that ends in a held prefix or cursor key, and one that types nothing. *)
Lemma put_held k s st : special_key_press (ks k) s = st -> ext st || up st || left st || down st || right st = true ->
  buffer_put k s = Some (with_ks k st).
Proof. intros <- H. unfold buffer_put. cbn [ks with_ks]. by rewrite H. Qed.

Lemma put_silent k s st : special_key_press (ks k) s = st -> plain_state st = true ->
  scs1_to_ascii s (lshift st || rshift st) (caps st) = 0 -> buffer_put k s = Some (with_ks k st).
Proof.
  intros <- H A. unfold buffer_put. cbn [ks with_ks]. rewrite A. destruct (plain_fields _ H) as (cp & ls & rs & E). rewrite E.
  reflexivity.
Qed.

Lemma idle_empty k st : ring k [] -> up st || down st || left st || right st = false -> buffer_is_empty (with_ks k st) = true.
Proof. intros R H. unfold buffer_is_empty. cbn [with_ks buffer_head buffer_tail ks]. by rewrite (ring_eq k R), H. Qed.

Lemma with_ks_ring k st q : ring k q -> ring (with_ks k st) q.
Proof. by intros []. Qed.

Lemma with_ks_twice k a b : with_ks (with_ks k a) b = with_ks k b.
Proof. done. Qed.

(** The prefix of a cursor key. *)
Lemma wait_prefix k codes : ring k [] -> plain_state (ks k) = true ->
  wait_not_empty k (0xE0 :: codes) = wait_not_empty (with_ks k (special_key_press (ks k) 0xE0)) codes.
Proof.
  intros R Hp. destruct (plain_fields _ Hp) as (cp & ls & rs & E). cbn [wait_not_empty]. rewrite (ring_is_empty k R Hp).
  rewrite (put_held k 0xE0 _ eq_refl); [done|]. by rewrite E.
Qed.

Lemma absorb k rel codes : ring k [] -> plain_state (ks k) = true -> releases (ks k) rel ->
  wait_not_empty k (rel ++ codes) = wait_not_empty k codes.
Proof.
  intros R Hp Hr. destruct (plain_fields _ Hp) as (cp & ls & rs & E). assert (W : with_ks k (ks k) = k) by by destruct k.
  destruct Hr as [|s H1 H2| |]; [done| | |]; cbn [app].
  - cbn [wait_not_empty]. rewrite (ring_is_empty k R Hp), (put_silent k s (ks k)) by done. by rewrite W.
  - rewrite wait_prefix by done. cbn [wait_not_empty]. rewrite idle_empty by (done || by rewrite E).
    rewrite (put_silent _ 0xC8 (ks k)) by (cbn [ks with_ks]; rewrite E; done). cbn [mbind option_bind]. by rewrite with_ks_twice, W.
  - rewrite wait_prefix by done. cbn [wait_not_empty]. rewrite idle_empty by (done || by rewrite E).
    rewrite (put_silent _ 0xD0 (ks k)) by (cbn [ks with_ks]; rewrite E; done). cbn [mbind option_bind]. by rewrite with_ks_twice, W.
Qed.

(** A character key on the idle keyboard. *)
Lemma getchar_key s rel c codes code h : ring (kb s) [] -> plain_state (ks (kb s)) = true -> releases (ks (kb s)) rel ->
  pending s = rel ++ code :: codes -> special_key_press (ks (kb s)) code = ks (kb s) ->
  scs1_to_ascii code (lshift (ks (kb s)) || rshift (ks (kb s))) (caps (ks (kb s))) = c -> 0 < c < 128 -> c <> 8 ->
  exists k' h', run (getchar s) dev h = Some ((Console k' (sh s) codes, c), h') /\ ks k' = ks (kb s) /\ ring k' [].
Proof.
  intros R Hp Hr Ep Hs Hc Hcr H8. destruct (plain_put (kb s) [] code c) as (k1 & P & S1 & R1); [done|done|done|done|done|lia|].
  assert (E8 : s8 c = c) by ulia. destruct (ring_get k1 c [] R1) as (k2 & G & S2 & R2); [lia|]. rewrite E8 in G.
  destruct (getchar_plain s codes k1 k2 c h) as (h' & E); [|done|unfold EOF; lia|lia|exists k2, h'; by rewrite <- S1].
  rewrite Ep, absorb by done. cbn [wait_not_empty]. rewrite ring_is_empty by done. rewrite P. cbn [mbind option_bind].
  destruct codes; cbn [wait_not_empty]; by rewrite (ring_not_empty _ _ _ R1).
Qed.

(** The cursor keys: [b] for up. *)
Definition cursor_code (b : bool) : Z := if b then 0x48 else 0x50.
Definition cursor_key (b : bool) : KEYCODES_EXT := if b then CURSOR_UP else CURSOR_DOWN.
Definition traverse (b : bool) (t : shell) : shell * option (list Z) := if b then cuph t else cdownh t.

Lemma getchar_cursor b s rel codes h : ring (kb s) [] -> plain_state (ks (kb s)) = true -> releases (ks (kb s)) rel ->
  pending s = rel ++ 0xE0 :: cursor_code b :: codes -> text_ok (traverse b (sh s)).2 ->
  exists k' h', run (getchar s) dev h = Some ((Console k' (traverse b (sh s)).1 codes, keycode (cursor_key b)), h') /\
    ks k' = ks (kb s) /\ ring k' (match (traverse b (sh s)).2 with Some w => CAN :: w | None => [] end).
Proof.
  intros R Hp Hr Ep Ht. destruct (plain_fields _ Hp) as (cp & ls & rs & E). assert (W : with_ks (kb s) (ks (kb s)) = kb s) by by destruct (kb s).
  set (st := special_key_press (special_key_press (ks (kb s)) 0xE0) (cursor_code b)).
  assert (Hst : st = KeyboardState cp ls false false false false rs false b (negb b) false false) by (unfold st; rewrite E; by destruct b).
  assert (Hw : wait_not_empty (kb s) (pending s) = Some (with_ks (kb s) st, codes)).
  { rewrite Ep, absorb, wait_prefix by done. cbn [wait_not_empty]. rewrite idle_empty by (done || by rewrite E).
    rewrite (put_held _ (cursor_code b) st) by (done || (rewrite Hst; by destruct b)). cbn [mbind option_bind].
    change (with_ks (with_ks (kb s) _) st) with (with_ks (kb s) st).
    assert (buffer_is_empty (with_ks (kb s) st) = false) as Hne
      by (unfold buffer_is_empty; cbn [ks with_ks]; rewrite Hst; destruct b; apply andb_false_r).
    by destruct codes; cbn [wait_not_empty]; rewrite Hne. }
  destruct (put_text_ring (kb s) (traverse b (sh s)).2 R Ht) as (k' & P & S' & R').
  destruct (irq_clear_mask_run dev h IRQ_KEYBOARD 0) as (h1 & E1 & _); [done|done|done|].
  destruct (irq_set_mask_run dev h1 IRQ_KEYBOARD 0) as (h2 & E2 & _); [done|done|done|]. exists k', h2. split; [|done].
  unfold getchar, wait_key. rewrite run_bind, run_bind, E1. cbn [mbind option_bind]. rewrite run_bind, run_io_lift, Hw.
  cbn [mbind option_bind]. rewrite run_bind, run_io_lift, (ring_get_empty _ (with_ks_ring _ st _ R)). cbn [mbind option_bind].
  rewrite run_bind, E2. cbn [mbind option_bind]. rewrite Z.eqb_refl. cbn [negb ks with_ks]. rewrite Hst, run_ret.
  destruct b; cbn [negb mbind option_bind cursor_key traverse] in *; rewrite with_ks_twice, <- E, W, run_bind, run_io_lift;
    unfold keycode_ext_handler; cbn [keycode Z.eqb Pos.eqb].
  - destruct (cuph (sh s)) as [t txt]. cbn [fst snd] in *. rewrite P. done.
  - destruct (cdownh (sh s)) as [t txt]. cbn [fst snd] in *. rewrite P. done.
Qed.

End Getchar.

(** ** Lemmas: the loop *)

(** A character that gets_s takes as part of the line. *)
Definition queued (c : Z) : Prop := 0 < c < 128 /\ c <> 8 /\ ends_line c = false.

Lemma printable_queued c : printable c -> queued c.
Proof.
  unfold printable, queued, ends_line, EOF. intros H. split; [lia|]. split; [lia|].
  destruct (Z.eqb_spec c 10), (Z.eqb_spec c (-1)), (Z.eqb_spec c 0); try lia; done.
Qed.

Section Loop.
Context (dev : device) (Hdev : pic_device dev) (fuel : nat) (str size : Z).
Hypotheses (Hsize : 1 <= size < 2 ^ 32) (Hfuel : size <= Z.of_nat fuel).

(** One turn of the loop with a character that does not end the line. *)
Lemma gets_chars_step s m line echo s' c h h' : run (getchar s) dev h = Some ((s', c), h') ->
  holds m str size line -> 0 < c -> ends_line c = false ->
  exists m', (forall n, run (gets_chars (S n) fuel s m str size (zlen line) echo) dev h =
      run (gets_chars n fuel s' m' str size (zlen (edit size (line, echo) c).1) (edit size (line, echo) c).2) dev h') /\
    holds m' str size (edit size (line, echo) c).1 /\ buffer_only str size m m'.
Proof.
  intros G H Hc He. destruct (gets_key_spec fuel m str size line echo c H Hsize Hfuel Hc He) as (m' & e & K & H' & Ee & B).
  exists m'. split; [|done]. intros n. cbn [gets_chars]. rewrite run_bind, G. cbn [mbind option_bind]. rewrite run_bind, run_io_lift, K.
  cbn [mbind option_bind]. by rewrite He, Ee.
Qed.

(** The characters in the ring go through the editor. *)
Lemma gets_chars_drain q s m line echo h : ring (kb s) q -> Forall queued q -> holds m str size line ->
  exists s' m' h', (forall n, run (gets_chars (length q + n) fuel s m str size (zlen line) echo) dev h =
      run (gets_chars n fuel s' m' str size (zlen (fold_left (edit size) q (line, echo)).1) (fold_left (edit size) q (line, echo)).2) dev h') /\
    holds m' str size (fold_left (edit size) q (line, echo)).1 /\ buffer_only str size m m' /\
    sh s' = sh s /\ pending s' = pending s /\ ks (kb s') = ks (kb s) /\ ring (kb s') [].
Proof.
  intros R Hq H. revert s m line echo h R H. induction Hq as [|c q (Hc & H8 & He) _ IH]; intros s m line echo h R H.
  { exists s, m, h. cbn. split_and!; try done. }
  destruct (getchar_queued dev Hdev s c q h R Hc H8) as (k1 & h1 & G & S1 & R1).
  destruct (gets_chars_step s m line echo _ c h h1 G H ltac:(lia) He) as (m1 & E1 & H1 & B1).
  destruct (edit size (line, echo) c) as [line1 echo1] eqn:Ed. cbn [fst snd] in *.
  destruct (IH (Console k1 (sh s) (pending s)) m1 line1 echo1 h1 R1 H1) as (s2 & m2 & h2 & E2 & H2 & B2 & T2 & P2 & K2 & R2).
  exists s2, m2, h2. cbn [length fold_left]. rewrite Ed. split_and!; try done; [| |by rewrite K2].
  - intros n. cbn [Nat.add]. by rewrite E1.
  - intros b Hb. by rewrite B2, B1.
Qed.

Lemma edit_cursor b line echo : edit size (line, echo) (keycode (cursor_key b)) = (line, echo).
Proof. by destruct b. Qed.

(** Enter ends the line. *)
Lemma gets_chars_enter n s rel rest m line echo h : ring (kb s) [] -> plain_state (ks (kb s)) = true -> releases (ks (kb s)) rel ->
  pending s = rel ++ 0x1C :: rest -> holds m str size line ->
  exists s' h' echo', run (gets_chars (S n) fuel s m str size (zlen line) echo) dev h = Some ((s', m, zlen line, 10, echo'), h') /\
    sh s' = sh s /\ pending s' = rest /\ ks (kb s') = ks (kb s) /\ ring (kb s') [].
Proof.
  intros R Hp Hr Ep H. destruct (getchar_key dev Hdev s rel 10 rest 0x1C h R Hp Hr Ep) as (k' & h' & G & K & R'); [| |lia|lia|].
  { by destruct (ks (kb s)). }
  { by destruct (lshift _ || rshift _), (caps _). }
  cbn [gets_chars]. rewrite run_bind, G. cbn [mbind option_bind]. rewrite run_bind, run_io_lift. unfold gets_key.
  change (10 =? CAN) with false. change (keycode KEYCODES_EXT_START <=? 10) with false. change (10 =? 0x1B) with false.
  change (10 =? 8) with false. change (ends_line 10) with true. cbn [negb andb].
  destruct (u64 (size - 1) <=? zlen line); cbn [mbind option_bind]; rewrite run_ret; do 3 eexists; by split; [reflexivity|].
Qed.

(** The result of reading a line from [s]. *)
Definition reads (s : console) (m : mem) (line echo : list Z) (h : trace) (line' : list Z) (t' : shell) (rest : list Z) : Prop :=
  exists n0, forall n, (n0 <= n)%nat -> exists s' m' h' echo',
    run (gets_chars n fuel s m str size (zlen line) echo) dev h = Some ((s', m', zlen line', 10, echo'), h') /\
    holds m' str size line' /\ buffer_only str size m m' /\
    sh s' = t' /\ pending s' = rest /\ ks (kb s') = ks (kb s) /\ ring (kb s') [].

(** [k] turns later. *)
Lemma reads_later k s m line echo h s1 m1 line1 echo1 h1 line' t' rest :
  (forall n, run (gets_chars (k + n) fuel s m str size (zlen line) echo) dev h =
     run (gets_chars n fuel s1 m1 str size (zlen line1) echo1) dev h1) ->
  buffer_only str size m m1 -> ks (kb s1) = ks (kb s) ->
  reads s1 m1 line1 echo1 h1 line' t' rest -> reads s m line echo h line' t' rest.
Proof.
  intros E B K (n0 & R). exists (k + n0)%nat. intros n Hn. destruct (R (n - k)%nat ltac:(lia)) as (s' & m' & h' & e' & E' & H' & B' & T & P & K' & R').
  exists s', m', h', e'. split; [rewrite <- E', <- E; do 2 f_equal; lia|]. split; [done|].
  split; [intros b Hb; by rewrite B', B|]. by rewrite K'.
Qed.

Lemma reads_keys es : forall s m line echo h rel rest, ring (kb s) [] -> plain_state (ks (kb s)) = true -> releases (ks (kb s)) rel ->
  pending s = rel ++ concat (map key_codes es) ++ 0x1C :: rest -> keys_ok (ks (kb s)) (sh s) es -> holds m str size line ->
  reads s m line echo h (fold_left (keystroke size) es (line, sh s)).1 (fold_left (keystroke size) es (line, sh s)).2 rest.
Proof.
  induction es as [|e es IH]; intros s m line echo h rel rest R Hp Hr Ep Hk H.
  { exists 1%nat. intros [|n] Hn; [lia|]. destruct (gets_chars_enter n s rel rest m line echo h R Hp Hr Ep H) as (s' & h' & e' & E & F).
    exists s', m, h', e'. cbn [fold_left fst snd]. split; [done|]. split; [done|]. split; [by intros b|done]. }
  assert (Cursor : forall b, key_codes e = [0xE0; cursor_code b; 0xE0; if b then 0xC8 else 0xD0] ->
    keystroke size (line, sh s) e = recalled size line (traverse b (sh s)) ->
    text_ok (traverse b (sh s)).2 -> keys_ok (ks (kb s)) (traverse b (sh s)).1 es ->
    reads s m line echo h (fold_left (keystroke size) (e :: es) (line, sh s)).1 (fold_left (keystroke size) (e :: es) (line, sh s)).2 rest).
  { intros b Ec Es Ht Hes. cbn [fold_left]. rewrite Es. cbn [map concat] in Ep. rewrite Ec in Ep.
    destruct (getchar_cursor dev Hdev b s rel ([0xE0; if b then 0xC8 else 0xD0] ++ concat (map key_codes es) ++ 0x1C :: rest) h R Hp Hr) as (k1 & h1 & G & K1 & R1);
      [by rewrite Ep|done|].
    destruct (gets_chars_step s m line echo _ _ h h1 G H) as (m1 & E1 & H1 & B1); [by destruct b|by destruct b|].
    rewrite edit_cursor in E1, H1. cbn [fst snd] in E1, H1. set (q := match (traverse b (sh s)).2 with Some w => CAN :: w | None => [] end) in *.
    assert (Hq : Forall queued q).
    { unfold q. destruct (traverse b (sh s)).2 as [w|]; [|constructor]. destruct Ht as [Hw _].
      constructor; [by unfold queued|]. eapply list.Forall_impl; [exact Hw|apply printable_queued]. }
    destruct (gets_chars_drain q (Console k1 (traverse b (sh s)).1 ([0xE0; if b then 0xC8 else 0xD0] ++ concat (map key_codes es) ++ 0x1C :: rest))
      m1 line echo h1 R1 Hq H1) as (s2 & m2 & h2 & E2 & H2 & B2 & T2 & P2 & K2 & R2).
    cbn [sh pending kb] in T2, P2, K2.
    assert (El : (fold_left (edit size) q (line, echo)).1 = (recalled size line (traverse b (sh s))).1).
    { unfold q, recalled. destruct (traverse b (sh s)).2 as [w|]; [|done]. destruct Ht as [Hw _]. cbn [fold_left].
      change (edit size (line, echo) CAN) with (@nil Z, echo ++ repeat 8 (length line)). rewrite edit_printable; [|done|change (zlen (@nil Z)) with 0; lia].
      change (zlen (@nil Z)) with 0. by rewrite Z.sub_0_r. }
    eapply (reads_later (S (length q)) s m line echo h s2 m2); [| | |].
    - intros n. cbn [Nat.add]. rewrite E1, E2. reflexivity.
    - intros x Hx. by rewrite B2, B1.
    - by rewrite K2, K1.
    - assert (Er : recalled size line (traverse b (sh s)) = ((fold_left (edit size) q (line, echo)).1, sh s2)) by (rewrite El, T2; done).
      rewrite Er. apply (IH s2 m2 _ _ h2 [0xE0; if b then 0xC8 else 0xD0] rest).
      + done.
      + by rewrite K2, K1.
      + rewrite K2, K1. destruct b; constructor.
      + by rewrite P2.
      + by rewrite K2, K1, T2.
      + done. }
  destruct e as [code c| |]; cbn [keys_ok] in Hk.
  - destruct Hk as ((Hs1 & Hs2 & Ha & Hr0) & Hc & Hes). pose proof (printable_queued c Hc) as (Hc1 & Hc2 & Hc3).
    cbn [map concat key_codes] in Ep.
    destruct (getchar_key dev Hdev s rel c ((code + 0x80) :: concat (map key_codes es) ++ 0x1C :: rest) code h R Hp Hr Ep Hs1 Ha Hc1 Hc2)
      as (k1 & h1 & G & K1 & R1).
    destruct (gets_chars_step s m line echo _ _ h h1 G H ltac:(lia) Hc3) as (m1 & E1 & H1 & B1).
    cbn [fold_left]. rewrite (edit_key size c line echo Hc) in E1, H1. cbn [fst snd] in E1, H1.
    set (s1 := Console k1 (sh s) ((code + 0x80) :: concat (map key_codes es) ++ 0x1C :: rest)) in *.
    eapply (reads_later 1 s m line echo h s1 m1); [exact E1|done|done|].
    apply (IH s1 m1 (if zlen line <? size - 1 then line ++ [c] else line) _ h1 [code + 0x80] rest);
      cbn [s1 kb sh pending]; try (rewrite K1); try done. by constructor.
  - destruct Hk as [Ht Hes]. by apply (Cursor true).
  - destruct Hk as [Ht Hes]. by apply (Cursor false).
Qed.

End Loop.

(** ** Theorems *)

(** C5: What is typed is what the shell reads: for printable keys and the cursor keys
    up and down, each pressed and released, followed by Enter, gets_s (over
    getchar, the keyboard ring and the shell's history) returns with the line
    of an editor in which a character is appended while there is room and a
    cursor key replaces the line by the recalled command; the history position
    moves with the keys, the ring is empty again and the later scan codes are
    left for later.  An empty line gives NULL. *)
Theorem console_edits dev h fuel s m str size es rest line t' :
  pic_device dev -> ring (kb s) [] -> plain_state (ks (kb s)) = true ->
  pending s = concat (map key_codes es) ++ 0x1C :: rest -> keys_ok (ks (kb s)) (sh s) es ->
  1 <= size < 2 ^ 32 -> size <= Z.of_nat fuel -> holds m str size [] ->
  fold_left (keystroke size) es ([], sh s) = (line, t') ->
  exists n0, forall n, (n0 <= n)%nat -> exists s' m' h' echo,
    run (gets_console n fuel s m str size) dev h = Some ((s', m', if bool_decide (line = []) then NULL else str, echo), h') /\
    cstr m' str line /\ buffer_only str size m m' /\ sh s' = t' /\ pending s' = rest /\ ring (kb s') [].
Proof.
  intros Hdev R Hp Ep Hk Hs Hf H El. destruct (ring_put (kb s) [] CAN R) as (k1 & E1 & K1 & R1).
  change (zlen [] <? 255) with true in R1. cbn [app] in R1. change (u8 CAN) with CAN in R1.
  destruct (gets_chars_drain dev Hdev fuel str size Hs Hf [CAN] (Console k1 (sh s) (pending s)) m [] [] h R1) as (s2 & m2 & h2 & E2 & H2 & B2 & T2 & P2 & K2 & R2);
    [by constructor; [by unfold queued|constructor]|done|].
  cbn [fold_left kb sh pending] in *. change (edit size ([], []) CAN) with (@nil Z, @nil Z) in E2, H2. cbn [fst snd] in E2, H2.
  destruct (reads_keys dev Hdev fuel str size Hs Hf es s2 m2 [] [] h2 [] rest) as (n0 & Rd); try done.
  { by rewrite K2, K1. } { constructor. } { by rewrite P2. } { by rewrite K2, K1, T2. }
  rewrite T2, El in Rd. cbn [fst snd] in Rd. exists (S n0). intros n Hn.
  destruct (Rd (n - 1)%nat ltac:(lia)) as (s' & m' & h' & echo & E & H' & B & T & P & K & R').
  assert (Er : run (gets_chars n fuel (Console k1 (sh s) (pending s)) m str size 0 []) dev h = Some ((s', m', zlen line, 10, echo), h')).
  { rewrite <- E, <- E2. do 2 f_equal. cbn [length]. lia. }
  exists s', (if bool_decide (line = []) then m' else memset m' (str + zlen line) 0 (size - zlen line)), h', echo.
  split; [|split; [|split; [|by split_and!]]].
  - unfold gets_console, stdin_clear. rewrite run_bind, run_io_lift, E1. cbn [mbind option_bind]. rewrite run_bind, Er. cbn [mbind option_bind].
    change (10 =? EOF) with false. cbn [orb]. rewrite run_ret. do 2 f_equal.
    destruct line as [|c l]; [done|]. rewrite bool_decide_eq_false_2 by done. rewrite zlen_cons. pose proof (zlen_nonneg l).
    by destruct (Z.eqb_spec (1 + zlen l) 0); [lia|].
  - case_bool_decide as Hl; [subst line; by apply holds_cstr in H'|]. by apply (holds_cstr _ str size), holds_cleared.
  - intros b Hb. case_bool_decide; [by rewrite B, B2|]. pose proof (zlen_nonneg line). destruct H' as (Hlt & _).
    rewrite memset_out by lia. by rewrite B, B2.
Qed.

(** ** Witnesses *)

(** After the demonstration session of the shell ("pwd", "cd d", "pwd"): the key
    a, then cursor up twice, then b, then Enter. *)
Definition demo_console : console :=
  Console keyboard_init demo_end.1.1 (concat (map key_codes [Char 0x1E 97; Up; Up; Char 0x30 98]) ++ [0x1C; 0x9C]).

Lemma console_edits_witness : exists n0, forall n, (n0 <= n)%nat -> exists s' m' h' echo,
  run (gets_console n 256 demo_console ∅ 4096 256) (fun h _ port => default 0xFF (last_out h port)) [] =
    Some ((s', m', 4096, echo), h') /\ cstr m' 4096 [99; 100; 32; 100; 98].
Proof.
  edestruct (console_edits (fun h _ port => default 0xFF (last_out h port)) [] 256 demo_console ∅ 4096 256
    [Char 0x1E 97; Up; Up; Char 0x30 98] [0x9C] [99; 100; 32; 100; 98]) as (n0 & H);
    [by exists 0xFF, 0xFF|exact ring_init|done|reflexivity| |lia|lia| |vm_compute; reflexivity|].
  - cbn [keys_ok]. split_and!; [vm_compute; tauto|unfold printable; lia|..|vm_compute; tauto|unfold printable; lia|done].
    all: vm_compute; repeat constructor; discriminate.
  - split; [done|]. split; [constructor|]. done.
  - exists n0. intros n Hn. destruct (H n Hn) as (s' & m' & h' & echo & E & C & _). by exists s', m', h', echo.
Defined.
