(* ===== verification/Traps.v ===== *)
(** * Traps: interrupts, system calls, and the processes they start and end

    isr_handler (kernel/arch/x86_64/interrupts/isr.c), the system call interface
    (libc/sys/syscall.c, libc/include/sys/syscall.h) and exec and exit
    (libc/proc/proc_op.c, load_proc_mem of process.c), over the paging, the
    scheduler, the timer, the keyboard and the network card.  The functions in
    the table of system calls are one argument, [call]; so are the addresses
    malloc returns and the frame the caller of exec left. *)

From S2P Require Import Prelude Mem CStdlib Paging Process Device Interrupts Keyboard Nic Files Elf.

(** ** isr.c *)

Definition PS2_KEYBOARD_PORT_DATA : Z := 0x60.

Record traps := Traps {
  kernel : kstate;
  timer : pit;
  keys : keyboard_t;
  lan : net;
  g_heap_malloc_state_base : Z;
}.

Definition set_kernel (t : traps) (k : kstate) : traps := Traps k (timer t) (keys t) (lan t) (g_heap_malloc_state_base t).

(** An exception prints its message and stops in a loop. *)
Inductive isr_outcome := Returned | Stopped (isr_num : Z).

(** flush_tlb and invlpg leave the tables as they are. *)
Definition enter_kernel_space (k : kstate) : kstate := set_km k (set_pml4_address (flush_tlb (km k)) PML4_KERNEL).
Definition leave_kernel_space (k : kstate) (prev_cr3 : Z) : kstate := set_km k (set_pml4_address (flush_tlb (km k)) prev_cr3).

(** [rn] and [ks] are the address of run_next_proc and the kernel's stack; [buf]
    is the buffer the network handler allocates. *)
Definition isr_handler (fuel : nat) (buf rn ks isr_num : Z) (regs : registers) (t : traps) : io (traps * registers * isr_outcome) :=
  let k := clear_triggered (kernel t) in
  let prev_cr3 := cr3 (km k) in
  let cr3_changed := negb (prev_cr3 =? PML4_KERNEL) && negb (prev_cr3 =? PML4_BOOT) in
  let k := if cr3_changed then enter_kernel_space k else k in
  let t := set_kernel t k in
  if isr_num <=? 31 then mret (t, regs, Stopped isr_num)
  else
    '(t, regs) ← (
      if isr_num =? IRQ_PIT + PIC1_OFFSET then
        let p := pit_handler (timer t) in
        '(k, regs) ← io_lift (handle_sched_on_pit_tick (kernel t) regs (pit_time_ms p) rn ks);
        mret (Traps k p (keys t) (lan t) (g_heap_malloc_state_base t), regs)
      else if isr_num =? IRQ_KEYBOARD + PIC1_OFFSET then
        c ← inb PS2_KEYBOARD_PORT_DATA;
        kb ← io_lift (buffer_put (keys t) c);
        mret (Traps (kernel t) (timer t) kb (lan t) (g_heap_malloc_state_base t), regs)
      else if isr_num =? PIC1_OFFSET + RTL8139_INTERRUPT_LINE then
        let tmp_heap := g_heap_malloc_state_base t in
        let t := Traps (kernel t) (timer t) (keys t) (lan t) KERNEL_HEAP_START in
        n ← rtl8139_handler fuel (lan t) buf;
        mret (Traps (kernel t) (timer t) (keys t) n tmp_heap, regs)
      else mret (t, regs));
    _ ← pic_send_eoi (isr_num - PIC1_OFFSET);
    let k := kernel t in
    let k := if cr3_changed && negb (sched_triggered k) then leave_kernel_space k prev_cr3 else k in
    mret (set_kernel t k, regs, Returned).

(** ** The system call registers *)

Definition MSR_EFER : Z := 0xC0000080.
Definition MSR_STAR : Z := 0xC0000081.
Definition MSR_LSTAR : Z := 0xC0000082.
Definition MSR_KERNEL_GS_BASE : Z := 0xC0000102.
Definition EFER_SCE : Z := Z.shiftl 1 0.

(** rdmsr leaves the halves in edx and eax; in 64-bit code the constraint names
    rax alone, so the upper half is lost. *)
Definition read_msr (r : gmap Z Z) (msr : Z) : Z := u32 (default 0 (r !! msr)).
Definition write_msr (r : gmap Z Z) (msr lo hi : Z) : gmap Z Z := <[msr := Z.lor (u32 lo) (Z.shiftl (u32 hi) 32)]> r.

Definition enable_syscall (r : gmap Z Z) : gmap Z Z :=
  let efer := read_msr r MSR_EFER in
  let efer_lo := Z.land efer 0xffffffff in
  let efer_hi := Z.shiftr efer 32 in
  let efer_lo := Z.lor efer_lo EFER_SCE in
  write_msr r MSR_EFER efer_lo efer_hi.

Definition configure_segments (r : gmap Z Z) : gmap Z Z :=
  let star_value := Z.lor (Z.shiftl 0x08 32) (Z.shiftl 0x18 48) in
  write_msr r MSR_STAR (Z.land star_value 0xffffffff) (Z.shiftr star_value 32).

Definition init_syscall (r : gmap Z Z) (syscall_entry kgb : Z) : gmap Z Z :=
  let r := enable_syscall r in
  let r := write_msr r MSR_LSTAR (Z.land syscall_entry 0xffffffff) (Z.shiftr syscall_entry 32) in
  let r := write_msr r MSR_KERNEL_GS_BASE (Z.land kgb 0xffffffff) (Z.shiftr kgb 32) in
  configure_segments r.

(** ** The frame of a system call *)

(** fvsyscall: room for three words, then the registers, rdi first. *)
Fixpoint push_all (m : mem) (rsp : Z) (vals : list Z) : mem * Z :=
  match vals with [] => (m, rsp) | v :: vals => push_all (st64 m (rsp - 8) v) (rsp - 8) vals end.

Definition pushed (c : cpu_state) : list Z :=
  [c_rdi c; c_rsi c; c_rdx c; c_rcx c; c_rax c; c_r8 c; c_r9 c; c_r10 c; c_r11 c; c_rbx c; c_rbp c; c_r12 c; c_r13 c; c_r14 c; c_r15 c].

(** The stores of syscall_entry: the flags and the return address that the
    processor left in r11 and rcx, and the stack pointer. *)
Definition syscall_entry_stores (m : mem) (rbx r11 rcx rsp : Z) : mem :=
  let m := st64 m (rbx + 120) r11 in
  let m := st64 m (rbx + 128) rcx in
  st64 m (rbx + 136) rsp.

(** The frame: pushed in user mode, where rbx then takes the stack pointer, and
    completed at the entry. *)
Definition syscall_frame (m : mem) (rsp : Z) (c : cpu_state) (flags ret : Z) : mem * Z :=
  let '(m, rbx) := push_all m (rsp - 24) (pushed c) in
  (syscall_entry_stores m rbx flags ret rbx, rbx).

(** The frame as the struct the handler is given. *)
Definition load_cpu_state (m : mem) (a : Z) : cpu_state :=
  CpuState (ld64 m a) (ld64 m (a + 8)) (ld64 m (a + 16)) (ld64 m (a + 24)) (ld64 m (a + 32)) (ld64 m (a + 40))
    (ld64 m (a + 48)) (ld64 m (a + 56)) (ld64 m (a + 64)) (ld64 m (a + 72)) (ld64 m (a + 80)) (ld64 m (a + 88))
    (ld64 m (a + 96)) (ld64 m (a + 104)) (ld64 m (a + 112)) (ld64 m (a + 120)) (ld64 m (a + 128)) (ld64 m (a + 136)).

(** ** syscall_handler *)

Inductive SYSCALL_NR :=
  | sys_exit | sys_exec | sys_printf | sys_getchar | sys_time | sys_date | sys_sleep | sys_abort | sys_malloc | sys_free
  | sys_print_heap | sys_stdin_clear | sys_stdin_insert | sys_shutdown | sys_tty_init | sys_scanf | sys_memset | sys_memcpy
  | sys_fgets | sys_open | sys_close | sys_read | sys_write | sys_lseek | sys_list_dir | sys_path_exists | sys_send_dns_request.

Definition SYSCALL_TABLE : list SYSCALL_NR :=
  [sys_exit; sys_exec; sys_printf; sys_getchar; sys_time; sys_date; sys_sleep; sys_abort; sys_malloc; sys_free;
   sys_print_heap; sys_stdin_clear; sys_stdin_insert; sys_shutdown; sys_tty_init; sys_scanf; sys_memset; sys_memcpy;
   sys_fgets; sys_open; sys_close; sys_read; sys_write; sys_lseek; sys_list_dir; sys_path_exists; sys_send_dns_request].

Definition set_pcbs (k : kstate) (ps : gmap Z PCB) : kstate :=
  KState (km k) (process_pid_bitmap k) (process_mem_bitmap k) ps (nodes k) (pcb_list k)
    (current_pcb k) (pcb_to_run k) (last_context_switch_time k) (skipped k) (sched_triggered k).

Section Syscalls.
Context (call : SYSCALL_NR -> list Z -> cpu_state -> kstate -> option (kstate * cpu_state * Z)).

(** The state, the frame, which a call may change, and the result.  A negative
    number is read in front of the table: no defined result. *)
Definition syscall_handler (k : kstate) (regs : cpu_state) : option (kstate * cpu_state * Z) :=
  let number := s64 (c_rax regs) in
  let prev_cr3 := cr3 (km k) in
  let k := if negb (prev_cr3 =? PML4_KERNEL) then enter_kernel_space k else k in
  if zlen SYSCALL_TABLE <=? number then Some (k, regs, -1)
  else if number <? 0 then None
  else
    f ← SYSCALL_TABLE !! Z.to_nat number;
    c ← pcbs k !! current_pcb k;
    let k := set_pcbs k (<[current_pcb k := set_cpu_context c regs]> (pcbs k)) in
    '(k, regs, ret) ← call f [c_rdi regs; c_rsi regs; c_rdx regs; c_r10 regs; c_r8 regs; c_r9 regs] regs k;
    Some (leave_kernel_space k prev_cr3, regs, ret).

End Syscalls.

(** ** Starting and ending a process *)

(** A copy into virtual memory. *)
Fixpoint vputs (s : mach) (va : Z) (bytes : list Z) : option mach :=
  match bytes with
  | [] => Some s
  | b :: bytes => a ← translate (pm s) (cr3 s) va; vputs (set_pm s (mwrite (pm s) a b)) (va + 1) bytes
  end.

Definition with_ppid (p : PCB) (q : Z) : PCB :=
  Pcb q (pid p) (state p) (real_mem_addr p) (pml4 p) (old_pml4 p) (stack p) (heap p) (priority p) (cpu_context p) (list_node p).
Definition with_state (p : PCB) (st : proc_state) : PCB :=
  Pcb (ppid p) (pid p) st (real_mem_addr p) (pml4 p) (old_pml4 p) (stack p) (heap p) (priority p) (cpu_context p) (list_node p).
Definition skip_rip (c : cpu_state) : cpu_state :=
  CpuState (c_r15 c) (c_r14 c) (c_r13 c) (c_r12 c) (c_rbp c) (c_rbx c) (c_r11 c) (c_r10 c) (c_r9 c) (c_r8 c)
    (c_rax c) (c_rcx c) (c_rdx c) (c_rsi c) (c_rdi c) (c_eflags c) (u64 (c_rip c + 8)) (c_rsp c).

Section Exec.
Context `{FileLayer} (tail : nat -> list Z) (fresh : Z -> list Z).

Definition load_proc_mem (k : kstate) (fds : list fdp) (pcb : Z) (path : list Z) : option (kstate * list fdp) :=
  p ← pcbs k !! pcb;
  s ← map_memory_range (km k) KERNEL_PID (pml4 p) (pml4 p + PAGE_SIZE - 1) (pml4 p);
  s ← map_memory_range s KERNEL_PID PROC_WINDOW_START PROC_WINDOW_END (real_mem_addr p);
  '(fds, elf_bin) ← readelf tail fresh fds path;
  s ← vputs s USER_LOAD_ADDR (default [] elf_bin);
  s ← unmap_memory_range s PROC_WINDOW_START PROC_WINDOW_END 0;
  Some (set_km k s, fds).

(** With a current process the frame [regs] becomes that of the new one;
    without one the new process is entered, with the context returned.  The
    code copies the path to a block of the heap, which it never frees; here the
    copy is the value [path] itself, and control blocks are records, so exec
    does not use the heap of Heap. *)
Definition exec (k : kstate) (fds : list fdp) (path : list Z) (pcb_ptr node_ptr : Z) : option (kstate * list fdp * cpu_state) :=
  '(k, pcb) ← alloc_proc k pcb_ptr node_ptr;
  '(k, fds) ← load_proc_mem k fds pcb path;
  p ← pcbs k !! pcb;
  if negb (current_pcb k =? 0) then
    c ← pcbs k !! current_pcb k;
    let p := set_cpu_context (with_ppid p (pid c)) (skip_rip (cpu_context p)) in
    let k := set_current (set_pcbs k (<[pcb := p]> (pcbs k))) pcb in
    s ← map_memory_range (km k) KERNEL_PID (pml4 p) (pml4 p + PAGE_SIZE - 1) (pml4 p);
    s ← map_memory_range s KERNEL_PID PROC_WINDOW_START PROC_WINDOW_END (real_mem_addr p);
    Some (set_km k s, fds, cpu_context p)
  else
    let p := with_state (with_ppid p KERNEL_PID) READY in
    let k := set_km (set_pcbs k (<[pcb := p]> (pcbs k))) (cli (km k)) in
    '(k, ctx) ← run_proc k pcb;
    Some (k, fds, ctx).

End Exec.

(** The PCB is freed but stays in the list. *)
Definition exit (fuel : nat) (k : kstate) : option (kstate * cpu_state) :=
  p ← pcbs k !! current_pcb k;
  let membm := deallocate_proc_mem (process_mem_bitmap k) (real_mem_addr p) in
  s ← unmap_memory_range (km k) PROC_WINDOW_START PROC_WINDOW_END 0;
  s ← unmap_page s (pml4 p);
  let k := KState s (process_pid_bitmap k) membm (delete (current_pcb k) (pcbs k)) (nodes k) (pcb_list k)
             (current_pcb k) (pcb_to_run k) (last_context_switch_time k) (skipped k) (sched_triggered k) in
  parent ← find_pcb_by_pid fuel k (ppid p);
  run_proc k parent.

(** ** Lemmas *)

Lemma sched_keeps_machine k regs t rn ks k' regs' :
  handle_sched_on_pit_tick k regs t rn ks = Some (k', regs') -> sched_triggered k = false ->
  km k' = km k /\ regs' = (if sched_triggered k' then redirect regs rn ks else regs).
Proof.
  unfold handle_sched_on_pit_tick. intros H Hs. destruct (_ =? 0); [injection H as <- <-; by rewrite Hs|].
  destruct (_ || _); [injection H as <- <-; by rewrite Hs|]. apply bind_Some in H as (ps & _ & H).
  apply bind_Some in H as (nx & _ & H). apply bind_Some in H as (p & _ & [= <- <-]). done.
Qed.

Lemma push_all_out m rsp vals a : rsp <= a -> ld64 (push_all m rsp vals).1 a = ld64 m a.
Proof.
  revert m rsp. induction vals as [|v vals IH]; intros m rsp Ha; cbn [push_all]; [done|].
  rewrite IH by lia. apply load_store_out. lia.
Qed.

(** The [i]-th push is found [8 * (i + 1)] below the start. *)
Lemma push_all_lookup m rsp vals i v : vals !! i = Some v ->
  ld64 (push_all m rsp vals).1 (rsp - 8 * (Z.of_nat i + 1)) = u64 v.
Proof.
  revert m rsp i. induction vals as [|w vals IH]; intros m rsp i Hi; [done|]. cbn [push_all].
  destruct i as [|i]; cbn in Hi.
  - injection Hi as ->. replace (rsp - 8 * (Z.of_nat 0 + 1)) with (rsp - 8) by lia. rewrite push_all_out by lia. apply ld64_st64.
  - replace (rsp - 8 * (Z.of_nat (S i) + 1)) with (rsp - 8 - 8 * (Z.of_nat i + 1)) by lia. by apply IH.
Qed.

Lemma push_all_rsp m rsp vals : (push_all m rsp vals).2 = rsp - 8 * zlen vals.
Proof.
  revert m rsp. induction vals as [|v vals IH]; intros m rsp; cbn [push_all snd]; [unfold zlen; cbn; lia|].
  rewrite IH. unfold zlen. cbn [length]. lia.
Qed.

(** A word of the frame that was pushed. *)
Lemma frame_word m rsp vals i v x y z : vals !! i = Some v -> zlen vals = 15 ->
  let '(m1, rbx) := push_all m rsp vals in
  ld64 (st64 (st64 (st64 m1 (rbx + 120) x) (rbx + 128) y) (rbx + 136) z) (rbx + 8 * (14 - Z.of_nat i)) = u64 v.
Proof.
  intros Hi Hl. pose proof (push_all_lookup m rsp vals i v Hi) as E. pose proof (push_all_rsp m rsp vals) as R.
  destruct (push_all m rsp vals) as [m1 rbx]. cbn [fst snd] in *. apply lookup_lt_Some in Hi. unfold zlen in *.
  rewrite !load_store_out by lia. rewrite <- E. f_equal. lia.
Qed.

Definition word64 (v : Z) : Prop := 0 <= v < 2 ^ 64.

Lemma msr_halves v : word64 v -> Z.lor (u32 (Z.land v 0xffffffff)) (Z.shiftl (u32 (Z.shiftr v 32)) 32) = v.
Proof.
  intros Hv. unfold word64 in Hv. change 0xffffffff with (2 ^ 32 - 1). rewrite land_ones_mod, Z.shiftr_div_pow2 by lia.
  rewrite Z.lor_comm, lor_high by ulia. ulia.
Qed.

(** ** Theorems *)

(** C21: A hardware interrupt other than the network card's, taken at any time in any
    address space, is handled and acknowledged to the controllers.  Unless it
    makes the scheduler switch, the interrupted address space and registers
    are as before; only the timer can switch, and then the return frame leads
    to run_next_proc on the kernel's stack. *)
Theorem isr_transparent fuel buf rn ks n regs t dev h k1 regs1 kb :
  32 <= n -> n <> PIC1_OFFSET + RTL8139_INTERRUPT_LINE ->
  let k0 := clear_triggered (kernel t) in
  let changed := negb (cr3 (km k0) =? PML4_KERNEL) && negb (cr3 (km k0) =? PML4_BOOT) in
  handle_sched_on_pit_tick (if changed then enter_kernel_space k0 else k0) regs (pit_time_ms (pit_handler (timer t))) rn ks =
    Some (k1, regs1) ->
  buffer_put (keys t) (u8 (dev h 8 PS2_KEYBOARD_PORT_DATA)) = Some kb ->
  exists t' regs' h', run (isr_handler fuel buf rn ks n regs t) dev h = Some ((t', regs', Returned), Out 8 PIC1_COMMAND PIC_EOI :: h') /\
    (40 <= n < 256 -> head h' = Some (Out 8 PIC2_COMMAND PIC_EOI)) /\
    (sched_triggered (kernel t') = false -> cr3 (km (kernel t')) = cr3 (km (kernel t)) /\ regs' = regs) /\
    (sched_triggered (kernel t') = true -> n = IRQ_PIT + PIC1_OFFSET /\ regs' = redirect regs rn ks /\
       cr3 (km (kernel t')) = if changed then PML4_KERNEL else cr3 (km (kernel t))) /\
    keys t' = (if n =? IRQ_KEYBOARD + PIC1_OFFSET then kb else keys t) /\
    timer t' = (if n =? IRQ_PIT + PIC1_OFFSET then pit_handler (timer t) else timer t).
Proof.
  intros Hn Hnic k0 changed Hs Hk. unfold isr_handler. fold k0. fold changed. rewrite (proj2 (Z.leb_gt n 31)) by lia.
  set (k := if changed then enter_kernel_space k0 else k0) in *.
  assert (Hk0 : sched_triggered k = false) by (unfold k; by destruct changed).
  assert (Hc : cr3 (km k) = if changed then PML4_KERNEL else cr3 (km (kernel t))) by (unfold k; by destruct changed).
  destruct (sched_keeps_machine _ _ _ _ _ _ _ Hs Hk0) as [Hm Hr].
  destruct (Z.eqb_spec n (IRQ_PIT + PIC1_OFFSET)) as [->|N1].
  - run_io. cbn [kernel timer set_kernel] in *. rewrite Hs. run_io. eexists _, _, h. split; [reflexivity|].
    cbn [kernel set_kernel keys timer]. split; [unfold IRQ_PIT, PIC1_OFFSET; lia|]. destruct (sched_triggered k1) eqn:Et.
    + rewrite andb_false_r, Et. split; [done|]. split; [intros _; by rewrite Hm|]. done.
    + rewrite andb_true_r. split_and!; try done.
      * intros _. split; [|done]. destruct changed eqn:Ec; [done|]. by rewrite Hm, Hc.
      * intros T. destruct changed; cbn in T; congruence.
  - rewrite (proj2 (Z.eqb_neq _ _) Hnic).
    set (k' := if changed && negb (sched_triggered k) then leave_kernel_space k (cr3 (km k0)) else k).
    assert (L1 : sched_triggered k' = false) by (unfold k'; rewrite Hk0, andb_true_r; by destruct changed).
    assert (L2 : cr3 (km k') = cr3 (km (kernel t))) by (unfold k'; rewrite Hk0, andb_true_r; destruct changed; done).
    destruct (Z.eqb_spec n (IRQ_KEYBOARD + PIC1_OFFSET)) as [->|N2].
    + run_io. cbn [keys set_kernel]. rewrite Hk. run_io. cbn [kernel set_kernel keys timer]. fold k'.
      eexists _, _, _. split; [reflexivity|]. cbn [kernel set_kernel keys timer]. rewrite L1. split_and!; try done. unfold IRQ_KEYBOARD, PIC1_OFFSET. lia.
    + unfold pic_send_eoi. destruct (Z.leb_spec 8 (u8 (n - PIC1_OFFSET))) as [H8|H8]; run_io; cbn [kernel set_kernel]; fold k';
        (eexists _, _, _; split; [reflexivity|]); cbn [kernel set_kernel keys timer]; rewrite L1; split_and!; try done.
      intros Hge. rewrite u8_small in H8 by (unfold PIC1_OFFSET; lia). unfold PIC1_OFFSET in H8. lia.
Qed.

Definition regs_ok (c : cpu_state) : Prop := Forall word64 (pushed c).

(** C28: The frame of a system call: what fvsyscall pushes and syscall_entry stores is
    the struct the handler reads, register by register, with the flags, the
    return address and the stack pointer of the caller; it lies below the
    caller's stack pointer and nothing above it is changed. *)
Theorem syscall_frame_roundtrip m rsp c flags ret :
  regs_ok c -> word64 flags -> word64 ret -> 168 <= rsp < 2 ^ 64 ->
  let '(m', rbx) := syscall_frame m rsp c flags ret in
  rbx = rsp - 144 /\
  load_cpu_state m' rbx = CpuState (c_r15 c) (c_r14 c) (c_r13 c) (c_r12 c) (c_rbp c) (c_rbx c) (c_r11 c) (c_r10 c) (c_r9 c) (c_r8 c)
    (c_rax c) (c_rcx c) (c_rdx c) (c_rsi c) (c_rdi c) flags ret rbx /\
  forall a, rsp <= a -> ld64 m' a = ld64 m a.
Proof.
  intros Hc Hf Hr Hrsp. unfold syscall_frame, syscall_entry_stores. pose proof (push_all_rsp m (rsp - 24) (pushed c)) as R.
  pose proof (fun a Ha => push_all_out m (rsp - 24) (pushed c) a Ha) as O.
  assert (W : forall i v, pushed c !! i = Some v -> let '(m1, rbx) := push_all m (rsp - 24) (pushed c) in
    ld64 (st64 (st64 (st64 m1 (rbx + 120) flags) (rbx + 128) ret) (rbx + 136) rbx) (rbx + 8 * (14 - Z.of_nat i)) = v).
  { intros i v Hi. pose proof (frame_word m (rsp - 24) (pushed c) i v flags ret (push_all m (rsp - 24) (pushed c)).2 Hi eq_refl) as F.
    destruct (push_all m (rsp - 24) (pushed c)) as [m1 rbx]. cbn [snd] in F. rewrite F.
    pose proof (Forall_lookup_1 _ _ _ _ Hc Hi) as Hv. unfold word64 in Hv. by apply u64_small. }
  destruct (push_all m (rsp - 24) (pushed c)) as [m1 rbx]. cbn [fst snd] in R, O. unfold zlen in R. cbn [length pushed] in R.
  unfold word64 in *. split; [lia|]. split.
  - unfold load_cpu_state. f_equal.
    1-15: match goal with |- _ = ?v => let go i := (rewrite <- (W i v eq_refl); f_equal; lia) in
      first [go 14%nat|go 13%nat|go 12%nat|go 11%nat|go 10%nat|go 9%nat|go 8%nat|go 7%nat|go 6%nat|go 5%nat|go 4%nat|go 3%nat|go 2%nat|go 1%nat|go 0%nat] end.
    + rewrite !load_store_out by lia. rewrite ld64_st64. apply u64_small. lia.
    + rewrite load_store_out by lia. rewrite ld64_st64. apply u64_small. lia.
    + rewrite ld64_st64. apply u64_small. lia.
  - intros a Ha. rewrite !load_store_out by lia. apply O. lia.
Qed.

(** Fact: A known system call, from any address space: the caller's registers are
    saved in its control block before the function runs, the function runs in
    the kernel's address space with the six argument registers in the order of
    the calling convention, and its result is returned in the caller's own
    address space. *)
Theorem syscall_serves call k regs c f k2 regs2 ret :
  SYSCALL_TABLE !! Z.to_nat (c_rax regs) = Some f -> 0 <= c_rax regs -> pcbs k !! current_pcb k = Some c ->
  call f [c_rdi regs; c_rsi regs; c_rdx regs; c_r10 regs; c_r8 regs; c_r9 regs] regs
    (set_pcbs (enter_kernel_space k) (<[current_pcb k := set_cpu_context c regs]> (pcbs k))) = Some (k2, regs2, ret) ->
  exists k', syscall_handler call k regs = Some (k', regs2, ret) /\ cr3 (km k') = cr3 (km k) /\ k' = set_km k2 (km k') /\ pm (km k') = pm (km k2).
Proof.
  intros Hf H0 Hc Hcall. pose proof (lookup_lt_Some _ _ _ Hf) as Hlt. change (length SYSCALL_TABLE) with 27%nat in Hlt.
  unfold syscall_handler. rewrite s64_small by lia. change (zlen SYSCALL_TABLE) with 27.
  destruct (Z.leb_spec 27 (c_rax regs)); [lia|]. destruct (Z.ltb_spec (c_rax regs) 0); [lia|]. rewrite Hf. cbn [mbind option_bind].
  assert (E : (if negb (cr3 (km k) =? PML4_KERNEL) then enter_kernel_space k else k) = enter_kernel_space k).
  { destruct (Z.eqb_spec (cr3 (km k)) PML4_KERNEL) as [Ek|]; [|done]. cbn [negb]. unfold enter_kernel_space, set_km. rewrite <- Ek.
    by destruct k as [[]]. }
  rewrite E. cbn [pcbs current_pcb enter_kernel_space set_km]. rewrite Hc. cbn [mbind option_bind].
  cbn [enter_kernel_space set_km] in Hcall. rewrite Hcall. cbn [mbind option_bind]. eexists. split; [reflexivity|]. done.
Qed.

(** Fact: An unknown number returns -1 and leaves the caller in the kernel's address
    space: the early return does not switch back. *)
Theorem syscall_unknown_keeps_kernel_space call k regs :
  27 <= c_rax regs < 2 ^ 63 ->
  exists k', syscall_handler call k regs = Some (k', regs, -1) /\ cr3 (km k') = PML4_KERNEL.
Proof.
  intros H. unfold syscall_handler. rewrite s64_small by lia. change (zlen SYSCALL_TABLE) with 27.
  destruct (Z.leb_spec 27 (c_rax regs)); [|lia]. eexists. split; [reflexivity|]. by destruct (Z.eqb_spec (cr3 (km k)) PML4_KERNEL).
Qed.

(** Fact: exit of the process that was created last has no defined result: its control
    block is freed while it is still the head of the list, and the search for
    the parent starts by reading it. *)
Theorem exit_reads_freed_pcb fuel k n next :
  pcb_list k = n -> n <> 0 -> nodes k !! n = Some (LNode (current_pcb k) next) -> exit fuel k = None.
Proof.
  intros Hl Hn Hnode. unfold exit. destruct (pcbs k !! current_pcb k) as [p|]; [|done]. cbn [mbind option_bind].
  destruct (unmap_memory_range _ _ _ _) as [s|]; [|done]. cbn [mbind option_bind]. destruct (unmap_page s (pml4 p)) as [s'|]; [|done].
  cbn [mbind option_bind]. unfold find_pcb_by_pid. cbn [pcb_list]. rewrite Hl. destruct fuel; cbn [find_pcb_loop];
    rewrite (proj2 (Z.eqb_neq n 0) Hn); cbn [nodes pcbs]; rewrite Hnode; cbn [mbind option_bind ndata]; by rewrite lookup_delete_eq.
Qed.

(** Fact: init_syscall sets the registers of the processor: the entry point, the
    kernel's block and the enable bit; the code segment that sysret loads from
    them (the field plus 16, for a 64-bit return) is 0x2b, not the user code
    segment 0x1b, and the upper half of EFER is lost. *)
Theorem syscall_registers r syscall_entry kgb :
  word64 syscall_entry -> word64 kgb ->
  let r' := init_syscall r syscall_entry kgb in
  r' !! MSR_LSTAR = Some syscall_entry /\ r' !! MSR_KERNEL_GS_BASE = Some kgb /\
  (exists e, r' !! MSR_EFER = Some e /\ Z.testbit e 0 = true /\ 0 <= e < 2 ^ 32 /\
     forall i, 0 < i < 32 -> Z.testbit e i = Z.testbit (default 0 (r !! MSR_EFER)) i) /\
  exists s, r' !! MSR_STAR = Some s /\ Z.land (Z.shiftr s 32) 0xffff = 0x08 /\ Z.lor (Z.shiftr s 48 + 16) 3 = 0x2b.
Proof.
  intros He Hk r'. unfold r', init_syscall, configure_segments, write_msr. split_and!.
  - rewrite lookup_insert_ne, lookup_insert_ne, lookup_insert_eq by done. by rewrite msr_halves.
  - rewrite lookup_insert_ne, lookup_insert_eq by done. by rewrite msr_halves.
  - rewrite !lookup_insert_ne by done. unfold enable_syscall, write_msr. rewrite lookup_insert_eq. eexists. split; [reflexivity|].
    unfold read_msr. set (e := u32 (default 0 (r !! MSR_EFER))). assert (R : 0 <= e < 2 ^ 32) by (unfold e; ulia).
    change 0xffffffff with (2 ^ 32 - 1). rewrite land_ones_mod, Z.mod_small by lia.
    rewrite Z.shiftr_div_pow2, (Z.div_small e) by lia. change (Z.shiftl (u32 0) 32) with 0. rewrite Z.lor_0_r. change EFER_SCE with 1.
    assert (L : 0 <= Z.lor e 1 < 2 ^ 32) by (apply lor_below; lia). rewrite u32_small by lia. split_and!; try lia.
    + rewrite Z.lor_spec. apply orb_true_r.
    + intros j Hj. rewrite Z.lor_spec. change 1 with (2 ^ 0) at 1. rewrite Z.pow2_bits_false, orb_false_r by lia. unfold e, u32.
      change 4294967296 with (2 ^ 32). by rewrite Z.mod_pow2_bits_low by lia.
  - eexists. split; [apply lookup_insert_eq|]. done.
Qed.

(** ** Witnesses *)

Definition idle_net : net := NetState (Nic 0 0 0 [] []) 0 0 [] 0 ∅.

Definition demo_traps : traps :=
  Traps (set_km (demo_queue READY) (set_pml4_address (km (demo_queue READY)) 0x5000)) (Pit 0 0) keyboard_init idle_net 0.

(** A key is pressed while a process runs. *)
Lemma isr_transparent_witness : exists t' regs' h',
  run (isr_handler 0 0 77 88 33 user_regs demo_traps) (fun _ _ _ => 0x1e) [] =
    Some ((t', regs', Returned), Out 8 PIC1_COMMAND PIC_EOI :: h') /\ regs' = user_regs /\ cr3 (km (kernel t')) = 0x5000.
Proof.
  edestruct (isr_transparent 0 0 77 88 33 user_regs demo_traps (fun _ _ _ => 0x1e) []) as (t' & regs' & h' & E & _ & H & _);
    [lia|done|vm_compute; reflexivity|vm_compute; reflexivity|].
  exists t', regs', h'. split; [exact E|]. destruct H as [H1 H2]; [|by split].
  vm_compute in E. injection E as <- _ _. reflexivity.
Defined.

Definition demo_regs : cpu_state := CpuState 1 2 3 4 5 6 7 8 9 10 11 12 13 14 15 16 17 18.

Lemma syscall_frame_roundtrip_witness :
  load_cpu_state (syscall_frame ∅ 0x4000 demo_regs 0x202 0x4000123).1 (0x4000 - 144) =
    CpuState 1 2 3 4 5 6 7 8 9 10 11 12 13 14 15 0x202 0x4000123 (0x4000 - 144).
Proof.
  assert (regs_ok demo_regs) as R by (unfold regs_ok, word64, pushed, demo_regs; cbn [c_r15 c_r14 c_r13 c_r12 c_rbp c_rbx c_r11 c_r10 c_r9 c_r8 c_rax c_rcx c_rdx c_rsi c_rdi];
    repeat (apply List.Forall_cons; [lia|]); apply List.Forall_nil).
  pose proof (syscall_frame_roundtrip ∅ 0x4000 demo_regs 0x202 0x4000123 R ltac:(unfold word64; lia) ltac:(unfold word64; lia) ltac:(lia)) as H.
  destruct (syscall_frame ∅ 0x4000 demo_regs 0x202 0x4000123) as [m rbx]. destruct H as (-> & H & _). exact H.
Defined.

(** sys_memset, with a function that returns its first argument. *)
Lemma syscall_serves_witness : exists k',
  syscall_handler (fun _ args regs k => Some (k, regs, nthZ args 0)) (kernel demo_traps) (CpuState 0 0 0 0 0 0 0 0 0 0 16 0 0 0 99 0 0 0) =
    Some (k', CpuState 0 0 0 0 0 0 0 0 0 0 16 0 0 0 99 0 0 0, 99) /\ cr3 (km k') = 0x5000.
Proof.
  edestruct (syscall_serves (fun _ args regs k => Some (k, regs, nthZ args 0)) (kernel demo_traps) (CpuState 0 0 0 0 0 0 0 0 0 0 16 0 0 0 99 0 0 0))
    as (k' & E & C & _); [reflexivity|cbn; lia|vm_compute; reflexivity|reflexivity|]. exists k'. split; [exact E|exact C].
Defined.

Lemma syscall_unknown_keeps_kernel_space_witness : exists k',
  syscall_handler (fun _ _ _ _ => None) (kernel demo_traps) (CpuState 0 0 0 0 0 0 0 0 0 0 27 0 0 0 0 0 0 0) =
    Some (k', CpuState 0 0 0 0 0 0 0 0 0 0 27 0 0 0 0 0 0 0, -1) /\ cr3 (km k') = PML4_KERNEL.
Proof. apply syscall_unknown_keeps_kernel_space. cbn. lia. Defined.

Lemma exit_reads_freed_pcb_witness : exit 10 (demo_queue READY) = None.
Proof. apply (exit_reads_freed_pcb 10 (demo_queue READY) 31 21); [reflexivity|lia|vm_compute; reflexivity]. Defined.

Lemma syscall_registers_witness : init_syscall ∅ 0x810000 0x820000 !! MSR_LSTAR = Some 0x810000.
Proof. apply (syscall_registers ∅ 0x810000 0x820000); unfold word64; lia. Defined.
