(* ===== verification/Exec.v ===== *)
(** * Exec: from a file to a running program

    exec (libc/proc/proc_op.c) with alloc_proc, load_proc_mem and run_proc
    (kernel/process/process.c) as one piece: the kernel's tables and the new
    process's tables live side by side in one physical memory, the recursive
    slot is turned from one to the other and back, the program is copied through
    a window of the kernel, and the processor is left on the new root.  The
    theorem says that the program's bytes are where the process will run. *)

From S2P Require Import Prelude Mem Paging Frames Process Files Elf Traps.

(** The frame at which the memory of processes starts; tables lie below. *)
Definition PROC_FRAMES : Z := 0x2800.

(** Counts of free frames are compared by their arguments, never by counting. *)
Strategy 1000 [nfree].

(** ** The kernel's tables *)

(** The kernel runs on its own PML4, reaches that page at its own address, and
    has its tables below the memory of processes. *)
Record kernel_ok (s : mach) : Prop := KernelOk {
  ko_paging : paging_ok s PML4_KERNEL;
  ko_cr3 : cr3 s = PML4_KERNEL;
  ko_low : forall f, is_table s PML4_KERNEL f -> f < PROC_FRAMES;
  ko_self : translate (pm s) PML4_KERNEL (PML4_KERNEL + 8 * 511) = Some (PML4_KERNEL + 8 * 511);
}.

(** Another tree: its frames are taken, are not the kernel's, and lie below. *)
Record apart (s : mach) (R : Z) : Prop := Apart {
  ap_root : 0 <= R < 2 ^ 52 /\ R mod 4096 = 0;
  ap_small : small (pm s) R;
  ap_tables : forall f, is_table s R f -> used s f /\ ~ is_table s PML4_KERNEL f /\ f < PROC_FRAMES;
}.

(** Free frames in all, and below the memory of processes. *)
Definition budget (s : mach) (n m : Z) : Prop := n <= free_pages s /\ m <= free_below PROC_FRAMES s.

Lemma budget_same s s' n m : allocator s' = allocator s -> budget s n m -> budget s' n m.
Proof. intros A [B1 B2]. split; unfold free_pages, free_below in *; rewrite A; [exact B1|exact B2]. Qed.

(** ** Lemmas: one tree *)

Lemma root_table s R : is_table s R (R / 4096).
Proof. exists [], R. split; [apply tpath_nil|done]. Qed.

(** A byte written outside the tables. *)
Lemma write_outside s K a b : paging_ok s K -> cr3 s = K -> ~ is_table s K (a / 4096) ->
  paging_ok (set_pm s (mwrite (pm s) a b)) K /\ same_tree (pm s) (mwrite (pm s) a b) K.
Proof.
  intros H Hc Hn. pose proof (po_K s K H) as HK.
  assert (T : same_tree (pm s) (mwrite (pm s) a b) K).
  { apply tree_bytes; [done|]. intros q t c Hq Ht Ec. apply mread_mwrite_ne. intros ->. apply Hn. by exists q, t. }
  split; [|done]. apply (paging_ok_same s); try done. cbn [cr3 set_pm pm]. pose proof (po_rec s K H) as Hr. unfold rec_ok in *.
  rewrite Hc in *. rewrite (frame_root K HK) in *.
  assert (ld64 (mwrite (pm s) a b) (K + 8 * 511) = ld64 (pm s) (K + 8 * 511)) as ->; [|done].
  apply load_ext. intros c Hcc. apply mread_mwrite_ne. intros ->. apply Hn.
  rewrite (entry_frame K 511 c); [apply root_table|apply HK|done|lia].
Qed.

(** A copy through virtual addresses lands at the physical ones. *)
Lemma vputs_spec bytes s K va pa : paging_ok s K -> cr3 s = K -> 0 <= va -> va + zlen bytes <= 2 ^ 47 ->
  (forall j, 0 <= j < zlen bytes -> translate (pm s) K (va + j) = Some (pa + j) /\ ~ is_table s K ((pa + j) / 4096)) ->
  let s' := set_pm s (mputs (pm s) pa bytes) in
  vputs s va bytes = Some s' /\ paging_ok s' K /\ same_tree (pm s) (pm s') K.
Proof.
  revert s va pa. induction bytes as [|b bytes IH]; intros s va pa H Hc H0 Hv Ht; cbn [vputs mputs].
  { by destruct s. }
  rewrite zlen_cons in *. pose proof (zlen_nonneg bytes) as Hz. pose proof (po_K s K H) as HK.
  destruct (Ht 0 ltac:(lia)) as [T0 N0]. rewrite !Z.add_0_r in *. rewrite Hc, T0. cbn [mbind option_bind].
  destruct (write_outside s K pa b H Hc N0) as [H1 S1]. set (s1 := set_pm s (mwrite (pm s) pa b)) in *.
  destruct (IH s1 (va + 1) (pa + 1) H1 Hc) as (E & P & S2); [lia|lia| |].
  - intros j Hj. destruct (Ht (1 + j) ltac:(lia)) as [T1 N1]. rewrite !Z.add_assoc in *. split.
    + rewrite (translate_same (pm s)); [done|done|unfold low; lia|apply H|exact S1].
    + by rewrite (is_table_same s).
  - cbv zeta in *. rewrite E. split_and!; [done|done|]. by apply (same_tree_trans _ (pm s1)).
Qed.

(** ** Lemmas: mapping a range *)

Definition range_cost (mk st en : Z) : Z := mk * ((en - st) / 4096) + 3 * (en / 2 ^ 21 - st / 2 ^ 21 + 1).

Lemma map_step s T pid start e pa flags sa mk n m st en :
  paging_ok s T -> 0 < pid < 256 -> 0 <= start <= e -> e + 8192 <= 2 ^ 47 -> 0 <= pa -> pa + (e - start) + 8192 <= 2 ^ 52 ->
  0 <= flags < 4096 -> Z.odd flags = true -> st = aalign_down start PAGE_SIZE -> en = aalign e PAGE_SIZE ->
  sa = 0 \/ en <= 2 ^ 32 -> mk = 1 \/ mk = 0 /\ marks_free s PROC_FRAMES sa st en ->
  budget s (n + 4 * ((en - st) / 4096)) (m + range_cost mk st en) -> 0 <= n -> 0 <= m ->
  exists s', map_memory_range_with_flags s pid start e pa flags sa = Some s' /\ paging_ok s' T /\ budget s' n m /\
    (range_cost mk st en <= free_below PROC_FRAMES s) /\ edits T PROC_FRAMES (range_cost mk st en) s s' /\
    (forall va, low va -> st <= va < en -> translate (pm s') T va = Some (aalign_down pa PAGE_SIZE + (va - st))) /\
    (forall va, low va -> va < st \/ en <= va -> translate (pm s') T va = translate (pm s) T va).
Proof.
  intros H Hpid Hs Hcan Hpa Hpb Hf Hodd -> -> Hsa Hmk [B1 B2] Hn Hm.
  destruct (map_memory_range_spec s T pid start e pa flags sa) as (s' & E & P & _ & F & Tr & O); try done; [unfold PAGE_SIZE in *; lia|].
  pose proof (map_memory_range_edits s T PROC_FRAMES pid start e pa flags sa mk s') as D.
  assert (D' := D H Hpid Hs Hcan Hpa Hpb Hf Hodd ltac:(unfold PAGE_SIZE in *; lia) ltac:(done) Hmk E). clear D.
  exists s'. pose proof (ed_below _ _ _ _ _ D') as Hb. split_and!; try done; try split; unfold range_cost, PAGE_SIZE in *; lia.
Qed.

(** The window of the kernel and of every process. *)
Lemma window_map s T pid a sa n m : paging_ok s T -> 0 < pid < 256 -> 0 <= a < 2 ^ 51 -> a mod 4096 = 0 ->
  budget s (n + 16384) (m + 27) -> 0 <= n -> 0 <= m ->
  exists s', map_memory_range_with_flags s pid PROC_WINDOW_START PROC_WINDOW_END a PAGE_MAP_FLAGS sa = Some s' /\
    paging_ok s' T /\ budget s' n m /\ 27 <= free_below PROC_FRAMES s /\ edits T PROC_FRAMES 27 s s' /\
    (forall j, 0 <= j < 2 ^ 24 -> translate (pm s') T (PROC_WINDOW_START + j) = Some (a + j)) /\
    (forall va, low va -> va < PROC_WINDOW_START -> translate (pm s') T va = translate (pm s) T va).
Proof.
  intros H Hpid Ha Hal B Hn Hm. destruct PAGE_MAP_FLAGS_ok as [F1 F2].
  destruct (map_step s T pid PROC_WINDOW_START PROC_WINDOW_END a PAGE_MAP_FLAGS sa 0 n m 0x3FF0000 0x4FF0000)
    as (s' & E & P & B' & Hc & D & Tr & O); try done; try (change PROC_WINDOW_END with 0x4FEFFFF; change PROC_WINDOW_START with 0x3FF0000; lia).
  { right. split; [done|]. right. left. by vm_compute. }
  exists s'. split_and!; try done; change PROC_WINDOW_START with 0x3FF0000.
  - intros j Hj. rewrite Tr by (unfold low; lia). rewrite (aligned_down a) by lia. f_equal. lia.
  - intros va Hl Hva. apply O; [done|lia].
Qed.

(** One page at its own address. *)
Lemma page_map s T pid p n m : paging_ok s T -> 0 < pid < 256 -> 0 <= p < 2 ^ 32 -> p mod 4096 = 0 ->
  budget s (n + 4) (m + 7) -> 0 <= n -> 0 <= m ->
  exists s', map_memory_range s pid p (p + PAGE_SIZE - 1) p = Some s' /\ paging_ok s' T /\ budget s' n m /\
    7 <= free_below PROC_FRAMES s /\ edits T PROC_FRAMES 7 s s' /\
    (forall o, 0 <= o < 4096 -> translate (pm s') T (p + o) = Some (p + o)) /\
    (forall va, low va -> va < p \/ p + 4096 <= va -> translate (pm s') T va = translate (pm s) T va).
Proof.
  intros H Hpid Hp Hal [B1 B2] Hn Hm. destruct PAGE_MAP_FLAGS_ok as [F1 F2].
  pose proof (page_end p ltac:(lia) Hal) as En.
  assert (C : range_cost 1 p (p + 4096) <= 7) by (unfold range_cost; zlia).
  assert (Q : (p + 4096 - p) / 4096 = 1) by (replace (p + 4096 - p) with 4096 by lia; done).
  destruct (map_step s T pid p (p + PAGE_SIZE - 1) p PAGE_MAP_FLAGS 1 1 n m p (p + 4096))
    as (s' & E & P & B' & Hc & D & Tr & O); try done; try (unfold PAGE_SIZE; lia); [by rewrite aligned_down by lia|right; zlia| |].
  { rewrite Q. split; lia. }
  exists s'. split_and!; try done; [lia|by apply (edits_weaken T PROC_FRAMES (range_cost 1 p (p + 4096)))|].
  intros o Ho. rewrite Tr by (unfold low; lia). rewrite (aligned_down p) by lia. f_equal. lia.
Qed.

(** ** Lemmas: the kernel's tables and another tree *)

Lemma kernel_edits s s' c : kernel_ok s -> paging_ok s' PML4_KERNEL -> edits PML4_KERNEL PROC_FRAMES c s s' ->
  c <= free_below PROC_FRAMES s ->
  translate (pm s') PML4_KERNEL (PML4_KERNEL + 8 * 511) = translate (pm s) PML4_KERNEL (PML4_KERNEL + 8 * 511) -> kernel_ok s'.
Proof.
  intros [K1 K2 K3 K4] P D Hc Ht. split; [done|by rewrite (ed_cr3 _ _ _ _ _ D)| |by rewrite Ht].
  intros f Hf. destruct (ed_low _ _ _ _ _ D Hc f Hf) as [Hf'|]; [by apply K3|done].
Qed.

Lemma apart_edits s s' R c : apart s R -> edits PML4_KERNEL PROC_FRAMES c s s' ->
  apart s' R /\ same_tree (pm s) (pm s') R.
Proof.
  intros [A1 AS A2] D. assert (T : same_tree (pm s) (pm s') R).
  { apply (edits_other _ _ _ _ _ _ D A1). intros f Hf. by destruct (A2 f Hf) as (? & ? & _). }
  split; [|done]. split; [done|by apply (same_small (pm s))|]. intros f Hf%(is_table_same _ _ _ _ T). destruct (A2 f Hf) as (U & N & L).
  split_and!; [by apply (ed_mono _ _ _ _ _ D)| |done]. intros Hk. by destruct (ed_new _ _ _ _ _ D f Hk).
Qed.

Lemma kernel_leaf s s' : kernel_ok s -> paging_ok s' PML4_KERNEL -> leaf_edits PML4_KERNEL s s' ->
  translate (pm s') PML4_KERNEL (PML4_KERNEL + 8 * 511) = translate (pm s) PML4_KERNEL (PML4_KERNEL + 8 * 511) -> kernel_ok s'.
Proof.
  intros [K1 K2 K3 K4] P A Ht. split; [done|by rewrite (le_cr3 _ _ _ A)| |by rewrite Ht].
  intros f Hf. apply K3. by apply (leaf_is_table _ _ _ _ A).
Qed.

Lemma apart_leaf s s' R : apart s R -> leaf_edits PML4_KERNEL s s' ->
  apart s' R /\ same_tree (pm s) (pm s') R.
Proof.
  intros [A1 AS A2] A. assert (T : same_tree (pm s) (pm s') R).
  { apply (leaf_edits_other _ _ _ _ A A1). intros f Hf. by destruct (A2 f Hf) as (? & ? & _). }
  split; [|done]. split; [done|by apply (same_small (pm s))|]. intros f Hf%(is_table_same _ _ _ _ T). destruct (A2 f Hf) as (U & N & L).
  split_and!; [unfold used; by rewrite (le_alloc _ _ _ A)| |done]. by rewrite (leaf_is_table _ _ _ _ A).
Qed.

(** A word stored in a frame that holds no table of the tree. *)
Lemma store_other m a v R : 0 <= R < 2 ^ 52 /\ R mod 4096 = 0 -> a mod 8 = 0 ->
  (forall q t, tpath q -> tbl m R q = Some t -> t / 4096 <> a / 4096) -> same_tree m (st64 m a v) R.
Proof.
  intros HR Ha H. apply tree_bytes; [done|]. intros q t b Hq Ht Eb. apply mread_store_out. pose proof (H q t Hq Ht). simpl. zlia.
Qed.

(** The recursive entry of a root is on no path of its tree. *)
Lemma store_slot s K m v : paging_ok s K -> same_tree (pm s) m K -> same_tree m (st64 m (K + 8 * 511) v) K.
Proof.
  intros H S q t j Hq Hj Hj0 Ht. rewrite (same_tbl _ _ _ S q (proj1 Hq)) in Ht.
  destruct (tbl_aligned _ _ _ _ (po_K s K H) Ht) as [_ Hal]. apply load_store_out.
  destruct (entries_apart K 511 t j) as [|]; [apply (po_K s K H)|done|done|done| |simpl; lia|simpl; lia].
  intros E. injection E as E1 E2. subst t j. pose proof (po_inj s K H q [] K Hq tpath_nil Ht eq_refl) as ->. by apply Hj0.
Qed.

(** ** Lemmas: the turned slot *)

Definition K_FRAME : Z := PML4_KERNEL / 4096.

(** While the slot leads to [R], edits go to [R]'s tree; the kernel's is that of
    [base]. *)
Record twin (base s : mach) (R : Z) : Prop := Twin {
  tw_ok : paging_ok s R;
  tw_cr3 : cr3 s = PML4_KERNEL;
  tw_num : num_pages (allocator s) = num_pages (allocator base);
  tw_used : forall x, used base x -> used s x;
  tw_kernel : same_tree (pm base) (pm s) PML4_KERNEL;
  tw_tables : forall f, is_table s R f -> ~ is_table base PML4_KERNEL f /\ f < PROC_FRAMES;
}.

Lemma kernel_root : 0 <= PML4_KERNEL < 2 ^ 52 /\ PML4_KERNEL mod 4096 = 0.
Proof. vm_compute. intuition discriminate. Qed.

Lemma kernel_used s f : kernel_ok s -> is_table s PML4_KERNEL f -> used s f.
Proof. intros H (p & t & Hp & Ht & <-). by apply (po_used s _ (ko_paging s H) p). Qed.

Lemma twin_edits base s s' R c : kernel_ok base -> twin base s R -> paging_ok s' R -> edits R PROC_FRAMES c s s' ->
  c <= free_below PROC_FRAMES s -> twin base s' R.
Proof.
  intros Hb [T1 T2 T3 T4 T5 T6] P D Hc.
  assert (S : same_tree (pm s) (pm s') PML4_KERNEL).
  { apply (edits_other _ _ _ _ _ _ D kernel_root). intros f Hf%(is_table_same _ _ _ _ T5).
    split; [by apply T4, kernel_used|]. intros Hr. by destruct (T6 f Hr). }
  split; [done|by rewrite (ed_cr3 _ _ _ _ _ D)|by rewrite (ed_num _ _ _ _ _ D)| |by apply (same_tree_trans _ (pm s))|].
  - intros x Hx. by apply (ed_mono _ _ _ _ _ D), T4.
  - intros f Hf. split.
    + intros Hk. destruct (ed_new _ _ _ _ _ D f Hf) as [Ho|Hn]; [by destruct (T6 f Ho)|]. by apply Hn, T4, kernel_used.
    + destruct (ed_low _ _ _ _ _ D Hc f Hf) as [Ho|]; [by destruct (T6 f Ho)|done].
Qed.

Lemma load_zero n m a : (forall b, a <= b < a + Z.of_nat n -> mread m b = 0) -> load n m a = 0.
Proof.
  revert a. induction n as [|n IH]; intros a H; [done|].
  change (load (S n) m a) with (mread m a + 256 * load n m (a + 1)). rewrite (H a) by lia. rewrite IH; [done|].
  intros b Hb. apply H. lia.
Qed.

(** A root whose entries are all empty but the recursive one. *)
Lemma bare_tree m R p t : (forall i, idx i -> i <> 511 -> ld64 m (R + 8 * i) = 0) -> tpath p -> tbl m R p = Some t -> p = [] /\ t = R.
Proof.
  intros Hz [(Hi & _ & H511) _] Ht. destruct p as [|i p]; [by injection Ht as <-|]. cbn [tbl] in Ht.
  apply list.Forall_cons in Hi as [Hi _]. rewrite (Hz i Hi H511) in Ht. done.
Qed.

Section Turn.
Context (base : mach) (j : Z).
Hypothesis Hbase : kernel_ok base.
Hypothesis Hj : 0 < j < PROC_FRAMES.
Hypothesis Hused : used base j.
Hypothesis Hnot : ~ is_table base PML4_KERNEL j.
Hypothesis Hzero : forall b, j * 4096 <= b < j * 4096 + 4096 -> mread (pm base) b = 0.

Let R := j * 4096.
Let v := Z.lor R PAGE_MAP_FLAGS.
Let m4 := st64 (pm base) (R + 8 * 511) v.
Let m5 := st64 m4 (PML4_KERNEL + 8 * 511) v.

Lemma turn_root : 0 <= R < 2 ^ 52 /\ R mod 4096 = 0 /\ R / 4096 = j.
Proof. unfold R, PROC_FRAMES in *. rewrite Z.mod_mul, Z.div_mul by lia. lia. Qed.

Lemma turn_apart : R + 4096 <= PML4_KERNEL \/ PML4_KERNEL + 4096 <= R.
Proof.
  assert (j <> K_FRAME) by (intros ->; apply Hnot; apply (root_table base PML4_KERNEL)). unfold R, K_FRAME, PML4_KERNEL in *. zlia.
Qed.

Lemma turn_entry : 0 <= v < 2 ^ 64 /\ present v = true /\ frame v = R /\ large v = false.
Proof.
  destruct turn_root as (H1 & H2 & _). destruct PAGE_MAP_FLAGS_ok as [F1 F2].
  destruct (page_entry R PAGE_MAP_FLAGS H1 H2 F1) as [HL HF]. unfold v.
  split_and!; [lia|lia| |done|by rewrite HL; apply large_small].
  rewrite present_odd, HL, Z.odd_add, F2. assert (Z.odd R = false) as ->; [|done].
  unfold R. rewrite Z.odd_mul. apply andb_false_r.
Qed.

Lemma turn_empty i : idx i -> i <> 511 -> ld64 m5 (R + 8 * i) = 0.
Proof.
  unfold idx. intros Hi N. pose proof turn_apart. unfold m5, m4. rewrite !load_store_out by (simpl; lia).
  apply load_zero. intros b Hb. apply Hzero. unfold R in *. lia.
Qed.

Lemma turn_rec : ld64 m5 (PML4_KERNEL + 8 * 511) = v /\ ld64 m5 (R + 8 * 511) = v.
Proof.
  destruct turn_entry as (Hv & _). pose proof turn_apart. unfold m5. rewrite ld64_st64, u64_small by lia.
  rewrite load_store_out by (simpl; lia). unfold m4. by rewrite ld64_st64, u64_small by lia.
Qed.

Lemma turn_kernel : same_tree (pm base) m4 PML4_KERNEL.
Proof.
  destruct turn_root as (_ & _ & R3). apply (store_other _ _ _ _ kernel_root); [unfold R; zlia|].
  intros q t Hq Ht Et. apply Hnot. exists q, t. split_and!; [done|done|]. rewrite Et, <- R3. unfold R. zlia.
Qed.

(** The two stores of alloc_proc that turn the slot. *)
Lemma turn_stores : translate (pm base) PML4_KERNEL (R + 8 * 511) = Some (R + 8 * 511) ->
  init_recursive_paging base R = Some (set_pm base m4) /\
  vst64 (set_pm base m4) (kpml4 + 8 * PML4_RECURSIVE_ENTRY_NUM) v = Some (set_pm base m5).
Proof.
  intros Ht. unfold init_recursive_paging, vst64, kpml4, PML4_RECURSIVE_ENTRY_NUM. cbn [cr3 set_pm pm]. rewrite (ko_cr3 base Hbase), Ht. split; [done|].
  rewrite (translate_same (pm base) m4); [by rewrite (ko_self base Hbase)|apply kernel_root|unfold low, PML4_KERNEL; lia|apply Hbase|apply turn_kernel].
Qed.

Lemma twin_start : twin base (set_pm base m5) R.
Proof.
  destruct turn_root as (R1 & R2 & R3). destruct turn_entry as (Hv & Hp & Hf & Hlg). destruct turn_rec as [E1 E2].
  pose proof (ko_paging base Hbase) as Hk. pose proof (ko_cr3 base Hbase) as Hc. pose proof (frame_root _ kernel_root) as FK.
  assert (Bare : forall p t, tpath p -> tbl m5 R p = Some t -> p = [] /\ t = R) by (intros p t; apply bare_tree, turn_empty).
  split; cbn [pm cr3 set_pm allocator]; try done.
  - split; cbn [pm cr3 set_pm allocator]; [|done|apply Hk|apply Hk| | | |].
    + unfold rec_ok. rewrite Hc, FK, E1, E2. done.
    + intros p t Hpp Ht. destruct (Bare p t Hpp Ht) as [_ ->]. by rewrite R3.
    + intros p q t Hpp Hq H1 H2. destruct (Bare p t Hpp H1) as [-> _], (Bare q t Hq H2) as [-> _]. done.
    + rewrite Hc, FK. split; [apply (kernel_used base _ Hbase), root_table|]. intros p Hpp Ht. by destruct (Bare p _ Hpp Ht).
    + intros q i t Hqi _ Ht. destruct (valid_snoc _ _ Hqi) as [Hq Hi]. destruct (Bare q t Hq Ht) as [-> ->].
      rewrite turn_empty; [done|done|]. by destruct Hqi as (_ & _ & ?).
  - apply (same_tree_trans _ m4); [apply turn_kernel|]. by apply (store_slot base PML4_KERNEL), turn_kernel.
  - intros f (p & t & Hpp & Ht & <-). destruct (Bare p t Hpp Ht) as [_ ->]. rewrite R3. split; [done|lia].
Qed.

Lemma turn_slot : translate (pm base) PML4_KERNEL (R + 8 * 511) = Some (R + 8 * 511) ->
  exists s4 s5, init_recursive_paging base R = Some s4 /\
    vst64 s4 (kpml4 + 8 * PML4_RECURSIVE_ENTRY_NUM) (Z.lor R PAGE_MAP_FLAGS) = Some s5 /\
    twin base s5 R /\ allocator s5 = allocator base.
Proof.
  intros Ht. destruct (turn_stores Ht) as [E4 E5]. exists (set_pm base m4), (set_pm base m5). split_and!; try done. apply twin_start.
Qed.

End Turn.

(** The slot turned back. *)
Lemma twin_end base s R : kernel_ok base -> twin base s R ->
  let s' := set_pm s (st64 (pm s) (PML4_KERNEL + 8 * 511) (Z.lor PML4_KERNEL PAGE_MAP_FLAGS)) in
  vst64 s (kpml4 + 8 * PML4_RECURSIVE_ENTRY_NUM) (Z.lor kpml4 PAGE_MAP_FLAGS) = Some s' /\ kernel_ok s' /\ apart s' R /\
  same_tree (pm s) (pm s') R.
Proof.
  intros Hb T. pose proof T as [T1 T2 T3 T4 T5 T6]. cbv zeta. set (v := Z.lor PML4_KERNEL PAGE_MAP_FLAGS).
  assert (LK : low (PML4_KERNEL + 8 * 511)) by (unfold low, PML4_KERNEL; lia).
  assert (E : translate (pm s) PML4_KERNEL (PML4_KERNEL + 8 * 511) = Some (PML4_KERNEL + 8 * 511)).
  { rewrite (translate_same (pm base) (pm s)) by (done || apply kernel_root || apply Hb). apply Hb. }
  assert (SK : same_tree (pm s) (st64 (pm s) (PML4_KERNEL + 8 * 511) v) PML4_KERNEL).
  { apply (store_slot base); [apply Hb|done]. }
  assert (SK' : same_tree (pm base) (st64 (pm s) (PML4_KERNEL + 8 * 511) v) PML4_KERNEL).
  { by apply (same_tree_trans _ (pm s)). }
  assert (SR : same_tree (pm s) (st64 (pm s) (PML4_KERNEL + 8 * 511) v) R).
  { apply (store_other _ _ _ _ (po_K s R T1)); [done|]. intros q t Hq Ht Et. destruct (T6 K_FRAME) as [Hn _]; [by exists q, t|].
    apply Hn, (root_table base). }
  split; [|split; [|split; [|done]]].
  - unfold vst64. rewrite T2. unfold kpml4, PML4_RECURSIVE_ENTRY_NUM. by rewrite E.
  - split; cbn [pm cr3 set_pm]; [|done| |].
    + apply (paging_ok_same base); cbn [pm cr3 set_pm allocator]; try done; [apply Hb| |by rewrite T2, (ko_cr3 base Hb)].
      unfold rec_ok. rewrite T2, (frame_root _ kernel_root). rewrite ld64_st64. by vm_compute.
    + intros f Hf. apply (ko_low base Hb). by apply (is_table_same base (set_pm s (st64 (pm s) (PML4_KERNEL + 8 * 511) v))).
    + rewrite (translate_same (pm base)) by (done || apply kernel_root || apply Hb). apply Hb.
  - split; [apply (po_K s R T1)|apply (same_small (pm s)); [exact SR|apply T1]|]. intros f Hf%(is_table_same s); [|exact SR]. destruct (T6 f Hf) as [N L].
    split_and!; [|by rewrite (is_table_same base)|done]. destruct Hf as (p & t & Hp & Ht & <-). by apply (po_used s R T1 p).
Qed.

(** ** Lemmas: alloc_proc *)

Lemma flush_tlb_id s : flush_tlb s = s.
Proof. by destruct s. Qed.

Lemma allocate_pid_range bm p : (allocate_pid bm).2 = p -> p <> 0 -> 0 < p < 256.
Proof.
  unfold allocate_pid. assert (K : forall k i, 0 <= i -> let q := (allocate_pid_loop k bm i).2 in q = 0 \/ i <= q < i + Z.of_nat k).
  { induction k as [|k IH]; intros i Hi; cbn [allocate_pid_loop]; [by left|]. destruct (_ && _); [right; cbn; lia|].
    destruct (IH (i + 1)) as [|]; cbv zeta in *; [lia|by left|right; lia]. }
  intros <- N. destruct (K (Z.to_nat MAX_NUM_OF_PROCESS) 0) as [|Hr]; [lia|done|]. unfold MAX_NUM_OF_PROCESS in *. lia.
Qed.

Lemma allocate_proc_mem_range bm a : (allocate_proc_mem bm).2 = a -> a <> 0 ->
  PROC_FRAMES * 4096 <= a < 2 ^ 51 /\ a mod 4096 = 0.
Proof.
  unfold allocate_proc_mem.
  assert (K : forall k i, 0 <= i -> let q := (allocate_proc_mem_loop k bm i).2 in
    q = 0 \/ exists x, i <= x < i + Z.of_nat k /\ q = PROC_FRAMES * 4096 + x * 16777216).
  { induction k as [|k IH]; intros i Hi; cbn [allocate_proc_mem_loop]; [by left|]. destruct (_ =? 0).
    - right. exists i. split; [lia|]. cbn [snd]. unfold HARDWARE_MEM_START, KERNEL_HEAP_START, KERNEL_HEAP_SIZE_PAGES, PAGE_SIZE, PROC_FRAMES, MB. lia.
    - destruct (IH (i + 1)) as [|(x & Hx & E)]; cbv zeta in *; [lia|by left|right; exists x; split; [lia|done]]. }
  intros <- N. destruct (K (Z.to_nat MAX_NUM_OF_PROCESS) 0) as [|(x & Hx & E)]; [lia|done|]. cbv zeta in E. rewrite E in *.
  unfold MAX_NUM_OF_PROCESS, PROC_FRAMES in *. split; [lia|zlia].
Qed.

(** The bounds of the ranges of alloc_proc. *)
Lemma proc_ranges : PROC_KERNEL_ADDR = 8388608 /\ PAGE_FRAME_ALLOCATOR_END = 11534335 /\ KERNEL_VBASE - KERNEL_LOAD_ADDR = 8388608 /\
  PROC_SLOT_SIZE = 131072 /\ KERNEL_HEAP_START = 33554432 /\ KERNEL_HEAP_SIZE_PAGES * 512 = 524288.
Proof. by vm_compute. Qed.

(** A range of the other tree. *)
Lemma twin_step base s R pid start e pa mk n m st en : kernel_ok base -> twin base s R ->
  0 < pid < 256 -> 0 <= start <= e -> e + 8192 <= 2 ^ 47 -> 0 <= pa -> pa + (e - start) + 8192 <= 2 ^ 52 ->
  st = aalign_down start PAGE_SIZE -> en = aalign e PAGE_SIZE -> mk = 1 -> en <= 2 ^ 32 ->
  budget s (n + 4 * ((en - st) / 4096)) (m + range_cost mk st en) -> 0 <= n -> 0 <= m ->
  exists s', map_memory_range s pid start e pa = Some s' /\ twin base s' R /\ budget s' n m /\
    (forall va, low va -> va < st \/ en <= va -> translate (pm s') R va = translate (pm s) R va).
Proof.
  intros Hb T Hpid Hs He Hpa Hpb Est Een Hmk Hlim B Hn Hm. destruct PAGE_MAP_FLAGS_ok as [F1 F2].
  destruct (map_step s R pid start e pa PAGE_MAP_FLAGS 1 mk n m st en) as (s' & E & P & B' & Hc & D & _ & O); try done; [apply T|by right|by left|].
  exists s'. split_and!; try done. by apply (twin_edits base s s' R (range_cost mk st en)).
Qed.

(** The tree of a new process: five ranges; the window leads to its memory. *)
Lemma process_tree base s R pid a n m : kernel_ok base -> twin base s R -> 0 < pid < 256 -> 0 <= a < 2 ^ 51 -> a mod 4096 = 0 ->
  0 <= R < PROC_FRAMES * 4096 -> budget s (n + 20100) (m + 974) -> 0 <= n -> 0 <= m ->
  exists s1 s2 s3 s4 s5, map_memory_range s pid R (R + PAGE_SIZE - 1) R = Some s1 /\
    map_memory_range s1 pid PROC_WINDOW_START PROC_WINDOW_END a = Some s2 /\
    map_memory_range s2 pid PROC_KERNEL_ADDR PAGE_FRAME_ALLOCATOR_END (KERNEL_VBASE - KERNEL_LOAD_ADDR) = Some s3 /\
    map_memory_range s3 pid (PAGE_FRAME_ALLOCATOR_END + 1) (PAGE_FRAME_ALLOCATOR_END + PROC_SLOT_SIZE) 0 = Some s4 /\
    map_memory_range s4 pid KERNEL_HEAP_START (KERNEL_HEAP_START + KERNEL_HEAP_SIZE_PAGES * 512 - 1) KERNEL_HEAP_START = Some s5 /\
    twin base s5 R /\ budget s5 n m /\
    forall j, 0 <= j < 2 ^ 24 -> translate (pm s5) R (PROC_WINDOW_START + j) = Some (a + j).
Proof.
  intros Hb T Hpid Ha Hal HR [B1 B2] Hn Hm. destruct (po_K s R (tw_ok _ _ _ T)) as [_ R2].
  destruct proc_ranges as (-> & -> & -> & -> & -> & ->).
  destruct (page_map s R pid R (n + 20096) (m + 967)) as (s1 & E1 & P1 & Bd1 & C1 & D1 & _);
    [apply T|done|unfold PROC_FRAMES in *; lia|done|split; lia|lia|lia|].
  pose proof (twin_edits base s s1 R 7 Hb T P1 D1 C1) as T1.
  destruct (window_map s1 R pid a 1 (n + 3712) (m + 940)) as (s2 & E2 & P2 & Bd2 & C2 & D2 & W2 & _);
    [done|done|done|done|split; unfold budget in *; lia|lia|lia|].
  pose proof (twin_edits base s1 s2 R 27 Hb T1 P2 D2 C2) as T2.
  destruct (twin_step base s2 R pid 8388608 11534335 8388608 1 (n + 640) (m + 166) 8388608 11534336)
    as (s3 & E3 & T3 & Bd3 & O3); try done; try lia.
  { change (range_cost 1 8388608 11534336) with 774. change ((11534336 - 8388608) / 4096) with 768. split; unfold budget in *; lia. }
  destruct (twin_step base s3 R pid (11534335 + 1) (11534335 + 131072) 0 1 (n + 512) (m + 131) 11534336 11665408)
    as (s4 & E4 & T4 & Bd4 & O4); try done; try lia.
  { change (range_cost 1 11534336 11665408) with 35. change ((11665408 - 11534336) / 4096) with 32. split; unfold budget in *; lia. }
  destruct (twin_step base s4 R pid 33554432 (33554432 + 524288 - 1) 33554432 1 n m 33554432 34078720)
    as (s5 & E5 & T5 & Bd5 & O5); try done; try lia.
  exists s1, s2, s3, s4, s5. split_and!; try done. intros j Hj. change PROC_WINDOW_START with 0x3FF0000 in *.
  rewrite O5, O4, O3, W2 by (unfold low; lia). done.
Qed.

(** The page of the new root, and the kernel's view of it and of the window. *)
Lemma new_root s pid a n m : kernel_ok s -> 0 < pid < 256 -> 0 <= a < 2 ^ 51 -> a mod 4096 = 0 ->
  budget s (n + 16389) (m + 35) -> 0 <= n -> 0 <= m ->
  exists j s1 s2 s3, allocate_page s pid = (s1, j * 4096) /\ 0 < j < PROC_FRAMES /\
    map_memory_range s1 KERNEL_PID (j * 4096) (j * 4096 + PAGE_SIZE - 1) (j * 4096) = Some s2 /\
    map_memory_range s2 KERNEL_PID PROC_WINDOW_START PROC_WINDOW_END a = Some s3 /\
    kernel_ok s3 /\ budget s3 n m /\ used s3 j /\ ~ is_table s3 PML4_KERNEL j /\
    translate (pm s3) PML4_KERNEL (j * 4096 + 8 * 511) = Some (j * 4096 + 8 * 511) /\
    (forall b, b / 4096 = j -> mread (pm s3) b = mread (pm s) b).
Proof.
  intros Hk Hpid Ha Hal [B1 B2] Hn Hm. pose proof (ko_paging s Hk) as P0.
  destruct (allocate_page_spec s pid _ P0) as [(j & Hj & Hfree & Hmin & E)|[Hz _]]; [|lia].
  assert (HjL : 0 < j < PROC_FRAMES).
  { destruct (nfree_pos (Z.to_nat PROC_FRAMES) (bitmap (allocator s)) 0) as (x & Hx & Ex); [unfold free_below in B2; lia|].
    destruct (Z.lt_ge_cases x j); [exfalso; apply (Hmin x); [lia|done]|]. unfold PROC_FRAMES in *. lia. }
  set (s1 := set_bitmap s (mwrite (bitmap (allocator s)) j pid)) in *.
  pose proof (mark_edits s PML4_KERNEL PROC_FRAMES j pid 1 Hpid ltac:(done) ltac:(by left)) as D1. fold s1 in D1.
  assert (K1 : kernel_ok s1) by (apply (kernel_edits s s1 1); [done|by apply paging_ok_mark|done|lia|done]).
  assert (U1 : used s1 j) by (unfold used; cbn [s1 allocator set_bitmap bitmap]; rewrite mread_mwrite_eq, u8_small; lia).
  assert (N1 : ~ is_table s1 PML4_KERNEL j) by (intros Ht; by apply (kernel_used s j Hk)).
  assert (NK : j <> K_FRAME) by (intros ->; apply N1, (root_table s1 PML4_KERNEL)).
  assert (B : budget s1 (n + 16388) (m + 34)).
  { pose proof (ed_below _ _ _ _ _ D1). split; [|lia]. unfold free_pages in *. cbn [s1 allocator set_bitmap bitmap num_pages].
    pose proof (nfree_write (Z.to_nat (num_pages (allocator s))) (bitmap (allocator s)) 0 j pid). lia. }
  assert (LK : low (PML4_KERNEL + 8 * 511)) by (unfold low, PML4_KERNEL; lia).
  assert (AK : PML4_KERNEL + 8 * 511 < j * 4096 \/ j * 4096 + 4096 <= PML4_KERNEL + 8 * 511) by (unfold K_FRAME, PML4_KERNEL in *; zlia).
  destruct (page_map s1 PML4_KERNEL KERNEL_PID (j * 4096) (n + 16384) (m + 27)) as (s2 & E2 & P2 & Bd2 & C2 & D2 & I2 & O2);
    [apply K1|done|unfold PROC_FRAMES in *; lia|by rewrite Z.mod_mul|split; unfold budget in *; lia|lia|lia|].
  assert (K2 : kernel_ok s2) by (apply (kernel_edits s1 s2 7); try done; by apply O2).
  destruct (window_map s2 PML4_KERNEL KERNEL_PID a 1 n m) as (s3 & E3 & P3 & Bd3 & C3 & D3 & _ & O3); try done.
  assert (K3 : kernel_ok s3) by (apply (kernel_edits s2 s3 27); try done; by apply O3).
  assert (U2 : used s2 j) by by apply (ed_mono _ _ _ _ _ D2).
  assert (N2 : ~ is_table s2 PML4_KERNEL j) by (intros Ht; by destruct (ed_new _ _ _ _ _ D2 j Ht)).
  exists j, s1, s2, s3. split_and!; try done; try apply HjL.
  - by apply (ed_mono _ _ _ _ _ D3).
  - intros Ht. by destruct (ed_new _ _ _ _ _ D3 j Ht).
  - rewrite O3 by (unfold low, PROC_FRAMES, PROC_WINDOW_START, PROC_BIN_ADDR, PAGE_SIZE in *; lia). apply I2. lia.
  - intros b <-. by rewrite (ed_frame _ _ _ _ _ D3), (ed_frame _ _ _ _ _ D2).
Qed.

(** Removing the window from the kernel's tables. *)
Lemma window_unmap s : kernel_ok s -> exists s', unmap_memory_range s PROC_WINDOW_START PROC_WINDOW_END 0 = Some s' /\
  kernel_ok s' /\ leaf_edits PML4_KERNEL s s'.
Proof.
  intros Hk. unfold unmap_memory_range. change (aalign_down PROC_WINDOW_START PAGE_SIZE) with 0x3FF0000.
  change (Z.to_nat ((aalign PROC_WINDOW_END PAGE_SIZE - 0x3FF0000) / PAGE_SIZE)) with (Z.to_nat 4096).
  destruct (unmap_range_spec (Z.to_nat 4096) s PML4_KERNEL 0x3FF0000) as (s' & E & P & A & _ & O); [apply Hk|lia|done|lia|].
  exists s'. split_and!; [done| |done]. apply (kernel_leaf s); try done.
  assert (LK : low (PML4_KERNEL + 8 * 511)) by (unfold low, PML4_KERNEL; lia).
  rewrite (paging_translate s'), (paging_translate s) by (done || apply Hk).
  by rewrite O by (done || (left; by vm_compute)).
Qed.

Definition new_context : cpu_state := CpuState 0 0 0 0 0 0 0 0 0 0 0 0 0 0 0 0 USER_LOAD_ADDR (USER_LOAD_ADDR - 0x16).

(** Steps of an option program, without evaluating them. *)
Lemma bind_some {A B} (x : A) (f : A -> option B) : Some x ≫= f = f x.
Proof. done. Qed.

(** The first frame the allocator gives out is zero. *)
Definition clean_page (s : mach) (pid : Z) : Prop := forall b, b / 4096 = (allocate_page s pid).2 / 4096 -> mread (pm s) b = 0.

Lemma alloc_proc_spec k pcb_ptr node_ptr pidv a n m : kernel_ok (km k) ->
  (allocate_pid (process_pid_bitmap k)).2 = pidv -> pidv <> 0 -> (allocate_proc_mem (process_mem_bitmap k)).2 = a -> a <> 0 ->
  clean_page (km k) pidv -> budget (km k) (n + 36489) (m + 1009) -> 0 <= n -> 0 <= m ->
  exists k' R, alloc_proc k pcb_ptr node_ptr = Some (k', pcb_ptr) /\ kernel_ok (km k') /\ apart (km k') R /\ budget (km k') n m /\
    0 <= R < PROC_FRAMES * 4096 /\
    (forall j, 0 <= j < 2 ^ 24 -> translate (pm (km k')) R (PROC_WINDOW_START + j) = Some (a + j)) /\
    pcbs k' = <[pcb_ptr := Pcb 0 pidv WAITING a R kpml4 (USER_LOAD_ADDR - 0x16) KERNEL_HEAP_START 0 new_context node_ptr]> (pcbs k) /\
    current_pcb k' = current_pcb k.
Proof.
  intros Hk Hpid N0 Hmem Na Hclean [B1 B2] Hn Hm. pose proof (allocate_pid_range _ _ Hpid N0) as Hp.
  destruct (allocate_proc_mem_range _ _ Hmem Na) as [Ha Hal]. assert (Ha' : 0 <= a < 2 ^ 51) by (unfold PROC_FRAMES in Ha; lia).
  unfold alloc_proc. destruct (allocate_pid (process_pid_bitmap k)) as [pidbm p]. cbn [snd] in Hpid. subst p.
  destruct (allocate_proc_mem (process_mem_bitmap k)) as [membm x]. cbn [snd] in Hmem. subst x.
  set (s0 := set_ready (cli (km k)) false). assert (K0 : kernel_ok s0) by (destruct Hk as [[] ? ? ?]; by split).
  destruct (new_root s0 pidv a (n + 20100) (m + 974)) as (j & s1 & s2 & s3 & E1 & Hj & E2 & E3 & K3 & Bd3 & U3 & N3 & I3 & Z3);
    [done|done|done|done|apply (budget_same (km k)); [done|split; lia]|lia|lia|].
  assert (Hz : forall b, j * 4096 <= b < j * 4096 + 4096 -> mread (pm s3) b = 0).
  { intros b Hb. rewrite Z3 by zlia. apply Hclean. unfold allocate_page in *. cbn [s0 allocator cli set_ready] in E1.
    destruct (allocate_loop _ _ _ _) as [bb q]. injection E1 as _ ->. cbn [snd]. rewrite Z.div_mul by lia. zlia. }
  destruct (turn_slot s3 j K3 Hj U3 N3 Hz I3) as (s4 & s5 & E4 & E5 & T5 & A5). set (R := j * 4096) in *.
  pose proof (budget_same s3 s5 _ _ A5 Bd3) as Bd5.
  destruct (process_tree s3 s5 R pidv a n m) as (t1 & t2 & t3 & t4 & t5 & F1 & F2 & F3 & F4 & F5 & T & Bd & W); [done|done|done|done|done|unfold R; lia|done|done|done|].
  destruct (twin_end s3 t5 R K3 T) as (E6 & K6 & A6 & S6). set (s6 := set_pm t5 _) in *.
  destruct (window_unmap s6 K6) as (s7 & E7 & K7 & A7). destruct (apart_leaf s6 s7 R A6 A7) as [A8 S8].
  eexists _, R. split.
  { rewrite E1. cbv beta iota. rewrite E2, bind_some. cbv beta. rewrite E3, bind_some. cbv beta. rewrite E4, bind_some. cbv beta.
    rewrite E5, bind_some. cbv beta zeta. rewrite flush_tlb_id, F1, bind_some. cbv beta. rewrite F2, bind_some. cbv beta.
    rewrite F3, bind_some. cbv beta. rewrite F4, bind_some. cbv beta. rewrite F5, bind_some. cbv beta. rewrite E6, bind_some. cbv beta zeta.
    rewrite flush_tlb_id, E7, bind_some. cbv beta zeta. reflexivity. }
  cbn [km pcbs current_pcb]. set (s8 := sti (set_ready s7 true)).
  assert (A : leaf_edits PML4_KERNEL s7 s8) by by split.
  assert (Bd8 : budget s8 n m).
  { apply (budget_same t5); [|done]. change (allocator s8) with (allocator s7). by rewrite (le_alloc _ _ _ A7). }
  split; [destruct K7 as [[] ? ? ?]; by split|]. split; [by destruct (apart_leaf s7 s8 R A8 A)|]. split; [exact Bd8|].
  split; [unfold R; lia|]. split; [|done].
  intros i Hi. change (pm s8) with (pm s7). assert (low (PROC_WINDOW_START + i)) by (unfold low, PROC_WINDOW_START, PROC_BIN_ADDR, PAGE_SIZE; lia).
  rewrite (translate_same (pm s6) (pm s7)); [|apply A6|done|apply A6|exact S8].
  rewrite (translate_same (pm t5) (pm s6)); [by apply W|apply A6|done|apply (tw_ok _ _ _ T)|exact S6].
Qed.

(** ** Lemmas: loading and running *)

Lemma translate_table m va x : small m PML4_KERNEL -> low va -> translate m PML4_KERNEL va = Some x -> tbl m PML4_KERNEL (table_path va) <> None.
Proof.
  intros Hs Hl. rewrite small_translate by (done || apply kernel_root).
  change (va_path va) with (table_path va ++ [index_at va 12]). rewrite tbl_app. by destruct (tbl _ _ (table_path va)).
Qed.

Definition window_tables (s : mach) : Prop :=
  forall i, 0 <= i < 4096 -> tbl (pm s) PML4_KERNEL (table_path (PROC_WINDOW_START + 4096 * i)) <> None.

Lemma window_low j : 0 <= j < 2 ^ 24 -> low (PROC_WINDOW_START + j).
Proof. unfold low, PROC_WINDOW_START, PROC_BIN_ADDR, PAGE_SIZE. lia. Qed.

(** With its tables in place the window only changes entries. *)
Lemma window_leaf s a s' : kernel_ok s -> window_tables s -> 0 <= a < 2 ^ 51 -> a mod 4096 = 0 ->
  map_memory_range_with_flags s KERNEL_PID PROC_WINDOW_START PROC_WINDOW_END a PAGE_MAP_FLAGS 0 = Some s' -> leaf_edits PML4_KERNEL s s'.
Proof.
  intros Hk Ht Ha Hal. unfold map_memory_range_with_flags. rewrite (aligned_down a) by lia.
  change (aalign_down PROC_WINDOW_START PAGE_SIZE) with 0x3FF0000.
  change (Z.to_nat ((aalign PROC_WINDOW_END PAGE_SIZE - 0x3FF0000) / PAGE_SIZE)) with (Z.to_nat 4096). destruct PAGE_MAP_FLAGS_ok as [F1 F2].
  apply map_range_leaf; try done; try lia. apply Hk.
Qed.

(** Bytes put into the memory of processes. *)
Lemma put_program s R pa bytes : kernel_ok s -> apart s R -> PROC_FRAMES * 4096 <= pa ->
  let s' := set_pm s (mputs (pm s) pa bytes) in
  paging_ok s' PML4_KERNEL -> (same_tree (pm s) (pm s') PML4_KERNEL) ->
  kernel_ok s' /\ apart s' R /\ same_tree (pm s) (pm s') R.
Proof.
  intros Hk [A1 AS A2] Hpa s' P S. assert (SR : same_tree (pm s) (pm s') R).
  { apply tree_bytes; [done|]. intros q t b Hq Ht Eb. apply mread_mputs_out. destruct (A2 (t / 4096)) as (_ & _ & L); [by exists q, t|].
    unfold PROC_FRAMES in *. zlia. }
  split; [|split; [|done]].
  - split; [done|apply Hk| |].
    + intros f Hf%(is_table_same _ _ _ _ S). by apply (ko_low s Hk).
    + rewrite (translate_same (pm s) (pm s')); [apply Hk|apply kernel_root|unfold low, PML4_KERNEL; lia|apply Hk|done].
  - split; [done|by apply (same_small (pm s))|]. intros f Hf%(is_table_same _ _ _ _ SR). destruct (A2 f Hf) as (U & N & L). split_and!; [done| |done].
    by rewrite (is_table_same _ _ _ _ S).
Qed.

Lemma load_proc_mem_spec `{FileLayer} tail fresh k fds pcb path p fds' seg R a n m :
  kernel_ok (km k) -> apart (km k) R -> pcbs k !! pcb = Some p -> pml4 p = R -> real_mem_addr p = a ->
  PROC_FRAMES * 4096 <= a < 2 ^ 51 -> a mod 4096 = 0 -> 0 <= R < PROC_FRAMES * 4096 ->
  readelf tail fresh fds path = Some (fds', Some seg) -> zlen seg <= 2 ^ 24 - 0x10000 -> Forall (fun b => 0 <= b < 256) seg ->
  budget (km k) (n + 16388) (m + 34) -> 0 <= n -> 0 <= m ->
  exists s', load_proc_mem tail fresh k fds pcb path = Some (set_km k s', fds') /\ kernel_ok s' /\ apart s' R /\ budget s' n m /\
    window_tables s' /\ (same_tree (pm (km k)) (pm s') R) /\
    forall i b, seg !! i = Some b -> mread (pm s') (a + 0x10000 + Z.of_nat i) = b.
Proof.
  intros Hk A Hp HR Hreal Ha Hal HRr Hf Hseg Hby Bd Hn Hm. destruct (ap_root _ _ A) as [_ R2].
  assert (NK : R / 4096 <> K_FRAME).
  { intros E. destruct (ap_tables _ _ A (R / 4096) (root_table _ _)) as (_ & N & _). rewrite E in N. apply N, (root_table _ PML4_KERNEL). }
  assert (Ha' : 0 <= a < 2 ^ 51) by (unfold PROC_FRAMES in *; lia). assert (LK : low (PML4_KERNEL + 8 * 511)) by (unfold low, PML4_KERNEL; lia).
  destruct (page_map (km k) PML4_KERNEL KERNEL_PID R (n + 16384) (m + 27)) as (s1 & E1 & P1 & Bd1 & C1 & D1 & _ & O1);
    [apply Hk|done|unfold PROC_FRAMES in *; lia|done|unfold budget in *; lia|lia|lia|].
  assert (K1 : kernel_ok s1).
  { apply (kernel_edits (km k) s1 7); try done. apply O1; [done|]. unfold K_FRAME, PML4_KERNEL in *. zlia. }
  destruct (apart_edits _ s1 R 7 A D1) as [A1 S1].
  destruct (window_map s1 PML4_KERNEL KERNEL_PID a 1 n m) as (s2 & E2 & P2 & Bd2 & C2 & D2 & W2 & O2); try done.
  assert (K2 : kernel_ok s2) by (apply (kernel_edits s1 s2 27); try done; by apply O2).
  destruct (apart_edits _ s2 R 27 A1 D2) as [A2 S2]. pose proof (zlen_nonneg seg) as Hz.
  destruct (vputs_spec seg s2 PML4_KERNEL USER_LOAD_ADDR (a + 0x10000)) as (E3 & P3 & S3);
    [apply K2|apply K2|done|unfold USER_LOAD_ADDR; lia| |].
  { intros j Hj. split; [rewrite <- Z.add_assoc, <- W2 by lia; f_equal; unfold USER_LOAD_ADDR, PROC_WINDOW_START, PROC_BIN_ADDR, PAGE_SIZE; lia|].
    intros Ht%(ko_low s2 K2). unfold PROC_FRAMES in *. zlia. }
  destruct (put_program s2 R (a + 0x10000) seg K2 A2 ltac:(lia) P3 S3) as (K3 & A3 & SR3). set (s3 := set_pm s2 _) in *.
  destruct (window_unmap s3 K3) as (s4 & E4 & K4 & L4). destruct (apart_leaf s3 s4 R A3 L4) as [A4 S4].
  exists s4. split.
  { unfold load_proc_mem. rewrite Hp, bind_some. cbv beta. rewrite HR, Hreal, E1, bind_some. cbv beta. unfold map_memory_range at 1. rewrite E2, bind_some.
    cbv beta. rewrite Hf, bind_some. cbv beta iota. cbn [default from_option id]. rewrite E3, bind_some. cbv beta. by rewrite E4, bind_some. }
  split; [done|]. split; [done|]. split; [|split; [|split]].
  - apply (budget_same s2); [|done]. by rewrite (le_alloc _ _ _ L4).
  - intros i Hi. assert (Hw : low (PROC_WINDOW_START + 4096 * i)) by (apply window_low; lia).
    rewrite (le_tables _ _ _ L4), (same_tbl _ _ _ S3); [|apply table_path_valid, low_index, Hw|by apply table_path_valid, low_index].
    eapply translate_table; [apply K2|done|]. apply W2. lia.
  - by apply (same_tree_trans _ (pm s1)), (same_tree_trans _ (pm s2)), (same_tree_trans _ (pm s3)).
  - intros i b Hi. pose proof (lookup_lt_Some _ _ _ Hi). rewrite (le_frame _ _ _ L4).
    + cbn [s3 pm set_pm]. rewrite (mread_mputs_in _ _ _ _ _ Hi). apply u8_small. exact (list.Forall_lookup_1 _ _ _ _ Hby Hi).
    + intros Ht%(ko_low s3 K3). unfold PROC_FRAMES in *. zlia.
Qed.

(** The whole of exec without a current process. *)
Lemma exec_spec `{FileLayer} tail fresh k fds path pcb_ptr node_ptr fds' seg pidv a :
  kernel_ok (km k) -> current_pcb k = 0 -> 2 ^ 17 <= free_pages (km k) -> 2048 <= free_below PROC_FRAMES (km k) ->
  (allocate_pid (process_pid_bitmap k)).2 = pidv -> pidv <> 0 -> (allocate_proc_mem (process_mem_bitmap k)).2 = a -> a <> 0 ->
  clean_page (km k) pidv ->
  readelf tail fresh fds path = Some (fds', Some seg) -> zlen seg <= 2 ^ 24 - 0x10000 -> Forall (fun b => 0 <= b < 256) seg ->
  exists k' ctx p, exec tail fresh k fds path pcb_ptr node_ptr = Some (k', fds', ctx) /\
    pcbs k' !! pcb_ptr = Some p /\ state p = READY /\ pid p = pidv /\ ppid p = KERNEL_PID /\ current_pcb k' = pcb_ptr /\
    cr3 (km k') = pml4 p /\ c_rip ctx = USER_LOAD_ADDR /\
    (forall i b, seg !! i = Some b -> exists pa,
       translate (pm (km k')) (cr3 (km k')) (c_rip ctx + Z.of_nat i) = Some pa /\ mread (pm (km k')) pa = b) /\
    kernel_ok (set_pml4_address (km k') PML4_KERNEL).
Proof.
  intros Hk Hc B1 B2 Hpid N0 Hmem Na Hclean Hf Hseg Hby. destruct (allocate_proc_mem_range _ _ Hmem Na) as [Ha Hal].
  destruct (alloc_proc_spec k pcb_ptr node_ptr pidv a 32772 61 Hk Hpid N0 Hmem Na Hclean) as (k1 & R & E1 & K1 & A1 & Bd1 & HR & W1 & Hpcb & Hcur);
    [split; lia|lia|lia|]. set (p0 := Pcb _ _ _ _ _ _ _ _ _ _ _) in Hpcb.
  assert (Hp0 : pcbs k1 !! pcb_ptr = Some p0) by (rewrite Hpcb; apply lookup_insert_eq).
  destruct (load_proc_mem_spec tail fresh k1 fds pcb_ptr path p0 fds' seg R a 16384 27) as (s2 & E2 & K2 & A2 & Bd2 & T2 & S2 & M2); try done; try lia.
  set (s3 := cli s2). assert (K3 : kernel_ok s3) by (destruct K2 as [[] ? ? ?]; by split). assert (L3 : leaf_edits PML4_KERNEL s2 s3) by by split.
  destruct (apart_leaf s2 s3 R A2 L3) as [A3 _]. assert (Ha' : 0 <= a < 2 ^ 51) by (unfold PROC_FRAMES in *; lia).
  destruct (window_map s3 PML4_KERNEL KERNEL_PID a 0 0 0) as (s4 & E4 & P4 & _ & _ & _ & _ & O4);
    [apply K3|done|done|done|by apply (budget_same s2)|done|done|].
  pose proof (window_leaf s3 a s4 K3 T2 Ha' Hal E4) as L4. destruct (apart_leaf s3 s4 R A3 L4) as [A4 S4].
  assert (K4 : kernel_ok s4) by (apply (kernel_leaf s3 s4); try done; apply O4; [unfold low, PML4_KERNEL; lia|by vm_compute]).
  set (p1 := with_state (with_ppid p0 KERNEL_PID) READY).
  set (k3 := set_km (set_pcbs (set_km k1 s2) (<[pcb_ptr := p1]> (pcbs k1))) s3).
  exists (set_km (set_current k3 pcb_ptr) (set_pml4_address s4 R)), new_context, p1. split.
  { unfold exec. rewrite E1, bind_some. cbv beta iota. rewrite E2, bind_some. cbv beta iota. change (pcbs (set_km k1 s2)) with (pcbs k1).
    rewrite Hp0, bind_some. cbv beta. change (current_pcb (set_km k1 s2)) with (current_pcb k1). rewrite Hcur, Hc. cbn [Z.eqb negb].
    change (cli (km (set_km k1 s2))) with s3. fold p1 k3. unfold run_proc. change (pcbs k3) with (<[pcb_ptr := p1]> (pcbs k1)).
    rewrite lookup_insert_eq, bind_some. cbv beta zeta. change (km (set_current k3 pcb_ptr)) with s3. change (real_mem_addr p1) with a.
    rewrite E4, bind_some. cbv beta zeta. rewrite flush_tlb_id. reflexivity. }
  split; [apply lookup_insert_eq|]. do 6 (split; [done|]). split.
  - intros i b Hi. exists (a + 0x10000 + Z.of_nat i). pose proof (lookup_lt_Some _ _ _ Hi) as Hlt. unfold zlen in Hseg.
    cbn [km set_km set_pml4_address pm cr3 new_context c_rip]. split.
    + change USER_LOAD_ADDR with (PROC_WINDOW_START + 0x10000). rewrite <- !Z.add_assoc.
      rewrite (translate_same (pm s3) (pm s4)); [|apply A4|apply window_low; lia|apply A3|exact S4].
      change (pm s3) with (pm s2). rewrite (translate_same (pm (km k1)) (pm s2)); [|apply A4|apply window_low; lia|apply A1|exact S2]. apply W1. lia.
    + rewrite (le_frame _ _ _ L4); [by apply M2|]. intros Ht%(ko_low s3 K3). unfold PROC_FRAMES in *. zlia.
  - assert (set_pml4_address (km (set_km (set_current k3 pcb_ptr) (set_pml4_address s4 R))) PML4_KERNEL = s4) as ->; [|done].
    pose proof (ko_cr3 s4 K4) as Hc4. destruct s4. cbn in Hc4 |- *. by subst.
Qed.

(** ** Theorems *)

(** C4: exec runs a program when there is no current process (the first exec,
    from kmain: otherwise exec only prepares the frame of the system call and
    leaves the new process WAITING): from a kernel on its own tables with a free
    pid, a free slot of process memory, 2^17 free frames, 2048 of them below the
    memory of the processes, and a next frame whose bytes are zero (it becomes
    the PML4, which alloc_proc does not clear: process.c, line 107), exec of a
    path whose segment, of at most 2^24 - 64 KiB, readelf delivers does not
    fault anywhere in the mapping and unmapping of the two trees and leaves the
    processor on the new root with the instruction pointer at the load address,
    where the new tables translate every byte of the program to a physical byte
    that holds it; the process is READY with its own pid and is the current one,
    the descriptor table is as readelf left it, and the kernel's tables satisfy
    their invariants again. *)
Theorem exec_runs_program `{FileLayer} tail fresh k fds path pcb_ptr node_ptr fds' seg pidv a :
  kernel_ok (km k) -> current_pcb k = 0 -> 2 ^ 17 <= free_pages (km k) -> 2048 <= free_below PROC_FRAMES (km k) ->
  (allocate_pid (process_pid_bitmap k)).2 = pidv -> pidv <> 0 -> (allocate_proc_mem (process_mem_bitmap k)).2 = a -> a <> 0 ->
  clean_page (km k) pidv ->
  readelf tail fresh fds path = Some (fds', Some seg) -> zlen seg <= 2 ^ 24 - 0x10000 -> Forall (fun b => 0 <= b < 256) seg ->
  exists k' ctx p, exec tail fresh k fds path pcb_ptr node_ptr = Some (k', fds', ctx) /\
    pcbs k' !! pcb_ptr = Some p /\ state p = READY /\ pid p = pidv /\ ppid p = KERNEL_PID /\ current_pcb k' = pcb_ptr /\
    cr3 (km k') = pml4 p /\ c_rip ctx = USER_LOAD_ADDR /\
    (forall i b, seg !! i = Some b -> exists pa,
       translate (pm (km k')) (cr3 (km k')) (c_rip ctx + Z.of_nat i) = Some pa /\ mread (pm (km k')) pa = b) /\
    kernel_ok (set_pml4_address (km k') PML4_KERNEL).
Proof. apply exec_spec. Qed.

(** ** Witnesses *)

(** A kernel with 2^18 frames, of which the first and its PML4 are taken, after it
    has mapped its PML4 at its own address. *)
Definition exec_base : mach := Mach (pm demo_state) PML4_KERNEL (Allocator (bitmap (allocator demo_state)) (2 ^ 18) 1) 0 true true.
Definition exec_state : mach :=
  from_option id exec_base (map_memory_range exec_base KERNEL_PID PML4_KERNEL (PML4_KERNEL + PAGE_SIZE - 1) PML4_KERNEL).
Definition exec_kernel : kstate := KState exec_state 0 0 ∅ ∅ 0 0 0 0 false false.

Lemma nfree_empty k i : nfree k ∅ i = Z.of_nat k.
Proof. revert i. induction k as [|k IH]; intros i; cbn [nfree]; [done|]. rewrite IH. change (mread ∅ i =? 0) with true. lia. Qed.

Lemma exec_base_free k : Z.of_nat k - 2 <= nfree k (bitmap (allocator exec_base)) 0.
Proof.
  pose proof (nfree_empty k 0) as E. pose proof (nfree_write k ∅ 0 0 1) as H1.
  pose proof (nfree_write k (mwrite ∅ 0 1) 0 (PML4_KERNEL / 4096) 1) as H2. rewrite E in H1.
  eapply Z.le_trans; [|exact H2]. lia.
Qed.

Lemma exec_base_ok : paging_ok exec_base PML4_KERNEL.
Proof. destruct demo_ok as [H1 H2 _ H4 H5 H6 H7]. split; try assumption. vm_compute. intuition discriminate. Qed.

Lemma exec_kernel_ok : kernel_ok exec_state /\ budget exec_state (2 ^ 17) 2048.
Proof.
  destruct (page_map exec_base PML4_KERNEL KERNEL_PID PML4_KERNEL (2 ^ 17) 2048) as (s & E & P & B & C & D & I & _);
    [exact exec_base_ok|done|unfold PML4_KERNEL; lia|done| |done|done|].
  { pose proof (exec_base_free (Z.to_nat (2 ^ 18))) as F1. pose proof (exec_base_free (Z.to_nat PROC_FRAMES)) as F2.
    rewrite Z2Nat.id in F1 by lia. rewrite Z2Nat.id in F2 by (unfold PROC_FRAMES; lia). unfold budget, free_pages, free_below.
    change (num_pages (allocator exec_base)) with (2 ^ 18). unfold PROC_FRAMES at 1 in F2.
    set (x := nfree (Z.to_nat (2 ^ 18)) _ _) in *. set (y := nfree (Z.to_nat PROC_FRAMES) _ _) in *. clearbody x y. lia. }
  assert (exec_state = s) as -> by (unfold exec_state; by rewrite E). split; [|done].
  split; [done|by rewrite (ed_cr3 _ _ _ _ _ D)| |apply I; lia].
  intros f Hf. destruct (ed_low _ _ _ _ _ D C f Hf) as [(p & t & Hp & Ht & <-)|]; [|done].
  destruct (Paging.demo_path p t Hp Ht) as [_ ->]. by vm_compute.
Qed.

Lemma page_zero m p : all_below 4096 (fun i => mread m (p * 4096 + i) =? 0) = true -> forall b, b / 4096 = p -> mread m b = 0.
Proof.
  intros Hz b <-. pose proof (all_below_spec _ _ (b mod 4096) Hz ltac:(zlia)) as H. apply Z.eqb_eq in H.
  by replace (b / 4096 * 4096 + b mod 4096) with b in H by zlia.
Qed.

Lemma exec_clean : clean_page exec_state 2.
Proof.
  assert (E : (allocate_page exec_state 2).2 / 4096 = 4) by by vm_compute. intros b Hb. rewrite E in Hb.
  apply (page_zero (pm exec_state) 4); [by vm_compute|exact Hb].
Qed.

Lemma exec_runs_program_witness : let L := one_file demo_path demo_elf in
  exists fds' k' ctx p,
    @exec L (fun _ => []) (fun n => replicate (Z.to_nat n) 0) exec_kernel init_fdp_arr demo_path 100 200 = Some (k', fds', ctx) /\
    current_pcb k' = 100 /\ pcbs k' !! 100 = Some p /\ state p = READY /\
    exists pa, translate (pm (km k')) (cr3 (km k')) (USER_LOAD_ADDR + 2) = Some pa /\ mread (pm (km k')) pa = 0xC3.
Proof.
  cbv zeta. destruct exec_kernel_ok as [Hk [B1 B2]].
  assert (E : exists fds', @readelf (one_file demo_path demo_elf) (fun _ => []) (fun n => replicate (Z.to_nat n) 0) init_fdp_arr demo_path =
    Some (fds', Some [0x90; 0x90; 0xC3])) by (eexists; vm_compute; reflexivity).
  destruct E as [fds' E]. exists fds'.
  destruct (@exec_runs_program (one_file demo_path demo_elf) (fun _ => []) (fun n => replicate (Z.to_nat n) 0) exec_kernel init_fdp_arr demo_path 100 200
    fds' [0x90; 0x90; 0xC3] 2 0x2800000) as (k' & ctx & p & E' & Hp & Hs & _ & _ & Hc & _ & Hr & Hb & _);
    [exact Hk|reflexivity|exact B1|exact B2|by vm_compute|done|by vm_compute|done|exact exec_clean|exact E|by vm_compute|by repeat constructor|].
  exists k', ctx, p. split; [exact E'|]. split; [exact Hc|]. split; [exact Hp|]. split; [exact Hs|].
  destruct (Hb 2%nat 0xC3 eq_refl) as (pa & H1 & H2). rewrite Hr in H1. change (Z.of_nat 2) with 2 in H1. exists pa. exact (conj H1 H2).
Defined.
