(* ===== verification/KernelInit.v ===== *)
(** * KernelInit: from the bootloader's tables to the kernel's own

    The identity map of boot/init_paging.s, init_kernel_paging as it runs on it
    (Paging holds its definition), the heap of the kernel (libc/memory/heap.c,
    with its mapping) and init_kernel_process (kernel/process/process.c).  The
    theorems say that this establishes what Exec assumes of the kernel.

    init_kernel_paging does not mark the frame of the new PML4 before it lets
    the allocator hand out frames for tables; the frame is marked by the third
    range of switch_context.  The proofs run the code on a state in which the
    frame is marked from the start and show that the mark commutes with every
    step, because a lower frame is free each time. *)

From S2P Require Import Prelude Mem Heap CStdlib Paging Frames Process Files Elf Traps Exec.

(** Memories and machines are compared by the operations that made them. *)
Strategy 1000 [memset store translate map_page].

(** ** boot/init_paging.s *)

Definition PDPT_BOOT : Z := 0x81000.

(** 4096 dwords are cleared for each of the two tables. *)
Definition init_paging (s : mach) : mach :=
  let s := cli s in
  let m := memset (pm s) PML4_BOOT 0 (4 * 4096) in
  let m := st32 m PML4_BOOT 0x81003 in
  let m := memset m PDPT_BOOT 0 (4 * 4096) in
  let m := st32 m PDPT_BOOT 0x83 in
  let m := st32 m (PDPT_BOOT + 8) 0x40000083 in
  let m := st32 m (PDPT_BOOT + 16) 0x80000083 in
  set_pml4_address (set_pm s m) PML4_BOOT.

(** ** heap.c: init_heap with [map] set *)

(** The local malloc_state; [heap_end] of it is indeterminate. *)
Definition malloc_state_image (heap_base junk heap_total_size : Z) : list Z :=
  le_bytes 8 heap_base ++ le_bytes 8 junk ++ le_bytes 8 heap_total_size ++ le_bytes 8 0 ++ le_bytes 8 0 ++
  replicate (Z.to_nat MALLOC_STATE_PADDING_SIZE) 0.

Definition init_heap_mapped (s : mach) (pid junk base_addr size : Z) : option (mach * Z) :=
  let g_heap_malloc_state_base := aalign base_addr HEAP_CHUNK_MIN_SIZE_BYTES in
  let b := g_heap_malloc_state_base in
  let heap_total_size := aalign size HEAP_CHUNK_MIN_SIZE_BYTES in
  s ← map_memory_range s pid b (b + sizeof_malloc_state) b;
  s ← map_memory_range s pid base_addr (base_addr + heap_total_size) base_addr;
  s ← vputs s b (malloc_state_image b junk heap_total_size);
  s ← vst64 s (b + o_heap_end) (b + sizeof_malloc_state);
  Some (s, b).

(** ** process.c *)

(** The fields of kpcb that a [PCB] has; its state is 0, which is READY, and
    its heap is set once the heap is built. *)
Definition init_kpcb (heap : Z) : PCB :=
  Pcb KERNEL_PID KERNEL_PID READY 0 kpml4 PML4_BOOT KERNEL_STACK_TOP heap 0 zero_cpu_state 0.

(** The machine, kpcb and the base of the GDT, which sgdt and lgdt move. *)
Definition init_kernel_process (s : mach) (junk gdtr_base : Z) : option (mach * PCB * Z) :=
  s ← init_kernel_paging s KERNEL_PID MEMORY_SIZE_PAGES;
  '(s, g_heap) ← init_heap_mapped s KERNEL_PID junk KERNEL_HEAP_START (KERNEL_HEAP_SIZE_PAGES * PAGE_SIZE);
  let kpcb := init_kpcb g_heap in
  s ← map_memory_range s KERNEL_PID (PAGE_FRAME_ALLOCATOR_END + 1) (PAGE_FRAME_ALLOCATOR_END + PROC_SLOT_SIZE) 0;
  Some (s, kpcb, u64 (PAGE_FRAME_ALLOCATOR_END + 1 + gdtr_base)).

(** ** The identity map *)

Record boot_tables (m : mem) : Prop := BootTables {
  bt_pml4 : ld64 m PML4_BOOT = 0x81003;
  bt_pdpt : forall i, 0 <= i < 3 -> ld64 m (PDPT_BOOT + 8 * i) = i * 2 ^ 30 + 0x83;
}.

Lemma ld64_low m a v : 0 <= v < 2 ^ 32 -> (forall b, a + 4 <= b < a + 8 -> mread m b = 0) -> ld64 (st32 m a v) a = v.
Proof.
  intros Hv Hz. change (load 8 (st32 m a v) a) with
    (let f k := mread (st32 m a v) k in
     f a + 256 * (f (a + 1) + 256 * (f (a + 1 + 1) + 256 * (f (a + 1 + 1 + 1) + 256 * load 4 (st32 m a v) (a + 1 + 1 + 1 + 1))))).
  cbv zeta. pose proof (ld32_st32 m a v) as E.
  rewrite (load_zero 4 (st32 m a v)). 2: { intros b Hb. rewrite mread_store_out by (simpl; lia). apply Hz. lia. }
  rewrite u32_small in E by lia. exact E.
Qed.

Lemma init_paging_tables s : boot_tables (pm (init_paging s)) /\ cr3 (init_paging s) = PML4_BOOT.
Proof.
  split; [|done]. unfold init_paging, PML4_BOOT, PDPT_BOOT. cbn [pm cli set_pm set_pml4_address].
  set (m1 := memset (pm s) 0x80000 0 (4 * 4096)). set (m2 := st32 m1 0x80000 0x81003). set (m3 := memset m2 0x81000 0 (4 * 4096)).
  assert (Z3 : forall b, 0x81000 <= b < 0x85000 -> mread m3 b = 0) by (intros b Hb; unfold m3; rewrite memset_in by lia; done).
  split.
  - change PML4_BOOT with 0x80000. rewrite !load_store_out by (simpl; lia). unfold m3. rewrite load_memset_out by (simpl; lia).
    apply ld64_low; [lia|]. intros b Hb. unfold m1. rewrite memset_in by lia. done.
  - change PDPT_BOOT with 0x81000. intros i Hi. assert (i = 0 \/ i = 1 \/ i = 2) as [->|[->| ->]] by lia.
    + rewrite 2!load_store_out by (simpl; lia). apply ld64_low; [lia|]. intros b Hb. apply Z3. lia.
    + rewrite load_store_out by (simpl; lia). apply ld64_low; [lia|]. intros b Hb. rewrite mread_store_out by (simpl; lia). apply Z3. lia.
    + apply ld64_low; [lia|]. intros b Hb. rewrite !mread_store_out by (simpl; lia). apply Z3. lia.
Qed.

(** Three pages of 1 GiB: each address is its own translation. *)
Lemma boot_identity m va : boot_tables m -> 0 <= va < 3 * 2 ^ 30 -> translate m PML4_BOOT va = Some va.
Proof.
  intros [B1 B2] Hva. unfold translate. rewrite low_canonical by (unfold low; lia). change (frame PML4_BOOT) with PML4_BOOT.
  rewrite !index_at_spec by lia. replace (va / 2 ^ 39 mod 512) with 0 by zlia. cbn [tbl]. rewrite Z.mul_0_r, Z.add_0_r, B1.
  change (present 0x81003) with true. cbv iota. change (Some (frame 0x81003) ≫= ?f) with (f PDPT_BOOT). cbv beta zeta.
  replace (va / 2 ^ 30 mod 512) with (va / 2 ^ 30) by zlia. assert (0 <= va / 2 ^ 30 < 3) as Hi by zlia. rewrite B2 by done.
  assert (large (va / 2 ^ 30 * 2 ^ 30 + 0x83) = true /\ Z.land (va / 2 ^ 30 * 2 ^ 30 + 0x83) 0xFFFFFC0000000 = va / 2 ^ 30 * 2 ^ 30) as [-> ->].
  { assert (va / 2 ^ 30 = 0 \/ va / 2 ^ 30 = 1 \/ va / 2 ^ 30 = 2) as [->|[->| ->]] by lia; by vm_compute. }
  change 0x3FFFFFFF with (Z.ones 30). rewrite Z.land_ones by lia. f_equal. zlia.
Qed.

(** ** A mark that the code has not made yet *)

Section Mark.
Context (x v : Z).

(** [s] with the frame [x] taken. *)
Definition mark (s : mach) : mach := set_bitmap s (mwrite (bitmap (allocator s)) x v).

(** The code can still take [n] frames below [x]. *)
Definition room (n : Z) (s : mach) : Prop := x <= num_pages (allocator s) /\ n <= free_below x s.

Lemma mwrite_commute (b : mem) j w : j <> x -> mwrite (mwrite b x v) j w = mwrite (mwrite b j w) x v.
Proof. intros Hj. unfold mwrite. by rewrite insert_insert_ne. Qed.

Lemma allocate_loop_mark k b pid i : (exists j, i <= j < x /\ j < i + Z.of_nat k /\ mread b j = 0) ->
  allocate_loop k (mwrite b x v) pid i = (mwrite (allocate_loop k b pid i).1 x v, (allocate_loop k b pid i).2).
Proof.
  revert i. induction k as [|k IH]; intros i (j & Hj & Hk & Hf); [lia|]. cbn [allocate_loop]. rewrite mread_mwrite_ne by lia.
  destruct (Z.eqb_spec (mread b i) 0) as [|N]; cbn [fst snd].
  - rewrite mwrite_commute; [done|lia].
  - apply IH. exists j. assert (j <> i) by (intros ->; done). lia.
Qed.

Lemma allocate_page_mark s pid : room 1 s -> allocate_page (mark s) pid = (mark (allocate_page s pid).1, (allocate_page s pid).2).
Proof.
  intros [Hn Hr]. unfold allocate_page, mark. cbn [allocator set_bitmap num_pages bitmap]. rewrite allocate_loop_mark.
  - by destruct (allocate_loop _ (bitmap (allocator s)) pid 0).
  - destruct (nfree_pos _ _ _ Hr) as (j & Hj & Hf). exists j. lia.
Qed.

Lemma room_weaken n n' s : n <= n' -> room n' s -> room n s.
Proof. intros Hn [H1 H2]. split; [done|lia]. Qed.

Lemma allocate_page_room n s pid : room (n + 1) s -> room n (allocate_page s pid).1.
Proof.
  intros [H1 H2]. unfold allocate_page. destruct (allocate_loop_spec (Z.to_nat (num_pages (allocator s))) (bitmap (allocator s)) pid 0)
    as [(j & _ & _ & _ & ->)|[_ ->]]; (split; [done|]); unfold free_below in *; cbn [fst allocator set_bitmap bitmap]; [|lia].
  pose proof (nfree_write (Z.to_nat x) (bitmap (allocator s)) 0 j pid). lia.
Qed.

Definition pair_mark (p : mach * bool) : mach * bool := (mark p.1, p.2).

(** The accesses through the tables do not look at the allocator. *)
Lemma vst64_mark s va w : vst64 (mark s) va w = mark <$> vst64 s va w.
Proof.
  unfold vst64. change (pm (mark s)) with (pm s). change (cr3 (mark s)) with (cr3 s).
  destruct (translate (pm s) (cr3 s) va) as [pa|]; [|reflexivity]. cbn [mbind option_bind]. generalize (st64 (pm s) pa w). reflexivity.
Qed.

Lemma vzero_page_mark s va : vzero_page (mark s) va = mark <$> vzero_page s va.
Proof.
  unfold vzero_page. change (pm (mark s)) with (pm s). change (cr3 (mark s)) with (cr3 s).
  destruct (translate (pm s) (cr3 s) va) as [pa|]; [|reflexivity]. cbn [mbind option_bind]. generalize (memset (pm s) pa 0 PAGE_SIZE). reflexivity.
Qed.

Lemma vst64_alloc s va w s' : vst64 s va w = Some s' -> allocator s' = allocator s.
Proof. unfold vst64. destruct (translate _ _ _); [|done]. by intros [= <-]. Qed.

Lemma vzero_page_alloc s va s' : vzero_page s va = Some s' -> allocator s' = allocator s.
Proof. unfold vzero_page. destruct (translate _ _ _); [|done]. by intros [= <-]. Qed.

Lemma room_same n s s' : allocator s' = allocator s -> room n s -> room n s'.
Proof. unfold room, free_below. by intros ->. Qed.

Lemma ensure_table_mark s pid parent index child : room 1 s ->
  ensure_table (mark s) pid parent index child = pair_mark <$> ensure_table s pid parent index child.
Proof.
  intros Hr. unfold ensure_table. change (vld64 (mark s)) with (vld64 s). destruct (vld64 s _) as [e|]; [|done].
  cbn [mbind option_bind]. destruct (_ =? 0); [|done]. rewrite (allocate_page_mark s pid Hr).
  destruct (allocate_page s pid) as [s1 page]. cbn [fst snd]. destruct (page =? 0); [done|].
  rewrite vst64_mark. destruct (vst64 s1 _ _) as [s2|]; [|done]. cbn [fmap option_fmap option_map mbind option_bind].
  rewrite vzero_page_mark. by destruct (vzero_page s2 child).
Qed.

Lemma ensure_table_room n s pid parent index child s' ok : room (n + 1) s ->
  ensure_table s pid parent index child = Some (s', ok) -> room n s'.
Proof.
  intros Hr. unfold ensure_table. intros (e & _ & E)%bind_Some. destruct (_ =? 0); [|injection E as <- _; by apply (room_weaken n (n + 1)); [lia|]].
  pose proof (allocate_page_room n s pid Hr) as Hr1. destruct (allocate_page s pid) as [s1 page]. cbn [fst] in Hr1.
  destruct (page =? 0); [by injection E as <- _|]. apply bind_Some in E as (s2 & E2 & E). apply bind_Some in E as (s3 & E3 & E).
  injection E as <- _. by apply (room_same n s2 s3 (vzero_page_alloc _ _ _ E3)), (room_same n s1 s2 (vst64_alloc _ _ _ _ E2)).
Qed.

Lemma map_page_mark s pid va pa flags : room 3 s -> map_page (mark s) pid va pa flags = mark <$> map_page s pid va pa flags.
Proof.
  intros Hr. unfold map_page. cbv zeta. set (s0 := cli (set_ready s false)). change (cli (set_ready (mark s) false)) with (mark s0).
  assert (room 3 s0) as R0 by done. rewrite ensure_table_mark by by apply (room_weaken 1 3).
  destruct (ensure_table s0 _ _ _ _) as [[s1 ok1]|] eqn:E1; [|done]. cbn [fmap option_fmap option_map mbind option_bind pair_mark fst snd].
  pose proof (ensure_table_room 2 _ _ _ _ _ _ _ R0 E1) as R1. destruct ok1; cbn [negb]; [|done].
  rewrite ensure_table_mark by by apply (room_weaken 1 2).
  destruct (ensure_table s1 _ _ _ _) as [[s2 ok2]|] eqn:E2; [|done]. cbn [fmap option_fmap option_map mbind option_bind pair_mark fst snd].
  pose proof (ensure_table_room 1 _ _ _ _ _ _ _ R1 E2) as R2. destruct ok2; cbn [negb]; [|done].
  rewrite ensure_table_mark by done.
  destruct (ensure_table s2 _ _ _ _) as [[s3 ok3]|] eqn:E3; [|done]. cbn [fmap option_fmap option_map mbind option_bind pair_mark fst snd].
  destruct ok3; cbn [negb]; [|done]. rewrite vst64_mark. by destruct (vst64 s3 _ _).
Qed.

Lemma map_range_succ k s pid addr pa flags sa : sa = 0 \/ addr < 2 ^ 32 -> map_range_loop (S k) s pid addr pa flags sa =
  (s1 ← map_page s pid addr pa flags; map_range_loop k (set_in s1 sa addr pid) pid (addr + PAGE_SIZE) (pa + PAGE_SIZE) flags sa).
Proof. intros Hsa. cbn [map_range_loop]. destruct (map_page s pid addr pa flags) as [s1|]; [|done]. rewrite !bind_some. by rewrite mark_page_ok. Qed.

Lemma map_range_snoc k s pid addr pa flags sa : sa = 0 \/ addr + 4096 * Z.of_nat (S k) <= 2 ^ 32 -> map_range_loop (S k) s pid addr pa flags sa =
  (s1 ← map_range_loop k s pid addr pa flags sa;
   s2 ← map_page s1 pid (addr + 4096 * Z.of_nat k) (pa + 4096 * Z.of_nat k) flags;
   Some (set_in s2 sa (addr + 4096 * Z.of_nat k) pid)).
Proof.
  revert s addr pa. induction k as [|k IH]; intros s addr pa.
  - intros Hsa. rewrite map_range_succ by lia. by rewrite Z.mul_0_r, !Z.add_0_r.
  - intros Hsa. rewrite (map_range_succ (S k)), (map_range_succ k) by lia. destruct (map_page s pid addr pa flags) as [s1|]; [|cbn [mbind option_bind]; reflexivity].
    rewrite !bind_some, IH by (unfold PAGE_SIZE; lia). unfold PAGE_SIZE.
    replace (addr + 4096 + 4096 * Z.of_nat k) with (addr + 4096 * Z.of_nat (S k)) by lia.
    replace (pa + 4096 + 4096 * Z.of_nat k) with (pa + 4096 * Z.of_nat (S k)) by lia. reflexivity.
Qed.

Lemma set_in_mark s sa a pid : a / PAGE_SIZE <> x -> set_in (mark s) sa a pid = mark (set_in s sa a pid).
Proof. intros Ha. unfold set_in. destruct (negb (sa =? 0)); [|done]. unfold mark. cbn [allocator set_bitmap bitmap]. by rewrite mwrite_commute. Qed.

Lemma free_below_mark s : 0 <= x -> free_below x (mark s) = free_below x s.
Proof. intros Hx. apply nfree_write_above. lia. Qed.

Lemma map_range_mark k s K pid addr pa flags sa :
  paging_ok (mark s) K -> 0 < pid < 256 -> 0 <= addr -> addr mod 4096 = 0 -> addr + 4096 * Z.of_nat k <= 2 ^ 47 ->
  0 <= pa -> pa mod 4096 = 0 -> pa + 4096 * Z.of_nat k <= 2 ^ 52 -> 0 <= flags < 4096 -> Z.odd flags = true ->
  4 * Z.of_nat k <= free_pages (mark s) -> marks_free (mark s) x sa addr (addr + 4096 * Z.of_nat k) ->
  addr / 4096 + Z.of_nat k <= x -> sa = 0 \/ addr + 4096 * Z.of_nat k <= 2 ^ 32 ->
  room (3 * ((addr + 4096 * Z.of_nat k) / 2 ^ 21 - addr / 2 ^ 21 + 1) + 3) s ->
  map_range_loop k (mark s) pid addr pa flags sa = mark <$> map_range_loop k s pid addr pa flags sa.
Proof.
  intros H Hpid H0 Ha Hb Hp Hpa Hpb Hf Hodd Hfree Hmk Hx Hsa Hr. induction k as [|k IH]; [done|].
  assert (Hx0 : 0 <= x) by zlia.
  assert (Hm : (addr + 4096 * Z.of_nat k) / 2 ^ 21 <= (addr + 4096 * Z.of_nat (S k)) / 2 ^ 21) by (apply Z.div_le_mono; lia).
  assert (Hmk' : marks_free (mark s) x sa addr (addr + 4096 * Z.of_nat k)).
  { destruct Hmk as [|[|Hu]]; [by left|right; by left|]. right. right. intros f Hff. apply Hu. zlia. }
  assert (IH' := IH ltac:(lia) ltac:(lia) ltac:(lia) Hmk' ltac:(lia) ltac:(lia) ltac:(eapply room_weaken; [|exact Hr]; lia)). clear IH.
  rewrite !map_range_snoc, IH' by done.
  destruct (map_range_spec k (mark s) K pid addr pa flags sa) as (t & E & P & C & _); try done; try lia.
  pose proof (map_range_edits k (mark s) K x pid addr pa flags sa 0 false t H Hpid H0 Ha ltac:(lia) Hp Hpa ltac:(lia) Hf Hodd ltac:(lia) Hx0
    ltac:(by right) ltac:(done) E) as D.
  rewrite E in IH'. destruct (map_range_loop k s pid addr pa flags sa) as [s1|]; [|done]. injection IH' as ->.
  change (mark <$> Some s1) with (Some (mark s1)). rewrite !bind_some.
  assert (R1 : room 3 s1).
  { destruct Hr as [R1 R2]. pose proof (ed_below _ _ _ _ _ D) as Hb'. rewrite !free_below_mark in Hb' by done. split.
    - pose proof (ed_num _ _ _ _ _ D) as Hn. cbn in Hn. lia.
    - lia. }
  rewrite (map_page_mark s1) by done. destruct (map_page s1 _ _ _ _) as [s2|]; [|done].
  change (mark <$> Some s2) with (Some (mark s2)). rewrite !bind_some. rewrite set_in_mark; [done|]. unfold PAGE_SIZE. zlia.
Qed.

End Mark.

(** ** The allocator's array at the start *)

Definition FIRST_FREE : Z := 0xB00.

Definition fresh_bitmap (b : mem) (n : Z) : Prop :=
  (forall f, 0 <= f < FIRST_FREE -> mread b f <> 0) /\ forall f, FIRST_FREE <= f < n -> mread b f = 0.

Lemma nfree_split k1 k2 b i : nfree (k1 + k2) b i = nfree k1 b i + nfree k2 b (i + Z.of_nat k1).
Proof.
  revert i. induction k1 as [|k1 IH]; intros i; cbn [nfree Nat.add]; [by rewrite Z.add_0_r|]. rewrite IH.
  replace (i + 1 + Z.of_nat k1) with (i + Z.of_nat (S k1)) by lia. lia.
Qed.

Lemma nfree_const k b i c : (forall f, i <= f < i + Z.of_nat k -> mread b f = 0 <-> c = 1) -> c = 0 \/ c = 1 -> nfree k b i = c * Z.of_nat k.
Proof.
  intros H Hc. revert i H. induction k as [|k IH]; intros i H; cbn [nfree]; [lia|].
  rewrite IH by (intros f Hf; apply H; lia). pose proof (H i ltac:(lia)) as H1.
  destruct (Z.eqb_spec (mread b i) 0) as [E|N]; [apply H1 in E; lia|]. assert (c <> 1) by (intros Ec; by apply N, H1). lia.
Qed.

Lemma fresh_free b n L : fresh_bitmap b n -> FIRST_FREE <= L <= n -> nfree (Z.to_nat L) b 0 = L - FIRST_FREE.
Proof.
  intros [H1 H2] HL. unfold FIRST_FREE in *. replace (Z.to_nat L) with (Z.to_nat 0xB00 + Z.to_nat (L - 0xB00))%nat by lia. rewrite nfree_split.
  rewrite (nfree_const (Z.to_nat 0xB00) b 0 0), (nfree_const _ _ _ 1); [lia| |by right| |by left]; intros f Hf; split; try done.
  - intros _. apply H2. lia.
  - intros E. exfalso. apply (H1 f); [lia|done].
Qed.

Lemma fresh_fill b n : fresh_bitmap b n -> fresh_bitmap (memset b 0 1 FIRST_FREE) n.
Proof.
  intros [H1 H2]. split; intros f Hf; [by rewrite memset_in by lia|]. rewrite memset_out by lia. by apply H2.
Qed.

Lemma fresh_init b n : FIRST_FREE <= n -> fresh_bitmap (memset (memset b 0 0 n) 0 1 FIRST_FREE) n.
Proof.
  intros Hn. split; intros f Hf; unfold FIRST_FREE in *; [by rewrite memset_in by lia|]. rewrite memset_out, memset_in by lia. done.
Qed.

Lemma fresh_mark b n x w : fresh_bitmap b n -> 0 <= x < FIRST_FREE -> 0 < w < 256 -> fresh_bitmap (mwrite b x w) n.
Proof.
  intros [H1 H2] Hx Hw. split; intros f Hf.
  - by apply used_mark, H1.
  - rewrite mread_mwrite_ne by lia. by apply H2.
Qed.

(** ** The kernel's PML4 before its first entry *)

Definition kmark : mach -> mach := mark K_FRAME KERNEL_PID.

(** The frames that the code has marked are those of the kernel's image and of
    the allocator's array; the new PML4 has its recursive entry only. *)
Record bare_kernel (s : mach) : Prop := BareKernel {
  bk_cr3 : cr3 s = PML4_BOOT;
  bk_bitmap : fresh_bitmap (bitmap (allocator s)) (num_pages (allocator s));
  bk_num : PROC_FRAMES <= num_pages (allocator s) <= 2 ^ 40;
  bk_slot : ld64 (pm s) (PML4_BOOT + 8 * 511) = Z.lor PML4_KERNEL PAGE_MAP_FLAGS;
  bk_own : ld64 (pm s) (PML4_KERNEL + 8 * 511) = Z.lor PML4_KERNEL PAGE_MAP_FLAGS;
  bk_empty : forall i, idx i -> i <> 511 -> ld64 (pm s) (PML4_KERNEL + 8 * i) = 0;
}.

Lemma bare_mark_ok s : bare_kernel s -> paging_ok (kmark s) PML4_KERNEL /\ forall f, is_table (kmark s) PML4_KERNEL f -> f = K_FRAME.
Proof.
  intros [B1 [B2 B2'] B3 B4 B5 B6].
  assert (U : forall f, 0 <= f < FIRST_FREE -> mread (bitmap (allocator (kmark s))) f <> 0) by (intros f Hf; by apply used_mark, B2).
  assert (Bare : forall p t, tpath p -> tbl (pm s) PML4_KERNEL p = Some t -> p = [] /\ t = PML4_KERNEL) by (intros p t; by apply bare_tree).
  split.
  - split; cbn [kmark mark pm cr3 set_bitmap allocator bitmap num_pages].
    + unfold rec_ok. rewrite B1. change (frame PML4_BOOT) with PML4_BOOT. rewrite B4, B5. by vm_compute.
    + apply kernel_root.
    + unfold PROC_FRAMES in B3. lia.
    + by apply U.
    + intros p t Hp Ht. destruct (Bare p t Hp Ht) as [_ ->]. change (PML4_KERNEL / 4096) with K_FRAME. by rewrite mread_mwrite_eq.
    + intros p q t Hp Hq H1 H2. by destruct (Bare p t Hp H1) as [-> _], (Bare q t Hq H2) as [-> _].
    + rewrite B1. change (frame PML4_BOOT) with PML4_BOOT. split; [by apply U|]. intros p Hp Ht. by destruct (Bare p _ Hp Ht).
    + intros q i t Hqi _ Ht. destruct (valid_snoc _ _ Hqi) as [Hq Hi]. destruct (Bare q t Hq Ht) as [-> ->].
      rewrite B6; [done|done|]. by destruct Hqi as (_ & _ & ?).
  - intros f (p & t & Hp & Ht & <-). by destruct (Bare p t Hp Ht) as [_ ->].
Qed.

(** Free frames of the marked state, below any limit. *)
Lemma bare_room s L : bare_kernel s -> FIRST_FREE <= L <= num_pages (allocator s) -> L - FIRST_FREE - 1 <= free_below L (kmark s).
Proof.
  intros B HL. unfold free_below. cbn [kmark mark allocator set_bitmap bitmap].
  pose proof (nfree_write (Z.to_nat L) (bitmap (allocator s)) 0 K_FRAME KERNEL_PID) as H.
  rewrite (fresh_free _ _ L (bk_bitmap s B) HL) in H. lia.
Qed.

(** ** Ranges mapped to themselves *)

(** A range makes no last-level table but those of its own addresses. *)
Lemma map_range_tables k s K pid addr pa flags sa s' : paging_ok s K -> 0 < pid < 256 -> 0 <= addr -> addr + 4096 * Z.of_nat k <= 2 ^ 47 ->
  0 <= pa -> pa mod 4096 = 0 -> pa + 4096 * Z.of_nat k <= 2 ^ 52 -> 0 <= flags < 4096 ->
  map_range_loop k s pid addr pa flags sa = Some s' ->
  forall q, valid q -> length q = 3%nat -> (forall n, 0 <= n < Z.of_nat k -> q <> table_path (addr + 4096 * n)) ->
  tbl (pm s') K q = tbl (pm s) K q.
Proof.
  intros H Hpid H0 Hb Hp Hpa Hpb Hf E q Hq Hl. revert s addr pa H H0 Hb Hp Hpa Hpb E.
  induction k as [|k IH]; intros s addr pa H H0 Hb Hp Hpa Hpb E Hne; [by injection E as <-|]. cbn [map_range_loop] in E.
  apply bind_Some in E as (s1 & E1 & E). apply bind_Some in E as (s1m & Em & E). apply mark_page_some in Em as ->.
  destruct (map_page_spec s K pid addr pa flags) as (s1' & E1' & P1 & _ & _ & _ & KO & _); try done; [apply low_index; unfold low; lia|lia|].
  rewrite E1 in E1'. injection E1' as <-.
  assert (P2 : paging_ok (set_in s1 sa addr pid) K) by (unfold set_in; destruct (negb _); [by apply paging_ok_mark|done]).
  unfold PAGE_SIZE in E. rewrite (IH (set_in s1 sa addr pid) (addr + 4096) (pa + 4096)); try done; try lia; try zlia.
  - assert (pm (set_in s1 sa addr pid) = pm s1) as -> by (unfold set_in; by destruct (negb _)). apply KO; [done|lia|].
    intros [r Er]. apply (Hne 0); [lia|]. rewrite Z.mul_0_r, Z.add_0_r.
    destruct q as [|a [|b [|c [|? ?]]]]; try done. injection Er as <- <- <- _. done.
  - intros n Hn. replace (addr + 4096 + 4096 * n) with (addr + 4096 * (n + 1)) by lia. apply Hne. lia.
Qed.

Definition tables_cost (st en : Z) : Z := 3 * (en / 2 ^ 21 - st / 2 ^ 21 + 1).

(** What a range mapped at its own address leaves; [c] frames at most are taken
    below any limit. *)
Record identity_range (st en c : Z) (s s' : mach) : Prop := IdentityRange {
  ir_ok : paging_ok s' PML4_KERNEL;
  ir_edits : forall L, 0 <= L -> edits PML4_KERNEL L c s s';
  ir_in : forall va, low va -> st <= va < en -> translate (pm s') PML4_KERNEL va = Some va;
  ir_out : forall va, low va -> va < st \/ en <= va -> translate (pm s') PML4_KERNEL va = translate (pm s) PML4_KERNEL va;
  ir_tables : forall i, idx i -> i < st / 2 ^ 21 \/ (en - 1) / 2 ^ 21 < i -> 0 <= st -> en <= 2 ^ 30 ->
    tbl (pm s') PML4_KERNEL [0; 0; i] = tbl (pm s) PML4_KERNEL [0; 0; i];
}.

Lemma range_tables s start e s' : paging_ok s PML4_KERNEL -> 0 <= start <= e -> e + 8192 <= 2 ^ 47 ->
  map_memory_range s KERNEL_PID start e start = Some s' ->
  let st := aalign_down start PAGE_SIZE in let en := aalign e PAGE_SIZE in
  forall i, idx i -> i < st / 2 ^ 21 \/ (en - 1) / 2 ^ 21 < i -> 0 <= st -> en <= 2 ^ 30 ->
  tbl (pm s') PML4_KERNEL [0; 0; i] = tbl (pm s) PML4_KERNEL [0; 0; i].
Proof.
  intros H Hs He E st en i Hi Ho Hst Hen. destruct PAGE_MAP_FLAGS_ok as [F1 F2].
  destruct (range_count start e) as (C1 & C2 & C3 & C4 & C5 & C6); [lia|lia|lia|]. fold st en in C1, C2, C3, C4, C5, C6.
  unfold map_memory_range, map_memory_range_with_flags in E. fold st en in E. set (k := Z.to_nat ((en - st) / PAGE_SIZE)) in *.
  assert (Hk : 4096 * Z.of_nat k = en - st) by (rewrite C6; zlia).
  apply (map_range_tables k s PML4_KERNEL KERNEL_PID st st PAGE_MAP_FLAGS 1); try done; try lia.
  - split; [|split; [simpl; lia|done]]. by repeat (apply list.Forall_cons; split; [done|]).
  - intros n Hn. unfold table_path. rewrite !index_at_spec by lia. intros Eq. injection Eq as _ _ E3. unfold idx in Hi. zlia.
Qed.

(** A range of frames that are all in use, while the mark is missing. *)
Lemma marked_range s start e st en : paging_ok (kmark s) PML4_KERNEL -> 0 <= start <= e -> e + 8192 <= 2 ^ 47 ->
  st = aalign_down start PAGE_SIZE -> en = aalign e PAGE_SIZE -> (forall f, st / 4096 <= f < en / 4096 -> used (kmark s) f) ->
  en / 4096 <= K_FRAME -> room K_FRAME (tables_cost st en + 3) s -> 4 * ((en - st) / 4096) <= free_pages (kmark s) ->
  exists s', map_memory_range s KERNEL_PID start e start = Some s' /\ identity_range st en (tables_cost st en) (kmark s) (kmark s').
Proof.
  intros H Hs He -> -> Hu HK Hr Hfree. assert (Hlim : 1 = 0 \/ aalign e PAGE_SIZE <= 2 ^ 32) by (right; change K_FRAME with 0xD00 in HK; unfold PAGE_SIZE in *; zlia). destruct PAGE_MAP_FLAGS_ok as [F1 F2]. assert (Hp : 0 < KERNEL_PID < 256) by done.
  destruct (range_count start e) as (C1 & C2 & C3 & C4 & C5 & C6); [lia|lia|lia|].
  assert (Hst : aalign_down start PAGE_SIZE mod 4096 = 0) by exact C3.
  destruct (map_memory_range_spec (kmark s) PML4_KERNEL KERNEL_PID start e start PAGE_MAP_FLAGS 1) as (t & E & P & _ & _ & T & O);
    try done; try lia. set (st := aalign_down start PAGE_SIZE) in *. set (en := aalign e PAGE_SIZE) in *.
  assert (Hmk : marks_free (kmark s) K_FRAME 1 st en) by (right; by right).
  pose proof E as E'. unfold map_memory_range_with_flags in E'. fold st en in E'. set (k := Z.to_nat ((en - st) / PAGE_SIZE)) in *.
  assert (Hk : st + 4096 * Z.of_nat k = en) by (rewrite C6; zlia).
  assert (Hks : st / 4096 + Z.of_nat k = en / 4096) by zlia.
  assert (Hf4 : 4 * Z.of_nat k <= free_pages (mark K_FRAME KERNEL_PID s)) by (rewrite C6; exact Hfree).
  unfold kmark in E'. rewrite (map_range_mark K_FRAME KERNEL_PID k s PML4_KERNEL) in E'; try done; try lia;
    [|rewrite Hk; exact Hmk|by rewrite Hk..].
  destruct (map_range_loop k s KERNEL_PID st st PAGE_MAP_FLAGS 1) as [s'|] eqn:E1; [|done]. injection E' as <-.
  exists s'. split.
  { unfold map_memory_range, map_memory_range_with_flags. fold st en. exact E1. }
  split; [done| | | |].
  - intros L HL. pose proof (map_memory_range_edits (kmark s) PML4_KERNEL L KERNEL_PID start e start PAGE_MAP_FLAGS 1 0 (kmark s')) as D.
    fold st en in D. apply D; try done; try lia. right. split; [done|]. right. by right.
  - intros va Hl Hva. rewrite T by done. f_equal. lia.
  - intros va Hl Hva. by apply O.
  - exact (range_tables (kmark s) start e (kmark s') H Hs He E).
Qed.

(** A range whose marks may take frames. *)
Lemma plain_range s start e st en : paging_ok s PML4_KERNEL -> 0 <= start <= e -> e + 8192 <= 2 ^ 47 ->
  st = aalign_down start PAGE_SIZE -> en = aalign e PAGE_SIZE -> 4 * ((en - st) / 4096) <= free_pages s -> en <= 2 ^ 32 ->
  exists s', map_memory_range s KERNEL_PID start e start = Some s' /\ identity_range st en (range_cost 1 st en) s s'.
Proof.
  intros H Hs He -> -> Hfree Hlim. destruct PAGE_MAP_FLAGS_ok as [F1 F2]. assert (Hp : 0 < KERNEL_PID < 256) by done.
  destruct (map_memory_range_spec s PML4_KERNEL KERNEL_PID start e start PAGE_MAP_FLAGS 1) as (s' & E & P & _ & _ & T & O);
    try done; try lia.
  exists s'. split; [done|]. split; [done| | |done|exact (range_tables s start e s' H Hs He E)].
  - intros L HL. apply (map_memory_range_edits s PML4_KERNEL L KERNEL_PID start e start PAGE_MAP_FLAGS 1 1 s'); try done; try lia.
  - intros va Hl Hva. rewrite T by done. f_equal. lia.
Qed.

(** The range that makes the missing mark itself. *)
Lemma mark_absorbed k s pid addr pa flags : addr / PAGE_SIZE = K_FRAME -> pid = KERNEL_PID -> room K_FRAME 3 s ->
  map_range_loop (S k) (kmark s) pid addr pa flags 1 = map_range_loop (S k) s pid addr pa flags 1.
Proof.
  intros Ha -> Hr. cbn [map_range_loop]. unfold kmark. rewrite map_page_mark by done.
  destruct (map_page s KERNEL_PID addr pa flags) as [s1|]; [|done]. change (mark ?x ?y <$> Some s1) with (Some (mark x y s1)).
  rewrite !bind_some. cbn [Z.eqb negb]. unfold mark_page. rewrite Ha. change (K_FRAME <? PAGE_FRAME_ALLOCATOR_BITMAP_SIZE) with true. cbv iota. rewrite !bind_some. unfold mark. cbn [allocator set_bitmap bitmap]. do 2 f_equal.
  unfold set_bitmap. cbn [allocator bitmap num_pages initialized pm cr3 hardware_alloc_size interrupts_ready intr_flag].
  unfold mwrite. by rewrite insert_insert_eq.
Qed.

(** ** switch_context *)

(** The allocator's array as switch_context fills it again. *)
Definition filled (s : mach) : mach := set_bitmap (cli s) (memset (bitmap (allocator s)) 0 1 FIRST_FREE).

Lemma filled_bare s : bare_kernel s -> bare_kernel (filled s).
Proof.
  intros [B1 B2 B3 B4 B5 B6]. split; cbn [filled set_bitmap cli cr3 pm allocator bitmap num_pages]; [exact B1| |exact B3|exact B4|exact B5|exact B6].
  apply fresh_fill, B2.
Qed.

(** The addresses the kernel runs on: low memory, its image with the
    allocator's array, and its PML4. *)
Definition kernel_range (va : Z) : Prop :=
  0 <= va < 0x300000 \/ 0x800000 <= va < 0xB00000 \/ PML4_KERNEL <= va < PML4_KERNEL + 0x8000.

Lemma kernel_range_low va : kernel_range va -> low va.
Proof. unfold kernel_range, low, PML4_KERNEL. lia. Qed.

Lemma used_image s f : bare_kernel s -> 0 <= f < FIRST_FREE -> used (kmark s) f.
Proof. intros B Hf. by apply used_mark, (bk_bitmap s B). Qed.

Lemma free_pages_below s s' c : edits PML4_KERNEL (num_pages (allocator s)) c s s' -> free_pages s - c <= free_pages s'.
Proof. intros D. pose proof (ed_below _ _ _ _ _ D) as H. unfold free_pages. rewrite (ed_num _ _ _ _ _ D). exact H. Qed.

Lemma room_after s s' c n : edits PML4_KERNEL K_FRAME c (kmark s) (kmark s') -> room K_FRAME (n + c) s -> room K_FRAME n s'.
Proof.
  intros D [H1 H2]. pose proof (ed_below _ _ _ _ _ D) as Hb. pose proof (ed_num _ _ _ _ _ D) as Hn. cbn in Hn.
  unfold kmark in Hb. rewrite !free_below_mark in Hb by done. split; [by rewrite Hn|lia].
Qed.

Lemma image_ranges s : bare_kernel s -> exists s1 s2,
  map_memory_range s KERNEL_PID 0 (0 + 3 * MB - 1) 0 = Some s1 /\
  map_memory_range s1 KERNEL_PID (KERNEL_VBASE - KERNEL_LOAD_ADDR) (PAGE_FRAME_ALLOCATOR_END - 1) (KERNEL_VBASE - KERNEL_LOAD_ADDR) = Some s2 /\
  identity_range 0 0x300000 6 (kmark s) (kmark s1) /\ identity_range 0x800000 0xB00000 6 (kmark s1) (kmark s2) /\ room K_FRAME 3 s2.
Proof.
  intros B. destruct (bare_mark_ok s B) as [P0 _]. pose proof (bk_num s B) as Hn. unfold PROC_FRAMES in Hn.
  pose proof (bare_room s K_FRAME B ltac:(change K_FRAME with 0xd00; unfold FIRST_FREE; lia)) as R0.
  change (K_FRAME - FIRST_FREE - 1) with 511 in R0.
  pose proof (bare_room s (num_pages (allocator s)) B ltac:(unfold FIRST_FREE; lia)) as F0. unfold FIRST_FREE in F0.
  change (free_below (num_pages (allocator s)) (kmark s)) with (free_pages (kmark s)) in F0.
  assert (R : room K_FRAME 500 s) by (split; [change K_FRAME with 0xd00; lia|unfold kmark in R0; rewrite free_below_mark in R0 by done; lia]).
  destruct (marked_range s 0 (0 + 3 * MB - 1) 0 0x300000) as (s1 & E1 & I1);
    [exact P0|unfold MB; lia|unfold MB; lia|by vm_compute|by vm_compute| |by vm_compute| | |].
  { intros f Hf. apply used_image; [done|]. unfold FIRST_FREE. zlia. }
  { by apply (room_weaken _ _ 500). }
  { change (4 * ((0x300000 - 0) / 4096)) with 3072. lia. }
  change (tables_cost 0 0x300000) with 6 in I1. pose proof (ir_edits _ _ _ _ _ I1) as D1.
  assert (Hn0 : 0 <= num_pages (allocator (kmark s))) by (change (0 <= num_pages (allocator s)); lia).
  pose proof (free_pages_below (kmark s) (kmark s1) 6 (D1 _ Hn0)) as F1.
  destruct (marked_range s1 (KERNEL_VBASE - KERNEL_LOAD_ADDR) (PAGE_FRAME_ALLOCATOR_END - 1) 0x800000 0xB00000) as (s2 & E2 & I2);
    [apply I1|vm_compute; split; congruence|by vm_compute|by vm_compute|by vm_compute| |by vm_compute| | |].
  { intros f Hf. apply (ed_mono _ _ _ _ _ (D1 0 ltac:(done))). apply used_image; [done|]. unfold FIRST_FREE. zlia. }
  { apply (room_after s s1 6); [by apply D1|by apply (room_weaken _ _ 500)]. }
  { change (4 * ((0xB00000 - 0x800000) / 4096)) with 3072. lia. }
  change (tables_cost 0x800000 0xB00000) with 6 in I2. pose proof (ir_edits _ _ _ _ _ I2) as D2.
  exists s1, s2. split_and!; try done. apply (room_after s1 s2 6); [by apply D2|]. apply (room_after s s1 6); [by apply D1|by apply (room_weaken _ _ 500)].
Qed.

Lemma identity_keep st en c s s' va : identity_range st en c s s' -> low va ->
  translate (pm s) PML4_KERNEL va = Some va -> translate (pm s') PML4_KERNEL va = Some va.
Proof.
  intros I Hl Ht. destruct (decide (st <= va < en)); [by apply (ir_in _ _ _ _ _ I)|]. rewrite (ir_out _ _ _ _ _ I); [done|done|lia].
Qed.

(** The third range: from here on the frame of the PML4 is marked. *)
Lemma pml4_range s s2 c : bare_kernel s -> paging_ok (kmark s2) PML4_KERNEL -> edits PML4_KERNEL (num_pages (allocator s)) c (kmark s) (kmark s2) ->
  c <= 7000 -> room K_FRAME 3 s2 -> exists t,
  map_memory_range s2 KERNEL_PID PML4_KERNEL (PML4_KERNEL + 8 * (PAGE_SIZE - 1)) PML4_KERNEL = Some t /\
  identity_range PML4_KERNEL (PML4_KERNEL + 0x8000) 11 (kmark s2) t.
Proof.
  intros B P D Hc R. pose proof (bk_num s B) as Hn. unfold PROC_FRAMES in Hn.
  pose proof (free_pages_below (kmark s) (kmark s2) c D) as F.
  pose proof (bare_room s (num_pages (allocator s)) B ltac:(unfold FIRST_FREE; lia)) as F0. unfold FIRST_FREE in F0.
  change (free_below (num_pages (allocator s)) (kmark s)) with (free_pages (kmark s)) in F0.
  destruct (plain_range (kmark s2) PML4_KERNEL (PML4_KERNEL + 8 * (PAGE_SIZE - 1)) PML4_KERNEL (PML4_KERNEL + 0x8000)) as (t & E & I);
    [exact P|by vm_compute|by vm_compute|by vm_compute|by vm_compute| |by vm_compute|].
  { change (4 * ((PML4_KERNEL + 0x8000 - PML4_KERNEL) / 4096)) with 32. lia. }
  exists t. split; [|exact I]. rewrite <- E. unfold map_memory_range, map_memory_range_with_flags.
  change (Z.to_nat _) with (S 7). change (aalign_down PML4_KERNEL PAGE_SIZE) with PML4_KERNEL.
  symmetry. apply mark_absorbed; [by vm_compute|done|exact R].
Qed.

Lemma switch_context_bare s : bare_kernel s -> exists t,
  switch_context s KERNEL_PID PML4_KERNEL = Some (sti (set_pml4_address (cli t) PML4_KERNEL)) /\ paging_ok t PML4_KERNEL /\
  (forall L, 0 <= L -> edits PML4_KERNEL L 23 (kmark (filled s)) t) /\
  (forall va, kernel_range va -> translate (pm t) PML4_KERNEL va = Some va) /\
  forall i, 8 <= i < 512 -> tbl (pm t) PML4_KERNEL [0; 0; i] = None.
Proof.
  intros B0. pose proof (filled_bare s B0) as B. destruct (image_ranges (filled s) B) as (s1 & s2 & E1 & E2 & I1 & I2 & R2).
  assert (D12 : forall L, 0 <= L -> edits PML4_KERNEL L 12 (kmark (filled s)) (kmark s2)).
  { intros L HL. apply (edits_trans PML4_KERNEL L 6 6 _ (kmark s1)); [lia|by apply (ir_edits _ _ _ _ _ I1)|by apply (ir_edits _ _ _ _ _ I2)]. }
  assert (Hn0 : 0 <= num_pages (allocator (filled s))) by (pose proof (bk_num _ B) as Hn; unfold PROC_FRAMES in Hn; lia).
  destruct (pml4_range (filled s) s2 12 B (ir_ok _ _ _ _ _ I2) (D12 _ Hn0) ltac:(lia) R2) as (t & E3 & I3).
  exists t. split; [|split; [apply I3|split; [|split]]].
  - unfold switch_context. cbv zeta. change (UPPER_DIVIDE PAGE_FRAME_ALLOCATOR_END PAGE_SIZE) with FIRST_FREE.
    change (set_bitmap (cli s) (memset (bitmap (allocator (cli s))) 0 1 FIRST_FREE)) with (filled s).
    rewrite E1, bind_some. cbv beta. rewrite E2, bind_some. cbv beta. rewrite E3, bind_some. reflexivity.
  - intros L HL. apply (edits_trans PML4_KERNEL L 12 11 _ (kmark s2)); [lia|by apply D12|by apply (ir_edits _ _ _ _ _ I3)].
  - intros va Hr. pose proof (kernel_range_low va Hr) as Hl. destruct Hr as [Hr|[Hr|Hr]].
    + apply (identity_keep _ _ _ _ _ va I3 Hl), (identity_keep _ _ _ _ _ va I2 Hl), (ir_in _ _ _ _ _ I1); [done|lia].
    + apply (identity_keep _ _ _ _ _ va I3 Hl), (ir_in _ _ _ _ _ I2); [done|lia].
    + apply (ir_in _ _ _ _ _ I3); [done|lia].
  - intros i Hi. assert (idx i) as Hx by (unfold idx; lia).
    rewrite (ir_tables _ _ _ _ _ I3) by (done || (right; unfold PML4_KERNEL; zlia)).
    rewrite (ir_tables _ _ _ _ _ I2) by (done || (right; zlia)).
    rewrite (ir_tables _ _ _ _ _ I1) by (done || (right; zlia)). cbn [tbl].
    change (pm (kmark (filled s))) with (pm s). by rewrite (bk_empty s B0 0).
Qed.

(** ** init_kernel_paging *)

(** The processor as the bootloader leaves it, and an allocator that has not
    been initialised. *)
Record boot_state (s : mach) : Prop := BootState {
  bs_cr3 : cr3 s = PML4_BOOT;
  bs_tables : boot_tables (pm s);
  bs_fresh : initialized (allocator s) = 0;
}.

Lemma boot_tables_ext m m' : boot_tables m ->
  (forall b, PML4_BOOT <= b < PML4_BOOT + 8 \/ PDPT_BOOT <= b < PDPT_BOOT + 24 -> mread m' b = mread m b) -> boot_tables m'.
Proof.
  intros [B1 B2] H. split.
  - rewrite <- B1. apply load_ext. intros b Hb. apply H. lia.
  - intros i Hi. rewrite <- B2 by done. apply load_ext. intros b Hb. apply H. lia.
Qed.

Lemma nfree_clear k b i x : nfree k b i <= nfree k (mwrite b x 0) i.
Proof.
  revert i. induction k as [|k IH]; intros i; cbn [nfree]; [lia|]. specialize (IH (i + 1)). rewrite mread_mwrite.
  case_decide as E; [change (u8 0 =? 0) with true|]; destruct (mread b i =? 0); lia.
Qed.

(** A frame given back. *)
Definition release (s : mach) (x : Z) : mach := set_bitmap s (mwrite (bitmap (allocator s)) x 0).

Lemma release_below s x L n : n <= free_below L s -> n <= free_below L (release s x).
Proof.
  intros H. unfold free_below in *. cbn [release allocator set_bitmap bitmap].
  pose proof (nfree_clear (Z.to_nat L) (bitmap (allocator s)) 0 x). lia.
Qed.

Lemma release_used s x f : f <> x -> used (release s x) f <-> used s f.
Proof. intros N. unfold used, release. cbn [allocator set_bitmap bitmap]. by rewrite mread_mwrite_ne by congruence. Qed.

Lemma release_kernel s x : kernel_ok s -> x <> 0 -> ~ is_table s PML4_KERNEL x -> kernel_ok (release s x).
Proof.
  intros [[P1 P2 P3 P4 P5 P6 [P7 P7'] P8] C Lw Sf] N0 Nt. split; [|exact C|exact Lw|exact Sf].
  split; [exact P1|exact P2|exact P3| | |exact P6| |exact P8]; cbn [release set_bitmap allocator bitmap pm cr3].
  - by rewrite mread_mwrite_ne by congruence.
  - intros p t Hp Ht. rewrite mread_mwrite_ne; [by apply (P5 p)|]. intros ->. apply Nt. by exists p, t.
  - split; [|exact P7']. rewrite C, (frame_root _ kernel_root). rewrite mread_mwrite_ne; [|intros ->; apply Nt, root_table].
    by rewrite C, (frame_root _ kernel_root) in P7.
Qed.

(** The processor moved to the tree that is being edited. *)
Lemma own_root s K : paging_ok s K -> paging_ok (set_pml4_address s K) K.
Proof.
  intros H. pose proof (po_K s K H) as HK. pose proof (po_rec s K H) as Hr. destruct H as [P1 P2 P3 P4 P5 P6 P7 P8].
  split; [|exact P2|exact P3|exact P4|exact P5|exact P6| |exact P8]; cbn [cr3 pm allocator set_pml4_address]; rewrite ?(frame_root K HK).
  - unfold rec_ok in *. rewrite (frame_root K HK). intuition.
  - split; [by apply (P5 [] K tpath_nil)|]. intros p Hp Ht. by apply (P6 p [] K Hp tpath_nil).
Qed.

(** On the identity map a store reaches the address itself. *)
Lemma boot_vst64 s m va w : cr3 s = PML4_BOOT -> boot_tables m -> 0 <= va < 3 * 2 ^ 30 ->
  vst64 (set_pm s m) va w = Some (set_pm s (st64 m va w)).
Proof.
  intros C B Hva. unfold vst64. cbn [pm cr3 set_pm]. rewrite C, boot_identity by done. cbn [mbind option_bind].
  generalize (st64 m va w). reflexivity.
Qed.

Lemma boot_vzero_page s va : cr3 s = PML4_BOOT -> boot_tables (pm s) -> 0 <= va < 3 * 2 ^ 30 ->
  vzero_page s va = Some (set_pm s (memset (pm s) va 0 PAGE_SIZE)).
Proof. intros C B Hva. unfold vzero_page. rewrite C, boot_identity by done. cbn [mbind option_bind]. generalize (memset (pm s) va 0 PAGE_SIZE). reflexivity. Qed.

(** The allocator of init_kernel_paging before its stores. *)
Definition started (s : mach) (n : Z) : mach :=
  let s := cli (init_page_frame_allocator s n) in
  let s := set_bitmap s (mwrite (bitmap (allocator s)) (PML4_BOOT / PAGE_SIZE) 1) in
  set_bitmap s (mwrite (bitmap (allocator s)) ((PML4_BOOT + 8 * PAGE_SIZE) / PAGE_SIZE) 1).

Lemma started_fresh s n : boot_state s -> FIRST_FREE <= n ->
  cr3 (started s n) = PML4_BOOT /\ pm (started s n) = pm s /\ num_pages (allocator (started s n)) = n /\
  fresh_bitmap (bitmap (allocator (started s n))) n.
Proof.
  intros [B1 B2 B3] Hn. unfold started, init_page_frame_allocator. change (allocator (cli s)) with (allocator s). rewrite B3.
  change (negb (0 =? 0)) with false. cbv zeta iota.
  change ((PAGE_FRAME_ALLOCATOR_END + PAGE_SIZE) / PAGE_SIZE) with FIRST_FREE.
  change (PML4_BOOT / PAGE_SIZE) with 0x80. change ((PML4_BOOT + 8 * PAGE_SIZE) / PAGE_SIZE) with 0x88.
  cbn [cr3 pm set_bitmap cli sti allocator bitmap num_pages]. split; [exact B1|]. split; [done|]. split; [done|].
  apply fresh_mark; [apply fresh_mark; [by apply fresh_init|by vm_compute|done]|by vm_compute|done].
Qed.

(** The three stores before switch_context. *)
Lemma boot_bare s : cr3 s = PML4_BOOT -> boot_tables (pm s) -> fresh_bitmap (bitmap (allocator s)) (num_pages (allocator s)) ->
  PROC_FRAMES <= num_pages (allocator s) <= 2 ^ 40 -> exists s1 s2 s3, vzero_page s PML4_KERNEL = Some s1 /\
    vst64 s1 (PML4_BOOT + 8 * PML4_RECURSIVE_ENTRY_NUM) (Z.lor PML4_KERNEL PAGE_MAP_FLAGS) = Some s2 /\
    init_recursive_paging s2 PML4_KERNEL = Some s3 /\ bare_kernel s3 /\ allocator s3 = allocator s /\
    forall b, b / 4096 <> K_FRAME -> ~ (PML4_BOOT + 8 * 511 <= b < PML4_BOOT + 4096) -> mread (pm s3) b = mread (pm s) b.
Proof.
  intros C B F Hn. set (w := Z.lor PML4_KERNEL PAGE_MAP_FLAGS). assert (Hw : 0 <= w < 2 ^ 64) by (vm_compute; split; congruence).
  set (m1 := memset (pm s) PML4_KERNEL 0 PAGE_SIZE). set (m2 := st64 m1 (PML4_BOOT + 8 * PML4_RECURSIVE_ENTRY_NUM) w). set (m3 := st64 m2 (PML4_KERNEL + 8 * PML4_RECURSIVE_ENTRY_NUM) w).
  assert (T1 : boot_tables m1).
  { apply (boot_tables_ext (pm s)); [done|]. intros b Hb. apply memset_out. unfold PML4_BOOT, PDPT_BOOT, PML4_KERNEL in *. lia. }
  assert (T2 : boot_tables m2).
  { apply (boot_tables_ext m1); [done|]. intros b Hb. apply mread_store_out. unfold PML4_BOOT, PDPT_BOOT, PML4_RECURSIVE_ENTRY_NUM in *. simpl. lia. }
  exists (set_pm s m1), (set_pm s m2), (set_pm s m3). split_and!.
  - by apply boot_vzero_page.
  - apply boot_vst64; [exact C|exact T1|by vm_compute].
  - apply (boot_vst64 s m2); [exact C|exact T2|by vm_compute].
  - split; cbn [pm cr3 allocator set_pm]; [exact C|exact F|exact Hn| | |].
    + unfold m3. rewrite load_store_out by (unfold PML4_BOOT, PML4_KERNEL, PML4_RECURSIVE_ENTRY_NUM; simpl; lia).
      clearbody m1. unfold m2, PML4_RECURSIVE_ENTRY_NUM. rewrite ld64_st64. apply u64_small. lia.
    + clearbody m2. unfold m3, PML4_RECURSIVE_ENTRY_NUM. rewrite ld64_st64. apply u64_small. lia.
    + intros i Hi N. unfold idx in Hi. unfold m3, m2, PML4_BOOT, PML4_KERNEL, PML4_RECURSIVE_ENTRY_NUM. rewrite !load_store_out by (simpl; lia).
      unfold m1, PML4_KERNEL, PAGE_SIZE. apply load_memset_zero; simpl; lia.
  - done.
  - intros b H1 H2. cbn [pm set_pm]. unfold m3, m2, m1. rewrite mread_store_out by (unfold K_FRAME, PML4_KERNEL, PML4_RECURSIVE_ENTRY_NUM in *; simpl; zlia).
    rewrite mread_store_out by (unfold PML4_BOOT, PML4_RECURSIVE_ENTRY_NUM in *; simpl; lia). apply memset_out. unfold K_FRAME, PML4_KERNEL, PAGE_SIZE in *. zlia.
Qed.

Definition BOOT_FRAME : Z := 0x80.
Definition BOOT_FRAME2 : Z := 0x88.

(** What init_kernel_paging promises; [n] is the number of frames. *)
Record kernel_paging (s s' : mach) (n : Z) : Prop := KernelPaging {
  kp_ok : kernel_ok s';
  kp_num : num_pages (allocator s') = n;
  kp_free : forall L, FIRST_FREE <= L <= n -> L - 2840 <= free_below L s';
  kp_identity : forall va, kernel_range va -> translate (pm s') PML4_KERNEL va = Some va;
  kp_tables : forall f, is_table s' PML4_KERNEL f -> f = K_FRAME \/ FIRST_FREE <= f < K_FRAME;
  kp_no_table : forall i, 8 <= i < 512 -> tbl (pm s') PML4_KERNEL [0; 0; i] = None;
  kp_used : forall f, 0 <= f < FIRST_FREE -> f <> BOOT_FRAME -> f <> BOOT_FRAME2 -> used s' f;
  kp_same : forall b, ~ is_table s' PML4_KERNEL (b / 4096) -> ~ (PML4_BOOT + 8 * 511 <= b < PML4_BOOT + 4096) ->
    mread (pm s') b = mread (pm s) b;
}.

Lemma table_nonneg s K f : 0 <= K < 2 ^ 52 /\ K mod 4096 = 0 -> is_table s K f -> 0 <= f.
Proof. intros HK (p & t & _ & Ht & <-). destruct (tbl_aligned _ _ _ _ HK Ht). apply Z.div_pos; lia. Qed.

Lemma init_kernel_paging_spec s n : boot_state s -> PROC_FRAMES <= n <= 2 ^ 40 ->
  exists s', init_kernel_paging s KERNEL_PID n = Some s' /\ kernel_paging s s' n.
Proof.
  intros Hs Hn. destruct (started_fresh s n Hs) as (C0 & M0 & N0 & F0); [unfold FIRST_FREE, PROC_FRAMES in *; lia|].
  destruct (boot_bare (started s n)) as (s1 & s2 & s3 & E1 & E2 & E3 & B3 & A3 & S3); [done|rewrite M0; apply Hs|by rewrite N0|by rewrite N0|].
  destruct (switch_context_bare s3 B3) as (t & E4 & P4 & D4 & I4 & N4). pose proof (filled_bare s3 B3) as B3'.
  set (u := sti (set_pml4_address (cli t) PML4_KERNEL)) in *. set (v := release (release (cli u) BOOT_FRAME) BOOT_FRAME2).
  assert (Nn : num_pages (allocator (filled s3)) = n) by (change (num_pages (allocator s3) = n); by rewrite A3, N0).
  assert (Tb : forall f, is_table t PML4_KERNEL f -> f = K_FRAME \/ FIRST_FREE <= f < K_FRAME).
  { intros f Hf. destruct (bare_mark_ok _ B3') as [_ Bm]. pose proof (table_nonneg _ _ _ kernel_root Hf) as Hf0.
    assert (Hlow : f < K_FRAME \/ f = K_FRAME).
    { pose proof (bare_room (filled s3) K_FRAME B3' ltac:(rewrite Nn; change K_FRAME with 0xd00; unfold FIRST_FREE, PROC_FRAMES in *; lia)) as R.
      change (K_FRAME - FIRST_FREE - 1) with 511 in R. destruct (ed_low _ _ _ _ _ (D4 K_FRAME ltac:(done)) ltac:(lia) f Hf) as [Ho|]; [|by left].
      right. by apply Bm. }
    destruct (ed_new _ _ _ _ _ (D4 0 ltac:(done)) f Hf) as [Ho|Hu]; [left; by apply Bm|].
    destruct Hlow as [Hlow|]; [|by left]. right. split; [|done]. destruct (Z.lt_ge_cases f FIRST_FREE) as [Hlt|]; [|done].
    exfalso. apply Hu. by apply used_image. }
  assert (Nt : forall f, 0 <= f < FIRST_FREE -> ~ is_table t PML4_KERNEL f).
  { intros f Hf Ht. unfold FIRST_FREE in *. destruct (Tb f Ht) as [->|]; [by change K_FRAME with 0xd00 in Hf; lia|lia]. }
  assert (Ku : kernel_ok (cli u)).
  { split; [|done| |].
    - pose proof (own_root t PML4_KERNEL P4) as []. by split.
    - intros f Hf. destruct (Tb f Hf) as [->|]; [by vm_compute|]. change K_FRAME with 0xd00 in *. unfold PROC_FRAMES. lia.
    - apply I4. right. right. unfold PML4_KERNEL. lia. }
  exists v. split.
  { unfold init_kernel_paging. cbv zeta. fold (started s n). rewrite E1, bind_some. cbv beta. rewrite E2, bind_some. cbv beta.
    rewrite E3, bind_some. cbv beta. rewrite E4, bind_some. cbv beta. reflexivity. }
  split.
  - apply release_kernel; [apply release_kernel; [exact Ku|done|by apply Nt]|done|by apply Nt].
  - change (num_pages (allocator v)) with (num_pages (allocator t)). by rewrite (ed_num _ _ _ _ _ (D4 0 ltac:(done))).
  - intros L HL. apply release_below, release_below. pose proof (ed_below _ _ _ _ _ (D4 L ltac:(unfold FIRST_FREE in HL; lia))) as F.
    pose proof (bare_room (filled s3) L B3' ltac:(by rewrite Nn)) as R. unfold FIRST_FREE in R.
    change (free_below L (cli u)) with (free_below L t). lia.
  - exact I4.
  - exact Tb.
  - exact N4.
  - intros f Hf H1 H2. unfold v. rewrite !release_used by done. apply (ed_mono _ _ _ _ _ (D4 0 ltac:(done))). by apply used_image.
  - intros b Hb Hb'. change (mread (pm t) b = mread (pm s) b). rewrite (ed_same _ _ _ _ _ (D4 0 ltac:(done))) by exact Hb.
    change (mread (pm s3) b = mread (pm s) b). rewrite S3; [by rewrite M0| |exact Hb'].
    intros Ek. apply Hb. rewrite Ek. apply (root_table v PML4_KERNEL).
Qed.

(** ** init_heap *)

Lemma mwrite_mod m a v : mwrite m a (v mod 256) = mwrite m a v.
Proof. unfold mwrite. f_equal. unfold u8. by rewrite Z.mod_mod. Qed.

Lemma store_mputs n m a v : store n m a v = mputs m a (le_bytes n v).
Proof.
  revert m a v. induction n as [|n IH]; intros m a v; [reflexivity|].
  change (store (S n) m a v) with (store n (mwrite m a v) (a + 1) (v / 256)). cbn [le_bytes mputs]. by rewrite mwrite_mod, IH.
Qed.

Lemma memset_mputs m a n : memset m a 0 (Z.of_nat n) = mputs m a (replicate n 0).
Proof.
  assert (H : forall i m, memset_loop n m a 0 i = mputs m (a + i) (replicate n 0)).
  { induction n as [|n IH]; intros i m'; [reflexivity|]. cbn [memset_loop replicate mputs]. change (u8 0) with 0. rewrite IH. f_equal. lia. }
  unfold memset. rewrite Nat2Z.id, H. by rewrite Z.add_0_r.
Qed.

(** The image that is copied and the break that follows are what the heap's own
    model stores. *)
Lemma init_heap_image m junk base_addr size :
  let b := aalign base_addr HEAP_CHUNK_MIN_SIZE_BYTES in
  st64 (mputs m b (malloc_state_image b junk (aalign size HEAP_CHUNK_MIN_SIZE_BYTES))) (b + o_heap_end) (b + sizeof_malloc_state) =
  (init_heap m junk base_addr size).1.
Proof.
  cbv zeta. unfold init_heap, malloc_state_image, brk. cbn [fst]. set (b := aalign base_addr _). f_equal.
  rewrite !mputs_app. unfold zlen. rewrite !length_le_bytes, <- !store_mputs, <- memset_mputs.
  unfold o_heap_base, o_heap_end, o_heap_total_size, o_mchunk, o_unsorted_bin_head, o_padding. rewrite <- !Z.add_assoc, Z.add_0_r. reflexivity.
Qed.

Lemma heap_empty_ext base m m' hend : heap_ok base m [] [] hend ->
  (forall b, base <= b < base + 64 -> mread m' b = mread m b) -> heap_ok base m' [] [] hend.
Proof.
  intros [H1 H2 H3 H4 H5 H6 H7 H8 H9 H10] H. split; try assumption; [rewrite <- H3|rewrite <- H4|rewrite <- H5];
    apply load_ext; intros b Hb; apply H; unfold o_heap_end, o_mchunk, o_unsorted_bin_head in Hb; lia.
Qed.

Definition HEAP_FRAME : Z := 0x2000.
Definition HEAP_SIZE : Z := KERNEL_HEAP_SIZE_PAGES * PAGE_SIZE.

Lemma kernel_same s m : kernel_ok s -> paging_ok (set_pm s m) PML4_KERNEL -> same_tree (pm s) m PML4_KERNEL -> kernel_ok (set_pm s m).
Proof.
  intros [K1 K2 K3 K4] P A. split; [exact P|exact K2| |].
  - intros f Hf%(is_table_same s (set_pm s m)); [by apply K3|exact A].
  - cbn [pm set_pm]. rewrite (translate_same (pm s) m); [exact K4|apply kernel_root|unfold low, PML4_KERNEL; lia|apply K1|exact A].
Qed.

Lemma kernel_range_edits s s' st en c : kernel_ok s -> identity_range st en c s s' -> c <= free_below PROC_FRAMES s -> kernel_ok s'.
Proof.
  intros Hk I Hc. apply (kernel_edits s s' c); [exact Hk|apply I|by apply (ir_edits _ _ _ _ _ I)|exact Hc|].
  rewrite (ko_self s Hk). apply (identity_keep _ _ _ _ _ _ I); [unfold low, PML4_KERNEL; lia|apply Hk].
Qed.

(** Stores to pages that are mapped to themselves and hold no table. *)
Lemma kernel_puts s va bytes : kernel_ok s -> 0 <= va -> va + zlen bytes <= 2 ^ 47 ->
  (forall j, 0 <= j < zlen bytes -> translate (pm s) PML4_KERNEL (va + j) = Some (va + j) /\ ~ is_table s PML4_KERNEL ((va + j) / 4096)) ->
  let s' := set_pm s (mputs (pm s) va bytes) in
  vputs s va bytes = Some s' /\ kernel_ok s' /\ same_tree (pm s) (pm s') PML4_KERNEL.
Proof.
  intros Hk H0 Hv Ht. destruct (vputs_spec bytes s PML4_KERNEL va va (ko_paging s Hk) (ko_cr3 s Hk) H0 Hv Ht) as (E & P & S).
  split; [exact E|]. split; [by apply kernel_same|exact S].
Qed.

Lemma heap_stores s junk : kernel_ok s -> (forall f, is_table s PML4_KERNEL f -> f < HEAP_FRAME) ->
  (forall j, 0 <= j < 64 -> translate (pm s) PML4_KERNEL (KERNEL_HEAP_START + j) = Some (KERNEL_HEAP_START + j)) ->
  let b := KERNEL_HEAP_START in
  let s' := set_pm s (init_heap (pm s) junk KERNEL_HEAP_START HEAP_SIZE).1 in
  (s ← vputs s b (malloc_state_image b junk HEAP_SIZE); s ← vst64 s (b + o_heap_end) (b + sizeof_malloc_state); Some (s, b)) = Some (s', b) /\
  kernel_ok s' /\ same_tree (pm s) (pm s') PML4_KERNEL.
Proof.
  intros Hk Htb Ht b s'. pose proof (init_heap_image (pm s) junk KERNEL_HEAP_START HEAP_SIZE) as Him. cbv zeta in Him.
  change (aalign KERNEL_HEAP_START HEAP_CHUNK_MIN_SIZE_BYTES) with b in Him. change (aalign HEAP_SIZE HEAP_CHUNK_MIN_SIZE_BYTES) with HEAP_SIZE in Him.
  set (img := malloc_state_image b junk HEAP_SIZE) in *. assert (Hz : zlen img = 64) by reflexivity.
  assert (Hb : b = 0x2000000) by reflexivity. change KERNEL_HEAP_START with b in Ht. clearbody img b.
  assert (Nt : forall j, 0 <= j < 64 -> ~ is_table s PML4_KERNEL ((b + j) / 4096)) by (intros j Hj Hf%Htb; unfold HEAP_FRAME in *; zlia).
  destruct (kernel_puts s b img Hk) as (E1 & K1 & S1); [lia|lia|intros j Hj; split; [apply Ht|apply Nt]; lia|]. cbv zeta in *.
  set (s1 := set_pm s (mputs (pm s) b img)) in *.
  assert (Ht1 : forall j, 0 <= j < 64 -> translate (pm s1) PML4_KERNEL (b + j) = Some (b + j)).
  { intros j Hj. rewrite (translate_same (pm s) (pm s1)); [by apply Ht|apply kernel_root|unfold low; lia|apply Hk|exact S1]. }
  destruct (kernel_puts s1 (b + o_heap_end) (le_bytes 8 (b + sizeof_malloc_state)) K1) as (_ & K2 & S2).
  { unfold o_heap_end. lia. } { unfold zlen. rewrite length_le_bytes. unfold o_heap_end. lia. }
  { unfold zlen. rewrite length_le_bytes. unfold o_heap_end. intros j Hj. rewrite <- Z.add_assoc. split; [apply Ht1; lia|].
    rewrite (is_table_same s s1) by exact S1. apply Nt. lia. }
  cbv zeta in *. rewrite <- store_mputs in K2, S2. change (pm s1) with (mputs (pm s) b img) in K2, S2 at 1. 
  split; [|split].
  - rewrite E1, bind_some. unfold vst64. rewrite (ko_cr3 s1 K1). unfold o_heap_end. rewrite Ht1 by lia. rewrite !bind_some.
    do 2 f_equal. unfold s'. rewrite <- Him. reflexivity.
  - unfold s'. rewrite <- Him. exact K2.
  - unfold s'. rewrite <- Him. exact (same_tree_trans _ _ _ _ S1 S2).
Qed.

(** A table that a run adds comes from a frame that was free, and no lower frame
    stays free. *)
Lemma new_table s s' K L c p t : edits K L c s s' -> paging_ok s' K -> tpath p -> tbl (pm s) K p = None -> tbl (pm s') K p = Some t ->
  ~ used s (t / 4096) /\ 0 <= t / 4096 /\ forall x, 0 <= x <= t / 4096 -> used s' x.
Proof.
  intros D P Hp Hn Ht. pose proof (po_K s' K P) as HK. destruct (tbl_aligned _ _ _ _ HK Ht) as [Ht1 Ht2].
  assert (Htab : is_table s' K (t / 4096)) by by exists p, t.
  assert (Nt : ~ is_table s K (t / 4096)).
  { intros (q & u & Hq & Hu & E). destruct (tbl_aligned _ _ _ _ HK Hu) as [Hu1 Hu2]. assert (u = t) as -> by zlia.
    pose proof (ed_kept _ _ _ _ _ D q t Hq Hu) as Hu'. by rewrite (po_inj s' K P p q t Hp Hq Ht Hu'), Hu in Hn. }
  split; [|split; [zlia|]].
  - by destruct (ed_new _ _ _ _ _ D _ Htab).
  - intros x Hx. destruct (ed_lowest _ _ _ _ _ D _ Htab) as [|Hl]; [done|]. destruct (Z.eq_dec x (t / 4096)) as [->|].
    + by apply (po_used s' K P p).
    + apply Hl. lia.
Qed.

(** Two new tables use up the two lowest free frames. *)
Lemma two_lowest s s' K L c p q t u x y z : edits K L c s s' -> paging_ok s' K -> tpath p -> tpath q -> p <> q ->
  tbl (pm s) K p = None -> tbl (pm s) K q = None -> tbl (pm s') K p = Some t -> tbl (pm s') K q = Some u ->
  0 <= x < y -> y < z -> (forall f, 0 <= f < z -> f <> x -> f <> y -> used s f) -> used s' x /\ used s' y.
Proof.
  intros D P Hp Hq Hpq Np Nq Tp Tq Hx Hy Hu. destruct (new_table s s' K L c p t D P Hp Np Tp) as (A1 & A2 & A3).
  destruct (new_table s s' K L c q u D P Hq Nq Tq) as (B1 & B2 & B3).
  destruct (tbl_aligned _ _ _ _ (po_K s' K P) Tp) as [_ Ht2]. destruct (tbl_aligned _ _ _ _ (po_K s' K P) Tq) as [_ Hu2].
  assert (t / 4096 <> u / 4096). { intros E. assert (t = u) as -> by zlia. by apply Hpq, (po_inj s' K P p q u). }
  assert (forall f, ~ used s f -> 0 <= f -> f = x \/ f = y \/ z <= f) as Hf.
  { intros f Hf H0. destruct (Z.lt_ge_cases f z); [|tauto]. destruct (Z.eq_dec f x), (Z.eq_dec f y); try tauto. exfalso. apply Hf, Hu; lia. }
  destruct (Z.lt_ge_cases (t / 4096) y).
  - destruct (Hf _ A1 A2) as [|[|]], (Hf _ B1 B2) as [|[|]]; try lia; split; apply B3; lia.
  - split; apply A3; lia.
Qed.

(** A marked range has all its numbers taken. *)
Lemma map_range_used k s K pid addr pa flags sa s' : paging_ok s K -> 0 < pid < 256 -> 0 <= addr -> addr mod 4096 = 0 ->
  addr + 4096 * Z.of_nat k <= 2 ^ 47 -> 0 <= pa -> pa mod 4096 = 0 -> pa + 4096 * Z.of_nat k <= 2 ^ 52 ->
  0 <= flags < 4096 -> Z.odd flags = true -> 4 * Z.of_nat k <= free_pages s -> sa <> 0 -> addr + 4096 * Z.of_nat k <= 2 ^ 32 ->
  map_range_loop k s pid addr pa flags sa = Some s' -> forall f, addr / 4096 <= f < addr / 4096 + Z.of_nat k -> used s' f.
Proof.
  intros H Hpid H0 Ha Hb Hp Hpa Hpb Hf Hodd Hfree Hsa Hlim. revert s'. induction k as [|k IH]; intros s' E f Hff; [lia|]. rewrite map_range_snoc in E by (by right).
  destruct (map_range_spec k s K pid addr pa flags sa) as (t & Et & P & _); try done; try lia.
  rewrite Et, bind_some in E. apply bind_Some in E as (s2 & E2 & E). injection E as <-.
  destruct (map_page_edits t K 0 pid (addr + 4096 * Z.of_nat k) (pa + 4096 * Z.of_nat k) flags s2) as [D _];
    try done; [apply low_index; unfold low; lia|lia|zlia|].
  unfold set_in. rewrite (proj2 (Z.eqb_neq sa 0) Hsa). cbn [negb]. unfold used, PAGE_SIZE. cbn [allocator set_bitmap bitmap].
  destruct (Z.eq_dec f ((addr + 4096 * Z.of_nat k) / 4096)) as [->|Hne]; [rewrite mread_mwrite_eq, u8_small by lia; lia|].
  rewrite mread_mwrite_ne by done. apply (ed_mono _ _ _ _ _ D), (IH ltac:(lia) ltac:(lia) ltac:(lia) ltac:(lia) t Et). zlia.
Qed.

Lemma range_used s start e st en s' : paging_ok s PML4_KERNEL -> 0 <= start <= e -> e + 8192 <= 2 ^ 47 ->
  st = aalign_down start PAGE_SIZE -> en = aalign e PAGE_SIZE -> 4 * ((en - st) / 4096) <= free_pages s -> en <= 2 ^ 32 ->
  map_memory_range s KERNEL_PID start e start = Some s' -> forall f, st / 4096 <= f < en / 4096 -> used s' f.
Proof.
  intros H Hs He -> -> Hfree Hlim E f Hff. destruct PAGE_MAP_FLAGS_ok as [F1 F2].
  destruct (range_count start e) as (C1 & C2 & C3 & C4 & C5 & C6); [lia|lia|lia|].
  unfold map_memory_range, map_memory_range_with_flags in E. unfold PAGE_SIZE in *.
  eapply (map_range_used (Z.to_nat ((aalign e 4096 - aalign_down start 4096) / 4096)) s PML4_KERNEL KERNEL_PID
    (aalign_down start 4096) (aalign_down start 4096) PAGE_MAP_FLAGS 1); try done; try lia; zlia.
Qed.

(** What mapping and building the heap leaves. *)
Record heap_started (s s' : mach) : Prop := HeapStarted {
  hs_ok : kernel_ok s';
  hs_num : num_pages (allocator s') = num_pages (allocator s);
  hs_free : forall L, 0 <= L -> free_below L s - 1037 <= free_below L s';
  hs_used : forall f, used s f -> used s' f;
  hs_tables : forall f, is_table s' PML4_KERNEL f -> f < HEAP_FRAME;
  hs_new : forall f, is_table s' PML4_KERNEL f -> is_table s PML4_KERNEL f \/ ~ used s f;
  hs_kept : forall f, is_table s PML4_KERNEL f -> is_table s' PML4_KERNEL f;
  hs_in : forall va, KERNEL_HEAP_START <= va < KERNEL_HEAP_START + HEAP_SIZE -> translate (pm s') PML4_KERNEL va = Some va;
  hs_keep : forall va, low va -> translate (pm s) PML4_KERNEL va = Some va -> translate (pm s') PML4_KERNEL va = Some va;
  hs_fill : forall x y z, 0 <= x < y -> y < z -> (forall f, 0 <= f < z -> f <> x -> f <> y -> used s f) ->
    tbl (pm s) PML4_KERNEL [0; 0; 16] = None -> tbl (pm s) PML4_KERNEL [0; 0; 17] = None -> used s' x /\ used s' y;
  hs_marked : forall f, HEAP_FRAME <= f < HEAP_FRAME + 0x400 -> used s' f;
  hs_heap : heap_ok KERNEL_HEAP_START (pm s') [] [] (KERNEL_HEAP_START + 64);
  hs_same : forall b, ~ is_table s' PML4_KERNEL (b / 4096) -> ~ (KERNEL_HEAP_START <= b < KERNEL_HEAP_START + 64) ->
    mread (pm s') b = mread (pm s) b;
}.

Lemma init_heap_out m junk b : ~ (KERNEL_HEAP_START <= b < KERNEL_HEAP_START + 64) ->
  mread (init_heap m junk KERNEL_HEAP_START HEAP_SIZE).1 b = mread m b.
Proof.
  intros Hb. unfold init_heap, brk. change (aalign KERNEL_HEAP_START HEAP_CHUNK_MIN_SIZE_BYTES) with 0x2000000. cbn [fst].
  change KERNEL_HEAP_START with 0x2000000 in Hb.
  unfold o_heap_base, o_heap_end, o_heap_total_size, o_mchunk, o_unsorted_bin_head, o_padding, MALLOC_STATE_PADDING_SIZE, HEAP_CHUNK_MIN_SIZE_BYTES.
  rewrite mread_store_out, memset_out by (simpl; lia). by rewrite !mread_store_out by (simpl; lia).
Qed.

Lemma init_heap_mapped_spec s junk : kernel_ok s -> (forall f, is_table s PML4_KERNEL f -> f < HEAP_FRAME) ->
  5000 <= free_pages s -> 1100 <= free_below HEAP_FRAME s -> 1100 <= free_below PROC_FRAMES s ->
  exists s', init_heap_mapped s KERNEL_PID junk KERNEL_HEAP_START HEAP_SIZE = Some (s', KERNEL_HEAP_START) /\ heap_started s s'.
Proof.
  intros Hk Htb F1 F2 F3. set (b := KERNEL_HEAP_START). assert (Hb : b = 0x2000000) by reflexivity.
  destruct (plain_range s b (b + sizeof_malloc_state) b (b + 0x1000)) as (s1 & E1 & I1);
    [apply Hk|by vm_compute|by vm_compute|by vm_compute|by vm_compute|change (4 * ((b + 0x1000 - b) / 4096)) with 4; lia|by vm_compute|].
  change (range_cost 1 b (b + 0x1000)) with 4 in I1. pose proof (ir_edits _ _ _ _ _ I1) as D1.
  pose proof (kernel_range_edits s s1 _ _ 4 Hk I1 ltac:(lia)) as K1.
  assert (G1 : forall L, 0 <= L -> free_below L s - 4 <= free_below L s1) by (intros L HL; apply (ed_below _ _ _ _ _ (D1 L HL))).
  pose proof (po_pages s _ (ko_paging s Hk)) as [Hn _]. pose proof (free_pages_below s s1 4 (D1 _ Hn)) as P1.
  destruct (plain_range s1 b (b + HEAP_SIZE) b (b + HEAP_SIZE)) as (s2 & E2 & I2);
    [apply K1|by vm_compute|by vm_compute|by vm_compute|by vm_compute|change (4 * ((b + HEAP_SIZE - b) / 4096)) with 4096; lia|by vm_compute|].
  change (range_cost 1 b (b + HEAP_SIZE)) with 1033 in I2. pose proof (ir_edits _ _ _ _ _ I2) as D2.
  pose proof (G1 PROC_FRAMES ltac:(done)) as G1p. pose proof (G1 HEAP_FRAME ltac:(done)) as G1h.
  pose proof (kernel_range_edits s1 s2 _ _ 1033 K1 I2 ltac:(lia)) as K2.
  assert (D : forall L, 0 <= L -> edits PML4_KERNEL L 1037 s s2) by (intros L HL; apply (edits_trans _ L 4 1033 _ s1); [lia|by apply D1|by apply D2]).
  assert (T2 : forall f, is_table s2 PML4_KERNEL f -> f < HEAP_FRAME).
  { intros f Hf. destruct (ed_low _ _ _ _ _ (D HEAP_FRAME ltac:(done)) ltac:(lia) f Hf) as [Ho|]; [by apply Htb|done]. }
  assert (In2 : forall va, b <= va < b + HEAP_SIZE -> translate (pm s2) PML4_KERNEL va = Some va).
  { intros va Hva. apply (ir_in _ _ _ _ _ I2); [|done]. change HEAP_SIZE with 0x400000 in Hva. unfold low. lia. }
  destruct (heap_stores s2 junk K2 T2) as (E3 & K3 & S3); [intros j Hj; apply In2; change HEAP_SIZE with 0x400000; unfold b; lia|].
  cbv zeta in E3, K3, S3. set (s3 := set_pm s2 _) in *.
  assert (Tb3 : forall f, is_table s3 PML4_KERNEL f <-> is_table s2 PML4_KERNEL f) by (intros f; by apply is_table_same).
  assert (Lw : forall va, low va -> translate (pm s3) PML4_KERNEL va = translate (pm s2) PML4_KERNEL va).
  { intros va Hl. apply translate_same; [apply kernel_root|done|apply K2|exact S3]. }
  exists s3. split.
  { unfold init_heap_mapped. cbv zeta. change (aalign b HEAP_CHUNK_MIN_SIZE_BYTES) with b.
    change (aalign HEAP_SIZE HEAP_CHUNK_MIN_SIZE_BYTES) with HEAP_SIZE. rewrite E1, bind_some. cbv beta. rewrite E2, bind_some. exact E3. }
  split.
  - exact K3.
  - exact (ed_num _ _ _ _ _ (D 0 ltac:(done))).
  - intros L HL. exact (ed_below _ _ _ _ _ (D L HL)).
  - exact (ed_mono _ _ _ _ _ (D 0 ltac:(done))).
  - intros f Hf%Tb3. by apply T2.
  - intros f Hf%Tb3. by apply (ed_new _ _ _ _ _ (D 0 ltac:(done))).
  - intros f Hf. apply Tb3. apply (is_table_kept s); [apply (ed_kept _ _ _ _ _ (D 0 ltac:(done)))|done].
  - intros va Hva. rewrite Lw; [by apply In2|]. change HEAP_SIZE with 0x400000 in Hva. change KERNEL_HEAP_START with 0x2000000 in Hva. unfold low. lia.
  - intros va Hl Hva. rewrite Lw by done. by apply (identity_keep _ _ _ _ _ _ I2), (identity_keep _ _ _ _ _ _ I1).
  - intros x y z Hx Hy Hu N1 N2. change (used s2 x /\ used s2 y).
    assert (V : forall i, 0 <= i < 511 -> tpath [0; 0; i]).
    { intros i Hi. split; [|simpl; lia]. split; [|split; [simpl; lia|done]]. rewrite !list.Forall_cons. unfold idx. split_and!; (done || lia). }
    assert (M : forall va, b <= va < b + HEAP_SIZE -> tbl (pm s2) PML4_KERNEL (table_path va) <> None).
    { intros va Hva. eapply translate_table; [apply K2| |by apply In2]. change HEAP_SIZE with 0x400000 in Hva. unfold low. lia. }
    pose proof (M 0x2000000 ltac:(by vm_compute)) as M1. pose proof (M 0x2200000 ltac:(by vm_compute)) as M2.
    change (table_path 0x2000000) with [0; 0; 16] in M1. change (table_path 0x2200000) with [0; 0; 17] in M2.
    destruct (tbl (pm s2) PML4_KERNEL [0; 0; 16]) as [t|] eqn:T16; [|done]. destruct (tbl (pm s2) PML4_KERNEL [0; 0; 17]) as [u|] eqn:T17; [|done].
    apply (two_lowest s s2 PML4_KERNEL 0 1037 [0; 0; 16] [0; 0; 17] t u x y z); try done; [by apply D|apply K2|by apply V|by apply V].
  - apply (range_used s1 b (b + HEAP_SIZE) b (b + HEAP_SIZE) s2); try done; [apply K1|change (4 * ((b + HEAP_SIZE - b) / 4096)) with 4096; lia].
  - pose proof (init_heap_empty (pm s2) junk KERNEL_HEAP_START HEAP_SIZE eq_refl eq_refl) as Hi. unfold s3. cbn [pm set_pm].
    destruct (init_heap (pm s2) junk KERNEL_HEAP_START HEAP_SIZE) as [m' x]. destruct Hi as (-> & _ & Hi). exact Hi.
  - intros c Hc Hc'. change (mread (init_heap (pm s2) junk KERNEL_HEAP_START HEAP_SIZE).1 c = mread (pm s) c). rewrite init_heap_out by exact Hc'.
    apply (ed_same _ _ _ _ _ (D 0 ltac:(done))). by rewrite <- Tb3.
Qed.

(** ** init_kernel_process *)

(** With frames to spare a range ends with interrupts on. *)
Lemma map_range_ready k s K pid addr pa flags sa s' : paging_ok s K -> 0 < pid < 256 -> 0 <= addr -> addr mod 4096 = 0 ->
  addr + 4096 * Z.of_nat (S k) <= 2 ^ 47 -> 0 <= pa -> pa mod 4096 = 0 -> pa + 4096 * Z.of_nat (S k) <= 2 ^ 52 ->
  0 <= flags < 4096 -> Z.odd flags = true -> 4 * Z.of_nat (S k) <= free_pages s -> sa = 0 \/ addr + 4096 * Z.of_nat (S k) <= 2 ^ 32 ->
  map_range_loop (S k) s pid addr pa flags sa = Some s' -> interrupts_ready s' = true /\ intr_flag s' = true.
Proof.
  intros H Hpid H0 Ha Hb Hp Hpa Hpb Hf Hodd Hfree Hsa E. rewrite map_range_snoc in E by done.
  destruct (map_range_spec k s K pid addr pa flags sa) as (t & Et & P & _ & F & _); try done; try lia.
  rewrite Et, bind_some in E. apply bind_Some in E as (s2 & E2 & E). injection E as <-.
  destruct (map_page_spec t K pid (addr + 4096 * Z.of_nat k) (pa + 4096 * Z.of_nat k) flags) as (s2' & E2' & _ & _ & _ & F2 & _ & R);
    try done; [apply low_index; unfold low; lia|lia|zlia|].
  rewrite E2 in E2'. injection E2' as <-. unfold set_in. destruct R as [(R1 & R2 & _)|(_ & _ & Hz & _)]; [|lia].
  destruct (negb _); by split.
Qed.

Lemma gdt_range s : paging_ok s PML4_KERNEL -> 128 <= free_pages s -> exists s',
  map_memory_range s KERNEL_PID (PAGE_FRAME_ALLOCATOR_END + 1) (PAGE_FRAME_ALLOCATOR_END + PROC_SLOT_SIZE) 0 = Some s' /\
  paging_ok s' PML4_KERNEL /\ (forall L, 0 <= L -> edits PML4_KERNEL L 35 s s') /\
  (forall o, 0 <= o < PROC_SLOT_SIZE -> translate (pm s') PML4_KERNEL (PAGE_FRAME_ALLOCATOR_END + 1 + o) = Some o) /\
  (forall va, low va -> va < 0xB00000 \/ 0xB20000 <= va -> translate (pm s') PML4_KERNEL va = translate (pm s) PML4_KERNEL va) /\
  interrupts_ready s' = true /\ intr_flag s' = true.
Proof.
  intros P F. destruct proc_ranges as (_ & -> & _ & -> & _). destruct PAGE_MAP_FLAGS_ok as [F1 F2].
  assert (St : aalign_down (11534335 + 1) PAGE_SIZE = 0xB00000) by by vm_compute.
  assert (En : aalign (11534335 + 131072) PAGE_SIZE = 0xB20000) by by vm_compute.
  destruct (map_memory_range_spec s PML4_KERNEL KERNEL_PID (11534335 + 1) (11534335 + 131072) 0 PAGE_MAP_FLAGS 1) as (s' & E & P' & _ & _ & T & O);
    [exact P|done|lia|lia|lia|lia|exact F1|exact F2|rewrite St, En; change (4 * ((0xB20000 - 0xB00000) / PAGE_SIZE)) with 128; lia|rewrite En; right; lia|].
  rewrite St, En in T, O. exists s'. split; [exact E|]. split; [exact P'|]. split; [|split; [|split; [exact O|]]].
  - intros L HL. pose proof (map_memory_range_edits s PML4_KERNEL L KERNEL_PID (11534335 + 1) (11534335 + 131072) 0 PAGE_MAP_FLAGS 1 1 s') as D.
    rewrite St, En in D. change (1 * ((0xB20000 - 0xB00000) / 4096) + 3 * (0xB20000 / 2 ^ 21 - 0xB00000 / 2 ^ 21 + 1)) with 35 in D.
    change (4 * ((0xB20000 - 0xB00000) / PAGE_SIZE)) with 128 in D. apply D; try done; by left.
  - intros o Ho. rewrite T by (unfold low; lia). change (aalign_down 0 PAGE_SIZE) with 0. f_equal. lia.
  - unfold map_memory_range_with_flags in E. rewrite St, En in E. change (aalign_down 0 PAGE_SIZE) with 0 in E.
    change (Z.to_nat _) with (S 31) in E. apply (map_range_ready 31 s PML4_KERNEL KERNEL_PID 0xB00000 0 PAGE_MAP_FLAGS 1); (done || lia).
Qed.

(** What init_kernel_process leaves to the rest of the kernel. *)
Record kernel_started (s s' : mach) : Prop := KernelStarted {
  ks_ok : kernel_ok s';
  ks_free : 2 ^ 17 <= free_pages s' /\ 2048 <= free_below PROC_FRAMES s';
  ks_kernel : forall va, kernel_range va -> translate (pm s') (cr3 s') va = Some va;
  ks_heap_range : forall va, KERNEL_HEAP_START <= va < KERNEL_HEAP_START + HEAP_SIZE -> translate (pm s') (cr3 s') va = Some va;
  ks_heap : heap_ok KERNEL_HEAP_START (pm s') [] [] (KERNEL_HEAP_START + 64);
  ks_heap_frames : forall f, HEAP_FRAME <= f < HEAP_FRAME + 0x400 -> used s' f;
  ks_tables : forall f, is_table s' PML4_KERNEL f -> f < HEAP_FRAME;
  ks_gdt : forall o, 0 <= o < PROC_SLOT_SIZE -> translate (pm s') (cr3 s') (PAGE_FRAME_ALLOCATOR_END + 1 + o) = Some o;
  ks_image : forall b, 0 <= b < PAGE_FRAME_ALLOCATOR_END -> b / 4096 <> BOOT_FRAME -> b / 4096 <> BOOT_FRAME2 ->
    mread (pm s') b = mread (pm s) b;
  ks_interrupts : interrupts_ready s' = true /\ intr_flag s' = true;
  ks_clean : forall pid b, (allocate_page s' pid).2 / 4096 = b / 4096 ->
    0xB00000 <= b < KERNEL_HEAP_START /\ mread (pm s') b = mread (pm s) b;
}.

Lemma first_free s pid : kernel_ok s -> (forall f, 0 <= f < FIRST_FREE -> used s f) -> 1 <= free_below HEAP_FRAME s -> 1 <= free_pages s ->
  exists j, (allocate_page s pid).2 / 4096 = j /\ FIRST_FREE <= j < HEAP_FRAME /\ ~ used s j.
Proof.
  intros Hk Hu F1 F2. destruct (allocate_page_spec s pid _ (ko_paging s Hk)) as [(j & Hj & Hf & Hm & E)|[Hz _]]; [|lia].
  exists j. rewrite E. cbn [snd]. rewrite Z.div_mul by lia. split; [done|]. assert (Nu : ~ used s j) by (intros Huj; by apply Huj).
  split; [|done]. split.
  - destruct (Z.lt_ge_cases j FIRST_FREE) as [Hlt|]; [|done]. exfalso. apply Nu, Hu. lia.
  - destruct (nfree_pos _ _ _ F1) as (x & Hx & Ex). destruct (Z.lt_ge_cases x j); [exfalso; apply (Hm x); [lia|done]|].
    unfold HEAP_FRAME in *. lia.
Qed.

Lemma init_kernel_process_spec s junk g : boot_state s ->
  exists s', init_kernel_process s junk g = Some (s', init_kpcb KERNEL_HEAP_START, u64 (PAGE_FRAME_ALLOCATOR_END + 1 + g)) /\ kernel_started s s'.
Proof.
  intros Hs. destruct (init_kernel_paging_spec s MEMORY_SIZE_PAGES Hs) as (s1 & E1 & A); [by vm_compute|].
  pose proof (kp_free _ _ _ A) as Af. change MEMORY_SIZE_PAGES with (2 ^ 20) in Af. unfold FIRST_FREE in Af.
  pose proof (Af HEAP_FRAME ltac:(by vm_compute)) as Ah. pose proof (Af PROC_FRAMES ltac:(by vm_compute)) as Ap.
  assert (An : 2 ^ 20 - 2840 <= free_pages s1) by (unfold free_pages; rewrite (kp_num _ _ _ A); exact (Af (2 ^ 20) ltac:(by vm_compute))).
  unfold HEAP_FRAME at 1 in Ah. unfold PROC_FRAMES at 1 in Ap.
  assert (T1 : forall f, is_table s1 PML4_KERNEL f -> f < HEAP_FRAME).
  { intros f Hf. change K_FRAME with 0xd00 in *. destruct (kp_tables _ _ _ A f Hf) as [->|]; [by vm_compute|]. change K_FRAME with 0xd00 in *. unfold HEAP_FRAME. lia. }
  destruct (init_heap_mapped_spec s1 junk (kp_ok _ _ _ A) T1) as (s2 & E2 & B); [lia|lia|lia|].
  pose proof (hs_free _ _ B HEAP_FRAME ltac:(done)) as Bh. pose proof (hs_free _ _ B PROC_FRAMES ltac:(done)) as Bp.
  assert (Bn : free_pages s1 - 1037 <= free_pages s2).
  { unfold free_pages. rewrite (hs_num _ _ B). apply (hs_free _ _ B). rewrite (kp_num _ _ _ A). by vm_compute. }
  destruct (gdt_range s2) as (s3 & E3 & P3 & D3 & G3 & O3 & R3); [apply B|lia|].
  assert (K3 : kernel_ok s3).
  { apply (kernel_edits s2 s3 35); [apply B|exact P3|by apply D3|lia|]. apply O3; [unfold low, PML4_KERNEL; lia|unfold PML4_KERNEL; lia]. }
  assert (Bn3 : free_pages s2 - 35 <= free_pages s3).
  { apply free_pages_below, D3. rewrite (hs_num _ _ B), (kp_num _ _ _ A). by vm_compute. }
  pose proof (ed_below _ _ _ _ _ (D3 HEAP_FRAME ltac:(done))) as Ch. pose proof (ed_below _ _ _ _ _ (D3 PROC_FRAMES ltac:(done))) as Cp.
  destruct (hs_fill _ _ B BOOT_FRAME BOOT_FRAME2 FIRST_FREE) as [U1 U2];
    [by vm_compute|by vm_compute|exact (kp_used _ _ _ A)|by apply (kp_no_table _ _ _ A)|by apply (kp_no_table _ _ _ A)|].
  assert (U3 : forall f, 0 <= f < FIRST_FREE -> used s3 f).
  { intros f Hf. apply (ed_mono _ _ _ _ _ (D3 0 ltac:(done))). destruct (Z.eq_dec f BOOT_FRAME) as [->|]; [done|].
    destruct (Z.eq_dec f BOOT_FRAME2) as [->|]; [done|]. by apply (hs_used _ _ B), (kp_used _ _ _ A). }
  assert (T3 : forall f, is_table s3 PML4_KERNEL f -> f < HEAP_FRAME).
  { intros f Hf. destruct (ed_low _ _ _ _ _ (D3 HEAP_FRAME ltac:(done)) ltac:(unfold HEAP_FRAME in *; lia) f Hf) as [Ho|]; [by apply (hs_tables _ _ B)|done]. }
  exists s3. split.
  { unfold init_kernel_process. rewrite E1, bind_some. cbv beta. change (KERNEL_HEAP_SIZE_PAGES * PAGE_SIZE) with HEAP_SIZE.
    rewrite E2, bind_some. cbv beta iota zeta. rewrite E3, bind_some. reflexivity. }
  split; rewrite ?(ko_cr3 s3 K3).
  - exact K3.
  - lia.
  - intros va Hva. pose proof (kernel_range_low va Hva) as Hl. rewrite O3 by (done || (unfold kernel_range, PML4_KERNEL in Hva; lia)).
    apply (hs_keep _ _ B); [done|]. by apply (kp_identity _ _ _ A).
  - intros va Hva. pose proof Hva as Hr. change HEAP_SIZE with 0x400000 in Hr. change KERNEL_HEAP_START with 0x2000000 in Hr.
    rewrite O3 by (unfold low; lia). by apply (hs_in _ _ B).
  - apply (heap_empty_ext _ (pm s2)); [apply B|]. intros b Hb. apply (ed_same _ _ _ _ _ (D3 HEAP_FRAME ltac:(done))). intros Ht%T3.
    change KERNEL_HEAP_START with 0x2000000 in Hb. unfold HEAP_FRAME in *. zlia.
  - intros f Hf. by apply (ed_mono _ _ _ _ _ (D3 0 ltac:(done))), (hs_marked _ _ B).
  - exact T3.
  - exact G3.
  - intros b Hb N1 N2. assert (Hf : 0 <= b / 4096 < FIRST_FREE) by (unfold FIRST_FREE; change PAGE_FRAME_ALLOCATOR_END with 11534335 in Hb; zlia).
    assert (Un1 : used s1 (b / 4096)) by by apply (kp_used _ _ _ A).
    assert (Nt1 : ~ is_table s1 PML4_KERNEL (b / 4096)) by (intros Ht; destruct (kp_tables _ _ _ A _ Ht) as [E|]; [rewrite E in Hf; by destruct Hf|lia]).
    assert (Nt2 : ~ is_table s2 PML4_KERNEL (b / 4096)) by (intros Ht; by destruct (hs_new _ _ B _ Ht)).
    rewrite (ed_frame _ _ _ _ _ (D3 0 ltac:(done))) by (done || by apply (hs_used _ _ B)).
    rewrite (hs_same _ _ B) by (done || (change KERNEL_HEAP_START with 0x2000000; change PAGE_FRAME_ALLOCATOR_END with 11534335 in Hb; lia)).
    apply (kp_same _ _ _ A); [done|]. intros Hs'. apply N1. unfold BOOT_FRAME, PML4_BOOT in *. zlia.
  - exact R3.
  - intros pid b Hb. destruct (first_free s3 pid K3 U3) as (j & Ej & Hj & Nj); [lia|lia|]. rewrite Ej in Hb. subst j.
    unfold FIRST_FREE, HEAP_FRAME in Hj. change KERNEL_HEAP_START with 0x2000000. split; [zlia|].
    assert (Nt3 : ~ is_table s3 PML4_KERNEL (b / 4096)) by (intros Ht; by apply Nj, kernel_used).
    assert (Nt2 : ~ is_table s2 PML4_KERNEL (b / 4096)) by (intros Ht; apply Nt3, (is_table_kept s2); [apply (ed_kept _ _ _ _ _ (D3 0 ltac:(done)))|done]).
    rewrite (ed_same _ _ _ _ _ (D3 0 ltac:(done))) by done.
    rewrite (hs_same _ _ B) by (done || (change KERNEL_HEAP_START with 0x2000000; zlia)).
    apply (kp_same _ _ _ A); [intros Ht; by apply Nt2, (hs_kept _ _ B)|]. unfold PML4_BOOT. zlia.
Qed.

(** ** Theorems *)

(** C3: init_kernel_process brings the kernel up: on the identity map of 1 GiB
    pages that init_paging leaves, with an allocator that has not run, no access
    faults, and the processor is left on the kernel's own PML4 with every
    invariant of its tables, frames enough for exec, low memory, the image, the
    allocator's array and the heap at their own addresses, an empty well-formed
    heap, and the bootloader's GDT at the address that lgdt gets.  The image
    keeps its bytes, and the next page the allocator hands out still holds what
    it held at boot.  Interrupts are on, although kmain has not enabled them. *)
Theorem init_kernel_process_starts s junk g : boot_state s -> 0 <= g < PROC_SLOT_SIZE ->
  exists s' kpcb g', init_kernel_process s junk g = Some (s', kpcb, g') /\ kernel_started s s' /\
    pml4 kpcb = cr3 s' /\ heap kpcb = KERNEL_HEAP_START /\ pid kpcb = KERNEL_PID /\ translate (pm s') (cr3 s') g' = Some g.
Proof.
  intros Hs Hg. destruct (init_kernel_process_spec s junk g Hs) as (s' & E & K). eexists s', _, _. split; [exact E|]. split; [exact K|].
  split; [by rewrite (ko_cr3 s' (ks_ok _ _ K))|]. split; [done|]. split; [done|]. rewrite u64_small; [by apply (ks_gdt _ _ K)|].
  change PAGE_FRAME_ALLOCATOR_END with 11534335. change PROC_SLOT_SIZE with 131072 in Hg. lia.
Qed.

(** ** Witnesses *)

Definition empty_machine : mach := Mach ∅ 0 (Allocator ∅ 0 0) 0 false false.

Lemma boot_witness : boot_state (init_paging empty_machine).
Proof. destruct (init_paging_tables empty_machine) as [H1 H2]. split; [exact H2|exact H1|reflexivity]. Qed.

Lemma init_paging_clear b : PDPT_BOOT + 4 * 4096 <= b -> mread (pm (init_paging empty_machine)) b = 0.
Proof.
  unfold init_paging, PML4_BOOT, PDPT_BOOT. cbn [pm cli set_pm set_pml4_address empty_machine]. intros Hb.
  rewrite !mread_store_out by (simpl; lia). rewrite memset_out, mread_store_out, memset_out by (simpl; lia). reflexivity.
Qed.

Lemma init_kernel_process_starts_witness : exists s' kpcb g',
  init_kernel_process (init_paging empty_machine) 0 0x7C00 = Some (s', kpcb, g') /\ kernel_ok s' /\ translate (pm s') (cr3 s') g' = Some 0x7C00.
Proof.
  destruct (init_kernel_process_starts (init_paging empty_machine) 0 0x7C00 boot_witness) as (s' & kpcb & g' & E & K & _ & _ & _ & T);
    [split; [lia|reflexivity]|].
  exists s', kpcb, g'. exact (conj E (conj (ks_ok _ _ K) T)).
Defined.
