(* ===== verification/DiskAhci.v ===== *)
(** * DiskAhci: kernel/driver/disk.c on the controller

    read_disk and write_disk as they run: the drive is looked up, the temporary
    buffer comes from the kernel's heap (Heap), its pages are made uncacheable
    and cacheable again through the page tables (Paging), the controller moves
    the sectors (Ahci) and the bytes asked for are copied to the caller.  All of
    it happens in one physical memory.  The theorem says that this implements
    the read_disk of Disk, on which the file system is built. *)

From S2P Require Import Prelude Mem Heap CStdlib Paging Frames Process Disk Device Pci Ahci Exec KernelInit.

Strategy 1000 [memset store translate map_page].

(** ** Definitions *)

Fixpoint find_drive_loop (head : list sata_disk) (id : Z) (device : option sata_disk) : option sata_disk :=
  match head with
  | [] => device
  | d :: head => if sata_id d =? id then Some d else find_drive_loop head id (Some d)
  end.

Definition find_drive (l : list sata_disk) (id : Z) : option sata_disk := find_drive_loop l id None.

Definition enumerate_disks (fuel : nat) (list_pci_devices : list PCIDevice) : ahci unit :=
  setup_ahci_controllers fuel KERNEL_PID list_pci_devices.

(** malloc and free of the kernel's heap. *)
Definition kmalloc (fuel : nat) (size : Z) : ahci Z := fun _ s =>
  '(m, p) ← malloc fuel KERNEL_HEAP_START (ram s) size; Some (p, set_ram s m).
Definition kfree (fuel : nat) (ptr : Z) : ahci unit := fun _ s =>
  m ← free fuel KERNEL_HEAP_START (ram s) ptr; Some (tt, set_ram s m).

(** The pages of the buffer, mapped again with other flags. *)
Definition map_buffer (buf n flags : Z) : ahci unit := fun _ s =>
  k ← map_memory_range_with_flags (km s) KERNEL_PID buf (u64 (buf + n - 1)) buf flags 1; Some (tt, set_km s (flush_tlb k)).

(** The drives are all of the type AHCI_SATA. *)
Definition read_disk_ahci (fuel : nat) (id offset size buffer : Z) : ahci unit :=
  l ← get drives;
  match find_drive l id with
  | None => ahci_fail
  | Some disk =>
      let offset_sectors := offset / SECTOR_SIZE in
      let size_sectors := u64 (size + SECTOR_SIZE - 1) / SECTOR_SIZE in
      let n := u64 (size_sectors * SECTOR_SIZE) in
      buffer_temp ← kmalloc fuel n;
      _ ← map_buffer buffer_temp n (Z.lor PAGE_MAP_FLAGS PAGE_UNCACHEABLE);
      _ ← read_ahci fuel (sata_port disk) offset_sectors (u32 size_sectors) buffer_temp;
      _ ← map_buffer buffer_temp n PAGE_MAP_FLAGS;
      _ ← modify (fun s => set_ram s (memcpy (ram s) buffer (u64 (buffer_temp + offset mod SECTOR_SIZE)) size));
      kfree fuel buffer_temp
  end.

Definition write_disk_ahci (fuel : nat) (id offset size buffer : Z) : ahci unit :=
  l ← get drives;
  match find_drive l id with
  | None => ahci_fail
  | Some disk =>
      let offset_sectors := offset / SECTOR_SIZE in
      let size_sectors := u64 (size + SECTOR_SIZE - 1) / SECTOR_SIZE in
      let n := u64 (size_sectors * SECTOR_SIZE) in
      buffer_temp ← kmalloc fuel n;
      _ ← map_buffer buffer_temp n (Z.lor PAGE_MAP_FLAGS PAGE_UNCACHEABLE);
      _ ← read_ahci fuel (sata_port disk) offset_sectors (u32 size_sectors) buffer_temp;
      _ ← modify (fun s => set_ram s (memcpy (ram s) (u64 (buffer_temp + (offset_sectors * 512 - offset))) buffer size));
      _ ← write_ahci fuel (sata_port disk) offset_sectors (u32 size_sectors) buffer_temp;
      _ ← map_buffer buffer_temp n PAGE_MAP_FLAGS;
      kfree fuel buffer_temp
  end.

(** ** The machine between two accesses

    The kernel's tables, its heap pages mapped to themselves and marked, frames
    for the check of the mapping, and the command list and table of the port in
    hardware memory. *)

Definition command_table (clb : Z) (k : mach) : Z := ld64 (pm k) (clb + 8).

Record dma_ok (clb : Z) (k : mach) : Prop := DmaOk {
  dm_kernel : kernel_ok k;
  dm_free : 68 <= free_pages k;
  dm_tables : forall f, is_table k PML4_KERNEL f -> f < HEAP_FRAME;
  dm_used : forall f, HEAP_FRAME <= f < HEAP_FRAME + 0x400 -> used k f;
  dm_heap : forall va, KERNEL_HEAP_START <= va < KERNEL_HEAP_START + HEAP_SIZE -> translate (pm k) PML4_KERNEL va = Some va;
  dm_clb : HARDWARE_MEM_START <= clb < 2 ^ 47;
  dm_tbl : HARDWARE_MEM_START <= command_table clb k;
  dm_apart : clb + 32 <= command_table clb k \/ command_table clb k + 256 <= clb;
}.

(** Memory that holds no table may change. *)
Lemma kernel_memory s m : kernel_ok s -> (forall b, is_table s PML4_KERNEL (b / 4096) -> mread m b = mread (pm s) b) ->
  kernel_ok (set_pm s m) /\ same_tree (pm s) m PML4_KERNEL.
Proof.
  intros Hk H. pose proof (ko_paging s Hk) as P. pose proof kernel_root as R.
  assert (S : same_tree (pm s) m PML4_KERNEL).
  { apply tree_bytes; [exact R|]. intros q t b Hq Ht Eb. apply H. by exists q, t. }
  assert (Hr : ld64 m (PML4_KERNEL + 8 * 511) = ld64 (pm s) (PML4_KERNEL + 8 * 511)).
  { apply load_ext. intros b Hb. apply H. exists [], PML4_KERNEL. split; [exact tpath_nil|]. split; [reflexivity|].
    unfold PML4_KERNEL in *. simpl in Hb. zlia. }
  split; [|exact S]. apply kernel_same; [exact Hk| |exact S].
  apply (paging_ok_same s); [exact P| |reflexivity|reflexivity|by intros|exact S].
  pose proof (po_rec s _ P) as Hrec. unfold rec_ok in *. cbn [pm cr3 set_pm]. rewrite (ko_cr3 s Hk), (frame_root PML4_KERNEL R) in *.
  by rewrite !Hr.
Qed.

Section Dma.
Context (clb : Z).

Lemma dma_memory k m : dma_ok clb k -> (forall b, is_table k PML4_KERNEL (b / 4096) -> mread m b = mread (pm k) b) ->
  (forall b, clb + 8 <= b < clb + 16 -> mread m b = mread (pm k) b) -> dma_ok clb (set_pm k m).
Proof.
  intros [] H Hc. destruct (kernel_memory k m dm_kernel0 H) as [K S].
  assert (T : command_table clb (set_pm k m) = command_table clb k) by (apply load_ext; intros b Hb; apply Hc; simpl in Hb; lia).
  split; rewrite ?T; try assumption.
  - intros f Hf. apply dm_tables0. by apply (is_table_same k (set_pm k m)).
  - intros va Hva. cbn [pm set_pm]. rewrite (translate_same (pm k) m); [by apply dm_heap0|apply kernel_root| |apply dm_kernel0|exact S].
    change KERNEL_HEAP_START with 0x2000000 in Hva. change HEAP_SIZE with 0x400000 in Hva. unfold low. lia.
Qed.

(** Stores to the heap. *)
Lemma dma_heap k m : dma_ok clb k ->
  (forall b, b < KERNEL_HEAP_START \/ KERNEL_HEAP_START + HEAP_SIZE <= b -> mread m b = mread (pm k) b) -> dma_ok clb (set_pm k m).
Proof.
  intros D H. pose proof (dm_clb _ _ D) as Hc. change HARDWARE_MEM_START with 0x2400000 in Hc.
  change KERNEL_HEAP_START with 0x2000000 in H. change HEAP_SIZE with 0x400000 in H. apply dma_memory; [exact D| |intros b Hb; apply H; lia].
  intros b Hb%(dm_tables _ _ D). apply H. unfold HEAP_FRAME in Hb. zlia.
Qed.

(** The buffer's pages are mapped again: only entries of tables change. *)
Lemma dma_remap k buf n flags : dma_ok clb k -> KERNEL_HEAP_START <= buf -> 1 <= n <= 65536 -> buf + n <= KERNEL_HEAP_START + HEAP_SIZE ->
  0 <= flags < 4096 -> Z.odd flags = true ->
  exists k', map_memory_range_with_flags k KERNEL_PID buf (buf + n - 1) buf flags 1 = Some k' /\ dma_ok clb k' /\
    (forall b, HEAP_FRAME <= b / 4096 -> mread (pm k') b = mread (pm k) b).
Proof.
  intros D Hb Hn He Hf Hodd. pose proof (ko_paging _ (dm_kernel _ _ D)) as P.
  change KERNEL_HEAP_START with 0x2000000 in *. change HEAP_SIZE with 0x400000 in *.
  destruct (range_count buf (buf + n - 1)) as (C1 & C2 & C3 & C4 & C5 & C6); [lia|lia|lia|].
  pose proof (dm_free _ _ D) as Hfree.
  destruct (map_memory_range_spec k PML4_KERNEL KERNEL_PID buf (buf + n - 1) buf flags 1) as (k' & E & P' & Cr & _ & T & O);
    [exact P|done|lia|lia|lia|lia|exact Hf|exact Hodd|zlia|right; unfold PAGE_SIZE in *; zlia|].
  unfold PAGE_SIZE in *. set (st := aalign_down buf 4096) in *. set (en := aalign (buf + n - 1) 4096) in *.
  assert (Hst : 0x2000000 <= st) by zlia. assert (Hen : en <= 0x2400000) by zlia.
  assert (Hk : 4096 * Z.of_nat (Z.to_nat ((en - st) / 4096)) = en - st) by zlia.
  assert (Ed : forall L, 0 <= L -> edits PML4_KERNEL L 0 k k').
  { intros L HL. unfold map_memory_range_with_flags, PAGE_SIZE in E. fold st en in E.
    eapply (map_range_mapped (Z.to_nat ((en - st) / 4096)) k PML4_KERNEL L KERNEL_PID st st flags 1); try done; try lia.
    intros i Hi. split; [|apply (dm_used _ _ D); unfold HEAP_FRAME; zlia].
    eapply (translate_table (pm k) (st + 4096 * i)); [apply P|unfold low; lia|]. apply (dm_heap _ _ D).
    change KERNEL_HEAP_START with 0x2000000. change HEAP_SIZE with 0x400000. lia. }
  assert (Tb : forall f, is_table k' PML4_KERNEL f -> is_table k PML4_KERNEL f).
  { intros f Hf'. destruct (ed_low _ _ _ _ _ (Ed 0 ltac:(done)) ltac:(apply nfree_nonneg) f Hf') as [|Hneg]; [done|].
    destruct Hf' as (p & t & _ & Ht & <-). destruct (tbl_aligned _ _ _ _ kernel_root Ht). zlia. }
  assert (M : forall b, HEAP_FRAME <= b / 4096 -> mread (pm k') b = mread (pm k) b).
  { intros b Hb'. apply (ed_same _ _ _ _ _ (Ed 0 ltac:(done))). intros Ht%Tb%(dm_tables _ _ D). lia. }
  assert (Tc : command_table clb k' = command_table clb k).
  { apply load_ext. intros b Hb'. apply M. pose proof (dm_clb _ _ D) as Hc. change HARDWARE_MEM_START with 0x2400000 in Hc. unfold HEAP_FRAME. zlia. }
  assert (Keep : forall va, low va -> translate (pm k) PML4_KERNEL va = Some va -> translate (pm k') PML4_KERNEL va = Some va).
  { intros va Hl Hva. destruct (Z.lt_ge_cases va st); [rewrite O by (done || lia); done|].
    destruct (Z.lt_ge_cases va en); [|rewrite O by (done || lia); done]. rewrite T by (done || lia). f_equal. fold st. lia. }
  exists k'. split; [exact E|]. split; [|exact M]. split; rewrite ?Tc; try apply D.
  - apply (kernel_edits k k' 0); [apply D|exact P'|by apply Ed|apply nfree_nonneg|]. rewrite (ko_self k (dm_kernel _ _ D)).
    apply Keep; [unfold low, PML4_KERNEL; lia|apply D].
  - pose proof (po_pages k _ P) as [Hp _]. pose proof (free_pages_below k k' 0 (Ed _ Hp)). lia.
  - intros f Hf'%Tb. by apply (dm_tables _ _ D).
  - intros f Hf'. apply (ed_mono _ _ _ _ _ (Ed 0 ltac:(done))). by apply (dm_used _ _ D).
  - intros va Hva. apply Keep; [|by apply (dm_heap _ _ D)].
    change KERNEL_HEAP_START with 0x2000000 in Hva. change HEAP_SIZE with 0x400000 in Hva. unfold low. lia.
Qed.

End Dma.

(** ** Steps *)

(** A machine on which the drive at [port] can be read. *)
Record ready (port clb : Z) (lat : nat) (s : hst) : Prop := Ready {
  rd_dma : dma_ok clb (km s);
  rd_idle : idle port clb lat s;
  rd_slots : 1 <= cmdslots s;
}.

Definition heap_end : Z := KERNEL_HEAP_START + HEAP_SIZE.

Section Steps.
Context (e : env) (port clb : Z) (lat : nat).

Lemma ready_ram s m : ready port clb lat s -> (forall b, b < KERNEL_HEAP_START \/ heap_end <= b -> mread m b = mread (ram s) b) ->
  ready port clb lat (set_ram s m).
Proof. intros [D I C] H. split; [by apply dma_heap|by apply (idle_same _ _ _ s)|exact C]. Qed.

Lemma kmalloc_ready fuel n s al fr hend h p :
  ready port clb lat s -> heap_ok KERNEL_HEAP_START (ram s) al fr hend -> abs_malloc (abs_heap al fr hend) n = (h, p) ->
  0 <= n <= 65536 -> fit_at_head n fr -> (length fr <= fuel)%nat -> ab_end h <= heap_end -> hend <= heap_end ->
  exists s', arun (kmalloc fuel n) e s = Some (p, s') /\ ready port clb lat s' /\ drives s' = drives s /\
    heap_ok KERNEL_HEAP_START (ram s') (ab_alloc h) (ab_free h) (ab_end h) /\
    (forall x b, x ∈ al -> x.1 + 32 <= b < x.1 + x.2 -> mread (ram s') b = mread (ram s) b).
Proof.
  intros R H Eh Hn Hfit Hf He He0. change heap_end with 0x2400000 in *.
  pose proof (malloc_refines_abs fuel KERNEL_HEAP_START (ram s) al fr hend n H) as M. rewrite Eh in M.
  destruct M as (m' & E & P1 & _ & P3 & P4); [unfold request_ok; lia|done|done|].
  exists (set_ram s m'). split; [unfold arun, kmalloc; by rewrite E|]. split; [|done].
  apply ready_ram; [exact R|]. intros b Hb. apply P4. change heap_end with 0x2400000 in Hb. lia.
Qed.

Lemma kfree_ready fuel s al fr hend a sz :
  ready port clb lat s -> heap_ok KERNEL_HEAP_START (ram s) ((a, sz) :: al) fr hend -> (length al < fuel)%nat -> hend <= heap_end ->
  exists s', arun (kfree fuel (a + 32)) e s = Some (tt, s') /\ ready port clb lat s' /\ drives s' = drives s /\
    heap_ok KERNEL_HEAP_START (ram s') al ((a, sz) :: fr) hend /\
    (forall x b, x ∈ al -> x.1 + 32 <= b < x.1 + x.2 -> mread (ram s') b = mread (ram s) b).
Proof.
  intros R H Hf He. destruct (free_refines_abs fuel KERNEL_HEAP_START (ram s) _ fr hend (a + 32) H) as (m' & E & P); [simpl; lia|].
  cbn [first_such fst] in P. unfold sizeof_malloc_chunk in P. rewrite Z.eqb_refl in P. unfold free_post, free_post_st in P.
  rewrite abs_free_head in P. cbn [ab_alloc ab_free ab_end] in P. destruct P as (P1 & _ & P3 & P4).
  exists (set_ram s m'). split; [unfold arun, kfree; by rewrite E|]. split; [apply ready_ram; [exact R|intros b Hb; apply P4; lia]|].
  split; [done|]. split; [exact P1|]. intros x b Hx Hb. apply (P3 x b); [by right| |exact Hb]. intros ->.
  pose proof (ho_apart _ _ _ _ _ _ H) as [Hap _]. rewrite list.Forall_forall in Hap. specialize (Hap (a, sz) ltac:(apply elem_of_app; by left)).
  pose proof (ho_in _ _ _ _ _ _ H) as [Hi _]%list.Forall_cons. heap_unfold. lia.
Qed.

Lemma map_buffer_ready buf n flags s : ready port clb lat s -> KERNEL_HEAP_START <= buf -> 1 <= n <= 65536 -> buf + n <= heap_end ->
  0 <= flags < 4096 -> Z.odd flags = true ->
  exists s', arun (map_buffer buf n flags) e s = Some (tt, s') /\ ready port clb lat s' /\ drives s' = drives s /\
    (forall b, KERNEL_HEAP_START <= b -> mread (ram s') b = mread (ram s) b).
Proof.
  intros [D I C] Hb Hn He Hf Hodd. change heap_end with 0x2400000 in He.
  destruct (dma_remap clb (km s) buf n flags D Hb Hn He Hf Hodd) as (k' & E & D' & M). change KERNEL_HEAP_START with 0x2000000 in Hb.
  exists (set_km s (flush_tlb k')). split; [unfold arun, map_buffer; rewrite u64_small by lia; by rewrite E|]. rewrite flush_tlb_id.
  split; [split; [exact D'|by apply (idle_same _ _ _ s)|exact C]|]. split; [done|]. intros b Hb'. apply M. change KERNEL_HEAP_START with 0x2000000 in Hb'. unfold HEAP_FRAME. zlia.
Qed.

Lemma read_ahci_ready dr fuel start count buf s : sata_port_ok e port dr lat -> (lat < IDENTIFY_TIMEOUT)%nat ->
  ready port clb lat s -> 0 <= start < 2 ^ 48 -> 1 <= count <= 128 -> KERNEL_HEAP_START <= buf -> buf + 512 * count <= heap_end ->
  exists s', arun (read_ahci fuel port start count buf) e s = Some (true, s') /\ ready port clb lat s' /\ drives s' = drives s /\
    (forall j, 0 <= j < 512 * count -> mread (ram s') (buf + j) = u8 (sectors dr (512 * start + j))) /\
    (forall b, b < heap_end -> b < buf \/ buf + 512 * count <= b -> mread (ram s') b = mread (ram s) b).
Proof.
  intros Hsp Hlat [D I C] Hst Hc Hb He. change heap_end with 0x2400000 in *.
  pose proof (dm_clb _ _ D) as H1. pose proof (dm_tbl _ _ D) as H2. pose proof (dm_apart _ _ D) as H3. unfold command_table in H2, H3.
  change (ld64 (pm (km s)) (clb + 8)) with (ld64 (ram s) (clb + 8)) in H2, H3.
  change HARDWARE_MEM_START with 0x2400000 in H1, H2. pose proof Hb as Hb'. change KERNEL_HEAP_START with 0x2000000 in Hb'.
  destruct (read_ahci_spec e port clb dr lat fuel start count buf s) as (s' & E & I' & K & R1 & R2);
    try assumption; try lia.
  exists s'. split; [exact E|]. split; [|split; [apply K|split; [exact R1|intros b Hb1 Hb2; apply R2; lia]]].
  split; [|exact I'|by rewrite (k_slots _ _ _ K)]. rewrite (k_km _ _ _ K). apply dma_memory; [exact D| |].
  - intros b Ht%(dm_tables _ _ D). unfold HEAP_FRAME in Ht. apply R2; zlia.
  - intros b Hb1. apply R2; lia.
Qed.

Lemma write_ahci_ready dr fuel start count buf s : sata_port_ok e port dr lat -> (lat < IDENTIFY_TIMEOUT)%nat ->
  ready port clb lat s -> 0 <= start < 2 ^ 48 -> 1 <= count <= 128 -> KERNEL_HEAP_START <= buf -> buf + 512 * count <= heap_end ->
  exists s' segs, arun (write_ahci fuel port start count buf) e s = Some (true, s') /\ ready port clb lat s' /\ drives s' = drives s /\
    command_at (ram s') clb true ATA_CMD_WRITE_DMA_EX start count segs /\
    gather (ram s') segs = mbytes (ram s) buf (Z.to_nat (512 * count)) /\
    (forall b, b < heap_end -> mread (ram s') b = mread (ram s) b).
Proof.
  intros Hsp Hlat [D I C] Hst Hc Hb He. change heap_end with 0x2400000 in *.
  pose proof (dm_clb _ _ D) as H1. pose proof (dm_tbl _ _ D) as H2. pose proof (dm_apart _ _ D) as H3. unfold command_table in H2, H3.
  change (ld64 (pm (km s)) (clb + 8)) with (ld64 (ram s) (clb + 8)) in H2, H3.
  change HARDWARE_MEM_START with 0x2400000 in H1, H2. pose proof Hb as Hb'. change KERNEL_HEAP_START with 0x2000000 in Hb'.
  destruct (write_ahci_spec e port clb dr lat fuel start count buf s) as (s' & segs & E & I' & K & R1 & R2 & R3);
    try assumption; try lia.
  exists s', segs. split; [exact E|]. split; [|split; [apply K|split; [exact R1|split; [exact R2|intros b Hb1; apply R3; lia]]]].
  split; [|exact I'|by rewrite (k_slots _ _ _ K)]. rewrite (k_km _ _ _ K). apply dma_memory; [exact D| |].
  - intros b Ht%(dm_tables _ _ D). unfold HEAP_FRAME in Ht. apply R3; zlia.
  - intros b Hb1. apply R3; lia.
Qed.

(** The sectors in the buffer, whose pages are uncacheable. *)
Lemma load_buffer dr fuel start count buf s (rest : ahci unit) : sata_port_ok e port dr lat -> (lat < IDENTIFY_TIMEOUT)%nat ->
  ready port clb lat s -> 0 <= start < 2 ^ 48 -> 1 <= count <= 128 -> KERNEL_HEAP_START <= buf -> buf + 512 * count <= heap_end ->
  exists s', arun (_ ← map_buffer buf (512 * count) (Z.lor PAGE_MAP_FLAGS PAGE_UNCACHEABLE); _ ← read_ahci fuel port start count buf; rest) e s =
      arun rest e s' /\
    ready port clb lat s' /\ drives s' = drives s /\
    (forall j, 0 <= j < 512 * count -> mread (ram s') (buf + j) = u8 (sectors dr (512 * start + j))) /\
    (forall b, KERNEL_HEAP_START <= b < heap_end -> b < buf \/ buf + 512 * count <= b -> mread (ram s') b = mread (ram s) b).
Proof.
  intros Hsp Hlat R Hst Hc Hb He.
  destruct (map_buffer_ready buf (512 * count) (Z.lor PAGE_MAP_FLAGS PAGE_UNCACHEABLE) s R Hb) as (s1 & E1 & R1 & D1 & M1);
    [lia|done|by vm_compute|done|].
  destruct (read_ahci_ready dr fuel start count buf s1 Hsp Hlat R1 Hst Hc Hb He) as (s2 & E2 & R2 & D2 & B2 & M2).
  exists s2. split; [|split; [exact R2|split; [by rewrite D2, D1|split; [exact B2|]]]].
  - rewrite arun_bind, E1. cbn [mbind option_bind]. by rewrite arun_bind, E2.
  - intros b Hb1 Hb2. rewrite M2, M1 by (done || lia). done.
Qed.

(** The sectors of the buffer are written, and the buffer is given back. *)
Lemma put_buffer dr fuel start count s al fr hend a sz : sata_port_ok e port dr lat -> (lat < IDENTIFY_TIMEOUT)%nat ->
  ready port clb lat s -> heap_ok KERNEL_HEAP_START (ram s) ((a, sz) :: al) fr hend -> hend <= heap_end -> (length al < fuel)%nat ->
  0 <= start < 2 ^ 48 -> 1 <= count <= 128 -> 512 * count + 32 <= sz ->
  exists s1 segs s', arun (write_ahci fuel port start count (a + 32)) e s = Some (true, s1) /\
    arun (_ ← write_ahci fuel port start count (a + 32); _ ← map_buffer (a + 32) (512 * count) PAGE_MAP_FLAGS; kfree fuel (a + 32)) e s = Some (tt, s') /\
    command_at (ram s1) clb true ATA_CMD_WRITE_DMA_EX start count segs /\
    gather (ram s1) segs = mbytes (ram s) (a + 32) (Z.to_nat (512 * count)) /\
    ready port clb lat s' /\ drives s' = drives s /\ heap_ok KERNEL_HEAP_START (ram s') al ((a, sz) :: fr) hend /\
    (forall x b, x ∈ al -> x.1 + 32 <= b < x.1 + x.2 -> mread (ram s') b = mread (ram s) b).
Proof.
  intros Hsp Hlat R H He Hf Hst Hc Hsz. pose proof (ho_in _ _ _ _ _ _ H) as [Hi _]%list.Forall_cons. unfold in_heap, sizeof_malloc_state in Hi. cbn [fst snd] in Hi.
  destruct (write_ahci_ready dr fuel start count (a + 32) s Hsp Hlat R Hst Hc) as (s1 & segs & E1 & R1 & D1 & C1 & G1 & M1); [lia|lia|].
  destruct (map_buffer_ready (a + 32) (512 * count) PAGE_MAP_FLAGS s1 R1) as (s2 & E2 & R2 & D2 & M2); [lia|lia|lia|apply PAGE_MAP_FLAGS_ok..|].
  assert (M : forall b, KERNEL_HEAP_START <= b < heap_end -> mread (ram s2) b = mread (ram s) b) by (intros b Hb; by rewrite M2, M1 by lia).
  assert (H2 : heap_ok KERNEL_HEAP_START (ram s2) ((a, sz) :: al) fr hend).
  { apply (heap_block_write _ (ram s) _ _ _ _ a sz H); [by left|]. intros b Hb _. apply M. lia. }
  destruct (kfree_ready fuel s2 al fr hend a sz R2 H2 Hf He) as (s3 & E3 & R3 & D3 & H3 & K3).
  exists s1, segs, s3. split; [exact E1|]. split; [|split; [exact C1|split; [exact G1|split; [exact R3|split; [by rewrite D3, D2, D1|split; [exact H3|]]]]]].
  - rewrite arun_bind, E1. cbn [mbind option_bind]. rewrite arun_bind, E2. exact E3.
  - intros x b Hx Hb. rewrite (K3 x) by done. apply M.
    pose proof (ho_in _ _ _ _ _ _ H) as [_ Hi2]%list.Forall_cons. rewrite list.Forall_forall in Hi2.
    specialize (Hi2 x ltac:(apply elem_of_app; by left)). unfold in_heap, sizeof_malloc_state in Hi2. lia.
Qed.

(** The same as [load_buffer], and the pages are cacheable again. *)
Lemma fill_buffer dr fuel start count buf s (rest : ahci unit) : sata_port_ok e port dr lat -> (lat < IDENTIFY_TIMEOUT)%nat ->
  ready port clb lat s -> 0 <= start < 2 ^ 48 -> 1 <= count <= 128 -> KERNEL_HEAP_START <= buf -> buf + 512 * count <= heap_end ->
  exists s', arun (_ ← map_buffer buf (512 * count) (Z.lor PAGE_MAP_FLAGS PAGE_UNCACHEABLE); _ ← read_ahci fuel port start count buf;
      _ ← map_buffer buf (512 * count) PAGE_MAP_FLAGS; rest) e s = arun rest e s' /\
    ready port clb lat s' /\ drives s' = drives s /\
    (forall j, 0 <= j < 512 * count -> mread (ram s') (buf + j) = u8 (sectors dr (512 * start + j))) /\
    (forall b, KERNEL_HEAP_START <= b < heap_end -> b < buf \/ buf + 512 * count <= b -> mread (ram s') b = mread (ram s) b).
Proof.
  intros Hsp Hlat R Hst Hc Hb He.
  destruct (load_buffer dr fuel start count buf s (_ ← map_buffer buf (512 * count) PAGE_MAP_FLAGS; rest) Hsp Hlat R Hst Hc Hb He)
    as (s2 & E2 & R2 & D2 & B2 & M2).
  destruct (map_buffer_ready buf (512 * count) PAGE_MAP_FLAGS s2 R2 Hb) as (s3 & E3 & R3 & D3 & M3); [lia|done|apply PAGE_MAP_FLAGS_ok..|].
  exists s3. split; [|split; [exact R3|split; [by rewrite D3, D2|split]]].
  - rewrite E2, arun_bind, E3. reflexivity.
  - intros j Hj. rewrite M3 by lia. by apply B2.
  - intros b Hb1 Hb2. rewrite M3, M2 by (done || lia). done.
Qed.

End Steps.

(** ** The abstract disk *)

(** A drive with its medium, as Disk has it. *)
Definition drive_view (med : sata_disk -> mem) (d : sata_disk) : disk := Disk (sata_id d) AHCI_SATA (sata_size d) (med d).

Lemma find_drive_view med l id : find_disk (map (drive_view med) l) id = drive_view med <$> find_drive l id.
Proof.
  unfold find_disk, find_drive. change (@None disk) with (drive_view med <$> @None sata_disk). generalize (@None sata_disk).
  induction l as [|d l IH]; intros o; [done|]. cbn [map find_disk_loop find_drive_loop]. change (disk_id (drive_view med d)) with (sata_id d).
  destruct (sata_id d =? id); [done|]. by rewrite <- IH.
Qed.

(** The first block of a heap and another one. *)
Lemma first_block base m a sz al fr hend x : heap_ok base m ((a, sz) :: al) fr hend -> x ∈ al ->
  (base + 64 <= a /\ 64 <= sz /\ a + sz <= hend) /\ (base + 64 <= x.1 /\ 64 <= x.2 /\ x.1 + x.2 <= hend) /\ (a + sz <= x.1 \/ x.1 + x.2 <= a).
Proof.
  intros H Hx. pose proof (ho_in _ _ _ _ _ _ H) as [Hi1 Hi2]%list.Forall_cons. pose proof (ho_apart _ _ _ _ _ _ H) as [Ha _].
  rewrite list.Forall_forall in Hi2, Ha. specialize (Hi2 x ltac:(apply elem_of_app; by left)). specialize (Ha x ltac:(apply elem_of_app; by left)).
  heap_unfold. split_and!; lia.
Qed.

(** A buffer that holds the right bytes. *)
Lemma mbytes_disk m (f : Z -> Z) buffer size : 0 <= size -> (forall j, 0 <= j < size -> mread m (buffer + j) = f j) ->
  mbytes m buffer (Z.to_nat size) = map f (indices size).
Proof.
  intros Hs H. apply list_eq. intros i. destruct (Nat.lt_ge_cases i (Z.to_nat size)) as [Hi|Hi].
  - rewrite lookup_mbytes by done. rewrite list_lookup_fmap, indices_lookup by done. simpl. f_equal. apply H. lia.
  - rewrite !lookup_ge_None_2; [done| |by rewrite length_mbytes].
    rewrite length_map. pose proof (indices_length size Hs). unfold zlen in *. lia.
Qed.

(** The sectors with the caller's bytes in front. *)
Lemma sector_image d offset size c m ms p buffer : offset mod 512 = 0 -> 0 <= size -> 0 <= c ->
  (forall j, 0 <= j < size -> mread m (p + j) = mread ms (buffer + j)) ->
  (forall j, size <= j < 512 * c -> mread m (p + j) = mread (medium d) (offset / 512 * 512 + j)) ->
  mbytes m p (Z.to_nat (512 * c)) = map (write_temp d (offset / 512) offset (mbytes ms buffer (Z.to_nat size))) (indices (512 * c)).
Proof.
  intros Hmod Hs Hc H1 H2. apply mbytes_disk; [lia|]. intros j Hj. unfold write_temp, zlen, SECTOR_SIZE. rewrite length_mbytes, Z2Nat.id by lia.
  replace (j - (offset / 512 * 512 - offset)) with j by zlia.
  destruct (Z.leb_spec 0 j), (Z.ltb_spec j size); try lia; cbn [andb]; [|apply H2; lia].
  rewrite H1 by lia. symmetry. apply nthZ_lookup; [lia|]. rewrite lookup_mbytes by lia. do 2 f_equal. lia.
Qed.

(** ** Theorems *)

(** C14: read_disk, run on the machine, is the read_disk of Disk: for a drive
    behind a controller that executes its commands within the timeout, a well-
    formed heap and a destination inside a block of the heap, a request of 1 to
    65536 bytes below 2^56 that ends within the sectors computed from its size
    (offset mod 512 + size is at most the size rounded up to sectors; else the
    copy takes bytes from behind the temporary buffer: [Disk.read_disk_overrun])
    ends with the bytes of the medium at the destination. The temporary buffer
    must fit below the end of the mapped heap, and the first free chunk large
    enough for it, if there is one, must be the head of the bin: a buffer reused
    from further back would be freed with a stale back pointer, which destroys
    the heap ([Heap.free_refines]). The temporary buffer is then back in the
    heap, every other byte of the allocated blocks is as before, the heap's
    pages are still mapped to themselves and the tables satisfy their
    invariants, and the port is ready for the next request. *)
Theorem read_disk_ahci_refines e clb lat fuel id offset size buffer med ident d s al fr hend x slack :
  find_drive (drives s) id = Some d -> sata_port_ok e (sata_port d) (Drive (mread (med d)) ident) lat -> (lat < IDENTIFY_TIMEOUT)%nat ->
  ready (sata_port d) clb lat s -> heap_ok KERNEL_HEAP_START (ram s) al fr hend -> hend <= heap_end ->
  1 <= size <= 65536 -> 0 <= offset < 2 ^ 56 ->
  let n := UPPER_DIVIDE size 512 * 512 in offset mod 512 + size <= n ->
  fit_at_head n fr -> (length fr <= fuel)%nat -> (length al < fuel)%nat ->
  let '(h, p) := abs_malloc (abs_heap al fr hend) n in ab_end h <= heap_end ->
  x ∈ al -> x.1 + 32 <= buffer -> buffer + size <= x.1 + x.2 ->
  exists s', arun (read_disk_ahci fuel id offset size buffer) e s = Some (tt, s') /\
    Disk.read_disk (map (drive_view med) (drives s)) slack id offset size = Some (mbytes (ram s') buffer (Z.to_nat size)) /\
    heap_ok KERNEL_HEAP_START (ram s') al (ab_free (abs_free h p)) (ab_end h) /\
    (forall y b, y ∈ al -> y.1 + 32 <= b < y.1 + y.2 -> b < buffer \/ buffer + size <= b -> mread (ram s') b = mread (ram s) b) /\
    ready (sata_port d) clb lat s' /\ drives s' = drives s.
Proof.
  intros Hd Hsp Hlat R H He Hs Ho n Hfit Hh Hf1 Hf2.
  pose proof (upper_divide_bound size 512 ltac:(lia) ltac:(lia)) as Hn. set (c := UPPER_DIVIDE size 512) in *.
  destruct (abs_malloc_block al fr hend n) as (a & sz & fr' & hend' & Eh & Hsz); [lia|lia|]. rewrite Eh. cbn [ab_end]. intros He' Hx Hb1 Hb2.
  change (HeapAbs ((a, sz) :: al) fr' hend') with (abs_heap ((a, sz) :: al) fr' hend') at 1. rewrite abs_free_head. cbn [ab_free]. pose proof (ho_end _ _ _ _ _ _ H) as Hbase.
  destruct (kmalloc_ready e (sata_port d) clb lat fuel n s al fr hend _ _ R H Eh) as (s1 & E1 & R1 & D1 & H1 & K1); try done; [lia|].
  cbn [ab_alloc ab_free ab_end] in H1.
  destruct (first_block _ _ _ _ _ _ _ x H1 Hx) as (I1 & I2 & I3).
  set (rest := _ ← modify (fun s => set_ram s (memcpy (ram s) buffer (u64 (a + 32 + offset mod 512)) size)); kfree fuel (a + 32)).
  destruct (fill_buffer e (sata_port d) clb lat (Drive (mread (med d)) ident) fuel (offset / 512) c (a + 32) s1 rest Hsp Hlat R1)
    as (s2 & E2 & R2 & D2 & B2 & M2); [zlia|lia|lia|lia|].
  pose proof (Z.mod_pos_bound offset 512 ltac:(lia)) as Hmod.
  assert (H2 : heap_ok KERNEL_HEAP_START (ram s2) ((a, sz) :: al) fr' hend').
  { apply (heap_block_write _ (ram s1) _ _ _ _ a sz H1); [by left|]. intros b Hb Hb'. apply M2; lia. }
  set (s3 := set_ram s2 (memcpy (ram s2) buffer (a + 32 + offset mod 512) size)).
  assert (H3 : heap_ok KERNEL_HEAP_START (ram s3) ((a, sz) :: al) fr' hend').
  { destruct x as [xa xs]. cbn [fst snd] in *. apply (heap_block_write _ (ram s2) _ _ _ _ xa xs H2); [right; apply elem_of_app; by left|].
    intros b Hb Hb'. apply memcpy_out. lia. }
  assert (R3 : ready (sata_port d) clb lat s3) by (apply ready_ram; [exact R2|]; intros b Hb; apply memcpy_out; lia).
  destruct (kfree_ready e (sata_port d) clb lat fuel s3 al fr' hend' a sz R3 H3 Hf2 He') as (s4 & E4 & R4 & D4 & H4 & K4).
  assert (Hread : forall j, 0 <= j < size -> mread (ram s4) (buffer + j) = mread (med d) (offset + j)).
  { intros j Hj. rewrite (K4 x) by (done || lia). change (ram s3) with (memcpy (ram s2) buffer (a + 32 + offset mod 512) size).
    rewrite memcpy_in by lia. replace (a + 32 + offset mod 512 + j) with (a + 32 + (offset mod 512 + j)) by lia.
    rewrite B2 by lia. rewrite u8_small by apply mread_range. f_equal. zlia. }
  exists s4. split; [|split; [|split; [exact H4|split; [|split; [exact R4|rewrite D4; change (drives s3) with (drives s2); by rewrite D2, D1]]]]].
  - unfold read_disk_ahci, SECTOR_SIZE. rewrite arun_bind, arun_get. cbn [mbind option_bind]. rewrite Hd. cbv zeta.
    assert (u64 (size + 512 - 1) / 512 = c) as -> by (rewrite u64_small by lia; reflexivity).
    rewrite (u64_small (c * 512)), (u32_small c) by lia. fold n. rewrite arun_bind, E1. cbn [mbind option_bind].
    change n with (c * 512). rewrite (Z.mul_comm c 512). fold rest.
    etransitivity; [exact E2|]. subst rest. rewrite arun_bind, arun_modify. cbn [mbind option_bind]. assert (heap_end = 0x2400000 /\ KERNEL_HEAP_START = 0x2000000) as [? ?] by done.
    rewrite u64_small by lia. exact E4.
  - rewrite (read_disk_eq _ slack id offset size (drive_view med d)); [|by rewrite find_drive_view, Hd|lia|lia|exact Hfit].
    f_equal. symmetry. apply mbytes_disk; [lia|]. exact Hread.
  - intros y b Hy Hb Hout. rewrite (K4 y) by done. change (ram s3) with (memcpy (ram s2) buffer (a + 32 + offset mod 512) size).
    rewrite memcpy_out by lia. rewrite <- (K1 y) by done.
    destruct (first_block _ _ _ _ _ _ _ y H1 Hy) as (_ & J2 & J3). apply M2; lia.
Qed.


(** ** Witnesses *)

(** The kernel as init_kernel_process leaves it, a command list and a table at
    the start of hardware memory, and one drive. *)
Definition started_kernel : mach :=
  from_option (fun r => r.1.1) empty_machine (init_kernel_process (init_paging empty_machine) 0 0x7C00).

Definition drive0 : sata_disk := SataDisk 0 65536 0xFEBF0100 0xFEBF0000.
Definition drive0_medium (d : sata_disk) : mem := mputs ∅ 1024 (le_bytes 8 0x1122334455667788).
Definition drive_env : env := Env (fun _ _ _ => 0) (demo_hba 0xFEBF0100 (Drive (mread (drive0_medium drive0)) (fun _ => 0)) 3).
Definition drive_hst : hst := Hst (set_pm started_kernel (st64 (pm started_kernel) 0x2400008 0x2400800)) [Wr (0xFEBF0100 + PORT_CLB) 0x2400000] [] 32 1 [drive0] [].

(** A caller with a block of its own. *)
Definition caller_hst : hst := from_option snd drive_hst (arun (kmalloc 5 2048) drive_env drive_hst).

Lemma drive_port_ok : sata_port_ok drive_env 0xFEBF0100 (Drive (mread (drive0_medium drive0)) (fun _ => 0)) 3.
Proof. apply demo_hba_ok. Qed.

Lemma started_kernel_ok : kernel_started (init_paging empty_machine) started_kernel.
Proof.
  unfold started_kernel. destruct (init_kernel_process_spec (init_paging empty_machine) 0 0x7C00 boot_witness) as (s' & E & K). rewrite E. exact K.
Qed.

(** What kernel_started promises is what a read needs. *)
Lemma started_ready s0 k clb tbl port lat l : kernel_started s0 k -> HARDWARE_MEM_START <= clb < 2 ^ 47 -> HARDWARE_MEM_START <= tbl < 2 ^ 64 ->
  clb + 32 <= tbl \/ tbl + 256 <= clb ->
  let s := Hst (set_pm k (st64 (pm k) (clb + 8) tbl)) [Wr (port + PORT_CLB) clb] [] 32 1 l [] in
  ready port clb lat s /\ heap_ok KERNEL_HEAP_START (ram s) [] [] (KERNEL_HEAP_START + 64).
Proof.
  intros K Hc Ht Ha. set (m := st64 (pm k) (clb + 8) tbl). pose proof (ks_ok _ _ K) as Hk. pose proof (ks_tables _ _ K) as T.
  change HARDWARE_MEM_START with 0x2400000 in *.
  assert (M : forall b, b < 0x2400000 -> mread m b = mread (pm k) b) by (intros b Hb; apply mread_store_out; simpl; lia).
  destruct (kernel_memory k m Hk) as [K' S]. { intros b Hb%T. apply M. unfold HEAP_FRAME in Hb. zlia. }
  assert (C : command_table clb (set_pm k m) = tbl) by (unfold command_table, m; cbn [pm set_pm]; rewrite ld64_st64; apply u64_small; lia).
  cbv zeta. split; [split; [|split; cbn [accesses written polls]|cbn; lia]|].
  2: by rewrite Z.eqb_refl.
  2: { destruct (Z.eqb_spec (port + PORT_CLB) (port + PORT_CI)) as [E|_]; [unfold PORT_CLB, PORT_CI in E; lia|done]. }
  1: split; cbn [km]; rewrite ?C; change HARDWARE_MEM_START with 0x2400000; try assumption; try lia.
  - pose proof (ks_free _ _ K). change (free_pages (set_pm k m)) with (free_pages k). lia.
  - intros f Hf. apply T. by apply (is_table_same k (set_pm k m)).
  - exact (ks_heap_frames _ _ K).
  - intros va Hva. cbn [pm set_pm]. rewrite (translate_same (pm k) m); [|apply kernel_root| |apply Hk|exact S].
    + rewrite <- (ko_cr3 k Hk) at 1. by apply (ks_heap_range _ _ K).
    + change KERNEL_HEAP_START with 0x2000000 in Hva. change HEAP_SIZE with 0x400000 in Hva. unfold low. lia.
  - apply (heap_empty_ext _ (pm k)); [apply K|]. intros b Hb. apply M. change KERNEL_HEAP_START with 0x2000000 in Hb. lia.
Qed.

Lemma caller_ready : ready 0xFEBF0100 0x2400000 3 caller_hst /\ drives caller_hst = [drive0] /\
  heap_ok KERNEL_HEAP_START (ram caller_hst) [(0x2000040, 2080)] [] 0x2000880.
Proof.
  destruct (started_ready _ _ 0x2400000 0x2400800 0xFEBF0100 3 [drive0] started_kernel_ok) as [R H]; [by vm_compute|by vm_compute|by left|].
  destruct (kmalloc_ready drive_env 0xFEBF0100 0x2400000 3 5 2048 drive_hst [] [] (KERNEL_HEAP_START + 64)
    (HeapAbs [(0x2000040, 2080)] [] 0x2000880) 0x2000060 R H) as (s' & E & R' & D & H' & _);
    [by vm_compute|lia|done|simpl; lia|by vm_compute|by vm_compute|].
  unfold caller_hst. rewrite E. exact (conj R' (conj D H')).
Qed.

Lemma read_disk_ahci_refines_witness : exists s',
  arun (read_disk_ahci 5 0 1024 1000 0x2000060) drive_env caller_hst = Some (tt, s') /\
  Disk.read_disk [drive_view drive0_medium drive0] (fun _ => 0) 0 1024 1000 = Some (mbytes (ram s') 0x2000060 1000).
Proof.
  destruct caller_ready as (R & D & H).
  pose proof (read_disk_ahci_refines drive_env 0x2400000 3 5 0 1024 1000 0x2000060 drive0_medium (fun _ => 0) drive0 caller_hst [(0x2000040, 2080)] [] 0x2000880
    (0x2000040, 2080) (fun _ => 0)) as W.
  rewrite D in W. destruct W as (s' & E & B & _); [done|exact drive_port_ok|unfold IDENTIFY_TIMEOUT; lia|exact R|exact H|by vm_compute|lia|lia
    |by vm_compute|done|simpl; lia|simpl; lia|by vm_compute|by left|by vm_compute|by vm_compute|].
  exists s'. exact (conj E B).
Defined.

