(* ===== verification/Boot.v ===== *)
(** * Boot: the last steps of kmain (kernel/kernel.c)

    kmain makes the mount point, mounts the ext2 file system of the first drive
    and executes the user program.  The theorem composes everything between the
    bytes of the drive and the first instruction of the program: ext2, the VFS,
    the descriptors, the ELF loader, the page tables of the kernel and of the
    process.  The device initialisations before it are in their own files; the
    listing of the directory in between only prints. *)

From S2P Require Import Prelude Mem Disk Ext2 Path Vfs Files Elf Paging Frames Process Traps Exec KernelInit.

Definition EXT2_START_OFFSET : Z := 0x400.

(** "/mnt", "/mnt/mount1", "/user_prog", "/mnt/mount1/user_prog" *)
Definition MNT : list Z := [47; 109; 110; 116].
Definition MOUNT1 : list Z := MNT ++ [47; 109; 111; 117; 110; 116; 49].
Definition PROG_FILE : list Z := [47; 117; 115; 101; 114; 95; 112; 114; 111; 103].
Definition USER_PROG : list Z := MOUNT1 ++ PROG_FILE.

(** The directories and the mount; a wrong release of a path has no result. *)
Definition kmain_mount : option vfs :=
  '(v, _) ← released (vfs_mkdir init_vfs MNT []);
  '(v, _) ← released (vfs_mkdir v MOUNT1 []);
  '(v, _) ← released (mount_file_system v MOUNT1 [] 0 EXT2_START_OFFSET FILESYSTEM_TYPE_EXT2);
  Some v.

Section Kmain.
Context (list_drives : list disk) (slack : Z -> Z) (behind : list Z) (fuel : nat).
Context (tail : nat -> list Z) (fresh : Z -> list Z).

(** The mount and exec of the program. *)
Definition kmain_user (k : kstate) (pcb_ptr node_ptr : Z) : option (kstate * list fdp * cpu_state) :=
  v ← kmain_mount;
  @exec (vfs_layer list_drives slack behind fuel v []) tail fresh k init_fdp_arr USER_PROG pcb_ptr node_ptr.

End Kmain.

(** ** Lemmas *)

Definition boot_fs : filesystem_data := FsData 0 EXT2_START_OFFSET FILESYSTEM_TYPE_EXT2.

(** After the mount the path of the program leads into the file system, to
    /user_prog there. *)
Lemma kmain_mount_spec : exists v r nd nm, kmain_mount = Some v /\ vfs_get_node v USER_PROG [] = Some r /\ found_node r = Some nd /\
  Vfs.nodes v !! nd = Some (Node VFS_NODE_TYPE_FILE_SYSTEM nm (Mounted boot_fs)) /\ continues r = true /\ path_searched r = Live /\
  fs_path r = PROG_FILE.
Proof. eexists _, _, _, _. split; [vm_compute; reflexivity|]. split; [vm_compute; reflexivity|]. by split_and!; vm_compute. Qed.

Lemma part_lookup (f : Z -> Z) size off n i : 0 <= off -> 0 <= n -> off + n <= size -> 0 <= i < n ->
  file_part (map f (indices size)) off n !! Z.to_nat i = Some (f (off + i)).
Proof.
  intros Ho Hn Hs Hi. rewrite part_map by lia. rewrite list_lookup_fmap, indices_lookup by lia. cbn. do 2 f_equal. lia.
Qed.

(** The kernel's statics before the first process. *)
Definition first_kernel (s : mach) : kstate := KState s 0 0 ∅ ∅ 0 0 0 0 false false.

Lemma kmain_user_spec l sl behind fuel tail fresh k pcb_ptr node_ptr s_block ino inode d blocks size off sz pidv a :
  ext2_read_super_block l sl boot_fs = Some s_block ->
  ext2_get_inode_number_at_path l sl behind fuel boot_fs s_block PROG_FILE = Some ino -> ino <> 0 ->
  ext2_read_inode_metadata l sl boot_fs s_block ino = Some inode -> Z.land (i_mode inode) EXT2_S_IFMT = EXT2_S_IFREG ->
  inode_file_size inode = size -> 0 <= size < 2 ^ 62 ->
  on_disk l boot_fs s_block d inode blocks ((size - 1) / s_block_get_block_size s_block) ->
  size <= Z.of_nat fuel * s_block_get_block_size s_block -> (1 <= fuel)%nat ->
  loadable (s_block_get_block_size s_block) (map (file_byte boot_fs s_block d blocks) (indices size)) off sz ->
  sz <= 2 ^ 24 - 0x10000 -> tail 0%nat = [] -> (forall n, 0 <= n -> zlen (fresh n) = n) ->
  kernel_ok (km k) -> current_pcb k = 0 -> 2 ^ 17 <= free_pages (km k) -> 2048 <= free_below PROC_FRAMES (km k) ->
  (allocate_pid (process_pid_bitmap k)).2 = pidv -> pidv <> 0 -> (allocate_proc_mem (process_mem_bitmap k)).2 = a -> a <> 0 ->
  clean_page (km k) pidv ->
  exists k' fds' ctx p, kmain_user l sl behind fuel tail fresh k pcb_ptr node_ptr = Some (k', fds', ctx) /\
    current_pcb k' = pcb_ptr /\ pcbs k' !! pcb_ptr = Some p /\ state p = READY /\ ppid p = KERNEL_PID /\
    cr3 (km k') = pml4 p /\ c_rip ctx = USER_LOAD_ADDR /\
    forall i, 0 <= i < sz -> exists pa, translate (pm (km k')) (cr3 (km k')) (c_rip ctx + i) = Some pa /\
      mread (pm (km k')) pa = file_byte boot_fs s_block d blocks (off + i).
Proof.
  intros Hsb Hino N0 Him Hmode Hsz Hb Hod Hfuel Hf1 Hload Hszb Ht Hfresh Hk Hc B1 B2 Hpid Np Hmem Na Hclean.
  destruct kmain_mount_spec as (v & r & nd & nm & Ev & Hr & Hfn & Hn & Hct & Hp & Hfs).
  pose proof (vfs_layer_law l sl behind fuel v [] USER_PROG r nd nm boot_fs s_block ino inode d blocks size Hr Hfn Hn Hct Hp eq_refl Hsb) as Law.
  rewrite Hfs in Law. specialize (Law Hino N0 Him Hmode Hsz Hb Hod Hfuel Hf1).
  destruct (@readelf_spec (vfs_layer l sl behind fuel v []) tail fresh (s_block_get_block_size s_block) USER_PROG _ init_fdp_arr 0 off sz
    Law Hload eq_refl Ht Hfresh) as (fds' & Er & _).
  pose proof Hload as [_ _ _ _ _ _ _ Ho _ Hby Hs1 Hs2 _]. set (c := map _ (indices size)) in *.
  assert (Ho' : 0 <= off) by (rewrite <- Ho; apply (field_range _ 8 8); by apply list.Forall_drop).
  assert (Lc : zlen c = size) by (unfold c, zlen; rewrite length_map; apply indices_length; lia).
  pose proof (zlen_part c off sz Ho' ltac:(lia) Hs2) as Lp.
  destruct (@exec_spec (vfs_layer l sl behind fuel v []) tail fresh k init_fdp_arr USER_PROG pcb_ptr node_ptr fds' (file_part c off sz) pidv a)
    as (k' & ctx & p & E & H1 & H2 & _ & H3 & H4 & H5 & H6 & H7 & _); try done; [by rewrite Lp|by apply list.Forall_take, list.Forall_drop|].
  exists k', fds', ctx, p. split; [unfold kmain_user; by rewrite Ev, bind_some|]. do 6 (split; [done|]).
  intros i Hi. destruct (H7 (Z.to_nat i) (file_byte boot_fs s_block d blocks (off + i))) as (pa & T & M); [apply part_lookup; lia|].
  exists pa. rewrite Z2Nat.id in T by lia. exact (conj T M).
Qed.

(** ** Theorems *)

(** Fact: From the drive to the first instruction: when the ext2 file system of
    drive 0 has a regular file /user_prog with its blocks on the drive, an ELF
    file with a loadable first segment, and the kernel is on its own tables with
    enough free frames, then the mount and exec at the end of kmain return with
    the processor on the tables of the new process and the instruction pointer
    at the load address, where these tables translate every address of the
    segment to the byte that the drive holds for it; the process is the current
    one, READY, and a child of the kernel. *)
Theorem kmain_runs_user_prog l sl behind fuel tail fresh k pcb_ptr node_ptr s_block ino inode d blocks size off sz pidv a :
  ext2_read_super_block l sl boot_fs = Some s_block ->
  ext2_get_inode_number_at_path l sl behind fuel boot_fs s_block PROG_FILE = Some ino -> ino <> 0 ->
  ext2_read_inode_metadata l sl boot_fs s_block ino = Some inode -> Z.land (i_mode inode) EXT2_S_IFMT = EXT2_S_IFREG ->
  inode_file_size inode = size -> 0 <= size < 2 ^ 62 ->
  on_disk l boot_fs s_block d inode blocks ((size - 1) / s_block_get_block_size s_block) ->
  size <= Z.of_nat fuel * s_block_get_block_size s_block -> (1 <= fuel)%nat ->
  loadable (s_block_get_block_size s_block) (map (file_byte boot_fs s_block d blocks) (indices size)) off sz ->
  sz <= 2 ^ 24 - 0x10000 -> tail 0%nat = [] -> (forall n, 0 <= n -> zlen (fresh n) = n) ->
  kernel_ok (km k) -> current_pcb k = 0 -> 2 ^ 17 <= free_pages (km k) -> 2048 <= free_below PROC_FRAMES (km k) ->
  (allocate_pid (process_pid_bitmap k)).2 = pidv -> pidv <> 0 -> (allocate_proc_mem (process_mem_bitmap k)).2 = a -> a <> 0 ->
  clean_page (km k) pidv ->
  exists k' fds' ctx p, kmain_user l sl behind fuel tail fresh k pcb_ptr node_ptr = Some (k', fds', ctx) /\
    current_pcb k' = pcb_ptr /\ pcbs k' !! pcb_ptr = Some p /\ state p = READY /\ ppid p = KERNEL_PID /\
    cr3 (km k') = pml4 p /\ c_rip ctx = USER_LOAD_ADDR /\
    forall i, 0 <= i < sz -> exists pa, translate (pm (km k')) (cr3 (km k')) (c_rip ctx + i) = Some pa /\
      mread (pm (km k')) pa = file_byte boot_fs s_block d blocks (off + i).
Proof. apply kmain_user_spec. Qed.

(** C2: from the bootloader to the first instruction, the devices aside: on the
    bootloader's identity map, init_kernel_process and then the end of kmain
    return, and leave process 2 on its own tables, which translate every address
    of the segment to the byte that the drive holds for it. Nothing is assumed
    of the kernel's tables, heap or frames. Assumed is: the memory from 0xB00000
    to 0x2000000 (where the frame of the process's PML4 comes from) is zero at
    boot, because alloc_proc does not clear that frame (process.c, line 107);
    drive 0 holds an ext2 file system of 1 KiB blocks with a regular file
    /user_prog without holes; its program header and its segment each start on a
    block boundary or lie inside one sector, and the segment has at most 2^24 -
    64 KiB; the memory behind the copy that open makes of the path is zero. The
    initialisations of devices that kmain runs between the two (terminal, PCI,
    disks, clock, network card, system calls) are not part of the statement:
    their effect on memory, heap and frames is left out. *)
Theorem boot_runs_user_prog l sl behind fuel tail fresh s junk g pcb_ptr node_ptr s_block ino inode d blocks size off sz :
  ext2_read_super_block l sl boot_fs = Some s_block ->
  ext2_get_inode_number_at_path l sl behind fuel boot_fs s_block PROG_FILE = Some ino -> ino <> 0 ->
  ext2_read_inode_metadata l sl boot_fs s_block ino = Some inode -> Z.land (i_mode inode) EXT2_S_IFMT = EXT2_S_IFREG ->
  inode_file_size inode = size -> 0 <= size < 2 ^ 62 ->
  on_disk l boot_fs s_block d inode blocks ((size - 1) / s_block_get_block_size s_block) ->
  size <= Z.of_nat fuel * s_block_get_block_size s_block -> (1 <= fuel)%nat ->
  loadable (s_block_get_block_size s_block) (map (file_byte boot_fs s_block d blocks) (indices size)) off sz ->
  sz <= 2 ^ 24 - 0x10000 -> tail 0%nat = [] -> (forall n, 0 <= n -> zlen (fresh n) = n) ->
  boot_state s -> (forall b, 0xB00000 <= b < KERNEL_HEAP_START -> mread (pm s) b = 0) ->
  exists s' kpcb g' k' fds' ctx p, init_kernel_process s junk g = Some (s', kpcb, g') /\
    kmain_user l sl behind fuel tail fresh (first_kernel s') pcb_ptr node_ptr = Some (k', fds', ctx) /\
    current_pcb k' = pcb_ptr /\ pcbs k' !! pcb_ptr = Some p /\ state p = READY /\ ppid p = KERNEL_PID /\
    cr3 (km k') = pml4 p /\ c_rip ctx = USER_LOAD_ADDR /\
    forall i, 0 <= i < sz -> exists pa, translate (pm (km k')) (cr3 (km k')) (c_rip ctx + i) = Some pa /\
      mread (pm (km k')) pa = file_byte boot_fs s_block d blocks (off + i).
Proof.
  intros Hsb Hino N0 Him Hmode Hsz Hb Hod Hfuel Hf1 Hload Hszb Ht Hfresh Hs Hz.
  destruct (init_kernel_process_spec s junk g Hs) as (s' & E & K). destruct (ks_free _ _ K) as [B1 B2].
  assert (Hclean : clean_page (km (first_kernel s')) 2).
  { intros b Hbb. destruct (ks_clean _ _ K 2 b (eq_sym Hbb)) as [Hr Hm].
    change (mread (pm s') b = 0). rewrite Hm. by apply Hz. }
  destruct (kmain_user_spec l sl behind fuel tail fresh (first_kernel s') pcb_ptr node_ptr s_block ino inode d blocks size off sz 2 0x2800000)
    as (k' & fds' & ctx & p & R); try assumption; [exact (ks_ok _ _ K)|reflexivity|by vm_compute|done|by vm_compute|done|].
  eexists s', _, _, k', fds', ctx, p. split; [exact E|exact R].
Qed.

(** ** Witnesses *)

(** A drive with one ext2 file system at 1024 that holds the program of Elf as
    /user_prog. *)
Definition boot_dir : list dirent :=
  [Dirent 2 2 [46] [0; 0; 0]; Dirent 2 2 [46; 46] [0; 0]; Dirent 11 1 [117; 115; 101; 114; 95; 112; 114; 111; 103] (repeat 0 983)].

Definition boot_image : mem :=
  let sb := mputs (mputs (mputs (mputs ∅ 1024 (le_bytes 4 16)) (1024 + 40) (le_bytes 4 16)) (1024 + 56) [0x53; 0xEF]) (1024 + 88) [128; 0] in
  let bg := mputs sb (2048 + 8) (le_bytes 4 3) in
  let root := mputs (mputs bg (3072 + 128 + 4) (le_bytes 4 1024)) (3072 + 128 + 40) (le_bytes 4 5) in
  let file := mputs (mputs (mputs root (3072 + 1280) [0; 0x80]) (3072 + 1280 + 4) (le_bytes 4 123)) (3072 + 1280 + 40) (le_bytes 4 6) in
  mputs (mputs file 5120 (encode_dir boot_dir)) 6144 demo_elf.

Definition boot_disk : disk := Disk 0 AHCI_SATA 65536 boot_image.
Definition boot_sb : ext2_super_block := parse_super_block (mbytes boot_image 1024 104).
Definition boot_inode : ext2_inode := parse_inode (mbytes boot_image 4352 128).

Lemma boot_on_disk : on_disk [boot_disk] boot_fs boot_sb boot_disk boot_inode (fun _ => 6) 0.
Proof.
  constructor; [by constructor; vm_compute|apply words_ok; by vm_compute|].
  intros n Hn. assert (n = 0) as -> by lia. by vm_compute.
Qed.

Lemma boot_loadable : loadable 1024 (map (file_byte boot_fs boot_sb boot_disk (fun _ => 6)) (indices 123)) 120 3.
Proof.
  assert (E : map (file_byte boot_fs boot_sb boot_disk (fun _ => 6)) (indices 123) = demo_elf) by by vm_compute. rewrite E. clear E.
  split; try (by vm_compute); try lia; try (right; by vm_compute). apply List.Forall_forall. intros b Hb. vm_compute in Hb. lia.
Qed.

Lemma kmain_runs_user_prog_witness : exists k' fds' ctx p,
  kmain_user [boot_disk] (fun _ => 99) [] 8 (fun _ => []) (fun n => repeat 0 (Z.to_nat n)) exec_kernel 100 200 = Some (k', fds', ctx) /\
  current_pcb k' = 100 /\ pcbs k' !! 100 = Some p /\ state p = READY /\ ppid p = KERNEL_PID /\
  cr3 (km k') = pml4 p /\ c_rip ctx = USER_LOAD_ADDR /\
  forall i, 0 <= i < 3 -> exists pa, translate (pm (km k')) (cr3 (km k')) (c_rip ctx + i) = Some pa /\
    mread (pm (km k')) pa = file_byte boot_fs boot_sb boot_disk (fun _ => 6) (120 + i).
Proof.
  destruct exec_kernel_ok as [Hk [B1 B2]].
  apply (kmain_runs_user_prog [boot_disk] (fun _ => 99) [] 8 (fun _ => []) (fun n => repeat 0 (Z.to_nat n)) exec_kernel 100 200 boot_sb 11 boot_inode
    boot_disk (fun _ => 6) 123 120 3 2 0x2800000);
    [by vm_compute|by vm_compute|done|by vm_compute|by vm_compute|by vm_compute|lia|exact boot_on_disk|by vm_compute|lia|exact boot_loadable|lia|done
    |intros n Hn; unfold zlen; rewrite repeat_length; lia|exact Hk|reflexivity|exact B1|exact B2|by vm_compute|done|by vm_compute|done|exact exec_clean].
Defined.

Lemma boot_runs_user_prog_witness : exists s' kpcb g' k' fds' ctx p,
  init_kernel_process (init_paging empty_machine) 0 0x7C00 = Some (s', kpcb, g') /\
  kmain_user [boot_disk] (fun _ => 99) [] 8 (fun _ => []) (fun n => repeat 0 (Z.to_nat n)) (first_kernel s') 100 200 = Some (k', fds', ctx) /\
  current_pcb k' = 100 /\ pcbs k' !! 100 = Some p /\ state p = READY /\ ppid p = KERNEL_PID /\
  cr3 (km k') = pml4 p /\ c_rip ctx = USER_LOAD_ADDR /\
  forall i, 0 <= i < 3 -> exists pa, translate (pm (km k')) (cr3 (km k')) (c_rip ctx + i) = Some pa /\
    mread (pm (km k')) pa = file_byte boot_fs boot_sb boot_disk (fun _ => 6) (120 + i).
Proof.
  apply (boot_runs_user_prog [boot_disk] (fun _ => 99) [] 8 (fun _ => []) (fun n => repeat 0 (Z.to_nat n)) (init_paging empty_machine) 0 0x7C00 100 200
    boot_sb 11 boot_inode boot_disk (fun _ => 6) 123 120 3);
    [by vm_compute|by vm_compute|done|by vm_compute|by vm_compute|by vm_compute|lia|exact boot_on_disk|by vm_compute|lia|exact boot_loadable|lia|done
    |intros n Hn; unfold zlen; rewrite repeat_length; lia|exact boot_witness|].
  intros b Hb. change KERNEL_HEAP_START with 0x2000000 in Hb. apply init_paging_clear. unfold PDPT_BOOT. lia.
Defined.
